(** * Quadifier: the Direct3D 9 to OpenGL stereo capture core

    A shallow embedding of [quadifier/win32/module/source/Quadifier.cpp].

    The class [Quadifier] is a record of its member variables.  Its methods
    are computations in a small monad [M] that threads the object, consults
    an environment for the result of every call into Direct3D, OpenGL, Win32
    or the helper classes of the module (GLWindow, Event, Log, Settings), and
    records every such call in a chronological trace.  [exit] ends the
    process: the computation stops with outcome [Exited].

    The two threads of the module (the Direct3D thread of the host
    application and the OpenGL thread started by [startRenderThread]) share
    one [Quadifier] object; a session ([run]) interleaves their handlers as
    whole steps on that object. *)

From Stdlib Require Import ZArith List Bool String Lia.
From Stdlib Require SpecFloat.
From stdpp Require Import base list gmap.
Import ListNotations.

Local Open Scope string_scope.
Local Open Scope Z_scope.
Local Open Scope list_scope.

(** ** Constants of the platform headers *)

Module Const.
(* winerror.h, d3d9.h *)
Definition S_OK : Z := 0.
Definition D3D_OK : Z := 0.
Definition D3DADAPTER_DEFAULT : Z := 0.
Definition D3DFMT_X8R8G8B8 : Z := 22.
Definition D3DFMT_D24S8 : Z := 75.
Definition D3DMULTISAMPLE_NONE : Z := 0.
Definition D3DMULTISAMPLE_2_SAMPLES : Z := 2.
Definition D3DMULTISAMPLE_16_SAMPLES : Z := 16.
(* GL/gl.h, GL/glext.h, wglext.h *)
Definition GL_NONE : Z := 0.
Definition GL_TRUE : Z := 1.
Definition GL_BACK_LEFT : Z := 0x0402.
Definition GL_BACK_RIGHT : Z := 0x0403.
Definition GL_BACK : Z := 0x0405.
Definition GL_LINEAR : Z := 0x2601.
Definition GL_COLOR_BUFFER_BIT : Z := 0x4000.
Definition GL_ENABLE_BIT : Z := 0x2000.
Definition GL_CURRENT_BIT : Z := 0x0001.
Definition GL_TRANSFORM_BIT : Z := 0x1000.
Definition GL_TEXTURE_2D : Z := 0x0DE1.
Definition GL_TEXTURE_2D_MULTISAMPLE : Z := 0x9100.
Definition GL_RENDERBUFFER : Z := 0x8D41.
Definition GL_FRAMEBUFFER : Z := 0x8D40.
Definition GL_READ_FRAMEBUFFER : Z := 0x8CA8.
Definition GL_DRAW_FRAMEBUFFER : Z := 0x8CA9.
Definition GL_COLOR_ATTACHMENT0 : Z := 0x8CE0.
Definition GL_FRAMEBUFFER_COMPLETE : Z := 0x8CD5.
Definition GL_FRAMEBUFFER_INCOMPLETE_MISSING_ATTACHMENT : Z := 0x8CD7.
Definition GL_COMPILE : Z := 0x1300.
Definition GL_QUADS : Z := 0x0007.
Definition GL_COLOR_MATERIAL : Z := 0x0B57.
Definition GL_LIGHTING : Z := 0x0B50.
Definition GL_DEPTH_TEST : Z := 0x0B71.
Definition GL_MODELVIEW : Z := 0x1700.
Definition GL_PROJECTION : Z := 0x1701.
Definition GL_VIEWPORT : Z := 0x0BA2.
Definition GL_MAX_TEXTURE_SIZE : Z := 0x0D33.
Definition GL_VERSION : Z := 0x1F02.
Definition GL_VENDOR : Z := 0x1F00.
Definition GL_RENDERER : Z := 0x1F01.
Definition WGL_ACCESS_READ_ONLY_NV : Z := 0.
Definition WGL_STEREO_ARB : Z := 0x2012.
Definition WGL_DEPTH_BITS_ARB : Z := 0x2022.
Definition WGL_STENCIL_BITS_ARB : Z := 0x2023.
Definition WGL_SAMPLE_BUFFERS_ARB : Z := 0x2041.
Definition WGL_SAMPLES_ARB : Z := 0x2042.
(* winuser.h *)
Definition WM_DESTROY : Z := 0x0002.
Definition WM_SIZE : Z := 0x0005.
Definition WM_PAINT : Z := 0x000F.
Definition WM_CLOSE : Z := 0x0010.
Definition WM_QUIT : Z := 0x0012.
Definition WM_ERASEBKGND : Z := 0x0014.
Definition WM_NCCREATE : Z := 0x0081.
Definition WM_KEYDOWN : Z := 0x0100.
Definition WM_KEYUP : Z := 0x0101.
Definition WM_CHAR : Z := 0x0102.
Definition WM_MOUSEMOVE : Z := 0x0200.
Definition WM_LBUTTONDOWN : Z := 0x0201.
Definition WM_LBUTTONUP : Z := 0x0202.
Definition WM_LBUTTONDBLCLK : Z := 0x0203.
Definition WM_RBUTTONDOWN : Z := 0x0204.
Definition WM_RBUTTONUP : Z := 0x0205.
Definition WM_RBUTTONDBLCLK : Z := 0x0206.
Definition WM_MBUTTONDOWN : Z := 0x0207.
Definition WM_MBUTTONUP : Z := 0x0208.
Definition WM_MBUTTONDBLCLK : Z := 0x0209.
Definition WM_MOUSEWHEEL : Z := 0x020A.
Definition WM_USER : Z := 0x0400.
Definition SW_SHOWNA : Z := 8.
(* time.h *)
Definition CLOCKS_PER_SEC : Z := 1000.
Definition WS_CHILD : Z := 0x40000000.
Definition WS_CLIPSIBLINGS : Z := 0x04000000.
Definition WS_CLIPCHILDREN : Z := 0x02000000.
End Const.
Import Const.

(** user defined message indicating a new DX frame is available *)
Definition WM_USER_NEWFRAME : Z := WM_USER + 1.

(** ** Machine integers

    [unsigned] and [DWORD] are 32 bits wide on the Win32 target; a value of
    such a type is a [Z] and arithmetic on it wraps around explicitly. *)

Definition wrap32 (z : Z) : Z := z mod 2 ^ 32.

(** ** Doubles

    [double] is the binary64 format of IEEE 754: 53 bits of precision, the
    result of an operation rounded to nearest, ties to even. *)

Definition double : Type := SpecFloat.spec_float.

(** [static_cast<double>(z)] *)
Definition double_of_Z (z : Z) : double := SpecFloat.binary_normalize 53 1024 z 0 false.

Definition double_div : double → double → double := SpecFloat.SFdiv 53 1024.
Definition double_sub : double → double → double := SpecFloat.SFsub 53 1024.
Definition double_ltb : double → double → bool := SpecFloat.SFltb.

(** The literals [0.0] and [0.01]; the latter is the double
    0x3F847AE147AE147B, the nearest to one hundredth. *)
Definition double_zero : double := SpecFloat.S754_zero false.
Definition double_hundredth : double := SpecFloat.S754_finite false 5764607523034235 (-59).

(** ** Data model *)

(** [D3DVIEWPORT9].  [MinZ] and [MaxZ] are floats that the module only
    copies; they are carried as their bit patterns. *)
Record D3DVIEWPORT9 : Type := mkViewport {
  X : Z; Y : Z; Width : Z; Height : Z; MinZ : Z; MaxZ : Z
}.

(** The fields of [D3DSURFACE_DESC] that the module reads. *)
Record D3DSURFACE_DESC : Type := mkDesc {
  desc_Format : Z; desc_MultiSampleType : Z; desc_Width : Z; desc_Height : Z
}.

(** [MSG], as far as the message loop and the window procedure use it. *)
Record MSG : Type := mkMSG {
  hwnd : Z; message : Z; wParam : Z; lParam : Z
}.

Record RECT : Type := mkRECT {
  left : Z; top : Z; right : Z; bottom : Z
}.

(** One slot of the pool of shared render targets ([m_target[i]]): the
    Direct3D surface and its share handle, the interop object, the OpenGL
    texture or renderbuffer and framebuffer, and [drawBuffer], the OpenGL
    draw buffer the slot was last labelled with by [endCapture]. *)
Record Target : Type := mkTarget {
  surface : Z; shareHandle : Z; object : Z; texture : Z;
  renderBuffer : Z; frameBuffer : Z; drawBuffer : Z
}.

Definition set_surface (v : Z) (t : Target) : Target :=
  {| surface := v; shareHandle := shareHandle t; object := object t; texture :=
     texture t; renderBuffer := renderBuffer t; frameBuffer := frameBuffer t;
     drawBuffer := drawBuffer t |}.

Definition set_shareHandle (v : Z) (t : Target) : Target :=
  {| surface := surface t; shareHandle := v; object := object t; texture :=
     texture t; renderBuffer := renderBuffer t; frameBuffer := frameBuffer t;
     drawBuffer := drawBuffer t |}.

Definition set_object (v : Z) (t : Target) : Target :=
  {| surface := surface t; shareHandle := shareHandle t; object := v; texture
     := texture t; renderBuffer := renderBuffer t; frameBuffer := frameBuffer
     t; drawBuffer := drawBuffer t |}.

Definition set_texture (v : Z) (t : Target) : Target :=
  {| surface := surface t; shareHandle := shareHandle t; object := object t;
     texture := v; renderBuffer := renderBuffer t; frameBuffer := frameBuffer
     t; drawBuffer := drawBuffer t |}.

Definition set_renderBuffer (v : Z) (t : Target) : Target :=
  {| surface := surface t; shareHandle := shareHandle t; object := object t;
     texture := texture t; renderBuffer := v; frameBuffer := frameBuffer t;
     drawBuffer := drawBuffer t |}.

Definition set_frameBuffer (v : Z) (t : Target) : Target :=
  {| surface := surface t; shareHandle := shareHandle t; object := object t;
     texture := texture t; renderBuffer := renderBuffer t; frameBuffer := v;
     drawBuffer := drawBuffer t |}.

Definition set_drawBuffer (v : Z) (t : Target) : Target :=
  {| surface := surface t; shareHandle := shareHandle t; object := object t;
     texture := texture t; renderBuffer := renderBuffer t; frameBuffer :=
     frameBuffer t; drawBuffer := v |}.
(** Modelled from the spec: the constructor of [Target] is declared in
    Quadifier.h, which is not among the sources.  The spec gives a slot the
    label "none" until it is tagged, and every handle of a slot is tested
    against 0 before it is first used, so a new slot is all zeros
    ([GL_NONE] is 0). *)
Definition Target_new : Target :=
  {| surface := 0; shareHandle := 0; object := 0; texture := 0;
     renderBuffer := 0; frameBuffer := 0; drawBuffer := GL_NONE |}.

Global Instance Target_inhabited : Inhabited Target := populate Target_new.

(** Modelled from the spec: [m_target] is an array whose size is fixed in
    Quadifier.h; the spec gives the pool two slots. *)
Definition poolSize : nat := 2.

(** The member variables of [Quadifier].  [m_window] (a GLWindow) and
    [m_frameDone] (an Event) are objects of classes outside this file; calls
    on them are calls into the environment. *)
Record Quadifier : Type := mkQuadifier {
  m_device : Z;
  m_direct3D : Z;
  m_framesGL : Z;
  m_framesDX : Z;
  m_samplesDX : Z;
  m_samplesGL : Z;
  m_backBuffer : Z;
  m_drawBuffer : nat;
  m_readBuffer : nat;
  m_target : list Target;
  m_presentedTargets : gset Z;
  m_stereoMode : bool;
  m_firstFrameTimeGL : double;
  m_lastFrameTimeGL : double;
  m_quadListGL : Z;
  m_thread : Z;
  m_sourceWindow : Z;
  m_interopGLDX : Z;
  m_width : Z;
  m_height : Z;
  m_initialised : bool;
  m_stereoAvailable : bool
}.

Definition set_m_framesGL (v : Z) (q : Quadifier) : Quadifier :=
  {| m_device := m_device q; m_direct3D := m_direct3D q; m_framesGL := v;
     m_framesDX := m_framesDX q; m_samplesDX := m_samplesDX q; m_samplesGL :=
     m_samplesGL q; m_backBuffer := m_backBuffer q; m_drawBuffer :=
     m_drawBuffer q; m_readBuffer := m_readBuffer q; m_target := m_target q;
     m_presentedTargets := m_presentedTargets q; m_stereoMode := m_stereoMode
     q; m_firstFrameTimeGL := m_firstFrameTimeGL q; m_lastFrameTimeGL :=
     m_lastFrameTimeGL q; m_quadListGL := m_quadListGL q; m_thread := m_thread
     q; m_sourceWindow := m_sourceWindow q; m_interopGLDX := m_interopGLDX q;
     m_width := m_width q; m_height := m_height q; m_initialised :=
     m_initialised q; m_stereoAvailable := m_stereoAvailable q |}.

Definition set_m_framesDX (v : Z) (q : Quadifier) : Quadifier :=
  {| m_device := m_device q; m_direct3D := m_direct3D q; m_framesGL :=
     m_framesGL q; m_framesDX := v; m_samplesDX := m_samplesDX q; m_samplesGL
     := m_samplesGL q; m_backBuffer := m_backBuffer q; m_drawBuffer :=
     m_drawBuffer q; m_readBuffer := m_readBuffer q; m_target := m_target q;
     m_presentedTargets := m_presentedTargets q; m_stereoMode := m_stereoMode
     q; m_firstFrameTimeGL := m_firstFrameTimeGL q; m_lastFrameTimeGL :=
     m_lastFrameTimeGL q; m_quadListGL := m_quadListGL q; m_thread := m_thread
     q; m_sourceWindow := m_sourceWindow q; m_interopGLDX := m_interopGLDX q;
     m_width := m_width q; m_height := m_height q; m_initialised :=
     m_initialised q; m_stereoAvailable := m_stereoAvailable q |}.

Definition set_m_samplesDX (v : Z) (q : Quadifier) : Quadifier :=
  {| m_device := m_device q; m_direct3D := m_direct3D q; m_framesGL :=
     m_framesGL q; m_framesDX := m_framesDX q; m_samplesDX := v; m_samplesGL :=
     m_samplesGL q; m_backBuffer := m_backBuffer q; m_drawBuffer :=
     m_drawBuffer q; m_readBuffer := m_readBuffer q; m_target := m_target q;
     m_presentedTargets := m_presentedTargets q; m_stereoMode := m_stereoMode
     q; m_firstFrameTimeGL := m_firstFrameTimeGL q; m_lastFrameTimeGL :=
     m_lastFrameTimeGL q; m_quadListGL := m_quadListGL q; m_thread := m_thread
     q; m_sourceWindow := m_sourceWindow q; m_interopGLDX := m_interopGLDX q;
     m_width := m_width q; m_height := m_height q; m_initialised :=
     m_initialised q; m_stereoAvailable := m_stereoAvailable q |}.

Definition set_m_samplesGL (v : Z) (q : Quadifier) : Quadifier :=
  {| m_device := m_device q; m_direct3D := m_direct3D q; m_framesGL :=
     m_framesGL q; m_framesDX := m_framesDX q; m_samplesDX := m_samplesDX q;
     m_samplesGL := v; m_backBuffer := m_backBuffer q; m_drawBuffer :=
     m_drawBuffer q; m_readBuffer := m_readBuffer q; m_target := m_target q;
     m_presentedTargets := m_presentedTargets q; m_stereoMode := m_stereoMode
     q; m_firstFrameTimeGL := m_firstFrameTimeGL q; m_lastFrameTimeGL :=
     m_lastFrameTimeGL q; m_quadListGL := m_quadListGL q; m_thread := m_thread
     q; m_sourceWindow := m_sourceWindow q; m_interopGLDX := m_interopGLDX q;
     m_width := m_width q; m_height := m_height q; m_initialised :=
     m_initialised q; m_stereoAvailable := m_stereoAvailable q |}.

Definition set_m_backBuffer (v : Z) (q : Quadifier) : Quadifier :=
  {| m_device := m_device q; m_direct3D := m_direct3D q; m_framesGL :=
     m_framesGL q; m_framesDX := m_framesDX q; m_samplesDX := m_samplesDX q;
     m_samplesGL := m_samplesGL q; m_backBuffer := v; m_drawBuffer :=
     m_drawBuffer q; m_readBuffer := m_readBuffer q; m_target := m_target q;
     m_presentedTargets := m_presentedTargets q; m_stereoMode := m_stereoMode
     q; m_firstFrameTimeGL := m_firstFrameTimeGL q; m_lastFrameTimeGL :=
     m_lastFrameTimeGL q; m_quadListGL := m_quadListGL q; m_thread := m_thread
     q; m_sourceWindow := m_sourceWindow q; m_interopGLDX := m_interopGLDX q;
     m_width := m_width q; m_height := m_height q; m_initialised :=
     m_initialised q; m_stereoAvailable := m_stereoAvailable q |}.

Definition set_m_drawBuffer (v : nat) (q : Quadifier) : Quadifier :=
  {| m_device := m_device q; m_direct3D := m_direct3D q; m_framesGL :=
     m_framesGL q; m_framesDX := m_framesDX q; m_samplesDX := m_samplesDX q;
     m_samplesGL := m_samplesGL q; m_backBuffer := m_backBuffer q; m_drawBuffer
     := v; m_readBuffer := m_readBuffer q; m_target := m_target q;
     m_presentedTargets := m_presentedTargets q; m_stereoMode := m_stereoMode
     q; m_firstFrameTimeGL := m_firstFrameTimeGL q; m_lastFrameTimeGL :=
     m_lastFrameTimeGL q; m_quadListGL := m_quadListGL q; m_thread := m_thread
     q; m_sourceWindow := m_sourceWindow q; m_interopGLDX := m_interopGLDX q;
     m_width := m_width q; m_height := m_height q; m_initialised :=
     m_initialised q; m_stereoAvailable := m_stereoAvailable q |}.

Definition set_m_readBuffer (v : nat) (q : Quadifier) : Quadifier :=
  {| m_device := m_device q; m_direct3D := m_direct3D q; m_framesGL :=
     m_framesGL q; m_framesDX := m_framesDX q; m_samplesDX := m_samplesDX q;
     m_samplesGL := m_samplesGL q; m_backBuffer := m_backBuffer q; m_drawBuffer
     := m_drawBuffer q; m_readBuffer := v; m_target := m_target q;
     m_presentedTargets := m_presentedTargets q; m_stereoMode := m_stereoMode
     q; m_firstFrameTimeGL := m_firstFrameTimeGL q; m_lastFrameTimeGL :=
     m_lastFrameTimeGL q; m_quadListGL := m_quadListGL q; m_thread := m_thread
     q; m_sourceWindow := m_sourceWindow q; m_interopGLDX := m_interopGLDX q;
     m_width := m_width q; m_height := m_height q; m_initialised :=
     m_initialised q; m_stereoAvailable := m_stereoAvailable q |}.

Definition set_m_target (v : list Target) (q : Quadifier) : Quadifier :=
  {| m_device := m_device q; m_direct3D := m_direct3D q; m_framesGL :=
     m_framesGL q; m_framesDX := m_framesDX q; m_samplesDX := m_samplesDX q;
     m_samplesGL := m_samplesGL q; m_backBuffer := m_backBuffer q; m_drawBuffer
     := m_drawBuffer q; m_readBuffer := m_readBuffer q; m_target := v;
     m_presentedTargets := m_presentedTargets q; m_stereoMode := m_stereoMode
     q; m_firstFrameTimeGL := m_firstFrameTimeGL q; m_lastFrameTimeGL :=
     m_lastFrameTimeGL q; m_quadListGL := m_quadListGL q; m_thread := m_thread
     q; m_sourceWindow := m_sourceWindow q; m_interopGLDX := m_interopGLDX q;
     m_width := m_width q; m_height := m_height q; m_initialised :=
     m_initialised q; m_stereoAvailable := m_stereoAvailable q |}.

Definition set_m_presentedTargets (v : gset Z) (q : Quadifier) : Quadifier :=
  {| m_device := m_device q; m_direct3D := m_direct3D q; m_framesGL :=
     m_framesGL q; m_framesDX := m_framesDX q; m_samplesDX := m_samplesDX q;
     m_samplesGL := m_samplesGL q; m_backBuffer := m_backBuffer q; m_drawBuffer
     := m_drawBuffer q; m_readBuffer := m_readBuffer q; m_target := m_target q;
     m_presentedTargets := v; m_stereoMode := m_stereoMode q;
     m_firstFrameTimeGL := m_firstFrameTimeGL q; m_lastFrameTimeGL :=
     m_lastFrameTimeGL q; m_quadListGL := m_quadListGL q; m_thread := m_thread
     q; m_sourceWindow := m_sourceWindow q; m_interopGLDX := m_interopGLDX q;
     m_width := m_width q; m_height := m_height q; m_initialised :=
     m_initialised q; m_stereoAvailable := m_stereoAvailable q |}.

Definition set_m_stereoMode (v : bool) (q : Quadifier) : Quadifier :=
  {| m_device := m_device q; m_direct3D := m_direct3D q; m_framesGL :=
     m_framesGL q; m_framesDX := m_framesDX q; m_samplesDX := m_samplesDX q;
     m_samplesGL := m_samplesGL q; m_backBuffer := m_backBuffer q; m_drawBuffer
     := m_drawBuffer q; m_readBuffer := m_readBuffer q; m_target := m_target q;
     m_presentedTargets := m_presentedTargets q; m_stereoMode := v;
     m_firstFrameTimeGL := m_firstFrameTimeGL q; m_lastFrameTimeGL :=
     m_lastFrameTimeGL q; m_quadListGL := m_quadListGL q; m_thread := m_thread
     q; m_sourceWindow := m_sourceWindow q; m_interopGLDX := m_interopGLDX q;
     m_width := m_width q; m_height := m_height q; m_initialised :=
     m_initialised q; m_stereoAvailable := m_stereoAvailable q |}.

Definition set_m_firstFrameTimeGL (v : double) (q : Quadifier) : Quadifier :=
  {| m_device := m_device q; m_direct3D := m_direct3D q; m_framesGL :=
     m_framesGL q; m_framesDX := m_framesDX q; m_samplesDX := m_samplesDX q;
     m_samplesGL := m_samplesGL q; m_backBuffer := m_backBuffer q; m_drawBuffer
     := m_drawBuffer q; m_readBuffer := m_readBuffer q; m_target := m_target q;
     m_presentedTargets := m_presentedTargets q; m_stereoMode := m_stereoMode
     q; m_firstFrameTimeGL := v; m_lastFrameTimeGL := m_lastFrameTimeGL q;
     m_quadListGL := m_quadListGL q; m_thread := m_thread q; m_sourceWindow :=
     m_sourceWindow q; m_interopGLDX := m_interopGLDX q; m_width := m_width q;
     m_height := m_height q; m_initialised := m_initialised q;
     m_stereoAvailable := m_stereoAvailable q |}.

Definition set_m_lastFrameTimeGL (v : double) (q : Quadifier) : Quadifier :=
  {| m_device := m_device q; m_direct3D := m_direct3D q; m_framesGL :=
     m_framesGL q; m_framesDX := m_framesDX q; m_samplesDX := m_samplesDX q;
     m_samplesGL := m_samplesGL q; m_backBuffer := m_backBuffer q; m_drawBuffer
     := m_drawBuffer q; m_readBuffer := m_readBuffer q; m_target := m_target q;
     m_presentedTargets := m_presentedTargets q; m_stereoMode := m_stereoMode
     q; m_firstFrameTimeGL := m_firstFrameTimeGL q; m_lastFrameTimeGL := v;
     m_quadListGL := m_quadListGL q; m_thread := m_thread q; m_sourceWindow :=
     m_sourceWindow q; m_interopGLDX := m_interopGLDX q; m_width := m_width q;
     m_height := m_height q; m_initialised := m_initialised q;
     m_stereoAvailable := m_stereoAvailable q |}.

Definition set_m_quadListGL (v : Z) (q : Quadifier) : Quadifier :=
  {| m_device := m_device q; m_direct3D := m_direct3D q; m_framesGL :=
     m_framesGL q; m_framesDX := m_framesDX q; m_samplesDX := m_samplesDX q;
     m_samplesGL := m_samplesGL q; m_backBuffer := m_backBuffer q; m_drawBuffer
     := m_drawBuffer q; m_readBuffer := m_readBuffer q; m_target := m_target q;
     m_presentedTargets := m_presentedTargets q; m_stereoMode := m_stereoMode
     q; m_firstFrameTimeGL := m_firstFrameTimeGL q; m_lastFrameTimeGL :=
     m_lastFrameTimeGL q; m_quadListGL := v; m_thread := m_thread q;
     m_sourceWindow := m_sourceWindow q; m_interopGLDX := m_interopGLDX q;
     m_width := m_width q; m_height := m_height q; m_initialised :=
     m_initialised q; m_stereoAvailable := m_stereoAvailable q |}.

Definition set_m_thread (v : Z) (q : Quadifier) : Quadifier :=
  {| m_device := m_device q; m_direct3D := m_direct3D q; m_framesGL :=
     m_framesGL q; m_framesDX := m_framesDX q; m_samplesDX := m_samplesDX q;
     m_samplesGL := m_samplesGL q; m_backBuffer := m_backBuffer q; m_drawBuffer
     := m_drawBuffer q; m_readBuffer := m_readBuffer q; m_target := m_target q;
     m_presentedTargets := m_presentedTargets q; m_stereoMode := m_stereoMode
     q; m_firstFrameTimeGL := m_firstFrameTimeGL q; m_lastFrameTimeGL :=
     m_lastFrameTimeGL q; m_quadListGL := m_quadListGL q; m_thread := v;
     m_sourceWindow := m_sourceWindow q; m_interopGLDX := m_interopGLDX q;
     m_width := m_width q; m_height := m_height q; m_initialised :=
     m_initialised q; m_stereoAvailable := m_stereoAvailable q |}.

Definition set_m_sourceWindow (v : Z) (q : Quadifier) : Quadifier :=
  {| m_device := m_device q; m_direct3D := m_direct3D q; m_framesGL :=
     m_framesGL q; m_framesDX := m_framesDX q; m_samplesDX := m_samplesDX q;
     m_samplesGL := m_samplesGL q; m_backBuffer := m_backBuffer q; m_drawBuffer
     := m_drawBuffer q; m_readBuffer := m_readBuffer q; m_target := m_target q;
     m_presentedTargets := m_presentedTargets q; m_stereoMode := m_stereoMode
     q; m_firstFrameTimeGL := m_firstFrameTimeGL q; m_lastFrameTimeGL :=
     m_lastFrameTimeGL q; m_quadListGL := m_quadListGL q; m_thread := m_thread
     q; m_sourceWindow := v; m_interopGLDX := m_interopGLDX q; m_width :=
     m_width q; m_height := m_height q; m_initialised := m_initialised q;
     m_stereoAvailable := m_stereoAvailable q |}.

Definition set_m_interopGLDX (v : Z) (q : Quadifier) : Quadifier :=
  {| m_device := m_device q; m_direct3D := m_direct3D q; m_framesGL :=
     m_framesGL q; m_framesDX := m_framesDX q; m_samplesDX := m_samplesDX q;
     m_samplesGL := m_samplesGL q; m_backBuffer := m_backBuffer q; m_drawBuffer
     := m_drawBuffer q; m_readBuffer := m_readBuffer q; m_target := m_target q;
     m_presentedTargets := m_presentedTargets q; m_stereoMode := m_stereoMode
     q; m_firstFrameTimeGL := m_firstFrameTimeGL q; m_lastFrameTimeGL :=
     m_lastFrameTimeGL q; m_quadListGL := m_quadListGL q; m_thread := m_thread
     q; m_sourceWindow := m_sourceWindow q; m_interopGLDX := v; m_width :=
     m_width q; m_height := m_height q; m_initialised := m_initialised q;
     m_stereoAvailable := m_stereoAvailable q |}.

Definition set_m_width (v : Z) (q : Quadifier) : Quadifier :=
  {| m_device := m_device q; m_direct3D := m_direct3D q; m_framesGL :=
     m_framesGL q; m_framesDX := m_framesDX q; m_samplesDX := m_samplesDX q;
     m_samplesGL := m_samplesGL q; m_backBuffer := m_backBuffer q; m_drawBuffer
     := m_drawBuffer q; m_readBuffer := m_readBuffer q; m_target := m_target q;
     m_presentedTargets := m_presentedTargets q; m_stereoMode := m_stereoMode
     q; m_firstFrameTimeGL := m_firstFrameTimeGL q; m_lastFrameTimeGL :=
     m_lastFrameTimeGL q; m_quadListGL := m_quadListGL q; m_thread := m_thread
     q; m_sourceWindow := m_sourceWindow q; m_interopGLDX := m_interopGLDX q;
     m_width := v; m_height := m_height q; m_initialised := m_initialised q;
     m_stereoAvailable := m_stereoAvailable q |}.

Definition set_m_height (v : Z) (q : Quadifier) : Quadifier :=
  {| m_device := m_device q; m_direct3D := m_direct3D q; m_framesGL :=
     m_framesGL q; m_framesDX := m_framesDX q; m_samplesDX := m_samplesDX q;
     m_samplesGL := m_samplesGL q; m_backBuffer := m_backBuffer q; m_drawBuffer
     := m_drawBuffer q; m_readBuffer := m_readBuffer q; m_target := m_target q;
     m_presentedTargets := m_presentedTargets q; m_stereoMode := m_stereoMode
     q; m_firstFrameTimeGL := m_firstFrameTimeGL q; m_lastFrameTimeGL :=
     m_lastFrameTimeGL q; m_quadListGL := m_quadListGL q; m_thread := m_thread
     q; m_sourceWindow := m_sourceWindow q; m_interopGLDX := m_interopGLDX q;
     m_width := m_width q; m_height := v; m_initialised := m_initialised q;
     m_stereoAvailable := m_stereoAvailable q |}.

Definition set_m_initialised (v : bool) (q : Quadifier) : Quadifier :=
  {| m_device := m_device q; m_direct3D := m_direct3D q; m_framesGL :=
     m_framesGL q; m_framesDX := m_framesDX q; m_samplesDX := m_samplesDX q;
     m_samplesGL := m_samplesGL q; m_backBuffer := m_backBuffer q; m_drawBuffer
     := m_drawBuffer q; m_readBuffer := m_readBuffer q; m_target := m_target q;
     m_presentedTargets := m_presentedTargets q; m_stereoMode := m_stereoMode
     q; m_firstFrameTimeGL := m_firstFrameTimeGL q; m_lastFrameTimeGL :=
     m_lastFrameTimeGL q; m_quadListGL := m_quadListGL q; m_thread := m_thread
     q; m_sourceWindow := m_sourceWindow q; m_interopGLDX := m_interopGLDX q;
     m_width := m_width q; m_height := m_height q; m_initialised := v;
     m_stereoAvailable := m_stereoAvailable q |}.
(** [m_target[i]]: indexing past the end of the array is undefined in C++;
    here it reads [Target_new] and writes nothing.  Every reachable state
    keeps both cursors below the size of the pool ([wf] below). *)
Definition target (q : Quadifier) (i : nat) : Target := m_target q !!! i.

Definition update_target (i : nat) (f : Target → Target) (q : Quadifier) : Quadifier :=
  set_m_target (alter f i (m_target q)) q.

(** [Settings::get()]: read-only while the module runs. *)
Record Settings : Type := mkSettings {
  useTexture : bool;
  matchOriginalMSAA : bool;
  stereoIndicator : bool;
  logLevel : Z
}.

(** ** Calls into the environment *)

Inductive Call : Type :=
  (* Log *)
  | Log_print (text : string)
  | Log_setLevel (level : Z)
  (* IDirect3DDevice9, IDirect3D9, IDirect3DSurface9 *)
  | GetRenderTarget (index : Z)
  | SetRenderTarget (index surface : Z)
  | GetViewport
  | SetViewport (viewport : D3DVIEWPORT9)
  | GetCreationParameters
  | GetAdapterDisplayMode (adapter : Z)
  | GetDepthStencilSurface
  | CreateRenderTarget (width height format multisample quality lockable : Z)
  | GetDesc (surface : Z)
  | Release (surface : Z)
  (* Win32 and the C runtime *)
  | SendNotifyMessage (hwnd msg wparam lparam : Z)
  | PostMessage (hwnd msg wparam lparam : Z)
  | DefWindowProc (hwnd msg wparam lparam : Z)
  | CallWindowProc (proc hwnd msg wparam lparam : Z)
  | BeginPaint (hwnd : Z)
  | EndPaint (hwnd : Z)
  | GetWindowLongPtr (hwnd : Z) (index : string)
  | SetWindowLongPtr (hwnd : Z) (index : string) (value : Z)
  | GetClientRect (hwnd : Z)
  | SetWindowProc (hwnd : Z) (proc : string)
  | lpCreateParams (createStruct : Z)
  | PeekMessage
  | TranslateMessage (msg : MSG)
  | DispatchMessage (msg : MSG)
  | GetLastError
  | clock
  | beginthreadex (stackSize : Z)
  | endthreadex (code : Z)
  | exit_process (code : Z)
  (* GLWindow *)
  | Window_create (temporary : bool) (width height parent : Z) (attributes : list (Z * Z))
  | Window_destroy (temporary : bool)
  | Window_getSamples (temporary : bool)
  | Window_getPixelFormat
  | Window_getHWND
  | Window_show (cmd : Z)
  | Window_invalidate
  | Window_update
  | Window_swapBuffers
  (* Event m_frameDone *)
  | FrameDone_wait (timeout : Z)
  | FrameDone_signal
  (* StereoUtil, the extension loader and the GL/DX interop *)
  | isOpenGLStereoAvailable
  | glx_load
  | wglDXOpenDeviceNV (device : Z)
  | wglDXSetResourceShareHandleNV_available
  | wglDXSetResourceShareHandleNV (surface shareHandle : Z)
  | wglDXRegisterObjectNV (interop surface name type access : Z)
  | wglDXLockObjectsNV (interop object : Z)
  | wglDXUnlockObjectsNV (interop object : Z)
  (* OpenGL calls with a result the module reads *)
  | glGenTextures
  | glGenRenderbuffers
  | glGenFramebuffers
  | glGenLists (range : Z)
  | glCheckFramebufferStatus (target : Z)
  | glGetIntegerv (pname : Z)
  | glGetString (name : Z)
  | glGetRenderbufferParameteriv (target pname : Z)
  (* OpenGL calls that select where the composite is drawn and draw it *)
  | glDrawBuffer (mode : Z)
  | glBindFramebuffer (target framebuffer : Z)
  | glBlitFramebuffer (srcX0 srcY0 srcX1 srcY1 dstX0 dstY0 dstX1 dstY1 mask filter : Z)
  | glBindTexture (target texture : Z)
  | glCallList (list : Z)
  (* every other OpenGL call: state changes without a result *)
  | GL (name : string) (args : list Z).

Definition Trace : Type := list Call.

(** What a call gives back: its return value and what it stores through
    its out-parameters.  [out_sent] are the messages that the system
    delivers to the window procedure of the thread inside the call, before
    it returns: [PeekMessage] delivers the messages that were sent to the
    window and are not queued, as those of [SendNotifyMessage] from the other
    thread. *)
Record Resp : Type := mkResp {
  result : Z;
  out : Z;
  out2 : Z;
  out_viewport : D3DVIEWPORT9;
  out_desc : D3DSURFACE_DESC;
  out_msg : MSG;
  out_rect : RECT;
  out_sent : list MSG
}.

(** The environment answers a call from the calls made so far, so that the
    same call may succeed at one time and fail at another.  [log_info] and
    [log_verbose] are [Log::info()] and [Log::verbose()]. *)
Record Env : Type := mkEnv {
  respond : Trace → Call → Resp;
  settings : Settings;
  log_info : bool;
  log_verbose : bool
}.

(** ** The monad of the methods *)

Inductive Outcome (A : Type) : Type :=
  | Returned (a : A)
  | Exited (code : Z).
Arguments Returned {A} a.
Arguments Exited {A} code.

Definition M (A : Type) : Type :=
  Env → Quadifier → Trace → Outcome A * Quadifier * Trace.

Global Instance M_ret : MRet M := λ A a _ q t, (Returned a, q, t).

Global Instance M_bind : MBind M := λ A B f m env q t,
  match m env q t with
  | (Returned a, q', t') => f a env q' t'
  | (Exited code, q', t') => (Exited code, q', t')
  end.

Definition get : M Quadifier := λ _ q t, (Returned q, q, t).
Definition modify (f : Quadifier → Quadifier) : M unit := λ _ q t, (Returned tt, f q, t).
Definition ask : M Env := λ env q t, (Returned env, q, t).
Definition call (c : Call) : M Resp := λ env q t, (Returned (respond env t c), q, t ++ [c]).
Definition call_ (c : Call) : M unit := call c ;; mret tt.
Definition when (b : bool) (m : M unit) : M unit := if b then m else mret tt.

(** [exit(code)] *)
Definition exit {A : Type} (code : Z) : M A :=
  λ _ q t, (Exited code, q, t ++ [exit_process code]).

Definition setting {A : Type} (f : Settings → A) : M A := env ← ask; mret (f (settings env)).
Definition Log_info : M bool := env ← ask; mret (log_info env).
Definition Log_verbose : M bool := env ← ask; mret (log_verbose env).
Definition Log (text : string) : M unit := call_ (Log_print text).
Definition info (text : string) : M unit := b ← Log_info; when b (Log text).
Definition verbose (text : string) : M unit := b ← Log_verbose; when b (Log text).

(** Parts of a run. *)
Definition outcome {A : Type} (r : Outcome A * Quadifier * Trace) : Outcome A := r.1.1.
Definition state {A : Type} (r : Outcome A * Quadifier * Trace) : Quadifier := r.1.2.
Definition trace {A : Type} (r : Outcome A * Quadifier * Trace) : Trace := r.2.

(** The calls a computation makes when started with an empty history. *)
Definition calls {A : Type} (m : M A) (env : Env) (q : Quadifier) : Trace := trace (m env q []).

(** ** Capture protocol *)

Definition beginCapture : M unit :=
  verbose "beginCapture" ;;
  (* save the current viewport *)
  r ← call GetViewport;
  let viewport := out_viewport r in
  let savedViewport := result r =? D3D_OK in
  verbose "SetRenderTarget(" ;;
  (* set the render target to the surface *)
  q ← get;
  r ← call (SetRenderTarget 0 (surface (target q (m_drawBuffer q))));
  (if negb (result r =? D3D_OK)
   then Log "Error Setting Render Target" ;; exit 1
   else mret tt) ;;
  (* restore the viewport *)
  when savedViewport (call_ (SetViewport viewport)).

Definition endCapture (drawBuffer : Z) : M unit :=
  verbose "endCapture" ;;
  (* label the buffer with left/right/back as appropriate *)
  modify (λ q, update_target (m_drawBuffer q) (set_drawBuffer drawBuffer) q) ;;
  (* select next draw buffer *)
  modify (λ q, set_m_drawBuffer ((m_drawBuffer q + 1) mod length (m_target q))%nat q) ;;
  (* count DX frames *)
  q ← get;
  when (m_stereoMode q) (modify (λ q, set_m_framesDX (wrap32 (m_framesDX q + 1)) q)).

(** ** Stereo signal *)

Definition onStereoSignal : M unit :=
  verbose "stereo signal" ;;
  (* enable stereo mode and print a message to the log *)
  q ← get;
  when (negb (m_stereoMode q))
    (modify (set_m_stereoMode true) ;; info "Stereo enabled") ;;
  (* end capturing and send the left stereo frame *)
  endCapture GL_BACK_LEFT ;;
  (* begin capturing the right stereo frame *)
  beginCapture.

(** [pViewport] is [None] for a null pointer. *)
Definition onPreSetViewportDX (pViewport : option D3DVIEWPORT9) : M bool :=
  match pViewport with
  | None => mret true
  | Some v =>
      when ((X v =? 1) && (Width v =? 2) && (Height v =? 3)) onStereoSignal ;;
      (* return true to pass on the SetViewport call to Direct3D *)
      mret true
  end.

(** ** Frame handshake, producer side *)

(** [reinterpret_cast<unsigned>(renderTarget)]: the pointer as a 32-bit
    unsigned, used as a hash. *)
Definition pointer_hash (p : Z) : Z := wrap32 p.

Definition onPrePresentDX : M unit :=
  verbose "onPrePresentDX" ;;
  (* get the current render target *)
  r ← call (GetRenderTarget 0);
  when (result r =? S_OK)
    (call_ (Release (out r)) ;;
     (* insert the render target in the set of presented targets *)
     modify (λ q, set_m_presentedTargets ({[ pointer_hash (out r) ]} ∪ m_presentedTargets q) q) ;;
     verbose "Presenting Render Target: ") ;;
  (* send frame to GL display thread: the right eye channel of a stereo
     pair in stereo mode, a 2D frame otherwise *)
  q ← get;
  endCapture (if m_stereoMode q then GL_BACK_RIGHT else GL_BACK) ;;
  (* signal that a new frame has been rendered *)
  verbose "sending new frame notification" ;;
  h ← call Window_getHWND;
  call_ (SendNotifyMessage (result h) WM_USER_NEWFRAME 0 0).

Definition onPostPresentDX : M unit :=
  verbose "onPostPresentDX" ;;
  (* wait until the frame has been rendered out (after a timeout we return
     anyway) *)
  call_ (FrameDone_wait 1000).

(** ** Composite pass, consumer side *)

Definition drawStereoIndicator : M unit :=
  let size := 32 in
  r ← call (glGetIntegerv GL_VIEWPORT);
  let viewport := out_viewport r in
  call_ (GL "glPushAttrib" [Z.lor GL_ENABLE_BIT (Z.lor GL_CURRENT_BIT GL_TRANSFORM_BIT)]) ;;
  call_ (GL "glMatrixMode" [GL_PROJECTION]) ;;
  call_ (GL "glPushMatrix" []) ;;
  call_ (GL "glLoadIdentity" []) ;;
  call_ (GL "glOrtho" [0; Width viewport; 0; Height viewport; -1; 1]) ;;
  call_ (GL "glMatrixMode" [GL_MODELVIEW]) ;;
  call_ (GL "glPushMatrix" []) ;;
  call_ (GL "glLoadIdentity" []) ;;
  call_ (GL "glEnable" [GL_COLOR_MATERIAL]) ;;
  call_ (glDrawBuffer GL_BACK_LEFT) ;;
  call_ (GL "glColor3f" [0; 0; 1]) ;;
  call_ (GL "glRecti" [0; 0; size; size]) ;;
  call_ (glDrawBuffer GL_BACK_RIGHT) ;;
  call_ (GL "glColor3f" [1; 0; 0]) ;;
  call_ (GL "glRecti" [0; 0; size; size]) ;;
  call_ (GL "glPopMatrix" []) ;;
  call_ (GL "glMatrixMode" [GL_PROJECTION]) ;;
  call_ (GL "glPopMatrix" []) ;;
  call_ (GL "glPopAttrib" []).

(** The textured quad, compiled once into the display list [m_quadListGL]. *)
Definition buildQuadList : M unit :=
  r ← call (glGenLists 1);
  modify (set_m_quadListGL (result r)) ;;
  call_ (GL "glNewList" [result r; GL_COMPILE]) ;;
  call_ (GL "glBegin" [GL_QUADS]) ;;
  call_ (GL "glTexCoord2i" [0; 0]) ;; call_ (GL "glVertex3f" [-1; 1; 0]) ;;
  call_ (GL "glTexCoord2i" [1; 0]) ;; call_ (GL "glVertex3f" [1; 1; 0]) ;;
  call_ (GL "glTexCoord2i" [1; 1]) ;; call_ (GL "glVertex3f" [1; -1; 0]) ;;
  call_ (GL "glTexCoord2i" [0; 1]) ;; call_ (GL "glVertex3f" [-1; -1; 0]) ;;
  call_ (GL "glEnd" []) ;;
  call_ (GL "glEndList" []).

(** [(m_target[m_readBuffer].object != 0) && wglDXLockObjectsNV(...) ==
    GL_TRUE]: the lock is not attempted for a slot without interop object. *)
Definition lockTarget : M bool :=
  q ← get;
  let t := target q (m_readBuffer q) in
  if negb (object t =? 0)
  then r ← call (wglDXLockObjectsNV (m_interopGLDX q) (object t));
       mret (result r =? GL_TRUE)
  else mret false.

(** One turn of the loop [for (int eye=0; eye<2; ++eye)] of [onPaint]; the
    result is the label of the slot the turn has read. *)
Definition onPaint_eye (useTexture mustUseBlit : bool) : M Z :=
  (* get the GL draw buffer identifier for the last rendered frame *)
  q ← get;
  let drawBuffer := drawBuffer (target q (m_readBuffer q)) in
  verbose "GL: render" ;;
  call_ (glDrawBuffer drawBuffer) ;;
  (* lock the shared DX/GL render target *)
  locked ← lockTarget;
  (if (locked : bool) then
     q ← get;
     let t := target q (m_readBuffer q) in
     (if negb useTexture || mustUseBlit then
        (* render using framebuffer blitting *)
        call_ (glBindFramebuffer GL_READ_FRAMEBUFFER (frameBuffer t)) ;;
        call_ (glBlitFramebuffer 0 0 (m_width q) (m_height q)
                                 0 (m_height q) (m_width q) 0
                                 GL_COLOR_BUFFER_BIT GL_LINEAR)
      else
        (* render using texture *)
        call_ (glBindTexture GL_TEXTURE_2D (texture t)) ;;
        when (m_quadListGL q =? 0) buildQuadList ;;
        q ← get;
        when (negb (m_quadListGL q =? 0)) (call_ (glCallList (m_quadListGL q)))) ;;
     (* unlock the shared DX/GL target *)
     call_ (wglDXUnlockObjectsNV (m_interopGLDX q) (object t))
   else
     Log "unable to lock DX target on paint") ;;
  (* pick next read buffer *)
  modify (λ q, set_m_readBuffer ((m_readBuffer q + 1) mod length (m_target q))%nat q) ;;
  mret drawBuffer.

(** The loop itself, by the number of turns still allowed: a turn that has
    not read a left eye leaves the loop. *)
Fixpoint onPaint_eyes (turns : nat) (useTexture mustUseBlit : bool) : M unit :=
  match turns with
  | O => mret tt
  | S turns' =>
      drawBuffer ← onPaint_eye useTexture mustUseBlit;
      if negb (drawBuffer =? GL_BACK_LEFT) then mret tt
      else onPaint_eyes turns' useTexture mustUseBlit
  end.

Definition getTime : M double :=
  r ← call clock;
  mret (double_div (double_of_Z (result r)) (double_of_Z CLOCKS_PER_SEC)).

(** The part of [onPaint] before the loop over the eyes. *)
Definition onPaint_begin (useTexture : bool) : M unit :=
  (* draw to default framebuffer *)
  call_ (glBindFramebuffer GL_DRAW_FRAMEBUFFER 0) ;;
  (* save OpenGL state *)
  call_ (GL "glPushAttrib" [Z.lor GL_ENABLE_BIT GL_CURRENT_BIT]) ;;
  (* enable texturing if required *)
  when useTexture
    (call_ (GL "glEnable" [GL_TEXTURE_2D]) ;; call_ (GL "glColor3f" [1; 1; 1])) ;;
  verbose "GL: rendering stereo frame".

(** The end of [onPaint]: performance statistics are collected in stereo
    mode. *)
Definition onPaint_statistics : M unit :=
  (* in verbose mode, log the point at which GL swap occurs *)
  verbose "GLSWAP" ;;
  q ← get;
  when (m_stereoMode q)
    ((* record time-stamp of first/last frame *)
     (if m_framesGL q =? 0
      then now ← getTime; modify (set_m_firstFrameTimeGL now)
      else now ← getTime; modify (set_m_lastFrameTimeGL now)) ;;
     (* count GL frames *)
     modify (λ q, set_m_framesGL (wrap32 (m_framesGL q + 1)) q)).

(** The part of [onPaint] after the loop: the display surface is presented
    and the producer is told that the frame is done. *)
Definition onPaint_end : M unit :=
  (* restore OpenGL state *)
  call_ (GL "glPopAttrib" []) ;;
  (* draw the left/right stereo channel indicator *)
  indicator ← setting stereoIndicator;
  when indicator drawStereoIndicator ;;
  (* swap the buffers *)
  call_ Window_swapBuffers ;;
  (* signal that we've processed one complete frame *)
  call_ FrameDone_signal ;;
  onPaint_statistics.

Definition onPaint : M unit :=
  useTexture ← setting useTexture;
  matchMSAA ← setting matchOriginalMSAA;
  (* are we forced to use blit? *)
  let mustUseBlit := negb matchMSAA in
  onPaint_begin useTexture ;;
  (* for each eye *)
  onPaint_eyes 2 useTexture mustUseBlit ;;
  onPaint_end.

(** ** The OpenGL window *)

Definition onDestroy : M unit :=
  (* free OpenGL display list *)
  q ← get;
  when (negb (m_quadListGL q =? 0))
    (call_ (GL "glDeleteLists" [m_quadListGL q; 1]) ;; modify (set_m_quadListGL 0)) ;;
  i ← Log_info;
  when i
    (Log "onDestroy" ;;
     Log "DX presented targets = " ;;
     Log "GL frames = " ;;
     Log "DX frames = " ;;
     q ← get;
     when (0 <? m_framesGL q) (Log "DX/GL metric = ") ;;
     (* display the final frame rate: elapsed > 0.01 *)
     when (double_ltb double_hundredth
             (double_sub (m_lastFrameTimeGL q) (m_firstFrameTimeGL q)))
       (Log "Frame rate = ")).

(** The WM_PAINT case of [windowProc]. *)
Definition onWM_PAINT (hWnd : Z) : M Z :=
  call_ (BeginPaint hWnd) ;;
  onPaint ;;
  call_ (EndPaint hWnd) ;;
  mret 0.

(** [WindowProc], the window procedure registered for the OpenGL window,
    over the method [proc] it passes the message on to. *)
Definition WindowProc_over (proc : Z → Z → Z → Z → M Z) (hWnd uMsg wParam lParam : Z) : M Z :=
  when (uMsg =? WM_NCCREATE)
    (r ← call (lpCreateParams lParam);
     when (negb (result r =? 0))
       (call_ (SetWindowLongPtr hWnd "GWLP_USERDATA" (result r)))) ;;
  (* attempt to get window pointer from GWL_USERDATA *)
  self ← call (GetWindowLongPtr hWnd "GWLP_USERDATA");
  (* pass message onto the window, or fall-back to default *)
  if negb (result self =? 0)
  then proc hWnd uMsg wParam lParam
  else r ← call (DefWindowProc hWnd uMsg wParam lParam); mret (result r).

(** [redraw] forces an immediate paint: [m_window.update()] has the system
    send WM_PAINT to the window procedure before it returns when the window
    has something to repaint.  The answer to [Window_update] says whether it
    did ([result]) and for which window ([out]). *)
Definition redraw : M unit :=
  call_ Window_invalidate ;;
  r ← call Window_update;
  when (negb (result r =? 0))
    (WindowProc_over (λ hWnd _ _ _, onWM_PAINT hWnd) (out r) WM_PAINT 0 0 ;; mret tt).

Definition onResize (type w h : Z) : M unit :=
  call_ (GL "glViewport" [0; 0; w; h]) ;;
  modify (set_m_width w) ;;
  modify (set_m_height h) ;;
  redraw.

Definition onIdle : M unit := mret tt.

Definition LOWORD (l : Z) : Z := Z.land l 0xFFFF.
Definition HIWORD (l : Z) : Z := Z.land (Z.shiftr l 16) 0xFFFF.

(** The messages that [windowProc] forwards to the source window. *)
Definition forwarded (uMsg : Z) : bool :=
  bool_decide (uMsg ∈
    [WM_CLOSE; WM_CHAR; WM_KEYDOWN; WM_KEYUP; WM_MOUSEMOVE; WM_MOUSEWHEEL;
     WM_LBUTTONDOWN; WM_LBUTTONUP; WM_LBUTTONDBLCLK;
     WM_RBUTTONDOWN; WM_RBUTTONUP; WM_RBUTTONDBLCLK;
     WM_MBUTTONDOWN; WM_MBUTTONUP; WM_MBUTTONDBLCLK]).

Definition windowProc (hWnd uMsg wParam lParam : Z) : M Z :=
  if uMsg =? WM_DESTROY then onDestroy ;; mret 0
  else if uMsg =? WM_USER_NEWFRAME then redraw ;; mret 0
  else if uMsg =? WM_PAINT then onWM_PAINT hWnd
  else if uMsg =? WM_SIZE then
    onResize (wrap32 wParam) (LOWORD lParam) (HIWORD lParam) ;; mret 0
  else if forwarded uMsg then
    q ← get;
    call_ (PostMessage (m_sourceWindow q) uMsg wParam lParam) ;; mret 0
  else r ← call (DefWindowProc hWnd uMsg wParam lParam); mret (result r).

Definition WindowProc : Z → Z → Z → Z → M Z := WindowProc_over windowProc.

(** [WindowProcSource], the procedure the source window is subclassed with. *)
Definition WindowProcSource (hWnd uMsg wParam lParam : Z) : M Z :=
  old ← call (GetWindowLongPtr hWnd "GWLP_USERDATA");
  if uMsg =? WM_ERASEBKGND then mret 1
  else r ← call (CallWindowProc (result old) hWnd uMsg wParam lParam); mret (result r).

(** ** One-time creation of the resources *)

(** [for (i=0; i<m_target.size(); ++i) { ... }] with a body that may leave
    the loop by [break]: [body i] answers whether the loop goes on, and the
    result is the value of [i] when the loop is left. *)
Fixpoint for_targets (remaining : nat) (i : nat) (body : nat → M bool) : M nat :=
  match remaining with
  | O => mret i
  | S remaining' =>
      continue ← body i;
      if (continue : bool) then for_targets remaining' (S i) body else mret i
  end.

(** [do { ... } while (cond)] over the local variables [s] of the block;
    the block answers [false] when it is left by [break].  [fuel] bounds the
    number of runs of the block. *)
Fixpoint do_while {S : Type} (fuel : nat) (block : S → M (S * bool)) (cond : bool) (s : S) : M S :=
  match fuel with
  | O => mret s
  | S fuel' =>
      r ← block s;
      if (r.2 : bool) && cond then do_while fuel' block cond r.1 else mret r.1
  end.

(** Modelled from the spec: [false_value] is declared in Defines.h, which is
    not among the sources.  It closes the [do ... while] block of [onCreate];
    the spec describes the creation of the consumer-side objects as one pass
    that completes or aborts, so the block runs once and the value is
    [false]. *)
Definition false_value : bool := false.

Definition isPresentedRenderTarget : M bool :=
  q ← get;
  (* ensure that we have a device *)
  if m_device q =? 0 then mret false else
  (* get the current render target *)
  r ← call (GetRenderTarget 0);
  hash ← (if result r =? S_OK then
            v ← Log_verbose;
            when v
              (d ← call (GetDesc (out r));
               when (result d =? S_OK) (Log "Render target: ")) ;;
            (* use the renderTarget pointer as a simple hash *)
            call_ (Release (out r)) ;;
            mret (pointer_hash (out r))
          else mret 0);
  (* has this render target been presented? *)
  q ← get;
  mret (bool_decide (hash ∈ m_presentedTargets q)).

Definition startRenderThread : M unit :=
  info "starting GL rendering thread" ;;
  q ← get;
  if negb (m_thread q =? 0) then mret tt else
  (* create thread *)
  r ← call (beginthreadex (1024 * 1024));
  modify (set_m_thread (result r)) ;;
  info "thread = ".

(** The body of the loop that creates the Direct3D render targets. *)
Definition createRenderTarget (format multisampleType : Z) (i : nat) : M bool :=
  (* initialise share handle to NULL *)
  modify (update_target i (set_shareHandle 0)) ;;
  q ← get;
  r ← call (CreateRenderTarget (m_width q) (m_height q) format multisampleType 0 0);
  if negb (result r =? S_OK) then
    Log "error: failed to create DX render target" ;; mret false
  else
    modify (update_target i (λ t, set_shareHandle (out2 r) (set_surface (out r) t))) ;;
    mret true.

Definition createResources : M unit :=
  (* query how many multisamples the driver forces, on a temporary window *)
  w ← call (Window_create true 8 8 0 []);
  forcedSamples ← (if negb (result w =? 0)
                   then s ← call (Window_getSamples true);
                        call_ (Window_destroy true) ;; mret (result s)
                   else mret 0);
  info "OpenGL forced AA samples = " ;;
  (* convert number of samples to the Direct3D multisample type *)
  let forcedSamplesDX :=
    if 1 <? forcedSamples
    then (if 16 <? forcedSamples then 16 else forcedSamples)
    else D3DMULTISAMPLE_NONE in
  info "Create DX render targets" ;;
  q ← get;
  if negb (surface (target q 0) =? 0) then mret tt else
  (* store the window handle of the original source window *)
  p ← call GetCreationParameters;
  modify (set_m_sourceWindow (out p)) ;;
  (* get the adapter display mode *)
  m ← call (GetAdapterDisplayMode D3DADAPTER_DEFAULT);
  format ← (if negb (result m =? S_OK)
            then Log "error: failed to get adapter display mode (using default)" ;;
                 mret D3DFMT_X8R8G8B8
            else mret (out m));
  (* attempt to retrieve the multisample type from the render target *)
  rt ← call (GetRenderTarget 0);
  descType ← (if result rt =? S_OK then
                d ← call (GetDesc (out rt));
                ms ← (if result d =? S_OK then
                        modify (set_m_width (desc_Width (out_desc d))) ;;
                        modify (set_m_height (desc_Height (out_desc d))) ;;
                        Log "DX render target surface format: " ;;
                        mret (desc_MultiSampleType (out_desc d))
                      else
                        Log "error: failed to get render target description" ;;
                        (* fall back to GetViewport *)
                        v ← call GetViewport;
                        modify (set_m_width (Width (out_viewport v))) ;;
                        modify (set_m_height (Height (out_viewport v))) ;;
                        mret D3DMULTISAMPLE_NONE);
                call_ (Release (out rt)) ;;
                mret ms
              else
                Log "error: failed to get render target" ;;
                mret D3DMULTISAMPLE_NONE);
  info "DX viewport = " ;;
  info "DX multisample type = " ;;
  (* force the source to the number of samples forced on the target *)
  multisampleType ← (if descType <? forcedSamplesDX
                     then Log "Forcing DX multisample type to: " ;; mret forcedSamplesDX
                     else mret descType);
  (* store the multisampling level for the OpenGL window *)
  modify (set_m_samplesDX
            (if (D3DMULTISAMPLE_2_SAMPLES <=? multisampleType) &&
                (multisampleType <=? D3DMULTISAMPLE_16_SAMPLES)
             then wrap32 multisampleType else 0)) ;;
  (* information about the depth/stencil format *)
  ds ← call GetDepthStencilSurface;
  (if result ds =? S_OK then
     d ← call (GetDesc (out ds));
     (if result d =? S_OK
      then info "DX depth/stencil surface format: "
      else Log "error: failed to get depth surface description") ;;
     call_ (Release (out ds))
   else Log "error: failed to get depth stencil surface") ;;
  (* create render target(s) *)
  q ← get;
  for_targets (length (m_target q)) 0 (createRenderTarget format multisampleType) ;;
  (* get the current render target and save for later use *)
  bb ← call (GetRenderTarget 0);
  when (result bb =? S_OK) (modify (set_m_backBuffer (out bb))) ;;
  (* create window *)
  startRenderThread ;;
  (* we have completed initialisation *)
  modify (set_m_initialised true).

Definition onPreClearDX : M unit :=
  verbose "onPreClearDX" ;;
  (* is this the main display render target? *)
  presented ← isPresentedRenderTarget;
  if negb presented then mret tt else
  q ← get;
  (* the first time we are called, we will create the resources *)
  when (negb (m_initialised q)) createResources ;;
  (* start capturing DX drawing *)
  beginCapture.

Definition onCreateDX : M unit := mret tt.
Definition onPostClearDX : M unit := mret tt.

(** ** The OpenGL thread *)

(** The renderbuffer parameters that [onCreate] lists in the log. *)
Definition renderbufferParameters : list Z :=
  [0x8D42; 0x8D43; 0x8D44; 0x8D50; 0x8D51; 0x8D52; 0x8D53; 0x8D54; 0x8D55].

Fixpoint logRenderbufferParameters (names : list Z) : M unit :=
  match names with
  | [] => mret tt
  | name :: names' =>
      call_ (glGetRenderbufferParameteriv GL_RENDERBUFFER name) ;;
      Log "renderBuffer." ;;
      logRenderbufferParameters names'
  end.

(** Attaching the image of slot [i] to its framebuffer, under the interop
    lock.  A lock or unlock that fails is logged and nothing else. *)
Definition attachTarget (useTexture : bool) (textureMode : Z) (i : nat) : M unit :=
  q ← get;
  let t := target q i in
  l ← call (wglDXLockObjectsNV (m_interopGLDX q) (object t));
  if result l =? GL_TRUE then
    (if useTexture
     then call_ (GL "glFramebufferTexture2D"
                    [GL_FRAMEBUFFER; GL_COLOR_ATTACHMENT0; textureMode; texture t; 0])
     else call_ (GL "glFramebufferRenderbuffer"
                    [GL_FRAMEBUFFER; GL_COLOR_ATTACHMENT0; GL_RENDERBUFFER; renderBuffer t])) ;;
    u ← call (wglDXUnlockObjectsNV (m_interopGLDX q) (object t));
    when (negb (result u =? GL_TRUE)) (Log "Error: UnLockObjectsNV failed")
  else Log "Error: LockObjectsNV failed".

(** The end of the body of the loop of [onCreate], once the framebuffer of
    slot [i] is bound: the image is attached and the status of the
    framebuffer is logged.  Nothing here leaves the loop. *)
Definition setupFramebuffer (useTexture : bool) (textureMode : Z) (i : nat) : M unit :=
  b ← Log_info;
  when b (call_ (GL "glGetError" []) ;; Log "glBindFramebuffer = ") ;;
  (* important to lock before attaching the image *)
  attachTarget useTexture textureMode i ;;
  when (negb useTexture)
    (q ← get;
     call_ (GL "glBindRenderbuffer" [GL_RENDERBUFFER; renderBuffer (target q i)]) ;;
     b ← Log_info;
     when b (logRenderbufferParameters renderbufferParameters) ;;
     call_ (GL "glBindRenderbuffer" [GL_RENDERBUFFER; 0])) ;;
  (* log the framebuffer status (should be GL_FRAMEBUFFER_COMPLETE) *)
  st ← call (glCheckFramebufferStatus GL_FRAMEBUFFER);
  b ← Log_info;
  when (negb (result st =? GL_FRAMEBUFFER_COMPLETE) || b)
    (Log "glCheckFramebufferStatus = " ;;
     when (result st =? GL_FRAMEBUFFER_INCOMPLETE_MISSING_ATTACHMENT)
       (Log "For ATI cards this may show GL_FRAMEBUFFER_INCOMPLETE_MISSING_ATTACHMENT but gets corrected later.")).

(** The body of the loop of [onCreate] over the slots; [false] is [break]. *)
Definition onCreate_target (useTexture : bool) (textureMode : Z) (i : nat) : M bool :=
  (* are we using textures or renderbuffers? *)
  r ← call (if useTexture then glGenTextures else glGenRenderbuffers);
  modify (update_target i ((if useTexture then set_texture else set_renderBuffer) (result r))) ;;
  if result r =? 0 then
    Log (if useTexture then "error: failed to generate texture ID"
         else "error: failed to generate render buffer ID") ;;
    mret false
  else
  (* register ShareHandle for ATI/AMD interoperability *)
  info "Setting SharedHandle " ;;
  a ← call wglDXSetResourceShareHandleNV_available;
  if result a =? 0 then Log "Failed to set SharedHandle: " ;; mret false else
  q ← get;
  call_ (wglDXSetResourceShareHandleNV (surface (target q i)) (shareHandle (target q i))) ;;
  info "registering DX object " ;;
  o ← call (wglDXRegisterObjectNV (m_interopGLDX q) (surface (target q i))
              (if useTexture then texture (target q i) else renderBuffer (target q i))
              (if useTexture then textureMode else GL_RENDERBUFFER)
              WGL_ACCESS_READ_ONLY_NV);
  modify (update_target i (set_object (result o))) ;;
  if result o =? 0 then
    call_ GetLastError ;;
    Log "error: wglDXRegisterObjectNV failed for render target: " ;;
    mret false
  else
  f ← call glGenFramebuffers;
  modify (update_target i (set_frameBuffer (result f))) ;;
  if result f =? 0 then Log "error: glGenFramebuffers failed" ;; mret false else
  call_ (glBindFramebuffer GL_FRAMEBUFFER (result f)) ;;
  setupFramebuffer useTexture textureMode i ;;
  mret true.

(** The block [do { ... } while (false_value)] of [onCreate], over the
    local variable [success]. *)
Definition onCreate_block (useTexture : bool) (success : bool) : M (bool * bool) :=
  info "loaded GL extensions" ;;
  info "creating GL/DX interop" ;;
  q ← get;
  d ← call (wglDXOpenDeviceNV (m_device q));
  modify (set_m_interopGLDX (result d)) ;;
  if result d =? 0 then
    Log "error: failed to create GL/DX interop" ;; mret (success, false)
  else
  (* select standard or multisampled GL texture mode *)
  q ← get;
  let textureMode := if 1 <? m_samplesGL q then GL_TEXTURE_2D_MULTISAMPLE else GL_TEXTURE_2D in
  info "generating render buffers" ;;
  i ← for_targets (length (m_target q)) 0 (onCreate_target useTexture textureMode);
  (* successful only if all render buffers were created and initialised *)
  mret (bool_decide (i = length (m_target q)), true).

(** The part of [onCreate] that creates the objects of the thread and sets
    the defaults of OpenGL; the result is [success]. *)
Definition onCreate_objects (useTexture : bool) : M bool :=
  l ← call glx_load;
  success ← (if result l =? 0
             then Log "error: failed to load GL extensions" ;; mret false
             else do_while 1 (onCreate_block useTexture) false_value false);
  (* default OpenGL settings *)
  call_ (GL "glEnable" [GL_COLOR_MATERIAL]) ;;
  call_ (GL "glDisable" [GL_LIGHTING]) ;;
  call_ (GL "glDisable" [GL_DEPTH_TEST]) ;;
  (* default viewing system *)
  call_ (GL "glMatrixMode" [GL_MODELVIEW]) ;;
  call_ (GL "glLoadIdentity" []) ;;
  call_ (GL "glMatrixMode" [GL_PROJECTION]) ;;
  call_ (GL "glLoadIdentity" []) ;;
  mret success.

Definition onCreate : M bool :=
  b ← Log_info;
  when b
    (call_ (glGetString GL_VERSION) ;; Log "GL Version : " ;;
     call_ (glGetString GL_VENDOR) ;; Log "GL Vendor  : " ;;
     call_ (glGetString GL_RENDERER) ;; Log "GL Renderer: ") ;;
  (* query number of antialiasing samples *)
  s ← call (Window_getSamples false);
  modify (set_m_samplesGL (result s)) ;;
  info "GL Samples : " ;;
  when b (call_ Window_getPixelFormat ;; Log "OpenGL pixel format = ") ;;
  call_ (glGetIntegerv GL_MAX_TEXTURE_SIZE) ;;
  info "OpenGL maximum texture size = " ;;
  (* use textures or renderbuffers? *)
  useTexture ← setting useTexture;
  onCreate_objects useTexture.

(** The messages sent to the window of the thread reach [WindowProc], the
    procedure of the only window of the thread, one after the other. *)
Fixpoint deliver (sent : list MSG) : M unit :=
  match sent with
  | [] => mret tt
  | msg :: sent' =>
      WindowProc (hwnd msg) (message msg) (wParam msg) (lParam msg) ;;
      deliver sent'
  end.

(** The message loop of the thread, [fuel] turns of it:
    [do { ... } while (message.message != WM_QUIT)].  [PeekMessage] first
    has the messages sent to the window delivered, the new-frame
    notification of [onPrePresentDX] among them, and then answers whether
    it has taken a message from the queue.  A dispatched message reaches
    [WindowProc] as well.  The result says whether the loop was left. *)
Fixpoint messageLoop (fuel : nat) (current : MSG) : M bool :=
  match fuel with
  | O => mret false
  | S fuel' =>
      p ← call PeekMessage;
      deliver (out_sent p) ;;
      msg ← (if negb (result p =? 0) then
               let msg := out_msg p in
               call_ (TranslateMessage msg) ;;
               call_ (DispatchMessage msg) ;;
               when (negb (hwnd msg =? 0))
                 (WindowProc (hwnd msg) (message msg) (wParam msg) (lParam msg) ;; mret tt) ;;
               mret msg
             else
               (* no message waiting: idle *)
               onIdle ;; mret current);
      if negb (message msg =? WM_QUIT) then messageLoop fuel' msg else mret true
  end.

(** The end of [threadFunc], from the answer of [onCreate] on: the message
    loop of the window, or the request to quit when the resources of the
    thread could not be created. *)
Definition threadFunc_end (created : bool) (fuel : nat) (uninitialised : MSG) : M (option Z) :=
  finished ← (if created then
                (* show window without activating it *)
                call_ (Window_show SW_SHOWNA) ;;
                left_loop ← messageLoop fuel uninitialised;
                when left_loop (info "WM_QUIT") ;;
                mret left_loop
              else
                Log "Failed when initialising OpenGL resources: exiting" ;;
                self ← get;
                call_ (PostMessage (m_sourceWindow self) WM_QUIT 0 0) ;;
                mret true);
  if (finished : bool) then call_ (endthreadex 0) ;; mret (Some 0) else mret None.

(** [threadFunc(context)]; the monad threads the object [context] points
    to.  [uninitialised] is the content of the local [MSG message] before
    the first [PeekMessage].  The result is [None] while the thread is still
    in its message loop after [fuel] turns, and the value the thread returns
    otherwise. *)
Definition threadFunc (context : Z) (fuel : nat) (uninitialised : MSG) : M (option Z) :=
  info "GL rendering thread started" ;;
  if context =? 0 then call_ (endthreadex 0) ;; mret (Some 0) else
  self ← get;
  (* subclass the source window *)
  old ← call (GetWindowLongPtr (m_sourceWindow self) "GWLP_WNDPROC");
  call_ (SetWindowLongPtr (m_sourceWindow self) "GWLP_USERDATA" (result old)) ;;
  call_ (SetWindowProc (m_sourceWindow self) "WindowProcSource") ;;
  (* copy window rect from source window *)
  rc ← call (GetClientRect (m_sourceWindow self));
  let rect := out_rect rc in
  (* window creation attributes *)
  matchMSAA ← setting matchOriginalMSAA;
  (if matchMSAA : bool
   then info "matchOriginalMSAA is ENABLED"
   else info "matchOriginalMSAA is DISABLED") ;;
  (* number of desired anti-alias samples to match DirectX *)
  let desiredSamples := if (matchMSAA : bool) then m_samplesDX self else 0 in
  let attributes :=
    (if m_stereoAvailable self then [(WGL_STEREO_ARB, GL_TRUE)] else []) ++
    [(WGL_DEPTH_BITS_ARB, 0); (WGL_STENCIL_BITS_ARB, 0)] ++
    (if 0 <? desiredSamples
     then [(WGL_SAMPLE_BUFFERS_ARB, GL_TRUE); (WGL_SAMPLES_ARB, desiredSamples)]
     else []) in
  (* create our OpenGL window *)
  w ← call (Window_create false (right rect - left rect) (bottom rect - top rect)
              (m_sourceWindow self) attributes);
  if result w =? 0 then
    Log "error: failed to create OpenGL window" ;;
    call_ (endthreadex 0) ;; mret (Some 0)
  else
  s ← call (Window_getSamples false);
  when (negb (result s =? desiredSamples))
    (Log "warning: unable to create OpenGL window with the requested anti-alias samples") ;;
  (* call onCreate to carry out OpenGL setup *)
  created ← onCreate;
  threadFunc_end created fuel uninitialised.

(** ** Construction *)

(** The object as the constructor leaves it. *)
Definition Quadifier_new (device direct3D : Z) (stereoAvailable : bool) : Quadifier :=
  {| m_device := device; m_direct3D := direct3D;
     m_framesGL := 0; m_framesDX := 0;
     m_samplesDX := 0; m_samplesGL := 0;
     m_backBuffer := 0; m_drawBuffer := 0%nat; m_readBuffer := 0%nat;
     m_target := replicate poolSize Target_new;
     m_presentedTargets := ∅;
     m_stereoMode := false;
     m_firstFrameTimeGL := double_zero; m_lastFrameTimeGL := double_zero;
     m_quadListGL := 0; m_thread := 0; m_sourceWindow := 0; m_interopGLDX := 0;
     m_width := 0; m_height := 0;
     m_initialised := false;
     m_stereoAvailable := stereoAvailable |}.

(** [Quadifier::Quadifier(device, direct3D)]: the run of the constructor. *)
Definition construct (device direct3D : Z) (env : Env) : Outcome unit * Quadifier * Trace :=
  let stereo := respond env [] isOpenGLStereoAvailable in
  (Returned tt,
   Quadifier_new device direct3D (negb (result stereo =? 0)),
   [isOpenGLStereoAvailable; Log_setLevel (logLevel (settings env))]).

(** ** The session: operations of the core on the shared object *)

(** The methods of the class, with their arguments.  The Direct3D thread
    enters the core through the hooks of the device proxy, the OpenGL thread
    through [threadFunc] and the window procedure. *)
Inductive Operation : Type :=
  (* hooks called on the Direct3D thread *)
  | op_onCreateDX
  | op_onPreClearDX
  | op_onPostClearDX
  | op_onPrePresentDX
  | op_onPostPresentDX
  | op_onPreSetViewportDX (pViewport : option D3DVIEWPORT9)
  (* methods the hooks call *)
  | op_isPresentedRenderTarget
  | op_createResources
  | op_startRenderThread
  | op_beginCapture
  | op_endCapture (drawBuffer : Z)
  | op_onStereoSignal
  (* the OpenGL thread and its window *)
  | op_threadFunc (context : Z) (fuel : nat) (uninitialised : MSG)
  | op_WindowProc (hWnd uMsg wParam lParam : Z)
  | op_windowProc (hWnd uMsg wParam lParam : Z)
  | op_onCreate
  | op_onDestroy
  | op_onPaint
  | op_onResize (type w h : Z)
  | op_onIdle
  | op_redraw.

Definition perform (op : Operation) : M unit :=
  match op with
  | op_onCreateDX => onCreateDX
  | op_onPreClearDX => onPreClearDX
  | op_onPostClearDX => onPostClearDX
  | op_onPrePresentDX => onPrePresentDX
  | op_onPostPresentDX => onPostPresentDX
  | op_onPreSetViewportDX pViewport => onPreSetViewportDX pViewport ;; mret tt
  | op_isPresentedRenderTarget => isPresentedRenderTarget ;; mret tt
  | op_createResources => createResources
  | op_startRenderThread => startRenderThread
  | op_beginCapture => beginCapture
  | op_endCapture drawBuffer => endCapture drawBuffer
  | op_onStereoSignal => onStereoSignal
  | op_threadFunc context fuel uninitialised => threadFunc context fuel uninitialised ;; mret tt
  | op_WindowProc hWnd uMsg wParam lParam => WindowProc hWnd uMsg wParam lParam ;; mret tt
  | op_windowProc hWnd uMsg wParam lParam => windowProc hWnd uMsg wParam lParam ;; mret tt
  | op_onCreate => onCreate ;; mret tt
  | op_onDestroy => onDestroy
  | op_onPaint => onPaint
  | op_onResize type w h => onResize type w h
  | op_onIdle => onIdle
  | op_redraw => redraw
  end.

(** The thread an operation runs on. *)
Definition on_producer_thread (op : Operation) : bool :=
  match op with
  | op_onCreateDX | op_onPreClearDX | op_onPostClearDX | op_onPrePresentDX
  | op_onPostPresentDX | op_onPreSetViewportDX _ | op_isPresentedRenderTarget
  | op_createResources | op_startRenderThread | op_beginCapture
  | op_endCapture _ | op_onStereoSignal => true
  | _ => false
  end.

(** A session is a sequence of operations, each run to its end on the
    object the one before has left; once [exit] has ended the process no
    operation runs any more. *)
Definition Session : Type := Outcome unit * Quadifier * Trace.

Definition session_step (env : Env) (s : Session) (op : Operation) : Session :=
  match outcome s with
  | Returned _ => perform op env (state s) (trace s)
  | Exited _ => s
  end.

Definition run (env : Env) (ops : list Operation) (s : Session) : Session :=
  fold_left (session_step env) ops s.

(** The session of a freshly constructed object. *)
Definition session (env : Env) (device direct3D : Z) (ops : list Operation) : Session :=
  run env ops (construct device direct3D env).

(** The invariant of the cursors: the pool has its two slots and both
    cursors point into it. *)
Definition wf (q : Quadifier) : Prop :=
  length (m_target q) = poolSize ∧
  (m_drawBuffer q < poolSize)%nat ∧
  (m_readBuffer q < poolSize)%nat.

(** The successor of a cursor: [(i + 1) % m_target.size()]. *)
Definition next (i : nat) : nat := ((i + 1) mod poolSize)%nat.

(** ** Observations on traces *)

(** The draw buffers selected by [glDrawBuffer], in order. *)
Definition selected (t : Trace) : list Z :=
  omap (λ c, match c with glDrawBuffer mode => Some mode | _ => None end) t.

(** The interop objects on which a lock was attempted, in order. *)
Definition lock_attempts (t : Trace) : list Z :=
  omap (λ c, match c with wglDXLockObjectsNV _ object => Some object | _ => None end) t.

Definition is_signal (c : Call) : bool :=
  match c with FrameDone_signal => true | _ => false end.

Definition is_present (c : Call) : bool :=
  match c with Window_swapBuffers => true | _ => false end.

(** The calls that draw a slot to the display framebuffer. *)
Definition is_composite (c : Call) : bool :=
  match c with
  | glBlitFramebuffer _ _ _ _ _ _ _ _ _ _ | glCallList _ => true
  | _ => false
  end.

Definition count (p : Call → bool) (t : Trace) : nat := length (List.filter p t).

(** ** A scripted environment

    An environment for running the core on concrete inputs: every call
    succeeds unless [fails] picks it, handles are numbered, and the message
    queue of the OpenGL thread holds [script]. *)

Definition no_viewport : D3DVIEWPORT9 := mkViewport 0 0 0 0 0 0.
Definition no_desc : D3DSURFACE_DESC := mkDesc 0 0 0 0.
Definition no_msg : MSG := mkMSG 0 0 0 0.
Definition no_rect : RECT := mkRECT 0 0 0 0.

Definition answer (z : Z) : Resp :=
  {| result := z; out := 0; out2 := 0; out_viewport := no_viewport;
     out_desc := no_desc; out_msg := no_msg; out_rect := no_rect; out_sent := [] |}.

(** The calls that return an [HRESULT]. *)
Definition returns_HRESULT (c : Call) : bool :=
  match c with
  | GetRenderTarget _ | SetRenderTarget _ _ | GetViewport | SetViewport _
  | GetCreationParameters | GetAdapterDisplayMode _ | GetDepthStencilSurface
  | CreateRenderTarget _ _ _ _ _ _ | GetDesc _ => true
  | _ => false
  end.

Definition E_FAIL : Z := 0x80004005.

Definition is_PeekMessage (c : Call) : bool :=
  match c with PeekMessage => true | _ => false end.

Definition is_CreateRenderTarget (c : Call) : bool :=
  match c with CreateRenderTarget _ _ _ _ _ _ => true | _ => false end.

Definition is_gen (c : Call) : bool :=
  match c with
  | glGenTextures | glGenRenderbuffers | glGenFramebuffers | glGenLists _
  | wglDXRegisterObjectNV _ _ _ _ _ => true
  | _ => false
  end.

Definition scripted_respond (fails : Call → bool) (script : list MSG) (t : Trace) (c : Call) : Resp :=
  if fails c then answer (if returns_HRESULT c then E_FAIL else 0) else
  match c with
  | GetRenderTarget _ =>
      {| result := S_OK; out := 0x1000; out2 := 0; out_viewport := no_viewport;
         out_desc := no_desc; out_msg := no_msg; out_rect := no_rect; out_sent := [] |}
  | CreateRenderTarget _ _ _ _ _ _ =>
      {| result := S_OK; out := 0x2000 + Z.of_nat (count is_CreateRenderTarget t); out2 := 0;
         out_viewport := no_viewport; out_desc := no_desc; out_msg := no_msg;
         out_rect := no_rect; out_sent := [] |}
  | GetViewport =>
      {| result := S_OK; out := 0; out2 := 0; out_viewport := mkViewport 0 0 640 480 0 0;
         out_desc := no_desc; out_msg := no_msg; out_rect := no_rect; out_sent := [] |}
  | GetDesc _ =>
      {| result := S_OK; out := 0; out2 := 0; out_viewport := no_viewport;
         out_desc := mkDesc D3DFMT_X8R8G8B8 D3DMULTISAMPLE_NONE 640 480;
         out_msg := no_msg; out_rect := no_rect; out_sent := [] |}
  | GetCreationParameters =>
      {| result := S_OK; out := 0x5000; out2 := 0; out_viewport := no_viewport;
         out_desc := no_desc; out_msg := no_msg; out_rect := no_rect; out_sent := [] |}
  | GetClientRect _ =>
      {| result := 1; out := 0; out2 := 0; out_viewport := no_viewport;
         out_desc := no_desc; out_msg := no_msg; out_rect := mkRECT 0 0 640 480;
         out_sent := [] |}
  | PeekMessage =>
      match script !! count is_PeekMessage t with
      | Some msg =>
          {| result := 1; out := 0; out2 := 0; out_viewport := no_viewport;
             out_desc := no_desc; out_msg := msg; out_rect := no_rect; out_sent := [] |}
      | None => answer 0
      end
  | Window_update =>
      {| result := 1; out := 0x6000; out2 := 0; out_viewport := no_viewport;
         out_desc := no_desc; out_msg := no_msg; out_rect := no_rect; out_sent := [] |}
  | Window_getSamples _ => answer 0
  | Window_getHWND => answer 0x6000
  | beginthreadex _ => answer 0x4000
  | glCheckFramebufferStatus _ => answer GL_FRAMEBUFFER_COMPLETE
  | c => if returns_HRESULT c then answer S_OK
         else if is_gen c then answer (1 + Z.of_nat (count is_gen t))
         else answer 1
  end.

Definition default_settings : Settings :=
  {| useTexture := false; matchOriginalMSAA := false; stereoIndicator := false; logLevel := 0 |}.

Definition scripted (fails : Call → bool) (script : list MSG) : Env :=
  {| respond := scripted_respond fails script; settings := default_settings;
     log_info := false; log_verbose := false |}.

Definition nothing_fails : Call → bool := λ _, false.

(** The sentinel viewport of the Quadifier script, (1,*,2,3). *)
Definition sentinel (y minZ maxZ : Z) : D3DVIEWPORT9 := mkViewport 1 y 2 3 minZ maxZ.

(** * The vocabulary of the properties *)

(** [keeps P m]: started on an object with [P], the computation [m] leaves
    an object with [P], whatever the environment answers and also when it
    ends the process. *)
Definition keeps {A : Type} (P : Quadifier → Prop) (m : M A) : Prop :=
  ∀ env q t, P q → P (state (m env q t)).

(** What the invariants below look at: the mode flag, the two cursors, the
    size of the pool and the labels of its slots. *)
Definition same_view (q q' : Quadifier) : Prop :=
  m_stereoMode q' = m_stereoMode q ∧
  m_drawBuffer q' = m_drawBuffer q ∧
  m_readBuffer q' = m_readBuffer q ∧
  length (m_target q') = length (m_target q) ∧
  drawBuffer <$> m_target q' = drawBuffer <$> m_target q.

(** The calls of the log, by the level of logging. *)
Definition vlog (env : Env) (text : string) : Trace :=
  if log_verbose env then [Log_print text] else [].

Definition ilog (env : Env) (text : string) : Trace :=
  if log_info env then [Log_print text] else [].

(** [counts p n m]: from any object and history, [m] returns, and the calls
    it has made hold exactly [n] calls of the kind [p]. *)
Definition counts {A : Type} (p : Call → bool) (n : nat) (m : M A) : Prop :=
  ∀ env q t, ∃ a q' rest,
    m env q t = (Returned a, q', t ++ rest) ∧ count p rest = n.

(** The two calls of the handshake on the consumer side: presenting the
    display surface and raising "frame consumed". *)
Definition is_handshake (c : Call) : bool := is_present c || is_signal c.

(** Those and the calls that draw a slot. *)
Definition is_frame_call (c : Call) : bool := is_handshake c || is_composite c.

(** Modelled from the spec: [m_frameDone] is an object of the class Event,
    which is declared outside this file.  The spec makes [wait(timeout)] a
    bounded wait: the caller goes on when the signal is raised or when
    [timeout] milliseconds have passed, whichever comes first.
    [signalled_after] is the time after which the consumer raises the
    signal, [None] if it never does; the result is the time the caller has
    been blocked. *)
Definition Event_wait (signalled_after : option Z) (timeout : Z) : Z :=
  match signalled_after with
  | Some delay => Z.min delay timeout
  | None => timeout
  end.

(** The time a thread is blocked by the calls of a trace. *)
Definition blocked (signalled_after : option Z) (t : Trace) : Z :=
  fold_right
    (λ c total, match c with
                | FrameDone_wait timeout => Event_wait signalled_after timeout + total
                | _ => total
                end) 0 t.

(** The answers of Direct3D to the two calls of [beginCapture] that decide
    its course: saving the viewport and redirecting the render target. *)
Definition saved_viewport (env : Env) (t : Trace) : Resp :=
  respond env (t ++ vlog env "beginCapture") GetViewport.

Definition redirection (q : Quadifier) : Call :=
  SetRenderTarget 0 (surface (target q (m_drawBuffer q))).

Definition redirected (env : Env) (q : Quadifier) (t : Trace) : Resp :=
  respond env
    (t ++ vlog env "beginCapture" ++ [GetViewport] ++ vlog env "SetRenderTarget(")
    (redirection q).

(** The claim of the spec for [beginCapture], as it is stated: when the
    redirection succeeds (the method returns), the viewport saved before is
    restored after it. *)
Definition restores_viewport_as_claimed (env : Env) (q : Quadifier) (t : Trace) : Prop :=
  let r := beginCapture env q t in
  outcome r = Returned tt → ∃ viewport, last (trace r) = Some (SetViewport viewport).

Definition fails_GetViewport (c : Call) : bool :=
  match c with GetViewport => true | _ => false end.

Definition fails_SetRenderTarget (c : Call) : bool :=
  match c with SetRenderTarget _ _ => true | _ => false end.

(** The object after the first frame has been presented and the resources
    have been created at the next clear, with every call answered well. *)
Definition first_frame : Session :=
  session (scripted nothing_fails []) 1 2 [op_onPrePresentDX; op_onPreClearDX].

(** What the signal writes to the log: the verbose line every time, the
    line of the transition when the mode flag was still mono. *)
Definition signal_log (env : Env) (q : Quadifier) : Trace :=
  vlog env "stereo signal" ++ (if m_stereoMode q then [] else ilog env "Stereo enabled").

(** The test of [onPreSetViewportDX] for the rectangle (1,*,2,3). *)
Definition is_sentinel (v : D3DVIEWPORT9) : bool :=
  (X v =? 1) && (Width v =? 2) && (Height v =? 3).

(** The claim of the spec for [onPreSetViewportDX], as it is stated: the
    hook returns [true] for every input. *)
Definition always_returns_true_as_claimed
    (env : Env) (q : Quadifier) (t : Trace) (pViewport : option D3DVIEWPORT9) : Prop :=
  outcome (onPreSetViewportDX pViewport env q t) = Returned true.

(** The call that locks the slot at the read cursor, and its answer after
    the history [t]. *)
Definition lock_call (q : Quadifier) : Call :=
  wglDXLockObjectsNV (m_interopGLDX q) (object (target q (m_readBuffer q))).

Definition unlock_call (q : Quadifier) : Call :=
  wglDXUnlockObjectsNV (m_interopGLDX q) (object (target q (m_readBuffer q))).

(** The history when a turn started after [t] tries the lock. *)
Definition at_lock (env : Env) (q : Quadifier) (t : Trace) : Trace :=
  t ++ vlog env "GL: render" ++ [glDrawBuffer (drawBuffer (target q (m_readBuffer q)))].

(** Whether the turn gets the lock: the slot has an interop object and
    [wglDXLockObjectsNV] answers [GL_TRUE]. *)
Definition locks (env : Env) (q : Quadifier) (t : Trace) : bool :=
  negb (object (target q (m_readBuffer q)) =? 0) &&
  (result (respond env (at_lock env q t) (lock_call q)) =? GL_TRUE).

(** The lock attempt of a turn: none for a slot without interop object. *)
Definition attempt (q : Quadifier) : Trace :=
  if object (target q (m_readBuffer q)) =? 0 then [] else [lock_call q].

Definition blit (q : Quadifier) : Trace :=
  [glBindFramebuffer GL_READ_FRAMEBUFFER (frameBuffer (target q (m_readBuffer q)));
   glBlitFramebuffer 0 0 (m_width q) (m_height q) 0 (m_height q) (m_width q) 0
     GL_COLOR_BUFFER_BIT GL_LINEAR].

Definition is_turn_call (c : Call) : bool :=
  match c with
  | glDrawBuffer _ | wglDXLockObjectsNV _ _ => true
  | _ => false
  end.

(** Drawing the slot as a textured quad, the other branch of a turn. *)
Definition texturedQuad (q : Quadifier) : M unit :=
  call_ (glBindTexture GL_TEXTURE_2D (texture (target q (m_readBuffer q)))) ;;
  when (m_quadListGL q =? 0) buildQuadList ;;
  q ← get;
  when (negb (m_quadListGL q =? 0)) (call_ (glCallList (m_quadListGL q))).

(** The object a turn leaves: the read cursor has moved on, and the display
    list may have been created. *)
Definition after_turn (quadList : Z) (q : Quadifier) : Quadifier :=
  set_m_readBuffer ((m_readBuffer q + 1) mod length (m_target q))%nat
    (set_m_quadListGL quadList q).

(** The label of a slot, and the lock attempted for it: none for a slot
    without interop object. *)
Definition label_at (q : Quadifier) (i : nat) : Z := drawBuffer (target q i).

Definition attempt_at (q : Quadifier) (i : nat) : list Z :=
  if object (target q i) =? 0 then [] else [object (target q i)].

(** The slots a composite pass goes through: the one at the read cursor,
    and the next one when the first is labelled as a left eye. *)
Definition pass_slots (q : Quadifier) : list nat :=
  if label_at q (m_readBuffer q) =? GL_BACK_LEFT
  then [m_readBuffer q; next (m_readBuffer q)]
  else [m_readBuffer q].

(** The calls of [onPaint] before the loop. *)
Definition onPaint_begin_calls (env : Env) : Trace :=
  [glBindFramebuffer GL_DRAW_FRAMEBUFFER 0;
   GL "glPushAttrib" [Z.lor GL_ENABLE_BIT GL_CURRENT_BIT]] ++
  (if useTexture (settings env)
   then [GL "glEnable" [GL_TEXTURE_2D]; GL "glColor3f" [1; 1; 1]] else []) ++
  vlog env "GL: rendering stereo frame".

(** ** The calls of a turn of the composite loop *)

(** The calls that compile the display list [list] of the textured quad. *)
Definition quadList_calls (list : Z) : Trace :=
  [GL "glNewList" [list; GL_COMPILE];
   GL "glBegin" [GL_QUADS];
   GL "glTexCoord2i" [0; 0]; GL "glVertex3f" [-1; 1; 0];
   GL "glTexCoord2i" [1; 0]; GL "glVertex3f" [1; 1; 0];
   GL "glTexCoord2i" [1; 1]; GL "glVertex3f" [1; -1; 0];
   GL "glTexCoord2i" [0; 1]; GL "glVertex3f" [-1; -1; 0];
   GL "glEnd" [];
   GL "glEndList" []].

(** The call that binds the texture of the slot at the read cursor. *)
Definition bind_call (q : Quadifier) : Call :=
  glBindTexture GL_TEXTURE_2D (texture (target q (m_readBuffer q))).

(** The display list that [glGenLists] hands out to a turn started after
    [t] that holds the lock and finds no list. *)
Definition new_quadList (env : Env) (q : Quadifier) (t : Trace) : Z :=
  result (respond env (at_lock env q t ++ [lock_call q; bind_call q]) (glGenLists 1)).

(** The display list such a turn draws with: the one of the object, or the
    new one when the object has none. *)
Definition quadList_of (env : Env) (q : Quadifier) (t : Trace) : Z :=
  if m_quadListGL q =? 0 then new_quadList env q t else m_quadListGL q.

(** The slot drawn as a textured quad: the texture is bound, the display
    list is built when there is none, and it is called unless it is none
    even then. *)
Definition textured (env : Env) (q : Quadifier) (t : Trace) : Trace :=
  [bind_call q] ++
  (if m_quadListGL q =? 0
   then [glGenLists 1] ++ quadList_calls (new_quadList env q t) else []) ++
  (if quadList_of env q t =? 0 then [] else [glCallList (quadList_of env q t)]).

(** What a turn that holds the lock draws, by the mode. *)
Definition drawing (useTexture mustUseBlit : bool) (env : Env) (q : Quadifier) (t : Trace) :
    Trace :=
  if negb useTexture || mustUseBlit then blit q else textured env q t.

(** The calls of a turn started after [t], from the selection of the draw
    buffer on, and the object the turn leaves. *)
Definition turn_calls (useTexture mustUseBlit : bool) (env : Env) (q : Quadifier) (t : Trace) :
    Trace :=
  vlog env "GL: render" ++
  [glDrawBuffer (label_at q (m_readBuffer q))] ++
  (if locks env q t
   then [lock_call q] ++ drawing useTexture mustUseBlit env q t ++ [unlock_call q]
   else attempt q ++ [Log_print "unable to lock DX target on paint"]).

Definition turn_state (useTexture mustUseBlit : bool) (env : Env) (q : Quadifier) (t : Trace) :
    Quadifier :=
  after_turn
    (if locks env q t && negb (negb useTexture || mustUseBlit)
     then quadList_of env q t else m_quadListGL q) q.

(** The calls of the loop of a pass started after [t]: one turn, and a
    second one when the first was on a slot labelled as a left eye. *)
Definition loop_calls (useTexture mustUseBlit : bool) (env : Env) (q : Quadifier) (t : Trace) :
    Trace :=
  turn_calls useTexture mustUseBlit env q t ++
  (if label_at q (m_readBuffer q) =? GL_BACK_LEFT
   then turn_calls useTexture mustUseBlit env
          (turn_state useTexture mustUseBlit env q t)
          (t ++ turn_calls useTexture mustUseBlit env q t)
   else []).

Definition loop_state (useTexture mustUseBlit : bool) (env : Env) (q : Quadifier) (t : Trace) :
    Quadifier :=
  if label_at q (m_readBuffer q) =? GL_BACK_LEFT
  then turn_state useTexture mustUseBlit env
         (turn_state useTexture mustUseBlit env q t)
         (t ++ turn_calls useTexture mustUseBlit env q t)
  else turn_state useTexture mustUseBlit env q t.

(** The session after two mono frames have been captured and the OpenGL
    thread has created its objects: both slots are labelled [GL_BACK], and
    the read cursor is on the first. *)
Definition two_mono_frames : Session :=
  session (scripted nothing_fails []) 1 2
    [op_onPrePresentDX; op_onPreClearDX; op_threadFunc 1 1 no_msg;
     op_onPostPresentDX; op_onPrePresentDX; op_onPostPresentDX; op_onPreClearDX].

Definition fails_lock (c : Call) : bool :=
  match c with wglDXLockObjectsNV _ _ => true | _ => false end.

(** The lock of one interop object fails. *)
Definition fails_lock_of (obj : Z) (c : Call) : bool :=
  match c with wglDXLockObjectsNV _ o => o =? obj | _ => false end.

(** The session after a mono frame has been captured and drawn and a
    stereo pair has been captured: the read cursor is on the slot of the
    left eye, slot 1, and the slot of the right eye is slot 0. *)
Definition pair_captured : Session :=
  session (scripted nothing_fails []) 1 2
    [op_onPrePresentDX; op_onPreClearDX; op_threadFunc 1 1 no_msg; op_onPaint;
     op_onPostPresentDX; op_onPreSetViewportDX (Some (sentinel 0 0 0)); op_onPrePresentDX].

(** The environment with the log at the level of information. *)
Definition informing (env : Env) : Env :=
  {| respond := respond env; settings := settings env;
     log_info := true; log_verbose := log_verbose env |}.

(** The environment with the settings for drawing with the texture. *)
Definition with_texture (env : Env) : Env :=
  {| respond := respond env;
     settings := {| useTexture := true; matchOriginalMSAA := true;
                    stereoIndicator := stereoIndicator (settings env);
                    logLevel := logLevel (settings env) |};
     log_info := log_info env; log_verbose := log_verbose env |}.

(** The claim of the spec for a failed lock, as it is stated: the pass
    after the one in which the lock of a slot has failed attempts the same
    slot again.  [attempted] are the interop objects a lock was attempted on
    in a pass. *)
Definition skipped_slot_retried_as_claimed (env : Env) (q : Quadifier) : Prop :=
  let pass1 := onPaint env q [] in
  let pass2 := onPaint env (state pass1) (trace pass1) in
  let attempted1 := lock_attempts (trace pass1) in
  let attempted2 := lock_attempts (drop (length (trace pass1)) (trace pass2)) in
  ∀ object, object ∈ attempted1 → object ∈ attempted2.

(** The operations that run [endCapture]: it is run once, and on every
    path of the operation. *)
Definition advances_draw (op : Operation) : bool :=
  match op with
  | op_onPrePresentDX | op_endCapture _ | op_onStereoSignal => true
  | op_onPreSetViewportDX (Some v) => is_sentinel v
  | _ => false
  end.

(** The operations that may run a composite pass. *)
Definition runs_onPaint (op : Operation) : bool :=
  match op with
  | op_threadFunc _ _ _ | op_WindowProc _ _ _ _ | op_windowProc _ _ _ _
  | op_onPaint | op_onResize _ _ _ | op_redraw => true
  | _ => false
  end.

(** The claim of the spec for the labels, as it is stated: no slot whose
    label is still none is ever selected for composite, that is, no
    [glDrawBuffer] of a session is given the label none. *)
Definition untagged_never_selected_as_claimed (s : Session) : Prop :=
  GL_NONE ∉ selected (trace s).

Definition WM_PAINT_message : MSG := mkMSG 0x6000 WM_PAINT 0 0.

(** One frame is captured, the resources are created, and the window of
    the OpenGL thread receives WM_PAINT twice: the first pass takes the
    tagged slot 0, the second takes slot 1, which has never been tagged. *)
Definition painted_twice : Session :=
  session (scripted nothing_fails [WM_PAINT_message; WM_PAINT_message]) 1 2
    [op_onPrePresentDX; op_onPreClearDX; op_threadFunc 1 2 no_msg].

(** The object after [endCapture label]: the slot at the draw cursor is
    tagged and the cursor has moved on. *)
Definition captured (label : Z) (q q' : Quadifier) : Prop :=
  m_target q' = alter (set_drawBuffer label) (m_drawBuffer q) (m_target q) ∧
  m_drawBuffer q' = next (m_drawBuffer q) ∧
  m_readBuffer q' = m_readBuffer q.

(** Captures and passes in step.  A frame is captured by [onPrePresentDX],
    after the stereo signal when it is a pair; the composite pass that
    follows takes it.  Between two frames the session is [Idle]; after the
    signal the left eye is captured; after [onPrePresentDX] a frame is. *)
Inductive Phase : Type := Idle | LeftCaptured | FrameCaptured.

(** The composite passes among the calls of an operation: a pass raises
    the frame-done signal once, at its end. *)
Definition passes (calls : Trace) : nat := count is_signal calls.

(** The phase after an operation that has run [run] composite passes,
    [None] when the operation is out of step: a capture on a frame not yet
    composited, or a pass with no frame to take.  An operation of the OpenGL
    thread that may run a pass - the thread function with its message loop,
    the window procedure, a resize, a redraw - is placed by the passes it
    has run; the operations that run neither a capture nor a pass leave the
    phase as it is. *)
Definition phase_after (ph : Phase) (op : Operation) (run : nat) : option Phase :=
  if runs_onPaint op then
    match run, ph with
    | O, _ => Some ph
    | S O, FrameCaptured => Some Idle
    | _, _ => None
    end
  else
    match op, ph with
    | op_onPrePresentDX, (Idle | LeftCaptured) => Some FrameCaptured
    | op_onPreSetViewportDX (Some v), Idle =>
        Some (if is_sentinel v then LeftCaptured else Idle)
    | _, _ => if advances_draw op then None else Some ph
    end.

(** One operation of a session, with the phase: the passes of the
    operation are counted in the calls it has added to the history. *)
Definition step_in_phase (env : Env) (sp : Session * option Phase) (op : Operation) :
    Session * option Phase :=
  let s' := session_step env sp.1 op in
  (s', sp.2 ≫= λ ph, phase_after ph op (passes (drop (length (trace sp.1)) (trace s')))).

Definition in_step (env : Env) (device direct3D : Z) (ops : list Operation) : option Phase :=
  (fold_left (step_in_phase env) ops (construct device direct3D env, Some Idle)).2.

(** What a phase says of the object. *)
Definition in_phase (ph : Phase) (q : Quadifier) : Prop :=
  match ph with
  | Idle => m_readBuffer q = m_drawBuffer q
  | LeftCaptured =>
      m_drawBuffer q = next (m_readBuffer q) ∧
      label_at q (m_readBuffer q) = GL_BACK_LEFT ∧
      m_stereoMode q = true
  | FrameCaptured =>
      Nat.iter (length (pass_slots q)) next (m_readBuffer q) = m_drawBuffer q ∧
      GL_NONE ∉ label_at q <$> pass_slots q
  end.

(** The selection of a draw buffer with the label none. *)
Definition selects_none (c : Call) : bool :=
  match c with glDrawBuffer label => label =? GL_NONE | _ => false end.

(** The calls that a computation which runs no pass and selects no slot
    labelled none does not make. *)
Definition is_pass_call (c : Call) : bool := is_signal c || selects_none c.

(** [paces m]: the computation [m] keeps the cursors in the pool and
    selects no draw buffer with the label none, when it has run no pass,
    and then it leaves the view of the object as it was, and when it has run
    one pass on a captured frame, and then it leaves the session idle. *)
Definition paces {A : Type} (m : M A) : Prop :=
  ∀ env q t, wf q →
    wf (state (m env q t)) ∧
    ∃ rest, trace (m env q t) = t ++ rest ∧
      (passes rest = 0%nat → same_view q (state (m env q t)) ∧ GL_NONE ∉ selected rest) ∧
      (passes rest = 1%nat → in_phase FrameCaptured q →
         in_phase Idle (state (m env q t)) ∧ GL_NONE ∉ selected rest).

(** A stereo frame in step: the resources are created on both threads, the
    pair is captured, the pass takes it. *)
Definition stereo_frame : list Operation :=
  [op_onPreClearDX; op_onCreate; op_onPreSetViewportDX (Some (sentinel 0 0 1));
   op_onPrePresentDX; op_onPaint].

(** A frame is captured and the window procedure is told so, then a
    stereo pair is captured and the window is painted: the passes run from
    the window procedure. *)
Definition frames_in_step : list Operation :=
  [op_onPrePresentDX; op_onPreClearDX; op_onCreate;
   op_WindowProc 0x6000 WM_USER_NEWFRAME 0 0; op_onPostPresentDX;
   op_onPreSetViewportDX (Some (sentinel 0 0 1)); op_onPrePresentDX;
   op_WindowProc 0x6000 WM_PAINT 0 0; op_onPostPresentDX].

(** A frame is captured and the thread of OpenGL is run for two turns of
    its message loop, with WM_PAINT in its queue or with the new-frame
    notification delivered when it polls. *)
Definition thread_in_step : list Operation :=
  [op_onPrePresentDX; op_onPreClearDX; op_threadFunc 1 2 no_msg; op_onPostPresentDX].

(** The notifications sent by [SendNotifyMessage] since the queue was last
    polled, as the messages that the next poll has delivered. *)
Fixpoint notifications (t : Trace) (pending : list MSG) : list MSG :=
  match t with
  | [] => pending
  | PeekMessage :: t' => notifications t' []
  | SendNotifyMessage hWnd uMsg wParam lParam :: t' =>
      notifications t' (pending ++ [mkMSG hWnd uMsg wParam lParam])
  | _ :: t' => notifications t' pending
  end.

(** The environment in which [PeekMessage] delivers them. *)
Definition notifying (env : Env) : Env :=
  {| respond := λ t c,
       let r := respond env t c in
       match c with
       | PeekMessage =>
           {| result := result r; out := out r; out2 := out2 r;
              out_viewport := out_viewport r; out_desc := out_desc r;
              out_msg := out_msg r; out_rect := out_rect r;
              out_sent := notifications t [] |}
       | _ => r
       end;
     settings := settings env; log_info := log_info env; log_verbose := log_verbose env |}.

(** A computation that returns, whatever it calls. *)
Definition returns {A : Type} (m : M A) : Prop := counts (λ _, false) 0 m.

(** [reaches P R m k]: started on an object with [P], the computation [m]
    comes to run [k], on an object with [R] and after a longer history. *)
Definition reaches {A : Type} (P R : Quadifier → Prop) (m k : M A) : Prop :=
  ∀ env q t, P q → ∃ q1 rest, m env q t = k env q1 (t ++ rest) ∧ R q1.

(** The end of [createResources]: the thread is started and the
    initialisation is marked complete. *)
Definition createResources_end : M unit :=
  startRenderThread ;; modify (set_m_initialised true).

(** A slot with all its consumer-side objects: the image (texture or
    renderbuffer), the interop object and the framebuffer. *)
Definition allocated (useTexture : bool) (t : Target) : Prop :=
  (if useTexture then texture t else renderBuffer t) ≠ 0 ∧
  object t ≠ 0 ∧ frameBuffer t ≠ 0.

(** What the body of the loop leaves alone: the size of the pool, the
    interop device and the slots other than its own. *)
Definition same_but (i : nat) (q q' : Quadifier) : Prop :=
  length (m_target q') = length (m_target q) ∧
  m_interopGLDX q' = m_interopGLDX q ∧
  ∀ j, j ≠ i → target q' j = target q j.

Definition fails_register (c : Call) : bool :=
  match c with wglDXRegisterObjectNV _ _ _ _ _ => true | _ => false end.

Definition fails_attach (c : Call) : bool :=
  match c with
  | wglDXLockObjectsNV _ _ | glCheckFramebufferStatus _ => true
  | _ => false
  end.

Definition is_beginthreadex (c : Call) : bool :=
  match c with beginthreadex _ => true | _ => false end.

(** The claim of the spec for a failed creation, as it is stated: the
    consumer thread is not started and the initialisation is not marked
    complete. *)
Definition creation_failure_inert_as_claimed (s : Session) : Prop :=
  m_initialised (state s) = false ∧ count is_beginthreadex (trace s) = 0%nat.

(** The first frame is presented, the resources are created at the next
    clear, and on the thread the registration of the interop objects
    fails. *)
Definition failed_registration : Session :=
  session (scripted fails_register []) 1 2
    [op_onPrePresentDX; op_onPreClearDX; op_threadFunc 1 1 no_msg].

(** ** The failures of the creation on the OpenGL thread *)

(** The calls whose answer [onCreate] tests: loading the extensions, opening
    the interop device, and for a slot the name of the image, the entry
    point for the share handle, the interop registration and the name of the
    framebuffer. *)
Definition is_creation_call (c : Call) : bool :=
  match c with
  | glx_load | wglDXOpenDeviceNV _ | glGenTextures | glGenRenderbuffers
  | wglDXSetResourceShareHandleNV_available | wglDXRegisterObjectNV _ _ _ _ _
  | glGenFramebuffers => true
  | _ => false
  end.

(** Such a call is refused when the environment answers it with zero. *)
Definition refuses (env : Env) (t : Trace) (c : Call) : bool :=
  is_creation_call c && (result (respond env t c) =? 0).

(** Whether one of the calls [rest], made after the history [t], is
    refused. *)
Fixpoint refused_in (env : Env) (t rest : Trace) : bool :=
  match rest with
  | [] => false
  | c :: rest' => refuses env t c || refused_in env (t ++ [c]) rest'
  end.

(** What [onCreate] writes when the call [c] is refused. *)
Definition error_calls (c : Call) : Trace :=
  match c with
  | glx_load => [Log_print "error: failed to load GL extensions"]
  | wglDXOpenDeviceNV _ => [Log_print "error: failed to create GL/DX interop"]
  | glGenTextures => [Log_print "error: failed to generate texture ID"]
  | glGenRenderbuffers => [Log_print "error: failed to generate render buffer ID"]
  | wglDXSetResourceShareHandleNV_available => [Log_print "Failed to set SharedHandle: "]
  | wglDXRegisterObjectNV _ _ _ _ _ =>
      [GetLastError; Log_print "error: wglDXRegisterObjectNV failed for render target: "]
  | glGenFramebuffers => [Log_print "error: glGenFramebuffers failed"]
  | _ => []
  end.

(** The calls [work], made after [t], stop at a refused call: none is
    refused before it, and only its error is written after it. *)
Definition stops_at (env : Env) (t work : Trace) : Prop :=
  ∃ before c,
    work = before ++ c :: error_calls c ∧
    refused_in env t before = false ∧
    refuses env (t ++ before) c = true.

(** The defaults of OpenGL that end [onCreate]. *)
Definition onCreate_defaults : Trace :=
  [GL "glEnable" [GL_COLOR_MATERIAL]; GL "glDisable" [GL_LIGHTING];
   GL "glDisable" [GL_DEPTH_TEST];
   GL "glMatrixMode" [GL_MODELVIEW]; GL "glLoadIdentity" [];
   GL "glMatrixMode" [GL_PROJECTION]; GL "glLoadIdentity" []].

(** [proceeds ok m]: the computation [m] returns; when its result is [ok]
    none of its calls was refused, and otherwise it has stopped at a refused
    call. *)
Definition proceeds {A : Type} (ok : A → bool) (m : M A) : Prop :=
  ∀ env q t, ∃ a q' work,
    m env q t = (Returned a, q', t ++ work) ∧
    if ok a then refused_in env t work = false else stops_at env t work.
(** The part of [onCreate_objects] before the defaults: the extensions are
    loaded and the block is run once. *)
Definition onCreate_creation (useTexture : bool) : M bool :=
  l ← call glx_load;
  if result l =? 0
  then Log "error: failed to load GL extensions" ;; mret false
  else do_while 1 (onCreate_block useTexture) false_value false.

(** ** The vocabulary of the further properties *)

(** [emits I p n m]: started on an object with [I], the computation [m]
    leaves an object with [I], also when it ends the process, and makes at
    most [n] calls of the kind [p]. *)
Definition emits {A : Type} (I : Quadifier → Prop) (p : Call → bool) (n : nat) (m : M A) : Prop :=
  ∀ env q t, I q →
    I (state (m env q t)) ∧
    ∃ rest, trace (m env q t) = t ++ rest ∧ (count p rest ≤ n)%nat.

(** No call at all. *)
Definition no_call : Call → bool := λ _, false.

(** The members of the object that the OpenGL thread writes: the read
    cursor, the statistics of the passes, the objects of OpenGL and, in
    every slot, the image, the interop object and the framebuffer. *)
Definition consumer_side (q : Quadifier) :=
  (m_readBuffer q, m_framesGL q, m_samplesGL q, m_quadListGL q, m_interopGLDX q,
   m_firstFrameTimeGL q, m_lastFrameTimeGL q,
   (λ t, (texture t, renderBuffer t, object t, frameBuffer t)) <$> m_target q).

(** The members that the Direct3D thread writes: the draw cursor, the mode
    flag, its frame counter, what [createResources] finds out and creates
    and, in every slot, the surface, its share handle and the label. *)
Definition producer_side (q : Quadifier) :=
  (m_drawBuffer q, m_stereoMode q, m_framesDX q, m_samplesDX q, m_backBuffer q,
   m_presentedTargets q, m_thread q, m_sourceWindow q, m_initialised q,
   (λ t, (surface t, shareHandle t, drawBuffer t)) <$> m_target q).

(** The members set by the constructor and never written again. *)
Definition fixed_side (q : Quadifier) := (m_device q, m_direct3D q, m_stereoAvailable q).

(** The methods of IDirect3DDevice9, IDirect3D9 and IDirect3DSurface9. *)
Definition is_Direct3D (c : Call) : bool :=
  match c with
  | GetRenderTarget _ | SetRenderTarget _ _ | GetViewport | SetViewport _
  | GetCreationParameters | GetAdapterDisplayMode _ | GetDepthStencilSurface
  | CreateRenderTarget _ _ _ _ _ _ | GetDesc _ | Release _ => true
  | _ => false
  end.

(** The entry points of OpenGL and of the GL/DX interop. *)
Definition is_OpenGL (c : Call) : bool :=
  match c with
  | glx_load | wglDXOpenDeviceNV _ | wglDXSetResourceShareHandleNV_available
  | wglDXSetResourceShareHandleNV _ _ | wglDXRegisterObjectNV _ _ _ _ _
  | wglDXLockObjectsNV _ _ | wglDXUnlockObjectsNV _ _
  | glGenTextures | glGenRenderbuffers | glGenFramebuffers | glGenLists _
  | glCheckFramebufferStatus _ | glGetIntegerv _ | glGetString _
  | glGetRenderbufferParameteriv _ _ | glDrawBuffer _ | glBindFramebuffer _ _
  | glBlitFramebuffer _ _ _ _ _ _ _ _ _ _ | glBindTexture _ _ | glCallList _
  | GL _ _ => true
  | _ => false
  end.

(** The multisample level [createResources] leaves in [m_samplesDX]: none,
    or one of D3DMULTISAMPLE_2_SAMPLES to D3DMULTISAMPLE_16_SAMPLES. *)
Definition samples_in_range (q : Quadifier) : Prop :=
  m_samplesDX q = 0 ∨ 2 ≤ m_samplesDX q ≤ 16.

(** A window is asked for a number of samples outside 2..16. *)
Definition asks_samples_out_of_range (c : Call) : bool :=
  match c with
  | Window_create _ _ _ _ attributes =>
      negb (forallb (λ a, negb (a.1 =? WGL_SAMPLES_ARB) || ((2 <=? a.2) && (a.2 <=? 16)))
              attributes)
  | _ => false
  end.

(** The render target the device has at the start of [onPrePresentDX],
    and the one it has when [isPresentedRenderTarget] asks after [t]. *)
Definition presented_target (env : Env) (t : Trace) : Resp :=
  respond env (t ++ vlog env "onPrePresentDX") (GetRenderTarget 0).

Definition current_target (env : Env) (t : Trace) : Resp :=
  respond env t (GetRenderTarget 0).

(** What [isPresentedRenderTarget] writes to the log about the render
    target, in verbose mode. *)
Definition described (env : Env) (t : Trace) : Trace :=
  if log_verbose env then
    [GetDesc (out (current_target env t))] ++
    (if result (respond env (t ++ [GetRenderTarget 0]) (GetDesc (out (current_target env t))))
        =? S_OK
     then [Log_print "Render target: "] else [])
  else [].

Definition is_Release (c : Call) : bool :=
  match c with Release _ => true | _ => false end.

Definition is_SetRenderTarget (c : Call) : bool :=
  match c with SetRenderTarget _ _ => true | _ => false end.

(** The calls that create the shared resources: the render targets and the
    thread of OpenGL. *)
Definition is_creation (c : Call) : bool :=
  match c with
  | CreateRenderTarget _ _ _ _ _ _ | beginthreadex _ => true
  | _ => false
  end.

(** The calls by which the module only asks: the log and the inquiries
    about the render target of the device. *)
Definition is_inquiry (c : Call) : bool :=
  match c with
  | Log_print _ | GetRenderTarget _ | GetDesc _ | Release _ => true
  | _ => false
  end.

(** The hooks, the operations the device proxy calls on the Direct3D
    thread. *)
Definition is_hook (op : Operation) : bool :=
  match op with
  | op_onCreateDX | op_onPreClearDX | op_onPostClearDX | op_onPrePresentDX
  | op_onPostPresentDX | op_onPreSetViewportDX _ => true
  | _ => false
  end.

(** [ends_only E m]: when [m] ends the process, the environment, the calls
    made so far and the exit code are as [E] says. *)
Definition ends_only {A : Type} (E : Env → Trace → Z → Prop) (m : M A) : Prop :=
  ∀ env q t code, outcome (m env q t) = Exited code → E env (trace (m env q t)) code.

(** The process is not ended. *)
Definition never : Env → Trace → Z → Prop := λ _ _ _, False.

(** The way [beginCapture] ends the process: the device has refused the
    new render target, the failure is logged, and the code is 1. *)
Definition failed_redirection (env : Env) (t : Trace) (code : Z) : Prop :=
  code = 1 ∧
  ∃ before surface,
    t = before ++ [SetRenderTarget 0 surface; Log_print "Error Setting Render Target";
                   exit_process 1] ∧
    result (respond env before (SetRenderTarget 0 surface)) ≠ D3D_OK.

(** The operations that run [beginCapture] on one of their paths. *)
Definition runs_beginCapture (op : Operation) : bool :=
  match op with
  | op_onPreClearDX | op_beginCapture | op_onStereoSignal => true
  | op_onPreSetViewportDX (Some v) => is_sentinel v
  | _ => false
  end.

(** The thread function, the one operation with a loop that may not end. *)
Definition is_threadFunc (op : Operation) : bool :=
  match op with op_threadFunc _ _ _ => true | _ => false end.

(** The messages [windowProc] has a handler for. *)
Definition handled_here (uMsg : Z) : bool :=
  (uMsg =? WM_DESTROY) || (uMsg =? WM_USER_NEWFRAME) || (uMsg =? WM_PAINT) || (uMsg =? WM_SIZE).

Definition is_PostMessage (c : Call) : bool :=
  match c with PostMessage _ _ _ _ => true | _ => false end.

Definition is_endthreadex (c : Call) : bool :=
  match c with endthreadex _ => true | _ => false end.

(** The calls of [threadFunc] itself around its window procedure: the
    poll of the message queue and the end of the thread. *)
Definition is_loop_call (c : Call) : bool := is_endthreadex c || is_PeekMessage c.

(** What [threadFunc] has done by its result, after [fuel] turns of the
    message loop at most: it has returned 0 and its last call has ended the
    thread, or it is still in the loop and has polled the queue [fuel]
    times. *)
Definition thread_result (fuel : nat) (res : option Z) (rest : Trace) : Prop :=
  match res with
  | Some code =>
      code = 0 ∧
      ∃ before, rest = before ++ [endthreadex 0] ∧ count is_endthreadex before = 0%nat
  | None => count is_endthreadex rest = 0%nat ∧ count is_PeekMessage rest = fuel
  end.

Definition finishes (fuel : nat) (m : M (option Z)) : Prop :=
  ∀ env q t, ∃ res q' rest,
    m env q t = (Returned res, q', t ++ rest) ∧ thread_result fuel res rest.

(** The thread has nothing to do: whenever the queue is polled, no message
    that was sent to the window is delivered and no message is taken from
    the queue. *)
Definition nothing_to_do (env : Env) : Prop :=
  ∀ t, out_sent (respond env t PeekMessage) = [] ∧ result (respond env t PeekMessage) = 0.

Definition is_Log_print (c : Call) : bool :=
  match c with Log_print _ => true | _ => false end.

(** The calls that build the display list of the textured quad. *)
Definition builds_list (c : Call) : bool :=
  match c with
  | glGenLists _ | GL "glNewList" _ | GL "glEndList" _ => true
  | _ => false
  end.

(** A call of the display list 0, which is no list. *)
Definition calls_no_list (c : Call) : bool :=
  match c with glCallList list => list =? 0 | _ => false end.

(** What [onDestroy] frees: the display list, if there is one. *)
Definition freed (q : Quadifier) : Trace :=
  if m_quadListGL q =? 0 then [] else [GL "glDeleteLists" [m_quadListGL q; 1]].

(** The performance statistics: the two frame counters and the two time
    stamps. *)
Definition statistics (q : Quadifier) :=
  (m_framesDX q, m_framesGL q, m_firstFrameTimeGL q, m_lastFrameTimeGL q).

Definition is_clock (c : Call) : bool :=
  match c with clock => true | _ => false end.

(** The operations that run [onStereoSignal]. *)
Definition signals_stereo (op : Operation) : bool :=
  match op with
  | op_onStereoSignal => true
  | op_onPreSetViewportDX (Some v) => is_sentinel v
  | _ => false
  end.

(** ** The frame counters *)

(** The values of an [unsigned] counter. *)
Definition in_range32 (z : Z) : Prop := 0 ≤ z < 2 ^ 32.

(** [tallies I p f m]: [m] keeps the invariant [I] and adds to the counter
    [f] of the object, modulo 2^32, the number of the calls of the kind [p]
    that it makes. *)
Definition tallies {A : Type} (I : Quadifier → Prop) (p : Call → bool) (f : Quadifier → Z)
    (m : M A) : Prop :=
  ∀ env q t, I q →
    I (state (m env q t)) ∧
    ∃ rest, trace (m env q t) = t ++ rest ∧
            f (state (m env q t)) = wrap32 (f q + Z.of_nat (count p rest)).

(** [m_frameDone.signal()], with which a pass tells the producer that the
    frame is done. *)
Definition is_frame_done (c : Call) : bool :=
  match c with FrameDone_signal => true | _ => false end.

(** The object is in stereo mode, with a frame counter of the OpenGL
    thread. *)
Definition stereo_counting (q : Quadifier) : Prop :=
  m_stereoMode q = true ∧ in_range32 (m_framesGL q).

(** The number of times an operation runs [endCapture]: once in the
    present hook, once in the stereo signal, which the viewport hook runs
    for the sentinel rectangle, and not in any other operation. *)
Definition captures (op : Operation) : Z :=
  match op with
  | op_onPrePresentDX | op_onStereoSignal | op_endCapture _ => 1
  | op_onPreSetViewportDX (Some v) => if is_sentinel v then 1 else 0
  | _ => 0
  end.

Definition captures_of (ops : list Operation) : Z :=
  fold_right (λ op n, captures op + n) 0 ops.

(** ** The brackets of OpenGL *)

(** A call of OpenGL by its name. *)
Definition is_GL (name : string) (c : Call) : bool :=
  match c with GL n _ => String.eqb n name | _ => false end.

(** The depth of the brackets after the calls of a trace, from the depth
    [d]: a call of the kind [up] opens one, a call of the kind [down] closes
    one, and there is no depth when one is closed that was not open. *)
Fixpoint walk (up down : Call → bool) (t : Trace) (d : nat) : option nat :=
  match t with
  | [] => Some d
  | c :: t' =>
      if up c then walk up down t' (S d)
      else if down c then
        match d with
        | O => None
        | S d' => walk up down t' d'
        end
      else walk up down t' d
  end.

(** The brackets of a trace are well nested: nothing is closed that was
    not open, and nothing is left open. *)
Definition nested (up down : Call → bool) (t : Trace) : Prop :=
  walk up down t 0%nat = Some 0%nat.

(** [lifts up down a b m]: [m] returns, and its calls take the depth of
    the brackets from [a] to [b]. *)
Definition lifts {A : Type} (up down : Call → bool) (a b : nat) (m : M A) : Prop :=
  ∀ env q t, ∃ x q' rest,
    m env q t = (Returned x, q', t ++ rest) ∧ walk up down rest a = Some b.

(** The four brackets of OpenGL in the code: the attribute stack, the
    matrix stacks, the display list and the primitive. *)
Definition brackets : list (string * string) :=
  [("glPushAttrib", "glPopAttrib"); ("glPushMatrix", "glPopMatrix");
   ("glNewList", "glEndList"); ("glBegin", "glEnd")].

(** ** The render targets of the pool *)

(** The part of [createResources] from the point on where the format and
    the multisample type of the render targets are known. *)
Definition createTargets (format multisampleType : Z) : M unit :=
  (* store the multisampling level for the OpenGL window *)
  modify (set_m_samplesDX
            (if (D3DMULTISAMPLE_2_SAMPLES <=? multisampleType) &&
                (multisampleType <=? D3DMULTISAMPLE_16_SAMPLES)
             then wrap32 multisampleType else 0)) ;;
  (* information about the depth/stencil format *)
  ds ← call GetDepthStencilSurface;
  (if result ds =? S_OK then
     d ← call (GetDesc (out ds));
     (if result d =? S_OK
      then info "DX depth/stencil surface format: "
      else Log "error: failed to get depth surface description") ;;
     call_ (Release (out ds))
   else Log "error: failed to get depth stencil surface") ;;
  (* create render target(s) *)
  q ← get;
  for_targets (length (m_target q)) 0 (createRenderTarget format multisampleType) ;;
  (* get the current render target and save for later use *)
  bb ← call (GetRenderTarget 0);
  when (result bb =? S_OK) (modify (set_m_backBuffer (out bb))) ;;
  (* create window *)
  startRenderThread ;;
  (* we have completed initialisation *)
  modify (set_m_initialised true).

(** [leads p P m K]: started on an object with [P], the computation [m]
    comes to run [K x] for some [x], having made no call of the kind [p]. *)
Definition leads {A X : Type} (p : Call → bool) (P : Quadifier → Prop) (m : M A) (K : X → M A) :
    Prop :=
  ∀ env q t, P q →
    ∃ x q1 rest, m env q t = K x env q1 (t ++ rest) ∧ count p rest = 0%nat.

(** A render target is asked for that is not the one of the given size,
    format and multisample type, with quality 0 and not lockable. *)
Definition other_target (width height format multisampleType : Z) (c : Call) : bool :=
  match c with
  | CreateRenderTarget w h f m quality lockable =>
      negb ((w =? width) && (h =? height) && (f =? format) && (m =? multisampleType) &&
            (quality =? 0) && (lockable =? 0))
  | _ => false
  end.

(** ** What a pass writes *)

(** The object [q'] differs from [q] at most in the members a pass writes:
    the read cursor, the display list and the statistics of the passes. *)
Definition pass_writes (q q' : Quadifier) : Prop :=
  ∃ readBuffer quadList frames first last,
    q' = set_m_readBuffer readBuffer
           (set_m_quadListGL quadList
              (set_m_framesGL frames
                 (set_m_firstFrameTimeGL first (set_m_lastFrameTimeGL last q)))).

(** One stereo frame, as the two threads go through it: the clear starts
    the capture of the left eye, the sentinel viewport ends it and starts
    the capture of the right eye, the present ends that and notifies the
    window, the pass draws the pair, and the producer has waited for it. *)
Definition stereo_pair (v : D3DVIEWPORT9) : list Operation :=
  [op_onPreClearDX; op_onPreSetViewportDX (Some v); op_onPrePresentDX; op_onPaint;
   op_onPostPresentDX].

(** The object after the first frame and a first stereo signal, with every
    call answered well. *)
Definition stereo_started : Session :=
  run (scripted nothing_fails []) [op_onPreSetViewportDX (Some (sentinel 0 0 0))] first_frame.

(** * Properties *)

(** ** Running a computation *)

Ltac M_unfold :=
  cbv beta iota zeta delta
    [mbind mret M_bind M_ret get modify ask call call_ when exit setting
     Log_info Log_verbose Log info verbose getTime outcome state trace calls fst snd].

(** Case analysis on whatever test the run is stuck at. *)
Ltac M_case :=
  match goal with
  | |- context [if ?b then _ else _] => destruct b eqn:?
  end.

Ltac M_cases := M_unfold; repeat (M_case; M_unfold).

Lemma bind_run {A B : Type} (m : M A) (f : A → M B) env q t :
  (m ≫= f) env q t =
  match m env q t with
  | (Returned a, q', t') => f a env q' t'
  | (Exited code, q', t') => (Exited code, q', t')
  end.
Proof. reflexivity. Qed.

(** ** Properties of the object kept by every method *)

Section Keeps.
Context (P : Quadifier → Prop).

Lemma keeps_ret {A : Type} (a : A) : keeps P (mret a).
Proof. intros env q t H. exact H. Qed.

Lemma keeps_bind {A B : Type} (m : M A) (f : A → M B) :
  keeps P m → (∀ a, keeps P (f a)) → keeps P (m ≫= f).
Proof.
  intros Hm Hf env q t H. rewrite bind_run.
  specialize (Hm env q t H).
  destruct (m env q t) as [[[a | code] q'] t']; simpl in *.
  - apply Hf, Hm.
  - exact Hm.
Qed.

Lemma keeps_get : keeps P get.
Proof. intros env q t H. exact H. Qed.

Lemma keeps_ask : keeps P ask.
Proof. intros env q t H. exact H. Qed.

Lemma keeps_call c : keeps P (call c).
Proof. intros env q t H. exact H. Qed.

Lemma keeps_exit {A : Type} code : keeps P (@exit A code).
Proof. intros env q t H. exact H. Qed.

Lemma keeps_modify f : (∀ q, P q → P (f q)) → keeps P (modify f).
Proof. intros Hf env q t H. apply Hf, H. Qed.

Lemma keeps_when b m : keeps P m → keeps P (when b m).
Proof. intros Hm. destruct b; [exact Hm | apply keeps_ret]. Qed.

Lemma keeps_call_ c : keeps P (call_ c).
Proof. apply keeps_bind; [apply keeps_call | intros; apply keeps_ret]. Qed.

Lemma keeps_setting {A : Type} (f : Settings → A) : keeps P (setting f).
Proof. apply keeps_bind; [apply keeps_ask | intros; apply keeps_ret]. Qed.

Lemma keeps_Log_info : keeps P Log_info.
Proof. apply keeps_bind; [apply keeps_ask | intros; apply keeps_ret]. Qed.

Lemma keeps_Log_verbose : keeps P Log_verbose.
Proof. apply keeps_bind; [apply keeps_ask | intros; apply keeps_ret]. Qed.

Lemma keeps_Log text : keeps P (Log text).
Proof. apply keeps_call_. Qed.

Lemma keeps_info text : keeps P (info text).
Proof.
  apply keeps_bind; [apply keeps_Log_info | intros; apply keeps_when, keeps_Log].
Qed.

Lemma keeps_verbose text : keeps P (verbose text).
Proof.
  apply keeps_bind; [apply keeps_Log_verbose | intros; apply keeps_when, keeps_Log].
Qed.

Lemma keeps_getTime : keeps P getTime.
Proof. apply keeps_bind; [apply keeps_call | intros; apply keeps_ret]. Qed.

(** The loops keep what their bodies keep. *)

Lemma keeps_for_targets remaining i body :
  (∀ i, keeps P (body i)) → keeps P (for_targets remaining i body).
Proof.
  intros Hbody. revert i.
  induction remaining as [| remaining IH]; intros i; simpl.
  - apply keeps_ret.
  - apply keeps_bind; [apply Hbody |].
    intros [|]; [apply IH | apply keeps_ret].
Qed.

Lemma keeps_do_while {S : Type} fuel (block : S → M (S * bool)) cond s :
  (∀ s, keeps P (block s)) → keeps P (do_while fuel block cond s).
Proof.
  intros Hblock. revert s.
  induction fuel as [| fuel IH]; intros s; simpl.
  - apply keeps_ret.
  - apply keeps_bind; [apply Hblock |].
    intros r. destruct (r.2 && cond); [apply IH | apply keeps_ret].
Qed.

Lemma keeps_logRenderbufferParameters names :
  keeps P (logRenderbufferParameters names).
Proof.
  induction names as [| name names IH]; simpl.
  - apply keeps_ret.
  - apply keeps_bind; [apply keeps_call_ | intros _].
    apply keeps_bind; [apply keeps_Log | intros _; exact IH].
Qed.
End Keeps.

(** One step through the structure of a computation; [leaf] proves that a
    state change keeps the property. *)
Ltac keeps_step leaf :=
  lazymatch goal with
  | |- keeps _ (mbind _ _) => apply keeps_bind; [| intros ?]
  | |- keeps _ (mret _) => apply keeps_ret
  | |- keeps _ get => apply keeps_get
  | |- keeps _ ask => apply keeps_ask
  | |- keeps _ (call _) => apply keeps_call
  | |- keeps _ (call_ _) => apply keeps_call_
  | |- keeps _ (exit _) => apply keeps_exit
  | |- keeps _ (setting _) => apply keeps_setting
  | |- keeps _ Log_info => apply keeps_Log_info
  | |- keeps _ Log_verbose => apply keeps_Log_verbose
  | |- keeps _ (Log _) => apply keeps_Log
  | |- keeps _ (info _) => apply keeps_info
  | |- keeps _ (verbose _) => apply keeps_verbose
  | |- keeps _ getTime => apply keeps_getTime
  | |- keeps _ (when _ _) => apply keeps_when
  | |- keeps _ (modify _) => apply keeps_modify; leaf
  | |- keeps _ (for_targets _ _ _) => apply keeps_for_targets; intros ?
  | |- keeps _ (do_while _ _ _ _) => apply keeps_do_while; intros ?
  | |- keeps _ (logRenderbufferParameters _) => apply keeps_logRenderbufferParameters
  | |- keeps _ (if ?b then _ else _) => destruct b
  | |- keeps _ (match ?x with _ => _ end) => destruct x
  end.

Ltac keeps_all leaf := repeat keeps_step leaf.

(** A change of a slot that leaves its label alone. *)
Lemma labels_alter (f : Target → Target) (i : nat) (pool : list Target) :
  (∀ x, drawBuffer (f x) = drawBuffer x) →
  drawBuffer <$> alter f i pool = drawBuffer <$> pool.
Proof.
  intros Hf. revert i. induction pool as [| x pool IH]; intros [| i]; simpl.
  - reflexivity.
  - reflexivity.
  - rewrite Hf. reflexivity.
  - f_equal. apply IH.
Qed.

Ltac same_label_tac :=
  intros ?;
  repeat match goal with |- context [if ?b then _ else _] => destruct b end;
  reflexivity.

Ltac same_view_tac :=
  repeat split; simpl; unfold update_target; simpl;
  rewrite ?length_alter, ?labels_alter by same_label_tac; reflexivity.

Section KeepsMethods.
Context (P : Quadifier → Prop).
Hypothesis P_view : ∀ q q', same_view q q' → P q → P q'.

(** The four state changes a property of the view can notice. *)
Hypothesis P_stereo : ∀ q, P q → P (set_m_stereoMode true q).
Hypothesis P_draw :
  ∀ q, P q → P (set_m_drawBuffer ((m_drawBuffer q + 1) mod length (m_target q))%nat q).
Hypothesis P_tag :
  ∀ q label, P q → P (update_target (m_drawBuffer q) (set_drawBuffer label) q).
Hypothesis P_read :
  ∀ q, P q → P (set_m_readBuffer ((m_readBuffer q + 1) mod length (m_target q))%nat q).

Ltac leaf :=
  let q := fresh "q" in
  let Hq := fresh "Hq" in
  intros q Hq;
  first [ apply P_stereo, Hq
        | apply P_draw, Hq
        | apply P_tag, Hq
        | apply P_read, Hq
        | refine (P_view q _ _ Hq); same_view_tac ].

Ltac method := keeps_all leaf.

Lemma keeps_beginCapture : keeps P beginCapture.
Proof using P_view. unfold beginCapture. method. Qed.

Lemma keeps_endCapture drawBuffer : keeps P (endCapture drawBuffer).
Proof using P_view P_draw P_tag. unfold endCapture. method. Qed.

Lemma keeps_onStereoSignal : keeps P onStereoSignal.
Proof using P_view P_draw P_tag P_stereo.
  unfold onStereoSignal. method.
  - apply keeps_endCapture.
  - apply keeps_beginCapture.
Qed.

Lemma keeps_onPreSetViewportDX pViewport : keeps P (onPreSetViewportDX pViewport).
Proof using P_view P_draw P_tag P_stereo.
  unfold onPreSetViewportDX. method. apply keeps_onStereoSignal.
Qed.

Lemma keeps_onPrePresentDX : keeps P onPrePresentDX.
Proof using P_view P_draw P_tag.
  unfold onPrePresentDX. method; apply keeps_endCapture.
Qed.

Lemma keeps_onPostPresentDX : keeps P onPostPresentDX.
Proof using Type. unfold onPostPresentDX. method. Qed.

Lemma keeps_isPresentedRenderTarget : keeps P isPresentedRenderTarget.
Proof using Type. unfold isPresentedRenderTarget. method. Qed.

Lemma keeps_startRenderThread : keeps P startRenderThread.
Proof using P_view. unfold startRenderThread. method. Qed.

Lemma keeps_createResources : keeps P createResources.
Proof using P_view.
  unfold createResources. method;
    try apply keeps_startRenderThread; unfold createRenderTarget; method.
Qed.

Lemma keeps_onPreClearDX : keeps P onPreClearDX.
Proof using P_view.
  unfold onPreClearDX. method;
    first [apply keeps_isPresentedRenderTarget | apply keeps_createResources
          | apply keeps_beginCapture].
Qed.

Lemma keeps_drawStereoIndicator : keeps P drawStereoIndicator.
Proof using Type. unfold drawStereoIndicator. method. Qed.

Lemma keeps_buildQuadList : keeps P buildQuadList.
Proof using P_view. unfold buildQuadList. method. Qed.

Lemma keeps_onPaint_eye useTexture mustUseBlit :
  keeps P (onPaint_eye useTexture mustUseBlit).
Proof using P_view P_read.
  unfold onPaint_eye, lockTarget. method; apply keeps_buildQuadList.
Qed.

Lemma keeps_onPaint_eyes turns useTexture mustUseBlit :
  keeps P (onPaint_eyes turns useTexture mustUseBlit).
Proof using P_view P_read.
  induction turns as [| turns IH]; simpl.
  - apply keeps_ret.
  - apply keeps_bind; [apply keeps_onPaint_eye | intros drawBuffer].
    destruct (negb (drawBuffer =? GL_BACK_LEFT)); [apply keeps_ret | exact IH].
Qed.

Lemma keeps_onPaint : keeps P onPaint.
Proof using P_view P_read.
  unfold onPaint, onPaint_begin, onPaint_end, onPaint_statistics. method;
    first [apply keeps_onPaint_eyes | apply keeps_drawStereoIndicator].
Qed.

Lemma keeps_onDestroy : keeps P onDestroy.
Proof using P_view. unfold onDestroy. method. Qed.

Lemma keeps_onWM_PAINT hWnd : keeps P (onWM_PAINT hWnd).
Proof using P_view P_read. unfold onWM_PAINT. method. apply keeps_onPaint. Qed.

Lemma keeps_WindowProc_over proc hWnd uMsg wParam lParam :
  (∀ h u w l, keeps P (proc h u w l)) →
  keeps P (WindowProc_over proc hWnd uMsg wParam lParam).
Proof using Type. intros Hproc. unfold WindowProc_over. method. apply Hproc. Qed.

Lemma keeps_redraw : keeps P redraw.
Proof using P_view P_read.
  unfold redraw. method.
  apply keeps_WindowProc_over. intros. apply keeps_onWM_PAINT.
Qed.

Lemma keeps_onResize type w h : keeps P (onResize type w h).
Proof using P_view P_read. unfold onResize. method. apply keeps_redraw. Qed.

Lemma keeps_windowProc hWnd uMsg wParam lParam :
  keeps P (windowProc hWnd uMsg wParam lParam).
Proof using P_view P_read.
  unfold windowProc. method;
    first [apply keeps_onDestroy | apply keeps_redraw | apply keeps_onWM_PAINT
          | apply keeps_onResize].
Qed.

Lemma keeps_WindowProc hWnd uMsg wParam lParam :
  keeps P (WindowProc hWnd uMsg wParam lParam).
Proof using P_view P_read.
  apply keeps_WindowProc_over. intros. apply keeps_windowProc.
Qed.

Lemma keeps_WindowProcSource hWnd uMsg wParam lParam :
  keeps P (WindowProcSource hWnd uMsg wParam lParam).
Proof using Type. unfold WindowProcSource. method. Qed.

Lemma keeps_onCreate : keeps P onCreate.
Proof using P_view.
  unfold onCreate, onCreate_objects. method.
  unfold onCreate_block. method.
  unfold onCreate_target, setupFramebuffer, attachTarget. method.
Qed.

Lemma keeps_deliver sent : keeps P (deliver sent).
Proof using P_view P_read.
  induction sent as [| msg sent IH]; simpl.
  - apply keeps_ret.
  - apply keeps_bind; [apply keeps_WindowProc | intros _; exact IH].
Qed.

Lemma keeps_messageLoop fuel current : keeps P (messageLoop fuel current).
Proof using P_view P_read.
  revert current. induction fuel as [| fuel IH]; intros current; simpl.
  - apply keeps_ret.
  - apply keeps_bind; [apply keeps_call | intros p].
    apply keeps_bind; [apply keeps_deliver | intros _].
    apply keeps_bind.
    + unfold onIdle. method. apply keeps_WindowProc.
    + intros msg. destruct (negb (message msg =? WM_QUIT)); [apply IH | apply keeps_ret].
Qed.

Lemma keeps_threadFunc context fuel uninitialised :
  keeps P (threadFunc context fuel uninitialised).
Proof using P_view P_read.
  unfold threadFunc, threadFunc_end. method;
    first [apply keeps_onCreate | apply keeps_messageLoop].
Qed.

(** Every operation keeps a property of the view that survives the four
    state changes. *)
Lemma keeps_perform op : keeps P (perform op).
Proof using P_view P_stereo P_draw P_tag P_read.
  destruct op; simpl; method;
    first [ apply keeps_onPreClearDX | apply keeps_onPrePresentDX
          | apply keeps_onPostPresentDX | apply keeps_onPreSetViewportDX
          | apply keeps_isPresentedRenderTarget | apply keeps_createResources
          | apply keeps_startRenderThread | apply keeps_beginCapture
          | apply keeps_endCapture | apply keeps_onStereoSignal
          | apply keeps_threadFunc | apply keeps_WindowProc
          | apply keeps_windowProc | apply keeps_onCreate | apply keeps_onDestroy
          | apply keeps_onPaint | apply keeps_onResize | apply keeps_redraw
          | apply keeps_ret ].
Qed.

(** The operations of the Direct3D thread never move the read cursor... *)
Lemma keeps_producer op :
  on_producer_thread op = true → keeps P (perform op).
Proof using P_view P_stereo P_draw P_tag.
  destruct op; simpl; intros Hop; try discriminate Hop; method;
    first [ apply keeps_onPreClearDX | apply keeps_onPrePresentDX
          | apply keeps_onPostPresentDX | apply keeps_onPreSetViewportDX
          | apply keeps_isPresentedRenderTarget | apply keeps_createResources
          | apply keeps_startRenderThread | apply keeps_beginCapture
          | apply keeps_endCapture | apply keeps_onStereoSignal
          | apply keeps_ret ].
Qed.

(** ... and those of the OpenGL thread move neither the draw cursor nor
    the mode flag. *)
Lemma keeps_consumer op :
  on_producer_thread op = false → keeps P (perform op).
Proof using P_view P_read.
  destruct op; simpl; intros Hop; try discriminate Hop; method;
    first [ apply keeps_threadFunc | apply keeps_WindowProc
          | apply keeps_windowProc | apply keeps_onCreate | apply keeps_onDestroy
          | apply keeps_onPaint | apply keeps_onResize | apply keeps_redraw
          | apply keeps_ret ].
Qed.
End KeepsMethods.

(** The invariants carry over to sessions. *)
Lemma keeps_run (P : Quadifier → Prop) env ops :
  (∀ op, keeps P (perform op)) →
  ∀ s, P (state s) → P (state (run env ops s)).
Proof.
  intros Hop. induction ops as [| op ops IH]; intros s Hs; simpl.
  - exact Hs.
  - apply IH. unfold session_step.
    destruct (outcome s); [apply Hop, Hs | exact Hs].
Qed.

Lemma run_app env ops ops' s : run env (ops ++ ops') s = run env ops' (run env ops s).
Proof. apply fold_left_app. Qed.

Lemma run_exited env ops s code : outcome s = Exited code → run env ops s = s.
Proof.
  intros Hs. induction ops as [| op ops IH]; [reflexivity |].
  change (run env ops (session_step env s op) = s).
  unfold session_step. rewrite Hs. exact IH.
Qed.

(** ** Observations on traces: basic facts *)

Lemma selected_app t t' : selected (t ++ t') = selected t ++ selected t'.
Proof. apply omap_app. Qed.

Lemma lock_attempts_app t t' : lock_attempts (t ++ t') = lock_attempts t ++ lock_attempts t'.
Proof. apply omap_app. Qed.

Lemma count_app p t t' : count p (t ++ t') = (count p t + count p t')%nat.
Proof. unfold count. rewrite List.filter_app, List.length_app. reflexivity. Qed.

Lemma verbose_run text env q t :
  verbose text env q t = (Returned tt, q, t ++ vlog env text).
Proof. unfold vlog. M_cases; rewrite ?app_nil_r; reflexivity. Qed.

Lemma info_run text env q t :
  info text env q t = (Returned tt, q, t ++ ilog env text).
Proof. unfold ilog. M_cases; rewrite ?app_nil_r; reflexivity. Qed.

(** ** Counting calls of a kind in a computation that returns *)

Section Counts.
Context (p : Call → bool).

Lemma counts_ret {A : Type} (a : A) : counts p 0 (mret a).
Proof. intros env q t. exists a, q, []. rewrite app_nil_r. split; reflexivity. Qed.

Lemma counts_bind {A B : Type} n1 n2 n (m : M A) (f : A → M B) :
  counts p n1 m → (∀ a, counts p n2 (f a)) → n = (n1 + n2)%nat →
  counts p n (m ≫= f).
Proof.
  intros Hm Hf -> env q t. rewrite bind_run.
  destruct (Hm env q t) as (a & q1 & r1 & -> & H1).
  destruct (Hf a env q1 (t ++ r1)) as (b & q2 & r2 & -> & H2).
  exists b, q2, (r1 ++ r2). rewrite app_assoc, count_app, H1, H2.
  split; reflexivity.
Qed.

Lemma counts_get : counts p 0 get.
Proof. intros env q t. exists q, q, []. rewrite app_nil_r. split; reflexivity. Qed.

Lemma counts_ask : counts p 0 ask.
Proof. intros env q t. exists env, q, []. rewrite app_nil_r. split; reflexivity. Qed.

Lemma counts_modify f : counts p 0 (modify f).
Proof. intros env q t. exists tt, (f q), []. rewrite app_nil_r. split; reflexivity. Qed.

Lemma counts_call c : counts p (if p c then 1 else 0) (call c).
Proof.
  intros env q t. exists (respond env t c), q, [c]. split; [reflexivity |].
  unfold count. simpl. destruct (p c); reflexivity.
Qed.

Lemma counts_call_ c : counts p (if p c then 1 else 0) (call_ c).
Proof.
  eapply counts_bind; [apply counts_call | intros; apply counts_ret | lia].
Qed.

Lemma counts_when b m : counts p 0 m → counts p 0 (when b m).
Proof. intros Hm. destruct b; [exact Hm | apply counts_ret]. Qed.

Lemma counts_setting {A : Type} (f : Settings → A) : counts p 0 (setting f).
Proof. eapply counts_bind; [apply counts_ask | intros; apply counts_ret | reflexivity]. Qed.

Lemma counts_Log_info : counts p 0 Log_info.
Proof. eapply counts_bind; [apply counts_ask | intros; apply counts_ret | reflexivity]. Qed.

Lemma counts_Log_verbose : counts p 0 Log_verbose.
Proof. eapply counts_bind; [apply counts_ask | intros; apply counts_ret | reflexivity]. Qed.

Lemma counts_Log text : p (Log_print text) = false → counts p 0 (Log text).
Proof. intros H. pose proof (counts_call_ (Log_print text)) as C. rewrite H in C. exact C. Qed.

Lemma counts_info text : p (Log_print text) = false → counts p 0 (info text).
Proof.
  intros H. eapply counts_bind;
    [apply counts_Log_info | intros; apply counts_when, counts_Log, H | reflexivity].
Qed.

Lemma counts_verbose text : p (Log_print text) = false → counts p 0 (verbose text).
Proof.
  intros H. eapply counts_bind;
    [apply counts_Log_verbose | intros; apply counts_when, counts_Log, H | reflexivity].
Qed.

Lemma counts_getTime : p clock = false → counts p 0 getTime.
Proof.
  intros H. eapply counts_bind; [apply counts_call | intros; apply counts_ret |].
  rewrite H. reflexivity.
Qed.
End Counts.

Lemma counts_bind0 {A B : Type} p (m : M A) (f : A → M B) :
  counts p 0 m → (∀ a, counts p 0 (f a)) → counts p 0 (m ≫= f).
Proof. intros Hm Hf. eapply counts_bind; [exact Hm | exact Hf | reflexivity]. Qed.

(** One step through a computation none of whose calls is of the kind. *)
Ltac quiet_step :=
  lazymatch goal with
  | |- counts _ _ (mbind _ _) => apply counts_bind0; [| intros ?]
  | |- counts _ _ (mret _) => apply counts_ret
  | |- counts _ _ get => apply counts_get
  | |- counts _ _ ask => apply counts_ask
  | |- counts _ _ (modify _) => apply counts_modify
  | |- counts _ _ (call _) => apply counts_call
  | |- counts _ _ (call_ _) => apply counts_call_
  | |- counts _ _ (setting _) => apply counts_setting
  | |- counts _ _ Log_info => apply counts_Log_info
  | |- counts _ _ Log_verbose => apply counts_Log_verbose
  | |- counts _ _ (Log _) => apply counts_Log; reflexivity
  | |- counts _ _ (info _) => apply counts_info; reflexivity
  | |- counts _ _ (verbose _) => apply counts_verbose; reflexivity
  | |- counts _ _ getTime => apply counts_getTime; reflexivity
  | |- counts _ _ (when _ _) => apply counts_when
  | |- counts _ _ (if ?b then _ else _) => destruct b
  | |- counts _ _ (match ?x with _ => _ end) => destruct x
  end.

Ltac quiet := repeat quiet_step.

(** ** The composite pass and the handshake *)

Lemma onPaint_begin_quiet useTexture : counts is_handshake 0 (onPaint_begin useTexture).
Proof. unfold onPaint_begin. quiet. Qed.

Lemma buildQuadList_quiet : counts is_handshake 0 buildQuadList.
Proof. unfold buildQuadList. quiet. Qed.

Lemma onPaint_eye_quiet useTexture mustUseBlit :
  counts is_handshake 0 (onPaint_eye useTexture mustUseBlit).
Proof. unfold onPaint_eye, lockTarget. quiet; apply buildQuadList_quiet. Qed.

Lemma onPaint_eyes_quiet turns useTexture mustUseBlit :
  counts is_handshake 0 (onPaint_eyes turns useTexture mustUseBlit).
Proof.
  induction turns as [| turns IH]; simpl.
  - apply counts_ret.
  - apply counts_bind0; [apply onPaint_eye_quiet | intros drawBuffer].
    destruct (negb (drawBuffer =? GL_BACK_LEFT)); [apply counts_ret | exact IH].
Qed.

Lemma drawStereoIndicator_quiet : counts is_frame_call 0 drawStereoIndicator.
Proof. unfold drawStereoIndicator. quiet. Qed.

Lemma onPaint_statistics_quiet : counts is_frame_call 0 onPaint_statistics.
Proof. unfold onPaint_statistics. quiet. Qed.

Lemma call_run_ c env q t : call_ c env q t = (Returned tt, q, t ++ [c]).
Proof. reflexivity. Qed.

Lemma call_run c env q t : call c env q t = (Returned (respond env t c), q, t ++ [c]).
Proof. reflexivity. Qed.

Lemma setting_run {A : Type} (f : Settings → A) env q t :
  setting f env q t = (Returned (f (settings env)), q, t).
Proof. reflexivity. Qed.

(** [onPaint_end] presents, raises the signal next, and makes no other
    call of the frame before or after. *)
Lemma onPaint_end_run env q t :
  ∃ q' before after,
    onPaint_end env q t =
      (Returned tt, q', t ++ before ++ [Window_swapBuffers; FrameDone_signal] ++ after) ∧
    count is_frame_call before = 0%nat ∧ count is_frame_call after = 0%nat.
Proof.
  set (indicator := stereoIndicator (settings env)).
  assert (Hind : counts is_frame_call 0 (when indicator drawStereoIndicator))
    by apply counts_when, drawStereoIndicator_quiet.
  destruct (Hind env q (t ++ [GL "glPopAttrib" []])) as ([] & q1 & r1 & E1 & C1).
  destruct (onPaint_statistics_quiet env q1
              ((((t ++ [GL "glPopAttrib" []]) ++ r1) ++ [Window_swapBuffers]) ++ [FrameDone_signal]))
    as ([] & q2 & after & E2 & C2).
  exists q2, ([GL "glPopAttrib" []] ++ r1), after. split; [| split].
  - unfold onPaint_end.
    rewrite bind_run, call_run_. rewrite bind_run, setting_run.
    rewrite bind_run. fold indicator. rewrite E1.
    rewrite bind_run, call_run_. rewrite bind_run, call_run_.
    rewrite E2. f_equal. rewrite <- !app_assoc. reflexivity.
  - rewrite count_app, C1. reflexivity.
  - exact C2.
Qed.

Lemma count_orb_0 p1 p2 t :
  count (λ c, p1 c || p2 c) t = 0%nat → count p1 t = 0%nat ∧ count p2 t = 0%nat.
Proof.
  unfold count. induction t as [| c t IH]; simpl; [split; reflexivity |].
  destruct (p1 c), (p2 c); simpl; try discriminate; exact IH.
Qed.

(** C1.  After a presented frame ([onPostPresentDX]) the producer makes one
    wait for "frame consumed" with a timeout of 1000 ms and returns: it is
    blocked for at most 1000 ms whatever the consumer does, and for exactly
    the timeout when the consumer never signals.  Every composite pass
    ([onPaint]) returns and raises "frame consumed" exactly once, right
    after presenting the display surface and after every call that draws a
    slot, whatever the environment answers, failed interop locks included. *)
Theorem frame_consumed_handshake (env : Env) (q : Quadifier) (t : Trace) :
  (onPostPresentDX env q t =
     (Returned tt, q, t ++ vlog env "onPostPresentDX" ++ [FrameDone_wait 1000]) ∧
   (∀ signalled_after,
      blocked signalled_after (calls onPostPresentDX env q) ≤ 1000) ∧
   blocked None (calls onPostPresentDX env q) = 1000) ∧
  (∃ q' before after,
     onPaint env q t =
       (Returned tt, q', t ++ before ++ [Window_swapBuffers; FrameDone_signal] ++ after) ∧
     count is_handshake before = 0%nat ∧
     count is_frame_call after = 0%nat ∧
     count is_signal (before ++ [Window_swapBuffers; FrameDone_signal] ++ after) = 1%nat).
Proof.
  split.
  - assert (Hcalls : calls onPostPresentDX env q =
                     vlog env "onPostPresentDX" ++ [FrameDone_wait 1000]).
    { unfold calls, onPostPresentDX, vlog. M_cases; reflexivity. }
    split; [| split].
    + unfold onPostPresentDX, vlog. M_cases; rewrite <- ?app_assoc; reflexivity.
    + intros signalled_after. rewrite Hcalls. unfold vlog, blocked, Event_wait.
      destruct (log_verbose env), signalled_after; simpl; lia.
    + rewrite Hcalls. unfold vlog. destruct (log_verbose env); reflexivity.
  - set (useTexture := useTexture (settings env)).
    set (mustUseBlit := negb (matchOriginalMSAA (settings env))).
    destruct (onPaint_begin_quiet useTexture env q t) as ([] & q1 & r1 & E1 & C1).
    destruct (onPaint_eyes_quiet 2 useTexture mustUseBlit env q1 (t ++ r1))
      as ([] & q2 & r2 & E2 & C2).
    destruct (onPaint_end_run env q2 ((t ++ r1) ++ r2)) as (q3 & r3 & after & E3 & C3 & C4).
    apply count_orb_0 in C3 as [C3 _].
    pose proof (count_orb_0 _ _ _ C4) as [C4' _].
    exists q3, (r1 ++ r2 ++ r3), after. repeat split.
    + unfold onPaint. rewrite bind_run, setting_run. rewrite bind_run, setting_run.
      fold useTexture mustUseBlit.
      rewrite bind_run, E1. rewrite bind_run, E2. rewrite E3.
      f_equal. rewrite <- !app_assoc. reflexivity.
    + rewrite !count_app, C1, C2, C3. reflexivity.
    + exact C4.
    + apply count_orb_0 in C1 as [_ C1], C2 as [_ C2], C3 as [_ C3], C4' as [_ C4'].
      rewrite !count_app, C1, C2, C3, C4'. reflexivity.
Qed.

(** ** The capture protocol *)

(** The object after [endCapture(drawBuffer)]. *)
Lemma endCapture_run drawBuffer env q t :
  endCapture drawBuffer env q t =
    (Returned tt,
     (if m_stereoMode q
      then set_m_framesDX (wrap32 (m_framesDX q + 1))
      else λ q', q')
       (set_m_drawBuffer ((m_drawBuffer q + 1) mod length (m_target q))%nat
          (update_target (m_drawBuffer q) (set_drawBuffer drawBuffer) q)),
     t ++ vlog env "endCapture").
Proof.
  unfold endCapture, vlog, update_target.
  M_cases; simpl in *; rewrite ?length_alter, ?app_nil_r; try reflexivity; congruence.
Qed.

Lemma wrap32_succ_ne z : 0 ≤ z < 2 ^ 32 → wrap32 (z + 1) ≠ z.
Proof.
  intros Hz. unfold wrap32.
  destruct (Z.eq_dec z (2 ^ 32 - 1)) as [-> | Hne].
  - vm_compute. discriminate.
  - rewrite Z.mod_small by lia. lia.
Qed.

(** C7.  [endCapture(label)] returns; it tags [m_target[m_drawBuffer]] with
    the label and leaves the other fields of that slot and the other slots
    as they were; it advances [m_drawBuffer] to its successor modulo the
    size of the pool; it increments the frame counter [m_framesDX] (an
    unsigned counter) when the mode flag is stereo and leaves it alone
    otherwise; and it changes no other member of the object.  Its only call
    is the line of the verbose log. *)
Theorem endCapture_tags_and_advances
    (env : Env) (q : Quadifier) (t : Trace) (label : Z) (Hwf : wf q) :
  let r := endCapture label env q t in
  let q' := state r in
  let slot := target q (m_drawBuffer q) in
  outcome r = Returned tt ∧
  trace r = t ++ vlog env "endCapture" ∧
  target q' (m_drawBuffer q) = set_drawBuffer label slot ∧
  drawBuffer (target q' (m_drawBuffer q)) = label ∧
  (∀ i, i ≠ m_drawBuffer q → target q' i = target q i) ∧
  length (m_target q') = length (m_target q) ∧
  m_drawBuffer q' = next (m_drawBuffer q) ∧
  m_framesDX q' = (if m_stereoMode q then wrap32 (m_framesDX q + 1) else m_framesDX q) ∧
  (m_stereoMode q = true → 0 ≤ m_framesDX q < 2 ^ 32 - 1 →
   m_framesDX q' = m_framesDX q + 1) ∧
  (0 ≤ m_framesDX q < 2 ^ 32 →
   (m_framesDX q' ≠ m_framesDX q ↔ m_stereoMode q = true)) ∧
  q' = set_m_target (m_target q')
         (set_m_drawBuffer (m_drawBuffer q') (set_m_framesDX (m_framesDX q') q)).
Proof.
  destruct Hwf as (Hlen & Hdraw & Hread).
  intros r q' slot. subst r q' slot. rewrite endCapture_run.
  unfold outcome, state, trace, target, update_target, next.
  assert (Hin : (m_drawBuffer q < length (m_target q))%nat) by (rewrite Hlen; exact Hdraw).
  pose proof (wrap32_succ_ne (m_framesDX q)) as Hne.
  destruct (m_stereoMode q) eqn:Hs; simpl; rewrite ?Hs;
    repeat split; intros;
    try solve
      [ apply list_lookup_total_alter_eq, Hin
      | rewrite list_lookup_total_alter_eq by exact Hin; reflexivity
      | apply list_lookup_total_alter_ne; congruence
      | apply length_alter
      | rewrite Hlen; reflexivity
      | unfold wrap32; apply Z.mod_small; lia
      | auto
      | congruence ].
Qed.

Lemma wf_new device direct3D stereoAvailable : wf (Quadifier_new device direct3D stereoAvailable).
Proof. unfold wf, poolSize. simpl. repeat split; lia. Qed.

Lemma endCapture_tags_and_advances_witness :
  wf (Quadifier_new 1 2 false) ∧
  drawBuffer (target (state (endCapture GL_BACK_LEFT (scripted nothing_fails [])
                               (Quadifier_new 1 2 false) [])) 0) = GL_BACK_LEFT.
Proof.
  split.
  - apply wf_new.
  - apply (endCapture_tags_and_advances (scripted nothing_fails [])
             (Quadifier_new 1 2 false) [] GL_BACK_LEFT (wf_new 1 2 false)).
Defined.

Lemma beginCapture_run env q t :
  beginCapture env q t =
    if result (redirected env q t) =? D3D_OK then
      (Returned tt, q,
       t ++ vlog env "beginCapture" ++ [GetViewport] ++ vlog env "SetRenderTarget(" ++
         [redirection q] ++
         (if result (saved_viewport env t) =? D3D_OK
          then [SetViewport (out_viewport (saved_viewport env t))] else []))
    else
      (Exited 1, q,
       t ++ vlog env "beginCapture" ++ [GetViewport] ++ vlog env "SetRenderTarget(" ++
         [redirection q; Log_print "Error Setting Render Target"; exit_process 1]).
Proof.
  unfold beginCapture, redirected, saved_viewport, redirection, vlog.
  destruct (log_verbose env) eqn:Hv; M_unfold; rewrite Hv; simpl;
    rewrite ?app_nil_r, <- ?app_assoc; simpl;
    repeat (M_case; simpl); rewrite <- ?app_assoc; simpl;
    first [reflexivity | simpl in *; discriminate].
Qed.

(** When [GetViewport] fails and the redirection succeeds, [beginCapture]
    returns after [SetRenderTarget]: no viewport is restored. *)
Lemma restores_viewport_counterexample :
  ¬ restores_viewport_as_claimed (scripted fails_GetViewport []) (state first_frame) [].
Proof.
  unfold restores_viewport_as_claimed. intros H.
  destruct (H eq_refl) as [viewport Hlast].
  vm_compute in Hlast. discriminate Hlast.
Qed.

(** C8, amended.  [beginCapture] asks for the current viewport, then
    redirects the render target to the surface of [m_target[m_drawBuffer]].
    If the redirection fails, the error is logged and the process ends with
    [exit(1)]: nothing follows the redirection but that.  If it succeeds,
    the method returns, and it has restored the saved viewport right after
    the redirection exactly when saving it ([GetViewport]) had succeeded;
    when the save had failed, the redirection is its last call.  The object
    is not changed. *)
Theorem beginCapture_redirects_or_exits (env : Env) (q : Quadifier) (t : Trace) :
  let r := beginCapture env q t in
  let before :=
    t ++ vlog env "beginCapture" ++ [GetViewport] ++ vlog env "SetRenderTarget(" in
  let saved := saved_viewport env t in
  state r = q ∧
  (result (redirected env q t) ≠ D3D_OK →
     outcome r = Exited 1 ∧
     trace r = before ++ [redirection q; Log_print "Error Setting Render Target";
                          exit_process 1]) ∧
  (result (redirected env q t) = D3D_OK →
     outcome r = Returned tt ∧
     (result saved = D3D_OK →
        trace r = before ++ [redirection q; SetViewport (out_viewport saved)]) ∧
     (result saved ≠ D3D_OK → trace r = before ++ [redirection q])).
Proof.
  intros r before saved. subst r before saved. rewrite beginCapture_run.
  destruct (result (redirected env q t) =? D3D_OK) eqn:Hr.
  - apply Z.eqb_eq in Hr. split; [reflexivity |]. split; [congruence |].
    intros _. split; [reflexivity |]. unfold trace. simpl.
    split; intros Hs.
    + apply Z.eqb_eq in Hs. rewrite Hs. rewrite <- !app_assoc. reflexivity.
    + apply Z.eqb_neq in Hs. rewrite Hs. rewrite <- !app_assoc. reflexivity.
  - apply Z.eqb_neq in Hr. split; [reflexivity |]. split; [| congruence].
    intros _. split; [reflexivity |]. unfold trace. simpl.
    rewrite <- !app_assoc. reflexivity.
Qed.

Lemma beginCapture_redirects_or_exits_witness :
  result (redirected (scripted fails_SetRenderTarget []) (state first_frame) []) ≠ D3D_OK ∧
  outcome (beginCapture (scripted fails_SetRenderTarget []) (state first_frame) []) = Exited 1.
Proof.
  assert (H : result (redirected (scripted fails_SetRenderTarget []) (state first_frame) [])
              ≠ D3D_OK) by (vm_compute; discriminate).
  split; [exact H |].
  exact (proj1 (proj1 (proj2 (beginCapture_redirects_or_exits
                                (scripted fails_SetRenderTarget []) (state first_frame) []))
                  H)).
Defined.

(** ** The stereo signal *)

Lemma set_m_stereoMode_same q : m_stereoMode q = true → set_m_stereoMode true q = q.
Proof. destruct q; simpl; intros ->; reflexivity. Qed.

Lemma onStereoSignal_run env q t :
  onStereoSignal env q t =
    (endCapture GL_BACK_LEFT ;; beginCapture) env (set_m_stereoMode true q)
      (t ++ signal_log env q).
Proof.
  unfold onStereoSignal, signal_log.
  rewrite bind_run, verbose_run. rewrite bind_run. unfold get at 1. cbv iota beta.
  rewrite bind_run.
  destruct (m_stereoMode q) eqn:Hs; simpl.
  - rewrite set_m_stereoMode_same by exact Hs. rewrite app_nil_r.
    unfold mret, M_ret. reflexivity.
  - rewrite bind_run. unfold modify at 1. cbv iota beta.
    rewrite info_run. rewrite <- app_assoc. reflexivity.
Qed.

Lemma is_sentinel_spec v : is_sentinel v = true ↔ X v = 1 ∧ Width v = 2 ∧ Height v = 3.
Proof. unfold is_sentinel. rewrite !andb_true_iff, !Z.eqb_eq. tauto. Qed.

Lemma onPreSetViewportDX_run v env q t :
  onPreSetViewportDX (Some v) env q t =
    if is_sentinel v
    then (endCapture GL_BACK_LEFT ;; beginCapture ;; mret true)
           env (set_m_stereoMode true q) (t ++ signal_log env q)
    else (Returned true, q, t).
Proof.
  unfold onPreSetViewportDX. fold (is_sentinel v).
  destruct (is_sentinel v); [| reflexivity].
  rewrite bind_run. unfold when. rewrite onStereoSignal_run.
  rewrite !bind_run.
  destruct (endCapture GL_BACK_LEFT env (set_m_stereoMode true q) (t ++ signal_log env q))
    as [[[[] | code] q1] t1]; [| reflexivity].
  rewrite !bind_run.
  destruct (beginCapture env q1 t1) as [[[[] | code] q2] t2]; reflexivity.
Qed.

(** C2.  A viewport-configuration call is the stereo signal exactly when
    the requested viewport has X = 1, Width = 2 and Height = 3; Y, MinZ and
    MaxZ are free.  On the signal the mode flag is stereo from then on, the
    transition is logged only if the flag was still mono, and the call runs
    [endCapture(GL_BACK_LEFT)] immediately followed by [beginCapture()]:
    the slot at the draw cursor is labelled left, the cursor advances, and
    the render target is redirected to the surface of the next slot.  Any
    other viewport changes nothing and makes no call. *)
Theorem sentinel_viewport_is_stereo_signal
    (env : Env) (q : Quadifier) (t : Trace) (v : D3DVIEWPORT9) :
  let r := onPreSetViewportDX (Some v) env q t in
  (X v = 1 ∧ Width v = 2 ∧ Height v = 3 →
     r = (endCapture GL_BACK_LEFT ;; beginCapture ;; mret true)
           env (set_m_stereoMode true q) (t ++ signal_log env q) ∧
     m_stereoMode (state r) = true ∧
     (wf q →
        drawBuffer (target (state r) (m_drawBuffer q)) = GL_BACK_LEFT ∧
        m_drawBuffer (state r) = next (m_drawBuffer q) ∧
        SetRenderTarget 0 (surface (target q (next (m_drawBuffer q)))) ∈ trace r)) ∧
  (¬ (X v = 1 ∧ Width v = 2 ∧ Height v = 3) → r = (Returned true, q, t)) ∧
  signal_log env q =
    (if log_verbose env then [Log_print "stereo signal"] else []) ++
    (if negb (m_stereoMode q) && log_info env then [Log_print "Stereo enabled"] else []).
Proof.
  intros r. subst r. rewrite onPreSetViewportDX_run.
  split; [| split].
  - intros Hv. apply is_sentinel_spec in Hv. rewrite Hv.
    split; [reflexivity |].
    set (q0 := set_m_stereoMode true q). set (t0 := t ++ signal_log env q).
    rewrite bind_run, endCapture_run.
    change (m_stereoMode q0) with true. cbv iota.
    set (q1 := set_m_framesDX _ _).
    rewrite bind_run, beginCapture_run.
    destruct (result (redirected env q1 (t0 ++ vlog env "endCapture")) =? D3D_OK) eqn:Hr;
      cbv iota beta; unfold mret, M_ret, state, trace; simpl.
    all: split; [reflexivity |]; intros (Hlen & Hdraw & Hread).
    all: assert (Hin : (m_drawBuffer q < length (m_target q))%nat)
           by (rewrite Hlen; exact Hdraw).
    all: unfold target, update_target; simpl.
    all: rewrite list_lookup_total_alter_eq by exact Hin.
    all: split; [reflexivity |]; split; [unfold next; rewrite Hlen; reflexivity |].
    all: unfold redirection, target, next; simpl; rewrite Hlen.
    all: rewrite list_lookup_total_alter_ne
           by (unfold poolSize in *; destruct (m_drawBuffer q) as [| [| n]]; simpl; lia).
    all: repeat (rewrite elem_of_app || rewrite elem_of_cons); auto 20.
  - intros Hv. destruct (is_sentinel v) eqn:Hs; [| reflexivity].
    apply is_sentinel_spec in Hs. contradiction.
  - unfold signal_log, vlog, ilog.
    destruct (m_stereoMode q), (log_info env); reflexivity.
Qed.

Lemma sentinel_viewport_is_stereo_signal_witness :
  (X (sentinel 7 0 0) = 1 ∧ Width (sentinel 7 0 0) = 2 ∧ Height (sentinel 7 0 0) = 3) ∧
  m_stereoMode
    (state (onPreSetViewportDX (Some (sentinel 7 0 0)) (scripted nothing_fails [])
              (state first_frame) [])) = true.
Proof.
  assert (H : X (sentinel 7 0 0) = 1 ∧ Width (sentinel 7 0 0) = 2 ∧ Height (sentinel 7 0 0) = 3)
    by (repeat split; reflexivity).
  split; [exact H |].
  exact (proj1 (proj2 (proj1 (sentinel_viewport_is_stereo_signal
                                (scripted nothing_fails []) (state first_frame) []
                                (sentinel 7 0 0)) H))).
Defined.

(** On the sentinel viewport, with a device that refuses the redirection,
    the hook does not return: [beginCapture] ends the process. *)
Lemma always_returns_true_counterexample :
  ¬ always_returns_true_as_claimed (scripted fails_SetRenderTarget [])
      (state first_frame) [] (Some (sentinel 0 0 0)).
Proof. unfold always_returns_true_as_claimed. vm_compute. discriminate. Qed.

(** C10, amended.  [onPreSetViewportDX] returns [true] whenever it returns,
    and it returns for every input but one: on the sentinel viewport, when
    the device refuses the redirection of the render target in
    [beginCapture], the process ends with [exit(1)].  A null viewport
    pointer is not dereferenced: the hook returns [true] at once, makes no
    call, changes nothing and does not raise the stereo signal. *)
Theorem onPreSetViewportDX_passes_through
    (env : Env) (q : Quadifier) (t : Trace) (pViewport : option D3DVIEWPORT9) :
  let r := onPreSetViewportDX pViewport env q t in
  (outcome r = Returned true ∨ outcome r = Exited 1) ∧
  (pViewport = None → r = (Returned true, q, t)) ∧
  (outcome r = Exited 1 →
     (∃ v, pViewport = Some v ∧ X v = 1 ∧ Width v = 2 ∧ Height v = 3) ∧
     last (trace r) = Some (exit_process 1) ∧
     ∃ t' surface, result (respond env t' (SetRenderTarget 0 surface)) ≠ D3D_OK) ∧
  ((∀ t' surface, result (respond env t' (SetRenderTarget 0 surface)) = D3D_OK) →
     outcome r = Returned true).
Proof.
  intros r. subst r. destruct pViewport as [v |].
  2: { repeat split; try (left; reflexivity); try discriminate; reflexivity. }
  rewrite onPreSetViewportDX_run.
  destruct (is_sentinel v) eqn:Hs.
  2: { repeat split; try (left; reflexivity); try discriminate; reflexivity. }
  apply is_sentinel_spec in Hs.
  rewrite bind_run, endCapture_run. rewrite bind_run, beginCapture_run.
  match goal with |- context [redirected env ?q1 ?t1] =>
    set (answer := redirected env q1 t1) end.
  destruct (result answer =? D3D_OK) eqn:Hr; cbv iota beta; unfold mret, M_ret, outcome; simpl.
  - repeat split; try (left; reflexivity); try discriminate; reflexivity.
  - apply Z.eqb_neq in Hr.
    split; [right; reflexivity |]. split; [discriminate |]. split.
    + intros _. split; [exists v; split; [reflexivity | exact Hs] |]. split.
      * unfold trace. cbv beta iota delta [snd].
        repeat (rewrite last_app || rewrite last_cons). reflexivity.
      * unfold answer, redirected, redirection in Hr. eauto.
    + intros Hok. exfalso. apply Hr. unfold answer, redirected, redirection. apply Hok.
Qed.

Lemma onPreSetViewportDX_passes_through_witness :
  (∀ t' surface,
     result (respond (scripted nothing_fails []) t' (SetRenderTarget 0 surface)) = D3D_OK) ∧
  outcome (onPreSetViewportDX (Some (sentinel 0 0 0)) (scripted nothing_fails [])
             (state first_frame) []) = Returned true.
Proof.
  assert (H : ∀ t' surface,
            result (respond (scripted nothing_fails []) t' (SetRenderTarget 0 surface)) = D3D_OK)
    by (intros; reflexivity).
  split; [exact H |].
  exact (proj2 (proj2 (proj2 (onPreSetViewportDX_passes_through
                                (scripted nothing_fails []) (state first_frame) []
                                (Some (sentinel 0 0 0))))) H).
Defined.

(** ** The mode flag *)

Lemma stereo_kept op : keeps (λ q, m_stereoMode q = true) (perform op).
Proof.
  apply keeps_perform.
  - intros q q' (Hs & _) H. rewrite Hs. exact H.
  - reflexivity.
  - intros q H. exact H.
  - intros q label H. exact H.
  - intros q H. exact H.
Qed.

(** C3.  Once the sentinel viewport has been observed, on whatever object,
    the mode flag is stereo, and it is stereo after every sequence of
    operations of the core that follows: no method sets it back to mono. *)
Theorem mode_flag_one_way
    (env : Env) (q : Quadifier) (t : Trace) (y minZ maxZ : Z) (ops : list Operation) :
  let observed := perform (op_onPreSetViewportDX (Some (sentinel y minZ maxZ))) env q t in
  m_stereoMode (state observed) = true ∧
  m_stereoMode (state (run env ops observed)) = true.
Proof.
  intros observed.
  assert (Hobserved : m_stereoMode (state observed) = true).
  { subst observed. unfold perform. rewrite bind_run, onPreSetViewportDX_run.
    change (is_sentinel (sentinel y minZ maxZ)) with true. cbv iota.
    assert (Hk : keeps (λ q, m_stereoMode q = true)
                   (endCapture GL_BACK_LEFT ;; beginCapture ;; mret true)).
    { apply keeps_bind; [| intros _; apply keeps_bind; [| intros _; apply keeps_ret]].
      - apply keeps_endCapture.
        + intros q0 q' (Hs & _) H. rewrite Hs. exact H.
        + intros q0 H. exact H.
        + intros q0 label H. exact H.
      - apply keeps_beginCapture.
        intros q0 q' (Hs & _) H. rewrite Hs. exact H. }
    specialize (Hk env (set_m_stereoMode true q) (t ++ signal_log env q) eq_refl).
    destruct ((endCapture GL_BACK_LEFT ;; beginCapture ;; mret true) env
                (set_m_stereoMode true q) (t ++ signal_log env q))
      as [[[b | code] q1] t1]; exact Hk. }
  split; [exact Hobserved |].
  apply (keeps_run (λ q, m_stereoMode q = true)); [apply stereo_kept | exact Hobserved].
Qed.

(** ** One turn of the composite loop *)

Lemma quadList_same q : set_m_quadListGL (m_quadListGL q) q = q.
Proof. destruct q; reflexivity. Qed.

Lemma lockTarget_run env q t :
  lockTarget env q t =
    (Returned (negb (object (target q (m_readBuffer q)) =? 0) &&
               (result (respond env t (lock_call q)) =? GL_TRUE)),
     q, t ++ attempt q).
Proof.
  unfold lockTarget, attempt, lock_call. M_unfold.
  destruct (object (target q (m_readBuffer q)) =? 0); simpl;
    rewrite ?app_nil_r; reflexivity.
Qed.

Lemma get_run env q t : get env q t = (Returned q, q, t).
Proof. reflexivity. Qed.

Lemma modify_run f env q t : modify f env q t = (Returned tt, f q, t).
Proof. reflexivity. Qed.

Lemma ret_run {A} (a : A) env q t : (mret a : M A) env q t = (Returned a, q, t).
Proof. reflexivity. Qed.

Lemma Log_run text env q t : Log text env q t = (Returned tt, q, t ++ [Log_print text]).
Proof. reflexivity. Qed.

Lemma no_turn_call rest :
  count is_turn_call rest = 0%nat → selected rest = [] ∧ lock_attempts rest = [].
Proof.
  unfold count. induction rest as [| c rest IH]; [split; reflexivity |].
  destruct c; simpl; try discriminate; exact IH.
Qed.

Lemma texturedQuad_run q env t :
  ∃ quadList drawing,
    texturedQuad q env q t = (Returned tt, set_m_quadListGL quadList q, t ++ drawing) ∧
    count is_turn_call drawing = 0%nat.
Proof.
  assert (Hc : counts is_turn_call 0 (texturedQuad q)).
  { unfold texturedQuad, buildQuadList. quiet. }
  assert (Hk : keeps (λ q', ∃ quadList, q' = set_m_quadListGL quadList q) (texturedQuad q)).
  { unfold texturedQuad, buildQuadList.
    keeps_all ltac:(intros ? [quadList ->]; eexists; reflexivity). }
  destruct (Hc env q t) as ([] & q1 & drawing & E & C).
  specialize (Hk env q t (ex_intro _ (m_quadListGL q) (eq_sym (quadList_same q)))).
  cbv beta in Hk. rewrite E in Hk. destruct Hk as [quadList Hq].
  unfold state in Hq. simpl in Hq. subst q1.
  exists quadList, drawing. split; assumption.
Qed.

Lemma onPaint_eye_run useTexture mustUseBlit env q t :
  ∃ quadList rest,
    onPaint_eye useTexture mustUseBlit env q t =
      (Returned (drawBuffer (target q (m_readBuffer q))),
       set_m_readBuffer ((m_readBuffer q + 1) mod length (m_target q))%nat
         (set_m_quadListGL quadList q),
       at_lock env q t ++ rest) ∧
    selected rest = [] ∧
    lock_attempts rest = lock_attempts (attempt q) ∧
    (locks env q t = false →
       quadList = m_quadListGL q ∧
       rest = attempt q ++ [Log_print "unable to lock DX target on paint"]) ∧
    (locks env q t = true →
       ∃ drawing, rest = [lock_call q] ++ drawing ++ [unlock_call q] ∧
                  (negb useTexture || mustUseBlit = true →
                   quadList = m_quadListGL q ∧ drawing = blit q)).
Proof.
  unfold onPaint_eye, locks.
  rewrite bind_run, get_run. cbv iota beta zeta.
  rewrite bind_run, verbose_run. rewrite bind_run, call_run_.
  rewrite bind_run, lockTarget_run.
  replace ((t ++ vlog env "GL: render") ++ [glDrawBuffer (drawBuffer (target q (m_readBuffer q)))])
    with (at_lock env q t) by (unfold at_lock; rewrite app_assoc; reflexivity).
  set (t0 := at_lock env q t).
  destruct (negb (object (target q (m_readBuffer q)) =? 0) &&
            (result (respond env t0 (lock_call q)) =? GL_TRUE)) eqn:Hlock.
  - (* the lock is held *)
    assert (Hobj : (object (target q (m_readBuffer q)) =? 0) = false).
    { apply andb_true_iff in Hlock as [H _]. apply negb_true_iff in H. exact H. }
    assert (Hattempt : attempt q = [lock_call q]) by (unfold attempt; rewrite Hobj; reflexivity).
    rewrite Hattempt.
    rewrite bind_run. rewrite bind_run, get_run. cbv iota beta zeta.
    rewrite bind_run.
    destruct (negb useTexture || mustUseBlit) eqn:Hblit.
    + rewrite bind_run, call_run_, call_run_. rewrite call_run_.
      rewrite bind_run, modify_run, ret_run.
      exists (m_quadListGL q), ([lock_call q] ++ blit q ++ [unlock_call q]).
      rewrite quadList_same. split; [| split; [| split; [| split]]].
      * f_equal. rewrite <- !app_assoc. reflexivity.
      * reflexivity.
      * reflexivity.
      * discriminate.
      * intros _. exists (blit q). split; [reflexivity |]. intros _. split; reflexivity.
    + destruct (texturedQuad_run q env (t0 ++ [lock_call q])) as (quadList & drawing & E & C).
      unfold texturedQuad in E. rewrite E. rewrite call_run_.
      rewrite bind_run, modify_run, ret_run.
      apply no_turn_call in C as [Cs Cl].
      exists quadList, ([lock_call q] ++ drawing ++ [unlock_call q]).
      split; [| split; [| split; [| split]]].
      * f_equal. rewrite <- !app_assoc. reflexivity.
      * rewrite !selected_app, Cs. reflexivity.
      * rewrite !lock_attempts_app, Cl. reflexivity.
      * discriminate.
      * intros _. exists drawing. split; [reflexivity |]. discriminate.
  - (* the lock is not held *)
    rewrite bind_run, Log_run. rewrite bind_run, modify_run, ret_run.
    exists (m_quadListGL q), (attempt q ++ [Log_print "unable to lock DX target on paint"]).
    rewrite quadList_same. split; [| split; [| split; [| split]]].
    + f_equal. rewrite <- !app_assoc. reflexivity.
    + unfold attempt. destruct (_ =? 0); reflexivity.
    + unfold attempt. destruct (_ =? 0); reflexivity.
    + intros _. split; reflexivity.
    + discriminate.
Qed.

(** ** The composite loop *)

Lemma selected_vlog env text : selected (vlog env text) = [].
Proof. unfold vlog. destruct (log_verbose env); reflexivity. Qed.

Lemma lock_attempts_vlog env text : lock_attempts (vlog env text) = [].
Proof. unfold vlog. destruct (log_verbose env); reflexivity. Qed.

Lemma after_turn_wf quadList q : wf q → wf (after_turn quadList q).
Proof.
  intros (Hlen & Hdraw & Hread). unfold wf, after_turn. simpl.
  repeat split; try assumption.
  rewrite Hlen. apply Nat.mod_upper_bound. discriminate.
Qed.

Lemma after_turn_read quadList q :
  wf q → m_readBuffer (after_turn quadList q) = next (m_readBuffer q).
Proof. intros (Hlen & _). unfold after_turn, next. simpl. rewrite Hlen. reflexivity. Qed.

Lemma lock_attempts_attempt q : lock_attempts (attempt q) = attempt_at q (m_readBuffer q).
Proof. unfold attempt, attempt_at, lock_call. destruct (_ =? 0); reflexivity. Qed.

Lemma onPaint_eyes_S turns useTexture mustUseBlit :
  onPaint_eyes (S turns) useTexture mustUseBlit =
    (drawBuffer ← onPaint_eye useTexture mustUseBlit;
     if negb (drawBuffer =? GL_BACK_LEFT) then mret tt
     else onPaint_eyes turns useTexture mustUseBlit).
Proof. reflexivity. Qed.

Lemma onPaint_eyes_run useTexture mustUseBlit env q t :
  wf q →
  ∃ q' loop,
    onPaint_eyes 2 useTexture mustUseBlit env q t = (Returned tt, q', t ++ loop) ∧
    selected loop = label_at q <$> pass_slots q ∧
    lock_attempts loop = pass_slots q ≫= attempt_at q ∧
    m_readBuffer q' = Nat.iter (length (pass_slots q)) next (m_readBuffer q) ∧
    (∃ quadList, q' = set_m_readBuffer (m_readBuffer q') (set_m_quadListGL quadList q)) ∧
    wf q'.
Proof.
  intros Hwf. unfold pass_slots, label_at.
  rewrite onPaint_eyes_S, (bind_run (onPaint_eye useTexture mustUseBlit) _ env q t).
  destruct (onPaint_eye_run useTexture mustUseBlit env q t)
    as (ql & rest & E & Hs & Hl & _). rewrite E. fold (after_turn ql q).
  rewrite lock_attempts_attempt in Hl.
  set (l0 := drawBuffer (target q (m_readBuffer q))).
  assert (Hsel : selected (vlog env "GL: render" ++ [glDrawBuffer l0] ++ rest) = [l0]).
  { rewrite !selected_app, selected_vlog, Hs. reflexivity. }
  assert (Hlock : lock_attempts (vlog env "GL: render" ++ [glDrawBuffer l0] ++ rest) =
                  attempt_at q (m_readBuffer q)).
  { rewrite !lock_attempts_app, lock_attempts_vlog, Hl. reflexivity. }
  destruct (l0 =? GL_BACK_LEFT) eqn:Hl0; cbv beta match delta [negb].
  - rewrite onPaint_eyes_S, (bind_run (onPaint_eye useTexture mustUseBlit)).
    destruct (onPaint_eye_run useTexture mustUseBlit env (after_turn ql q) (at_lock env q t ++ rest))
      as (ql' & rest' & E' & Hs' & Hl' & _). rewrite E'.
    fold (after_turn ql' (after_turn ql q)). cbv beta match.
    rewrite lock_attempts_attempt in Hl'.
    set (q2 := after_turn ql' (after_turn ql q)).
    assert (Hq2 : wf q2) by (apply after_turn_wf, after_turn_wf, Hwf).
    assert (Hr1 : m_readBuffer (after_turn ql q) = next (m_readBuffer q))
      by (apply after_turn_read, Hwf).
    assert (Hr2 : m_readBuffer q2 = next (next (m_readBuffer q))).
    { unfold q2. rewrite after_turn_read by (apply after_turn_wf, Hwf).
      rewrite Hr1. reflexivity. }
    exists q2, ((vlog env "GL: render" ++ [glDrawBuffer l0] ++ rest) ++
                (vlog env "GL: render" ++
                 [glDrawBuffer (drawBuffer (target q (next (m_readBuffer q))))] ++ rest')).
    split; [| split; [| split; [| split; [| split]]]].
    + assert (Hlabel : drawBuffer (target (after_turn ql q) (m_readBuffer (after_turn ql q))) =
                       drawBuffer (target q (next (m_readBuffer q)))).
      { rewrite Hr1. reflexivity. }
      unfold at_lock. rewrite Hlabel. fold l0.
      destruct (negb _); cbv [onPaint_eyes mret M_ret]; f_equal;
        rewrite <- !app_assoc; reflexivity.
    + rewrite selected_app, Hsel. rewrite !selected_app, selected_vlog, Hs'. reflexivity.
    + rewrite lock_attempts_app, Hlock.
      rewrite !lock_attempts_app, lock_attempts_vlog, Hl', Hr1.
      simpl. rewrite app_nil_r. reflexivity.
    + exact Hr2.
    + exists ql'. unfold q2, after_turn. simpl. reflexivity.
    + exact Hq2.
  - exists (after_turn ql q), (vlog env "GL: render" ++ [glDrawBuffer l0] ++ rest).
    split; [| split; [| split; [| split; [| split]]]].
    + cbv [mret M_ret]. f_equal. unfold at_lock. fold l0. rewrite <- !app_assoc. reflexivity.
    + exact Hsel.
    + rewrite Hlock. simpl. rewrite app_nil_r. reflexivity.
    + apply after_turn_read, Hwf.
    + exists ql. reflexivity.
    + apply after_turn_wf, Hwf.
Qed.

Lemma buildQuadList_run env q t :
  buildQuadList env q t =
    (Returned tt, set_m_quadListGL (result (respond env t (glGenLists 1))) q,
     t ++ [glGenLists 1] ++ quadList_calls (result (respond env t (glGenLists 1)))).
Proof.
  unfold buildQuadList, quadList_calls. M_unfold. rewrite <- !app_assoc. reflexivity.
Qed.

Lemma texturedQuad_exact env q t :
  texturedQuad q env q (at_lock env q t ++ [lock_call q]) =
    (Returned tt, set_m_quadListGL (quadList_of env q t) q,
     (at_lock env q t ++ [lock_call q]) ++ textured env q t).
Proof.
  unfold texturedQuad, textured, quadList_of, new_quadList.
  rewrite bind_run, call_run_. fold (bind_call q).
  replace (at_lock env q t ++ [lock_call q; bind_call q])
    with ((at_lock env q t ++ [lock_call q]) ++ [bind_call q])
    by (rewrite <- app_assoc; reflexivity).
  set (t1 := (at_lock env q t ++ [lock_call q]) ++ [bind_call q]).
  rewrite bind_run. unfold when at 1.
  destruct (m_quadListGL q =? 0) eqn:Hlist.
  - rewrite buildQuadList_run. rewrite bind_run, get_run. cbv beta match.
    change (m_quadListGL (set_m_quadListGL (result (respond env t1 (glGenLists 1))) q))
      with (result (respond env t1 (glGenLists 1))).
    unfold when. destruct (result (respond env t1 (glGenLists 1)) =? 0); simpl.
    + unfold t1. rewrite <- !app_assoc. reflexivity.
    + rewrite call_run_. unfold t1. rewrite <- !app_assoc. reflexivity.
  - rewrite ret_run. rewrite bind_run, get_run. cbv beta match.
    rewrite Hlist. rewrite quadList_same. simpl. rewrite call_run_.
    unfold t1. rewrite <- !app_assoc. reflexivity.
Qed.

Lemma lockTarget_exact env q t :
  lockTarget env q t =
    (Returned (negb (object (target q (m_readBuffer q)) =? 0) &&
               (result (respond env t (lock_call q)) =? GL_TRUE)),
     q, t ++ attempt q).
Proof.
  unfold lockTarget, attempt, lock_call. M_unfold.
  destruct (object (target q (m_readBuffer q)) =? 0); simpl; rewrite ?app_nil_r; reflexivity.
Qed.

(** A turn, call by call. *)
Lemma onPaint_eye_exact useTexture mustUseBlit env q t :
  onPaint_eye useTexture mustUseBlit env q t =
    (Returned (label_at q (m_readBuffer q)),
     turn_state useTexture mustUseBlit env q t,
     t ++ turn_calls useTexture mustUseBlit env q t).
Proof.
  unfold onPaint_eye, turn_state, turn_calls, drawing, label_at.
  rewrite bind_run, get_run. cbv iota beta zeta.
  rewrite bind_run, verbose_run. rewrite bind_run, call_run_.
  rewrite bind_run, lockTarget_exact.
  replace ((t ++ vlog env "GL: render") ++ [glDrawBuffer (drawBuffer (target q (m_readBuffer q)))])
    with (at_lock env q t) by (unfold at_lock; rewrite app_assoc; reflexivity).
  fold (locks env q t).
  destruct (locks env q t) eqn:Hlock.
  - assert (Hobj : (object (target q (m_readBuffer q)) =? 0) = false).
    { unfold locks in Hlock. apply andb_true_iff in Hlock as [H _].
      apply negb_true_iff in H. exact H. }
    assert (Hattempt : attempt q = [lock_call q]) by (unfold attempt; rewrite Hobj; reflexivity).
    rewrite Hattempt.
    rewrite bind_run. rewrite bind_run, get_run. cbv iota beta zeta.
    rewrite bind_run.
    destruct (negb useTexture || mustUseBlit) eqn:Hblit.
    + rewrite bind_run, call_run_, call_run_. rewrite call_run_.
      rewrite bind_run, modify_run, ret_run.
      unfold after_turn. cbn [andb negb]. rewrite quadList_same. f_equal. unfold at_lock, blit, unlock_call.
      rewrite <- !app_assoc. reflexivity.
    + pose proof (texturedQuad_exact env q t) as E.
      unfold texturedQuad in E. rewrite E. rewrite call_run_.
      rewrite bind_run, modify_run, ret_run.
      unfold after_turn. cbn [andb negb]. f_equal. unfold at_lock, unlock_call.
      rewrite <- !app_assoc. reflexivity.
  - rewrite bind_run, Log_run. rewrite bind_run, modify_run, ret_run.
    unfold after_turn. cbn [andb negb]. rewrite quadList_same.
    f_equal. unfold at_lock. rewrite <- !app_assoc. reflexivity.
Qed.

(** The loop, call by call. *)
Lemma onPaint_eyes_exact useTexture mustUseBlit env q t :
  onPaint_eyes 2 useTexture mustUseBlit env q t =
    (Returned tt, loop_state useTexture mustUseBlit env q t,
     t ++ loop_calls useTexture mustUseBlit env q t).
Proof.
  unfold loop_state, loop_calls.
  rewrite onPaint_eyes_S, (bind_run (onPaint_eye useTexture mustUseBlit) _ env q t).
  rewrite onPaint_eye_exact. cbv beta match.
  destruct (label_at q (m_readBuffer q) =? GL_BACK_LEFT); cbv beta match delta [negb].
  - rewrite onPaint_eyes_S, (bind_run (onPaint_eye useTexture mustUseBlit)).
    rewrite onPaint_eye_exact. cbv beta match.
    rewrite <- app_assoc.
    destruct (negb _); reflexivity.
  - rewrite app_nil_r. reflexivity.
Qed.

(** A pass is its loop and its end, after the calls of its beginning. *)
Lemma onPaint_run env q t :
  onPaint env q t =
    (onPaint_eyes 2 (useTexture (settings env)) (negb (matchOriginalMSAA (settings env))) ;;
     onPaint_end) env q (t ++ onPaint_begin_calls env).
Proof.
  unfold onPaint. rewrite bind_run, setting_run. rewrite bind_run, setting_run.
  cbv beta match zeta.
  rewrite (bind_run (onPaint_begin (useTexture (settings env)))).
  assert (E : onPaint_begin (useTexture (settings env)) env q t =
              (Returned tt, q, t ++ onPaint_begin_calls env)).
  { unfold onPaint_begin, onPaint_begin_calls, vlog.
    M_cases; rewrite <- ?app_assoc; simpl; rewrite ?app_nil_r; reflexivity. }
  rewrite E. reflexivity.
Qed.

Lemma selected_begin env : selected (onPaint_begin_calls env) = [].
Proof.
  unfold onPaint_begin_calls, vlog.
  destruct (useTexture (settings env)), (log_verbose env); reflexivity.
Qed.

Lemma count_begin env : count is_frame_call (onPaint_begin_calls env) = 0%nat.
Proof.
  unfold onPaint_begin_calls, vlog.
  destruct (useTexture (settings env)), (log_verbose env); reflexivity.
Qed.

Lemma onPaint_end_keeps_read n : keeps (λ q, m_readBuffer q = n) onPaint_end.
Proof.
  unfold onPaint_end, onPaint_statistics.
  keeps_all ltac:(intros ? ?; assumption).
  unfold drawStereoIndicator. keeps_all ltac:(intros ? ?; assumption).
Qed.

(** A pass after the history [t]: its loop, then the presentation. *)
Lemma onPaint_pass env q t :
  wf q →
  ∃ q' loop before after,
    onPaint env q t =
      (Returned tt, q',
       t ++ onPaint_begin_calls env ++ loop ++ before ++
         [Window_swapBuffers; FrameDone_signal] ++ after) ∧
    selected loop = label_at q <$> pass_slots q ∧
    lock_attempts loop = pass_slots q ≫= attempt_at q ∧
    m_readBuffer q' = Nat.iter (length (pass_slots q)) next (m_readBuffer q) ∧
    count is_handshake loop = 0%nat ∧
    count is_frame_call before = 0%nat ∧
    count is_frame_call after = 0%nat.
Proof.
  intros Hwf. rewrite onPaint_run.
  set (useTexture := useTexture (settings env)).
  set (mustUseBlit := negb (matchOriginalMSAA (settings env))).
  set (t0 := t ++ onPaint_begin_calls env).
  rewrite (bind_run (onPaint_eyes 2 useTexture mustUseBlit)).
  destruct (onPaint_eyes_run useTexture mustUseBlit env q t0 Hwf)
    as (q1 & loop & E & Hsel & Hlock & Hread & _ & _).
  destruct (onPaint_eyes_quiet 2 useTexture mustUseBlit env q t0)
    as ([] & q1' & loop' & E' & Hquiet).
  assert (loop' = loop) as ->.
  { rewrite E in E'. injection E' as _ Ht. apply app_inv_head in Ht. congruence. }
  rewrite E. cbv beta match.
  destruct (onPaint_end_run env q1 (t0 ++ loop)) as (q2 & before & after & E2 & Cb & Ca).
  pose proof (onPaint_end_keeps_read (m_readBuffer q1) env q1 (t0 ++ loop) eq_refl) as Hkeep.
  rewrite E2 in Hkeep. unfold state in Hkeep. simpl in Hkeep.
  rewrite E2.
  exists q2, loop, before, after.
  split; [| split; [| split; [| split; [| split; [| split]]]]]; try assumption.
  - unfold t0. f_equal. rewrite <- !app_assoc. reflexivity.
  - rewrite Hkeep. exact Hread.
Qed.

(** A pass after the history [t], with the calls of its loop. *)
Lemma onPaint_pass_calls env q t :
  wf q →
  let loop := loop_calls (useTexture (settings env)) (negb (matchOriginalMSAA (settings env)))
                env q (t ++ onPaint_begin_calls env) in
  ∃ q' before after,
    onPaint env q t =
      (Returned tt, q',
       t ++ onPaint_begin_calls env ++ loop ++ before ++
         [Window_swapBuffers; FrameDone_signal] ++ after) ∧
    selected loop = label_at q <$> pass_slots q ∧
    lock_attempts loop = pass_slots q ≫= attempt_at q ∧
    m_readBuffer q' = Nat.iter (length (pass_slots q)) next (m_readBuffer q) ∧
    count is_handshake loop = 0%nat ∧
    count is_frame_call before = 0%nat ∧
    count is_frame_call after = 0%nat.
Proof.
  intros Hwf. rewrite onPaint_run.
  set (useTexture := useTexture (settings env)).
  set (mustUseBlit := negb (matchOriginalMSAA (settings env))).
  set (t0 := t ++ onPaint_begin_calls env).
  intros loop.
  rewrite (bind_run (onPaint_eyes 2 useTexture mustUseBlit)).
  destruct (onPaint_eyes_run useTexture mustUseBlit env q t0 Hwf)
    as (q1 & loop1 & E & Hsel & Hlock & Hread & _ & _).
  destruct (onPaint_eyes_quiet 2 useTexture mustUseBlit env q t0)
    as ([] & q1' & loop' & E' & Hquiet).
  assert (loop' = loop1) as ->.
  { rewrite E in E'. injection E' as _ Ht. apply app_inv_head in Ht. congruence. }
  assert (loop1 = loop) as ->.
  { rewrite onPaint_eyes_exact in E. injection E as _ Ht. apply app_inv_head in Ht.
    symmetry. exact Ht. }
  rewrite E. cbv beta match.
  destruct (onPaint_end_run env q1 (t0 ++ loop)) as (q2 & before & after & E2 & Cb & Ca).
  pose proof (onPaint_end_keeps_read (m_readBuffer q1) env q1 (t0 ++ loop) eq_refl) as Hkeep.
  rewrite E2 in Hkeep. unfold state in Hkeep. simpl in Hkeep.
  rewrite E2.
  exists q2, before, after.
  split; [| split; [| split; [| split; [| split; [| split]]]]]; try assumption.
  - unfold t0. f_equal. rewrite <- !app_assoc. reflexivity.
  - rewrite Hkeep. exact Hread.
Qed.

Lemma next_ne i : (i < poolSize)%nat → next i ≠ i.
Proof. unfold next, poolSize. destruct i as [| [| i]]; simpl; lia. Qed.

Lemma next_next i : (i < poolSize)%nat → next (next i) = i.
Proof. unfold next, poolSize. destruct i as [| [| i]]; simpl; lia. Qed.

Lemma turn_state_read useTexture mustUseBlit env q t :
  m_readBuffer (turn_state useTexture mustUseBlit env q t) =
    ((m_readBuffer q + 1) mod length (m_target q))%nat.
Proof. reflexivity. Qed.

Lemma turn_state_target useTexture mustUseBlit env q t :
  m_target (turn_state useTexture mustUseBlit env q t) = m_target q.
Proof. reflexivity. Qed.

Lemma turn_calls_locked useTexture mustUseBlit env q t :
  locks env q t = true →
  turn_calls useTexture mustUseBlit env q t =
    vlog env "GL: render" ++
    [glDrawBuffer (label_at q (m_readBuffer q)); lock_call q] ++
    drawing useTexture mustUseBlit env q t ++ [unlock_call q].
Proof. intros H. unfold turn_calls. rewrite H. reflexivity. Qed.

(** C6.  A composite pass makes at most two turns of its loop.  A turn
    selects the slot at the read cursor (its label goes to [glDrawBuffer]
    and its interop object is the one locked), draws it when it holds the
    lock (by a blit from the framebuffer of the slot, or by binding its
    texture and calling the display list of the quad, built when there is
    none), unlocks it, and advances the cursor to its successor modulo the
    size of the pool; the loop ends after a turn on a slot that is not
    labelled left.  So a mono frame takes exactly one turn and a stereo
    pair exactly two, left then right; every call that draws a slot is made
    in the loop, and the loop is over before the display surface is
    presented. *)
Theorem composite_pass_iterations (env : Env) (q : Quadifier) (t : Trace) (Hwf : wf q) :
  let useTexture := useTexture (settings env) in
  let mustUseBlit := negb (matchOriginalMSAA (settings env)) in
  let t0 := t ++ onPaint_begin_calls env in
  let l0 := label_at q (m_readBuffer q) in
  let l1 := label_at q (next (m_readBuffer q)) in
  (∀ q1 t1,
     onPaint_eye useTexture mustUseBlit env q1 t1 =
       (Returned (label_at q1 (m_readBuffer q1)),
        turn_state useTexture mustUseBlit env q1 t1,
        t1 ++ turn_calls useTexture mustUseBlit env q1 t1) ∧
     m_readBuffer (turn_state useTexture mustUseBlit env q1 t1) =
       ((m_readBuffer q1 + 1) mod length (m_target q1))%nat ∧
     (locks env q1 t1 = true →
        turn_calls useTexture mustUseBlit env q1 t1 =
          vlog env "GL: render" ++
          [glDrawBuffer (label_at q1 (m_readBuffer q1)); lock_call q1] ++
          (if negb useTexture || mustUseBlit then blit q1 else textured env q1 t1) ++
          [unlock_call q1])) ∧
  ∃ q' loop before after,
    onPaint env q t =
      (Returned tt, q',
       t ++ onPaint_begin_calls env ++ loop ++ before ++
         [Window_swapBuffers; FrameDone_signal] ++ after) ∧
    loop = turn_calls useTexture mustUseBlit env q t0 ++
           (if l0 =? GL_BACK_LEFT
            then turn_calls useTexture mustUseBlit env
                   (turn_state useTexture mustUseBlit env q t0)
                   (t0 ++ turn_calls useTexture mustUseBlit env q t0)
            else []) ∧
    pass_slots q = (if l0 =? GL_BACK_LEFT
                    then [m_readBuffer q; next (m_readBuffer q)]
                    else [m_readBuffer q]) ∧
    selected loop = label_at q <$> pass_slots q ∧
    lock_attempts loop = pass_slots q ≫= attempt_at q ∧
    m_readBuffer q' = Nat.iter (length (pass_slots q)) next (m_readBuffer q) ∧
    (l0 = GL_BACK → selected loop = [GL_BACK] ∧ m_readBuffer q' = next (m_readBuffer q)) ∧
    (l0 = GL_BACK_LEFT → l1 = GL_BACK_RIGHT →
       selected loop = [GL_BACK_LEFT; GL_BACK_RIGHT] ∧
       m_readBuffer q' = next (next (m_readBuffer q))) ∧
    count is_frame_call (onPaint_begin_calls env) = 0%nat ∧
    count is_present loop = 0%nat ∧
    count is_frame_call before = 0%nat ∧
    count is_frame_call after = 0%nat.
Proof.
  intros useTexture mustUseBlit t0 l0 l1. split.
  { intros q1 t1. split; [apply onPaint_eye_exact |]. split; [reflexivity |].
    intros Hlock. apply turn_calls_locked, Hlock. }
  destruct (onPaint_pass_calls env q t Hwf)
    as (q' & before & after & E & Hsel & Hlock & Hread & Hquiet & Cb & Ca).
  fold useTexture mustUseBlit t0 in E, Hsel, Hlock, Hquiet.
  exists q', (loop_calls useTexture mustUseBlit env q t0), before, after.
  split; [exact E |]. split; [reflexivity |]. split; [reflexivity |].
  split; [exact Hsel |]. split; [exact Hlock |]. split; [exact Hread |].
  split; [| split; [| split; [| split; [| split]]]]; try assumption.
  - intros H0. unfold l0 in H0. rewrite Hsel, Hread. unfold pass_slots. rewrite H0.
    change (GL_BACK =? GL_BACK_LEFT) with false. cbv iota.
    simpl. rewrite H0. split; reflexivity.
  - intros H0 H1. unfold l0 in H0. unfold l1 in H1.
    rewrite Hsel, Hread. unfold pass_slots. rewrite H0.
    change (GL_BACK_LEFT =? GL_BACK_LEFT) with true. cbv iota.
    simpl. rewrite H0, H1. split; reflexivity.
  - apply count_begin.
  - apply (count_orb_0 is_present is_signal), Hquiet.
Qed.

Lemma pair_captured_wf : wf (state pair_captured).
Proof. vm_compute. repeat split; lia. Qed.

Lemma composite_pass_iterations_witness :
  wf (state pair_captured) ∧
  (∃ q' before after,
     onPaint (scripted nothing_fails []) (state pair_captured) [] =
       (Returned tt, q',
        [glBindFramebuffer GL_DRAW_FRAMEBUFFER 0;
         GL "glPushAttrib" [Z.lor GL_ENABLE_BIT GL_CURRENT_BIT]] ++
        [glDrawBuffer GL_BACK_LEFT; wglDXLockObjectsNV 1 5;
         glBindFramebuffer GL_READ_FRAMEBUFFER 6;
         glBlitFramebuffer 0 0 640 480 0 480 640 0 GL_COLOR_BUFFER_BIT GL_LINEAR;
         wglDXUnlockObjectsNV 1 5;
         glDrawBuffer GL_BACK_RIGHT; wglDXLockObjectsNV 1 2;
         glBindFramebuffer GL_READ_FRAMEBUFFER 3;
         glBlitFramebuffer 0 0 640 480 0 480 640 0 GL_COLOR_BUFFER_BIT GL_LINEAR;
         wglDXUnlockObjectsNV 1 2] ++
        before ++ [Window_swapBuffers; FrameDone_signal] ++ after) ∧
     m_readBuffer q' = 1%nat) ∧
  trace (onPaint_eye true false (with_texture (scripted nothing_fails []))
           (state pair_captured) []) =
    [glDrawBuffer GL_BACK_LEFT; wglDXLockObjectsNV 1 5;
     glBindTexture GL_TEXTURE_2D 0; glGenLists 1] ++ quadList_calls 1 ++
    [glCallList 1; wglDXUnlockObjectsNV 1 5].
Proof.
  split; [exact pair_captured_wf |]. split.
  - destruct (proj2 (composite_pass_iterations (scripted nothing_fails []) (state pair_captured) []
                       pair_captured_wf))
      as (q' & loop & before & after & E & Hloop & _ & _ & _ & Hread & _).
    exists q', before, after. split; [| exact Hread].
    rewrite E, Hloop. reflexivity.
  - pose proof (proj1 (proj1 (composite_pass_iterations (with_texture (scripted nothing_fails []))
                                (state pair_captured) [] pair_captured_wf)
                         (state pair_captured) [])) as E.
    change (useTexture (settings (with_texture (scripted nothing_fails [])))) with true in E.
    change (negb (matchOriginalMSAA (settings (with_texture (scripted nothing_fails [])))))
      with false in E.
    rewrite E. reflexivity.
Defined.

(** With two mono frames in the pool and every lock failing, the first pass
    attempts the first slot and moves the read cursor on; the second pass
    attempts the second slot, not the one that was skipped. *)
Lemma skipped_slot_retried_counterexample :
  ¬ skipped_slot_retried_as_claimed (scripted fails_lock []) (state two_mono_frames).
Proof.
  unfold skipped_slot_retried_as_claimed. intros H.
  specialize (H 2). vm_compute in H.
  assert (H2 : 2 ∈ [2]) by apply list_elem_of_singleton, eq_refl.
  apply H, list_elem_of_singleton in H2. discriminate H2.
Qed.

(** C9, amended.  A turn of the composite loop whose lock fails (the slot
    has no interop object, or [wglDXLockObjectsNV] does not answer
    [GL_TRUE]) makes one attempt at most, logs the failure, draws nothing
    and returns; the read cursor advances as it does after a turn that has
    drawn.  A turn that gets the lock draws its slot, by a blit or with the
    texture as the mode has it, and unlocks it.  Whatever the locks answer,
    a pass makes one turn for each of its slots, with one lock attempt for
    each slot that has an interop object: in the pass of a stereo pair the
    turn of either slot draws it when its own lock is held, whatever the
    lock of the other has answered; and the pass ends by presenting and
    raising the signal.  The next pass starts at the advanced read cursor:
    after a pass of one turn that is the other slot, not the skipped one. *)
Theorem lock_failure_skips_slot (env : Env) (q : Quadifier) (t : Trace) (Hwf : wf q) :
  let useTexture := useTexture (settings env) in
  let mustUseBlit := negb (matchOriginalMSAA (settings env)) in
  let t0 := t ++ onPaint_begin_calls env in
  (∀ q1 t1,
     locks env q1 t1 = false →
     onPaint_eye useTexture mustUseBlit env q1 t1 =
       (Returned (label_at q1 (m_readBuffer q1)),
        set_m_readBuffer ((m_readBuffer q1 + 1) mod length (m_target q1))%nat q1,
        at_lock env q1 t1 ++ attempt q1 ++ [Log_print "unable to lock DX target on paint"]) ∧
     (length (attempt q1) ≤ 1)%nat) ∧
  (∀ q1 t1,
     locks env q1 t1 = true →
     onPaint_eye useTexture mustUseBlit env q1 t1 =
       (Returned (label_at q1 (m_readBuffer q1)),
        set_m_readBuffer ((m_readBuffer q1 + 1) mod length (m_target q1))%nat
          (set_m_quadListGL
             (if negb useTexture || mustUseBlit
              then m_quadListGL q1 else quadList_of env q1 t1) q1),
        at_lock env q1 t1 ++ [lock_call q1] ++
          (if negb useTexture || mustUseBlit then blit q1 else textured env q1 t1) ++
          [unlock_call q1])) ∧
  (∃ q' loop before after,
     onPaint env q t =
       (Returned tt, q',
        t ++ onPaint_begin_calls env ++ loop ++ before ++
          [Window_swapBuffers; FrameDone_signal] ++ after) ∧
     selected loop = label_at q <$> pass_slots q ∧
     lock_attempts loop = pass_slots q ≫= attempt_at q ∧
     m_readBuffer q' = Nat.iter (length (pass_slots q)) next (m_readBuffer q) ∧
     (length (pass_slots q) = 1%nat → m_readBuffer q' = next (m_readBuffer q) ∧
                                      m_readBuffer q' ≠ m_readBuffer q) ∧
     (length (pass_slots q) = 2%nat → m_readBuffer q' = m_readBuffer q) ∧
     loop = turn_calls useTexture mustUseBlit env q t0 ++
            (if label_at q (m_readBuffer q) =? GL_BACK_LEFT
             then turn_calls useTexture mustUseBlit env
                    (turn_state useTexture mustUseBlit env q t0)
                    (t0 ++ turn_calls useTexture mustUseBlit env q t0)
             else []) ∧
     (label_at q (m_readBuffer q) = GL_BACK_LEFT →
        let q2 := turn_state useTexture mustUseBlit env q t0 in
        let t2 := t0 ++ turn_calls useTexture mustUseBlit env q t0 in
        loop = turn_calls useTexture mustUseBlit env q t0 ++
               turn_calls useTexture mustUseBlit env q2 t2 ∧
        m_readBuffer q2 = next (m_readBuffer q) ∧
        m_target q2 = m_target q ∧
        (locks env q t0 = true →
           turn_calls useTexture mustUseBlit env q t0 =
             vlog env "GL: render" ++
             [glDrawBuffer (label_at q (m_readBuffer q)); lock_call q] ++
             (if negb useTexture || mustUseBlit then blit q else textured env q t0) ++
             [unlock_call q]) ∧
        (locks env q2 t2 = true →
           turn_calls useTexture mustUseBlit env q2 t2 =
             vlog env "GL: render" ++
             [glDrawBuffer (label_at q (next (m_readBuffer q))); lock_call q2] ++
             (if negb useTexture || mustUseBlit then blit q2 else textured env q2 t2) ++
             [unlock_call q2]))).
Proof.
  intros useTexture mustUseBlit t0. split; [| split].
  - intros q1 t1 Hfail.
    rewrite onPaint_eye_exact. unfold turn_state, turn_calls, after_turn.
    rewrite Hfail. cbn [andb]. rewrite quadList_same. split.
    + f_equal. unfold at_lock, label_at. rewrite <- !app_assoc. reflexivity.
    + unfold attempt. destruct (_ =? 0); simpl; lia.
  - intros q1 t1 Hlock.
    rewrite onPaint_eye_exact, (turn_calls_locked _ _ _ _ _ Hlock).
    unfold turn_state, after_turn, drawing. rewrite Hlock. cbn [andb].
    f_equal; [f_equal |].
    + destruct (negb useTexture || mustUseBlit); reflexivity.
    + unfold at_lock, label_at. rewrite <- !app_assoc. reflexivity.
  - destruct (onPaint_pass_calls env q t Hwf)
      as (q' & before & after & E & Hsel & Hlock & Hread & _).
    fold useTexture mustUseBlit t0 in E, Hsel, Hlock.
    exists q', (loop_calls useTexture mustUseBlit env q t0), before, after.
    pose proof Hwf as (Hlen & _ & Hr).
    split; [exact E |]. split; [exact Hsel |]. split; [exact Hlock |].
    split; [exact Hread |]. rewrite Hread. split; [| split; [| split]].
    + intros ->. simpl. split; [reflexivity | apply next_ne, Hr].
    + intros ->. simpl. apply next_next, Hr.
    + reflexivity.
    + intros Hleft q2 t2.
      assert (Hread2 : m_readBuffer q2 = next (m_readBuffer q)).
      { unfold q2. rewrite turn_state_read. unfold next. rewrite Hlen. reflexivity. }
      split; [| split; [| split; [| split]]].
      * unfold loop_calls. rewrite Hleft. reflexivity.
      * exact Hread2.
      * reflexivity.
      * intros H. apply turn_calls_locked, H.
      * intros H. rewrite (turn_calls_locked _ _ _ _ _ H).
        unfold label_at at 1. rewrite Hread2. reflexivity.
Qed.

Lemma lock_failure_skips_slot_witness :
  wf (state pair_captured) ∧
  locks (scripted (fails_lock_of 5) []) (state pair_captured) [] = false ∧
  trace (onPaint_eye false true (scripted (fails_lock_of 5) []) (state pair_captured) []) =
    [glDrawBuffer GL_BACK_LEFT; wglDXLockObjectsNV 1 5;
     Log_print "unable to lock DX target on paint"] ∧
  ∃ q' before after,
     onPaint (scripted (fails_lock_of 5) []) (state pair_captured) [] =
       (Returned tt, q',
        [glBindFramebuffer GL_DRAW_FRAMEBUFFER 0;
         GL "glPushAttrib" [Z.lor GL_ENABLE_BIT GL_CURRENT_BIT]] ++
        [glDrawBuffer GL_BACK_LEFT; wglDXLockObjectsNV 1 5;
         Log_print "unable to lock DX target on paint";
         glDrawBuffer GL_BACK_RIGHT; wglDXLockObjectsNV 1 2;
         glBindFramebuffer GL_READ_FRAMEBUFFER 3;
         glBlitFramebuffer 0 0 640 480 0 480 640 0 GL_COLOR_BUFFER_BIT GL_LINEAR;
         wglDXUnlockObjectsNV 1 2] ++
        before ++ [Window_swapBuffers; FrameDone_signal] ++ after).
Proof.
  split; [exact pair_captured_wf |].
  assert (Hfail : locks (scripted (fails_lock_of 5) []) (state pair_captured) [] = false)
    by reflexivity.
  split; [exact Hfail |].
  pose proof (lock_failure_skips_slot (scripted (fails_lock_of 5) [])
                (state pair_captured) [] pair_captured_wf) as (Hturn & _ & Hpass).
  split.
  - pose proof (proj1 (Hturn (state pair_captured) [] Hfail)) as E.
    change (useTexture (settings (scripted (fails_lock_of 5) []))) with false in E.
    change (negb (matchOriginalMSAA (settings (scripted (fails_lock_of 5) [])))) with true in E.
    rewrite E. reflexivity.
  - destruct Hpass as (q' & loop & before & after & E & _ & _ & _ & _ & _ & _ & Hpair).
    destruct (Hpair eq_refl) as (Hloop & _).
    exists q', before, after. rewrite E, Hloop. reflexivity.
Defined.

(** ** The cursors *)

Lemma wf_kept op : keeps wf (perform op).
Proof.
  apply keeps_perform.
  - intros q q' (_ & Hd & Hr & Hl & _) (Hlen & Hdraw & Hread).
    unfold wf. rewrite Hd, Hr, Hl. repeat split; assumption.
  - intros q H. exact H.
  - intros q (Hlen & Hdraw & Hread). unfold wf. simpl.
    repeat split; try assumption.
    rewrite Hlen. apply Nat.mod_upper_bound. discriminate.
  - intros q label (Hlen & Hdraw & Hread). unfold wf, update_target. simpl.
    rewrite length_alter. repeat split; assumption.
  - intros q (Hlen & Hdraw & Hread). unfold wf. simpl.
    repeat split; try assumption.
    rewrite Hlen. apply Nat.mod_upper_bound. discriminate.
Qed.

Lemma session_wf env device direct3D ops : wf (state (session env device direct3D ops)).
Proof.
  unfold session. apply (keeps_run wf); [apply wf_kept | apply wf_new].
Qed.

Lemma draw_view d :
  ∀ q q', same_view q q' → m_drawBuffer q = d → m_drawBuffer q' = d.
Proof. intros q q' (_ & Hd & _) H. rewrite Hd. exact H. Qed.

Lemma read_view r :
  ∀ q q', same_view q q' → m_readBuffer q = r → m_readBuffer q' = r.
Proof. intros q q' (_ & _ & Hr & _) H. rewrite Hr. exact H. Qed.

Lemma draw_kept op d :
  advances_draw op = false → keeps (λ q, m_drawBuffer q = d) (perform op).
Proof.
  intros Hop.
  destruct (on_producer_thread op) eqn:Hthread.
  - destruct op; try discriminate Hop; try discriminate Hthread; simpl.
    all: try (apply keeps_ret).
    + apply keeps_onPreClearDX, draw_view.
    + apply keeps_onPostPresentDX.
    + intros env q t Hq. rewrite bind_run.
      destruct pViewport as [v |]; [| exact Hq].
      rewrite onPreSetViewportDX_run. simpl in Hop. rewrite Hop. exact Hq.
    + apply keeps_bind; [apply keeps_isPresentedRenderTarget | intros; apply keeps_ret].
    + apply keeps_createResources, draw_view.
    + apply keeps_startRenderThread, draw_view.
    + apply keeps_beginCapture, draw_view.
  - apply keeps_consumer; [apply draw_view | intros q H; exact H | exact Hthread].
Qed.

Lemma read_kept op r :
  runs_onPaint op = false → keeps (λ q, m_readBuffer q = r) (perform op).
Proof.
  intros Hop.
  destruct (on_producer_thread op) eqn:Hthread.
  - apply keeps_producer;
      [apply read_view | intros q H; exact H | intros q H; exact H
      | intros q label H; exact H | exact Hthread].
  - destruct op; try discriminate Hop; try discriminate Hthread; simpl.
    + apply keeps_bind; [apply keeps_onCreate, read_view | intros; apply keeps_ret].
    + apply keeps_onDestroy, read_view.
    + apply keeps_ret.
Qed.

Lemma endCapture_draw label env q t :
  wf q → m_drawBuffer (state (endCapture label env q t)) = next (m_drawBuffer q).
Proof.
  intros (Hlen & _). rewrite endCapture_run. unfold next.
  destruct (m_stereoMode q);
    cbv beta iota delta [state fst snd m_drawBuffer set_m_framesDX set_m_drawBuffer];
    rewrite Hlen; reflexivity.
Qed.

Lemma capture_then_begin_draw label env q t :
  wf q →
  m_drawBuffer (state ((endCapture label ;; beginCapture) env q t)) = next (m_drawBuffer q).
Proof.
  intros Hwf. rewrite bind_run.
  pose proof (endCapture_draw label env q t Hwf) as Hd.
  rewrite endCapture_run in *. cbv beta match.
  rewrite beginCapture_run. destruct (_ =? D3D_OK); exact Hd.
Qed.

Lemma state_then_ret {A B : Type} (m : M A) (b : B) env q t :
  state ((m ;; mret b) env q t) = state (m env q t).
Proof.
  rewrite (bind_run m). destruct (m env q t) as [[[a | code] q1] t1]; reflexivity.
Qed.

Lemma state_then_then_ret {A B C : Type} (m : M A) (k : M B) (c : C) env q t :
  state ((m ;; k ;; mret c) env q t) = state ((m ;; k) env q t).
Proof.
  rewrite !(bind_run m). destruct (m env q t) as [[[a | code] q1] t1]; [| reflexivity].
  apply state_then_ret.
Qed.

Lemma draw_advanced op env q t :
  advances_draw op = true → wf q →
  m_drawBuffer (state (perform op env q t)) = next (m_drawBuffer q).
Proof.
  intros Hop Hwf. destruct op; try discriminate Hop; simpl.
  - (* onPrePresentDX *)
    unfold onPrePresentDX.
    rewrite bind_run, verbose_run. rewrite bind_run, call_run. cbv beta match.
    set (r := respond env _ _). rewrite bind_run.
    assert (Hwhen : ∃ q1 t1,
              when (result r =? S_OK)
                (call_ (Release (out r)) ;;
                 modify (λ q, set_m_presentedTargets
                                ({[pointer_hash (out r)]} ∪ m_presentedTargets q) q) ;;
                 verbose "Presenting Render Target: ")
                env q ((t ++ vlog env "onPrePresentDX") ++ [GetRenderTarget 0]) =
              (Returned tt, q1, t1) ∧ wf q1 ∧ m_drawBuffer q1 = m_drawBuffer q).
    { destruct (result r =? S_OK); simpl.
      - rewrite bind_run, call_run_. rewrite bind_run, modify_run. rewrite verbose_run.
        eexists _, _. split; [reflexivity |]. split; [exact Hwf | reflexivity].
      - eexists _, _. split; [reflexivity |]. split; [exact Hwf | reflexivity]. }
    destruct Hwhen as (q1 & t1 & -> & Hwf1 & Hd1).
    rewrite bind_run, get_run. cbv beta match.
    rewrite bind_run.
    pose proof (endCapture_draw (if m_stereoMode q1 then GL_BACK_RIGHT else GL_BACK)
                  env q1 t1 Hwf1) as Hd.
    rewrite endCapture_run in *. cbv beta match.
    rewrite bind_run, verbose_run. rewrite bind_run, call_run. rewrite call_run_.
    rewrite <- Hd1. exact Hd.
  - (* onPreSetViewportDX *)
    destruct pViewport as [v |]; [| discriminate Hop].
    simpl in Hop. rewrite state_then_ret, onPreSetViewportDX_run, Hop.
    rewrite state_then_then_ret.
    apply (capture_then_begin_draw GL_BACK_LEFT env (set_m_stereoMode true q)).
    exact Hwf.
  - (* endCapture *)
    apply endCapture_draw, Hwf.
  - (* onStereoSignal *)
    rewrite onStereoSignal_run.
    apply (capture_then_begin_draw GL_BACK_LEFT env (set_m_stereoMode true q)).
    exact Hwf.
Qed.


(** ** Passes in step with the captures *)

Lemma captured_label label q q' :
  wf q → captured label q q' → label_at q' (m_drawBuffer q) = label.
Proof.
  intros (Hlen & Hdraw & _) (Ht & _). unfold label_at, target. rewrite Ht.
  rewrite list_lookup_total_alter_eq by (rewrite Hlen; exact Hdraw). reflexivity.
Qed.

Lemma captured_other label q q' i :
  captured label q q' → i ≠ m_drawBuffer q → label_at q' i = label_at q i.
Proof.
  intros (Ht & _) Hi. unfold label_at, target. rewrite Ht.
  rewrite list_lookup_total_alter_ne by congruence. reflexivity.
Qed.

Lemma endCapture_captured label env q t :
  wf q → captured label q (state (endCapture label env q t)).
Proof.
  intros (Hlen & _). rewrite endCapture_run. unfold captured, next. rewrite <- Hlen.
  destruct (m_stereoMode q); repeat split.
Qed.

(** Presenting a frame ends one capture: of the right eye in stereo mode,
    of a 2D frame otherwise. *)
Lemma onPrePresentDX_captured env q t :
  wf q →
  ∃ q' rest,
    onPrePresentDX env q t = (Returned tt, q', t ++ rest) ∧
    captured (if m_stereoMode q then GL_BACK_RIGHT else GL_BACK) q q' ∧
    m_stereoMode q' = m_stereoMode q.
Proof.
  intros Hwf.
  assert (Hr : counts (λ _, false) 0 onPrePresentDX).
  { unfold onPrePresentDX, endCapture. quiet. }
  destruct (Hr env q t) as ([] & q' & rest & E & _).
  exists q', rest. split; [exact E |].
  assert (Hstate : state (onPrePresentDX env q t) = q') by (rewrite E; reflexivity).
  clear E Hr. revert Hstate.
  unfold onPrePresentDX.
  rewrite bind_run, verbose_run. rewrite bind_run, call_run. cbv beta match.
  set (r := respond env _ _). rewrite bind_run.
  set (q1 := if result r =? S_OK
             then set_m_presentedTargets ({[pointer_hash (out r)]} ∪ m_presentedTargets q) q
             else q).
  assert (Hwhen : ∃ t1,
            when (result r =? S_OK)
              (call_ (Release (out r)) ;;
               modify (λ q, set_m_presentedTargets
                              ({[pointer_hash (out r)]} ∪ m_presentedTargets q) q) ;;
               verbose "Presenting Render Target: ")
              env q ((t ++ vlog env "onPrePresentDX") ++ [GetRenderTarget 0]) =
            (Returned tt, q1, t1)).
  { unfold q1. destruct (result r =? S_OK); simpl.
    - rewrite bind_run, call_run_. rewrite bind_run, modify_run. rewrite verbose_run.
      eexists. reflexivity.
    - eexists. reflexivity. }
  destruct Hwhen as (t1 & ->).
  rewrite bind_run, get_run. cbv beta match. rewrite bind_run.
  assert (Hq1 : wf q1 ∧ m_target q1 = m_target q ∧ m_drawBuffer q1 = m_drawBuffer q ∧
                m_readBuffer q1 = m_readBuffer q ∧ m_stereoMode q1 = m_stereoMode q).
  { unfold q1. destruct (result r =? S_OK); repeat split; apply Hwf. }
  destruct Hq1 as (Hwf1 & Ht1 & Hd1 & Hr1 & Hs1).
  pose proof (endCapture_captured (if m_stereoMode q1 then GL_BACK_RIGHT else GL_BACK)
                env q1 t1 Hwf1) as Hc.
  assert (Hmode : m_stereoMode
                    (state (endCapture (if m_stereoMode q1 then GL_BACK_RIGHT else GL_BACK)
                              env q1 t1)) = m_stereoMode q1).
  { rewrite endCapture_run. destruct (m_stereoMode q1) eqn:E; exact E. }
  rewrite endCapture_run in *. cbv beta match.
  rewrite bind_run, verbose_run. rewrite bind_run, call_run. rewrite call_run_.
  cbv beta match. unfold state at 1. cbv beta iota delta [fst snd].
  intros <-. unfold state in Hc, Hmode. cbv beta iota delta [fst snd] in Hc, Hmode.
  rewrite Hs1 in *. split; [| exact Hmode].
  destruct Hc as (Hc1 & Hc2 & Hc3). unfold captured.
  rewrite Hc1, Hc2, Hc3, Ht1, Hd1, Hr1. repeat split.
Qed.

(** The stereo signal ends the capture of the left eye and sets the mode
    flag, also when [beginCapture] then ends the process. *)
Lemma onPreSetViewportDX_captured v env q t :
  wf q → is_sentinel v = true →
  let q' := state (onPreSetViewportDX (Some v) env q t) in
  captured GL_BACK_LEFT q q' ∧ m_stereoMode q' = true.
Proof.
  intros Hwf Hv q'. subst q'. rewrite onPreSetViewportDX_run, Hv.
  rewrite state_then_then_ret. rewrite bind_run.
  assert (Hwf' : wf (set_m_stereoMode true q)) by exact Hwf.
  pose proof (endCapture_captured GL_BACK_LEFT env (set_m_stereoMode true q)
                (t ++ signal_log env q) Hwf') as Hc.
  rewrite endCapture_run in *. cbv beta match.
  rewrite beginCapture_run.
  destruct (_ =? D3D_OK); split; solve [exact Hc | reflexivity].
Qed.

Lemma label_view q q' i : same_view q q' → label_at q' i = label_at q i.
Proof.
  intros (_ & _ & _ & _ & Hl). unfold label_at, target.
  rewrite !list_lookup_total_alt.
  assert (H : drawBuffer <$> (m_target q' !! i) = drawBuffer <$> (m_target q !! i)).
  { rewrite <- !list_lookup_fmap, Hl. reflexivity. }
  destruct (m_target q' !! i), (m_target q !! i); simpl in *; congruence.
Qed.

Lemma pass_slots_view q q' : same_view q q' → pass_slots q' = pass_slots q.
Proof.
  intros Hv. unfold pass_slots. rewrite (proj1 (proj2 (proj2 Hv))).
  rewrite (label_view q q' _ Hv). reflexivity.
Qed.

Lemma in_phase_view ph q q' : same_view q q' → in_phase ph q → in_phase ph q'.
Proof.
  intros Hv. pose proof Hv as (Hs & Hd & Hr & _).
  destruct ph; simpl.
  - rewrite Hd, Hr. tauto.
  - rewrite Hd, Hr, Hs, (label_view q q' _ Hv). tauto.
  - rewrite (pass_slots_view q q' Hv), Hd, Hr.
    intros [H1 H2]. split; [exact H1 |].
    intros Hin. apply H2. apply list_elem_of_fmap in Hin as (i & Hi & Hin).
    apply list_elem_of_fmap. exists i. split; [| exact Hin].
    rewrite Hi. apply label_view, Hv.
Qed.

(** An operation that runs neither [endCapture] nor a composite pass keeps
    every property of the view. *)
Lemma keeps_neutral (P : Quadifier → Prop) op :
  (∀ q q', same_view q q' → P q → P q') →
  advances_draw op = false → runs_onPaint op = false → keeps P (perform op).
Proof.
  intros P_view Hd Hr.
  destruct op; try discriminate Hd; try discriminate Hr; simpl.
  all: try (apply keeps_ret).
  - apply keeps_onPreClearDX, P_view.
  - apply keeps_onPostPresentDX.
  - intros env q t Hq. rewrite bind_run.
    destruct pViewport as [v |]; [| exact Hq].
    rewrite onPreSetViewportDX_run. simpl in Hd. rewrite Hd. exact Hq.
  - apply keeps_bind; [apply keeps_isPresentedRenderTarget | intros; apply keeps_ret].
  - apply keeps_createResources, P_view.
  - apply keeps_startRenderThread, P_view.
  - apply keeps_beginCapture, P_view.
  - apply keeps_bind; [apply keeps_onCreate, P_view | intros; apply keeps_ret].
  - apply keeps_onDestroy, P_view.
Qed.

Lemma session_last env device direct3D ops op :
  session env device direct3D (ops ++ [op]) =
  session_step env (session env device direct3D ops) op.
Proof. unfold session. rewrite run_app. reflexivity. Qed.

(** ** One-time creation of the resources *)

Lemma returns_for_targets remaining i body :
  (∀ i, returns (body i)) → returns (for_targets remaining i body).
Proof.
  intros Hbody. revert i. induction remaining as [| remaining IH]; intros i; simpl.
  - apply counts_ret.
  - apply counts_bind0; [apply Hbody | intros [|]; [apply IH | apply counts_ret]].
Qed.

Lemma returns_createRenderTarget format multisampleType i :
  returns (createRenderTarget format multisampleType i).
Proof. unfold returns, createRenderTarget. quiet. Qed.

Lemma returns_startRenderThread : returns startRenderThread.
Proof. unfold returns, startRenderThread. quiet. Qed.

Lemma reaches_here {A : Type} (P : Quadifier → Prop) (k : M A) : reaches P P k k.
Proof. intros env q t H. exists q, []. rewrite app_nil_r. split; [reflexivity | exact H]. Qed.

Lemma reaches_bind {A B : Type} (P R : Quadifier → Prop) (m : M A) (f : A → M B) (k : M B) :
  returns m → keeps P m → (∀ a, reaches P R (f a) k) → reaches P R (m ≫= f) k.
Proof.
  intros Hm Hk Hf env q t H. rewrite bind_run.
  destruct (Hm env q t) as (a & q1 & r1 & E & _).
  specialize (Hk env q t H). rewrite E in *. cbv beta match.
  destruct (Hf a env q1 (t ++ r1) Hk) as (q2 & r2 & E2 & H2).
  exists q2, (r1 ++ r2). rewrite app_assoc. split; assumption.
Qed.

Lemma reaches_pre {A : Type} (P P' R : Quadifier → Prop) (m k : M A) :
  (∀ q, P q → P' q) → reaches P' R m k → reaches P R m k.
Proof. intros HP Hm env q t H. apply Hm, HP, H. Qed.

(** The test on the object at the head of a method, when [P] decides it. *)
Lemma reaches_get_else {A : Type} (P R : Quadifier → Prop)
    (test : Quadifier → bool) (m : M A) (f : Quadifier → M A) (k : M A) :
  (∀ q, P q → test q = false) → (∀ q, reaches P R (f q) k) →
  reaches P R (q ← get; if test q then m else f q) k.
Proof.
  intros Htest Hf env q t H. rewrite bind_run, get_run. cbv beta match.
  rewrite (Htest q H). apply Hf, H.
Qed.

Ltac thread_leaf := intros ? ?; unfold update_target; simpl; assumption.

Lemma createResources_reaches_end thread :
  reaches (λ q, surface (target q 0) = 0 ∧ m_thread q = thread)
          (λ q, m_thread q = thread)
          createResources createResources_end.
Proof.
  unfold createResources.
  do 4 (apply reaches_bind; [unfold returns; quiet | keeps_all thread_leaf | intros ?]).
  cbv zeta.
  apply reaches_get_else.
  { intros q [Hs _]. rewrite Hs. reflexivity. }
  intros q0. apply (reaches_pre _ (λ q, m_thread q = thread)); [intros q [_ H]; exact H |].
  repeat first
    [ apply reaches_here
    | apply reaches_bind;
      [ first [ solve [unfold returns; quiet]
              | apply returns_for_targets; intros; apply returns_createRenderTarget ]
      | first [ solve [keeps_all thread_leaf]
              | apply keeps_for_targets; intros; unfold createRenderTarget;
                keeps_all thread_leaf ]
      | intros ? ] ].
Qed.

Lemma createResources_end_run env q t :
  createResources_end env q t =
    if negb (m_thread q =? 0)
    then (Returned tt, set_m_initialised true q,
          t ++ ilog env "starting GL rendering thread")
    else (Returned tt,
          set_m_initialised true
            (set_m_thread
               (result (respond env (t ++ ilog env "starting GL rendering thread")
                          (beginthreadex (1024 * 1024)))) q),
          t ++ ilog env "starting GL rendering thread" ++
            [beginthreadex (1024 * 1024)] ++ ilog env "thread = ").
Proof.
  unfold createResources_end, startRenderThread.
  rewrite bind_run. rewrite bind_run, info_run. rewrite bind_run, get_run. cbv beta match.
  destruct (negb (m_thread q =? 0)); [reflexivity |].
  rewrite bind_run, call_run. rewrite bind_run, modify_run. rewrite info_run.
  cbv beta match. rewrite modify_run. rewrite <- !app_assoc. reflexivity.
Qed.

(** ** The objects of the OpenGL thread *)

Lemma returns_logRenderbufferParameters names : returns (logRenderbufferParameters names).
Proof.
  unfold returns. induction names as [| name names IH]; simpl.
  - apply counts_ret.
  - quiet. exact IH.
Qed.

Lemma setupFramebuffer_run useTexture textureMode i env q t :
  ∃ rest, setupFramebuffer useTexture textureMode i env q t = (Returned tt, q, t ++ rest).
Proof.
  assert (Hr : returns (setupFramebuffer useTexture textureMode i)).
  { unfold returns, setupFramebuffer, attachTarget. quiet.
    apply returns_logRenderbufferParameters. }
  assert (Hk : keeps (λ q', q' = q) (setupFramebuffer useTexture textureMode i)).
  { unfold setupFramebuffer, attachTarget. keeps_all idtac. }
  destruct (Hr env q t) as ([] & q' & rest & E & _).
  specialize (Hk env q t eq_refl). rewrite E in Hk. unfold state in Hk. simpl in Hk. subst q'.
  exists rest. exact E.
Qed.

Lemma same_but_refl i q : same_but i q q.
Proof. repeat split. Qed.

Lemma same_but_update i f q q' : same_but i q q' → same_but i q (update_target i f q').
Proof.
  intros (Hl & Hi & Hj). unfold same_but, update_target, target in *. simpl.
  rewrite length_alter. repeat split; try assumption.
  intros j Hne. rewrite list_lookup_total_alter_ne by congruence. apply Hj, Hne.
Qed.

Lemma target_update i f q :
  (i < length (m_target q))%nat → target (update_target i f q) i = f (target q i).
Proof. intros Hi. unfold target, update_target. simpl. apply list_lookup_total_alter_eq, Hi. Qed.

Lemma onCreate_target_run useTexture textureMode i env q t :
  (i < length (m_target q))%nat →
  ∃ continue q' rest,
    onCreate_target useTexture textureMode i env q t = (Returned continue, q', t ++ rest) ∧
    same_but i q q' ∧
    (continue = true → allocated useTexture (target q' i)).
Proof.
  intros Hi. unfold onCreate_target.
  rewrite bind_run, call_run. cbv beta match.
  set (r := respond env t _).
  rewrite bind_run, modify_run. 
  set (q1 := update_target i _ q).
  assert (H1 : same_but i q q1) by apply same_but_update, same_but_refl.
  assert (Hi1 : (i < length (m_target q1))%nat) by (destruct H1 as [-> _]; exact Hi).
  assert (Himage : (if useTexture then texture (target q1 i) else renderBuffer (target q1 i))
                   = result r).
  { unfold q1. rewrite target_update by exact Hi. destruct useTexture; reflexivity. }
  destruct (result r =? 0) eqn:Hr.
  { rewrite bind_run, Log_run. rewrite <- ?app_assoc. eexists false, q1, _.
    split; [reflexivity |]. split; [exact H1 | discriminate]. }
  apply Z.eqb_neq in Hr.
  rewrite bind_run, info_run. rewrite bind_run, call_run. cbv beta match.
  destruct (result (respond env _ wglDXSetResourceShareHandleNV_available) =? 0).
  { rewrite bind_run, Log_run. rewrite <- ?app_assoc. eexists false, q1, _.
    split; [reflexivity |]. split; [exact H1 | discriminate]. }
  rewrite bind_run, get_run. cbv beta match.
  rewrite bind_run, call_run_. rewrite bind_run, info_run. rewrite bind_run, call_run.
  cbv beta match.
  set (o := respond env _ (wglDXRegisterObjectNV _ _ _ _ _)).
  rewrite bind_run, modify_run.
  set (q2 := update_target i (set_object (result o)) q1).
  assert (H2 : same_but i q q2) by apply same_but_update, H1.
  assert (Hi2 : (i < length (m_target q2))%nat) by (destruct H2 as [-> _]; exact Hi).
  destruct (result o =? 0) eqn:Ho.
  { rewrite bind_run, call_run_. rewrite bind_run, Log_run.
    rewrite <- ?app_assoc. eexists false, q2, _.
    split; [reflexivity |]. split; [exact H2 | discriminate]. }
  apply Z.eqb_neq in Ho.
  rewrite bind_run, call_run. cbv beta match.
  set (f := respond env _ glGenFramebuffers).
  rewrite bind_run, modify_run.
  set (q3 := update_target i (set_frameBuffer (result f)) q2).
  assert (H3 : same_but i q q3) by apply same_but_update, H2.
  destruct (result f =? 0) eqn:Hf.
  { rewrite bind_run, Log_run. rewrite <- ?app_assoc. eexists false, q3, _.
    split; [reflexivity |]. split; [exact H3 | discriminate]. }
  apply Z.eqb_neq in Hf.
  rewrite bind_run, call_run_. rewrite bind_run.
  match goal with |- context [setupFramebuffer ?u ?m ?k ?e ?s ?h] =>
    destruct (setupFramebuffer_run u m k e s h) as (rest & E) end.
  rewrite E. rewrite <- ?app_assoc. eexists true, q3, _.
  split; [reflexivity |]. split; [exact H3 |]. intros _.
  unfold allocated, q3. rewrite target_update by exact Hi2.
  unfold q2. rewrite target_update by exact Hi1.
  destruct useTexture; simpl in *; rewrite Himage; repeat split; assumption.
Qed.

Lemma onCreate_targets_run useTexture textureMode remaining : ∀ i env q t,
  (i + remaining ≤ length (m_target q))%nat →
  ∃ i' q' rest,
    for_targets remaining i (onCreate_target useTexture textureMode) env q t =
      (Returned i', q', t ++ rest) ∧
    length (m_target q') = length (m_target q) ∧
    m_interopGLDX q' = m_interopGLDX q ∧
    (i' = i + remaining → ∀ j, i ≤ j < i' → allocated useTexture (target q' j))%nat ∧
    (∀ j, j < i → target q' j = target q j)%nat.
Proof.
  induction remaining as [| remaining IH]; intros i env q t Hi; simpl.
  - exists i, q, []. rewrite app_nil_r. split; [reflexivity |].
    split; [reflexivity |]. split; [reflexivity |].
    split; [intros; lia | reflexivity].
  - rewrite bind_run.
    destruct (onCreate_target_run useTexture textureMode i env q t)
      as (continue & q1 & r1 & E & (Hl1 & Hd1 & Hj1) & Ha); [lia |].
    rewrite E. destruct continue.
    + destruct (IH (S i) env q1 (t ++ r1)) as (i' & q2 & r2 & E2 & Hl2 & Hd2 & Hall & Hbelow);
        [rewrite Hl1; lia |].
      rewrite E2. exists i', q2, (r1 ++ r2). rewrite app_assoc.
      split; [reflexivity |]. split; [congruence |]. split; [congruence |]. split.
      * intros Hi' j Hj. destruct (decide (j = i)) as [-> | Hne].
        -- rewrite Hbelow by lia. apply Ha. reflexivity.
        -- apply Hall; lia.
      * intros j Hj. rewrite Hbelow by lia. apply Hj1. lia.
    + exists i, q1, r1. split; [reflexivity |]. split; [exact Hl1 |]. split; [exact Hd1 |].
      split; [intros; lia |]. intros j Hj. apply Hj1. lia.
Qed.

(** [onCreate_objects] returns; when it answers [true], the interop device
    is open and every slot of the pool has all its objects. *)
Lemma onCreate_objects_run useTexture env q t :
  ∃ created q' rest,
    onCreate_objects useTexture env q t = (Returned created, q', t ++ rest) ∧
    (created = true →
       m_interopGLDX q' ≠ 0 ∧
       ∀ j, (j < length (m_target q))%nat → allocated useTexture (target q' j)).
Proof.
  unfold onCreate_objects.
  rewrite bind_run, call_run. cbv beta match. rewrite bind_run.
  remember (t ++ [glx_load]) as t0 eqn:Ht0.
  assert (Hblock : ∃ success q' rest,
            (if result (respond env t glx_load) =? 0
             then Log "error: failed to load GL extensions" ;; mret false
             else do_while 1 (onCreate_block useTexture) false_value false)
              env q t0 = (Returned success, q', t0 ++ rest) ∧
            (success = true →
               m_interopGLDX q' ≠ 0 ∧
               ∀ j, (j < length (m_target q))%nat → allocated useTexture (target q' j))).
  { destruct (result (respond env t glx_load) =? 0).
    { rewrite bind_run, Log_run. eexists false, q, _. split; [reflexivity | discriminate]. }
    unfold do_while, onCreate_block.
    rewrite bind_run. rewrite bind_run, info_run. rewrite bind_run, info_run.
    rewrite bind_run, get_run. cbv beta match.
    rewrite bind_run, call_run. cbv beta match.
    set (d := respond env _ (wglDXOpenDeviceNV _)).
    rewrite bind_run, modify_run. cbv beta match.
    destruct (result d =? 0) eqn:Hd.
    { rewrite bind_run, Log_run. cbv beta match. simpl.
      rewrite <- ?app_assoc. eexists false, _, _.
      split; [reflexivity | discriminate]. }
    apply Z.eqb_neq in Hd.
    rewrite bind_run, get_run. cbv beta match zeta.
    rewrite bind_run, info_run. rewrite bind_run.
    set (q0 := set_m_interopGLDX (result d) q).
    match goal with |- context [for_targets ?n 0%nat (onCreate_target ?u ?m) env q0 ?h] =>
      destruct (onCreate_targets_run u m n 0%nat env q0 h) as (i' & q1 & r1 & E & Hl & Hi & Hall & _);
        [simpl; lia |] end.
    rewrite E. cbv beta match. simpl.
    rewrite <- ?app_assoc. eexists _, q1, _. split; [reflexivity |].
    intros Hs. apply bool_decide_eq_true in Hs.
    split; [rewrite Hi; exact Hd |].
    intros j Hj. apply Hall; [exact Hs | lia]. }
  destruct Hblock as (success & q' & rest & -> & Hs).
  repeat (rewrite bind_run, call_run_).
  subst t0. rewrite <- ?app_assoc. eexists success, q', _. split; [reflexivity | exact Hs].
Qed.

Lemma onCreate_run env q t :
  ∃ created q' rest,
    onCreate env q t = (Returned created, q', t ++ rest) ∧
    (created = true →
       m_interopGLDX q' ≠ 0 ∧
       ∀ j, (j < length (m_target q))%nat →
            allocated (useTexture (settings env)) (target q' j)).
Proof.
  assert (Hreach : reaches (λ q', m_target q' = m_target q) (λ q', m_target q' = m_target q)
                     onCreate (useTexture ← setting useTexture; onCreate_objects useTexture)).
  { unfold onCreate.
    repeat first
      [ apply reaches_here
      | apply reaches_bind;
        [ solve [unfold returns; quiet] | solve [keeps_all thread_leaf] | intros ? ] ]. }
  destruct (Hreach env q t eq_refl) as (q1 & r1 & -> & Hq1).
  rewrite bind_run, setting_run.
  destruct (onCreate_objects_run (useTexture (settings env)) env q1 (t ++ r1))
    as (created & q' & rest & -> & Hc).
  exists created, q', (r1 ++ rest). rewrite app_assoc. split; [reflexivity |].
  rewrite <- Hq1. exact Hc.
Qed.

(** ** The thread and the failure of its resources *)

Lemma threadFunc_end_failed fuel uninitialised env q t :
  threadFunc_end false fuel uninitialised env q t =
    (Returned (Some 0), q,
     t ++ [Log_print "Failed when initialising OpenGL resources: exiting";
           PostMessage (m_sourceWindow q) WM_QUIT 0 0; endthreadex 0]).
Proof.
  unfold threadFunc_end. M_unfold. rewrite <- !app_assoc. reflexivity.
Qed.

(** [threadFunc] either ends before [onCreate] (null context, or no
    window), or runs [onCreate] and goes on from its answer. *)
Lemma threadFunc_run context fuel uninitialised env q t :
  ∃ t',
    threadFunc context fuel uninitialised env q t =
      (Returned (Some 0), q, t' ++ [endthreadex 0]) ∨
    threadFunc context fuel uninitialised env q t =
      (created ← onCreate; threadFunc_end created fuel uninitialised) env q t'.
Proof.
  unfold threadFunc. rewrite bind_run, info_run.
  destruct (context =? 0).
  { exists (t ++ ilog env "GL rendering thread started"). left. reflexivity. }
  rewrite bind_run, get_run. cbv beta match.
  rewrite bind_run, call_run. cbv beta match.
  rewrite bind_run, call_run_. rewrite bind_run, call_run_.
  rewrite bind_run, call_run. cbv beta match zeta.
  rewrite bind_run, setting_run. rewrite bind_run.
  assert (Hlog : ∃ rest,
            (if matchOriginalMSAA (settings env) : bool
             then info "matchOriginalMSAA is ENABLED"
             else info "matchOriginalMSAA is DISABLED") env q
              (((((t ++ ilog env "GL rendering thread started") ++
                   [GetWindowLongPtr (m_sourceWindow q) "GWLP_WNDPROC"]) ++
                  [SetWindowLongPtr (m_sourceWindow q) "GWLP_USERDATA"
                     (result (respond env (t ++ ilog env "GL rendering thread started")
                                (GetWindowLongPtr (m_sourceWindow q) "GWLP_WNDPROC")))]) ++
                 [SetWindowProc (m_sourceWindow q) "WindowProcSource"]) ++
                [GetClientRect (m_sourceWindow q)]) =
            (Returned tt, q, t ++ rest)).
  { destruct (matchOriginalMSAA (settings env)); rewrite info_run;
      rewrite <- ?app_assoc; eexists; reflexivity. }
  destruct Hlog as (r1 & ->).
  rewrite bind_run, call_run. cbv beta match.
  destruct (result (respond env (t ++ r1) _) =? 0).
  { rewrite bind_run, Log_run. rewrite bind_run, call_run_.
    cbv beta match. unfold mret, M_ret. eexists. left. reflexivity. }
  rewrite bind_run, call_run. cbv beta match.
  rewrite bind_run.
  match goal with |- context [when ?b ?m env q ?h] =>
    assert (Hwhen : ∃ rest, when b m env q h = (Returned tt, q, t ++ rest)) end.
  { destruct (negb _); simpl; [rewrite Log_run |];
      rewrite <- ?app_assoc; eexists; reflexivity. }
  destruct Hwhen as (r2 & ->).
  exists (t ++ r2). right. reflexivity.
Qed.

Lemma refused_in_app env t a b :
  refused_in env t (a ++ b) = refused_in env t a || refused_in env (t ++ a) b.
Proof.
  revert t. induction a as [| c a IH]; intros t; simpl.
  - rewrite app_nil_r. reflexivity.
  - rewrite IH, <- app_assoc, orb_assoc. reflexivity.
Qed.

Lemma refused_in_quiet env t rest :
  count is_creation_call rest = 0%nat → refused_in env t rest = false.
Proof.
  unfold count. revert t.
  induction rest as [| c rest IH]; intros t H; simpl in *; [reflexivity |].
  unfold refuses. destruct (is_creation_call c); [discriminate |].
  simpl. apply IH, H.
Qed.

Lemma stops_at_app env t a b :
  refused_in env t a = false → stops_at env (t ++ a) b → stops_at env t (a ++ b).
Proof.
  intros Ha (before & c & -> & Hb & Hc).
  exists (a ++ before), c. split; [rewrite <- app_assoc; reflexivity |].
  split; [rewrite refused_in_app, Ha, Hb; reflexivity |].
  rewrite app_assoc. exact Hc.
Qed.

Lemma proceeds_ret {A : Type} (ok : A → bool) (a : A) : ok a = true → proceeds ok (mret a).
Proof.
  intros H env q t. exists a, q, []. rewrite app_nil_r. split; [reflexivity |].
  rewrite H. reflexivity.
Qed.

Lemma proceeds_ext {A : Type} (ok ok' : A → bool) (m : M A) :
  (∀ a, ok a = ok' a) → proceeds ok m → proceeds ok' m.
Proof.
  intros H Hm env q t. destruct (Hm env q t) as (a & q' & work & E & Hw).
  exists a, q', work. split; [exact E |]. rewrite <- H. exact Hw.
Qed.

(** Calls that are not tested, and then the rest. *)
Lemma proceeds_after {A B : Type} (ok : B → bool) (m : M A) (f : A → M B) :
  counts is_creation_call 0 m → (∀ a, proceeds ok (f a)) → proceeds ok (m ≫= f).
Proof.
  intros Hm Hf env q t. rewrite bind_run.
  destruct (Hm env q t) as (a & q1 & r1 & E1 & C1). rewrite E1.
  destruct (Hf a env q1 (t ++ r1)) as (b & q2 & r2 & E2 & H2). rewrite E2.
  exists b, q2, (r1 ++ r2). rewrite app_assoc. split; [reflexivity |].
  pose proof (refused_in_quiet env t r1 C1) as Hq.
  destruct (ok b).
  - rewrite refused_in_app, Hq, H2. reflexivity.
  - apply stops_at_app; assumption.
Qed.

(** A stage that may stop, and then the rest: after a stage that has
    stopped, the rest makes no call. *)
Lemma proceeds_bind {A B : Type} (okA : A → bool) (ok : B → bool) (m : M A) (f : A → M B) :
  proceeds okA m →
  (∀ a, okA a = true → proceeds ok (f a)) →
  (∀ a, okA a = false → ∀ env q t, ∃ b, f a env q t = (Returned b, q, t) ∧ ok b = false) →
  proceeds ok (m ≫= f).
Proof.
  intros Hm Hf Hstop env q t. rewrite bind_run.
  destruct (Hm env q t) as (a & q1 & r1 & E1 & H1). rewrite E1.
  destruct (okA a) eqn:Ha.
  - destruct (Hf a Ha env q1 (t ++ r1)) as (b & q2 & r2 & E2 & H2). rewrite E2.
    exists b, q2, (r1 ++ r2). rewrite app_assoc. split; [reflexivity |].
    destruct (ok b).
    + rewrite refused_in_app, H1, H2. reflexivity.
    + apply stops_at_app; assumption.
  - destruct (Hstop a Ha env q1 (t ++ r1)) as (b & E2 & Hb). rewrite E2.
    exists b, q1, r1. split; [reflexivity |]. rewrite Hb. exact H1.
Qed.

(** A call whose answer is tested: refused, its error is written and the
    computation is over; answered, the computation goes on. *)
Lemma proceeds_tested {A : Type} (ok : A → bool) (c : Call) (k : Resp → M A) :
  is_creation_call c = true →
  (∀ r, (result r =? 0) = true →
        ∀ env q t, ∃ a q', k r env q t = (Returned a, q', t ++ error_calls c) ∧ ok a = false) →
  (∀ r, (result r =? 0) = false → proceeds ok (k r)) →
  proceeds ok (call c ≫= k).
Proof.
  intros Hc Hstop Hgo env q t. rewrite bind_run, call_run. cbv beta match.
  destruct (result (respond env t c) =? 0) eqn:Hr.
  - destruct (Hstop _ Hr env q (t ++ [c])) as (a & q' & E & Ha). rewrite E.
    exists a, q', (c :: error_calls c). rewrite <- app_assoc. split; [reflexivity |].
    rewrite Ha. exists [], c. split; [reflexivity |]. split; [reflexivity |].
    rewrite app_nil_r. unfold refuses. rewrite Hc, Hr. reflexivity.
  - destruct (Hgo _ Hr env q (t ++ [c])) as (a & q' & work & E & Hw). rewrite E.
    exists a, q', (c :: work). rewrite <- app_assoc. split; [reflexivity |].
    assert (Hno : refuses env t c = false) by (unfold refuses; rewrite Hr; apply andb_false_r).
    destruct (ok a).
    + simpl. rewrite Hno, Hw. reflexivity.
    + apply (stops_at_app env t [c]); [simpl; rewrite Hno; reflexivity | exact Hw].
Qed.

Lemma setupFramebuffer_untested useTexture textureMode i :
  counts is_creation_call 0 (setupFramebuffer useTexture textureMode i).
Proof.
  unfold setupFramebuffer, attachTarget. quiet.
  induction renderbufferParameters as [| name names IH]; simpl; quiet. exact IH.
Qed.

Lemma onCreate_target_proceeds useTexture textureMode i :
  proceeds (λ continue : bool, continue) (onCreate_target useTexture textureMode i).
Proof.
  unfold onCreate_target.
  apply proceeds_tested.
  { destruct useTexture; reflexivity. }
  { intros r Hr env q t. rewrite bind_run, modify_run. rewrite Hr.
    rewrite bind_run, Log_run. destruct useTexture; eexists false, _; split; reflexivity. }
  intros r Hr. apply proceeds_after; [quiet | intros _]. rewrite Hr.
  apply proceeds_after; [quiet | intros _].
  apply proceeds_tested; [reflexivity | |].
  { intros a Ha env q t. rewrite Ha. rewrite bind_run, Log_run.
    eexists false, _. split; reflexivity. }
  intros a Ha. rewrite Ha.
  apply proceeds_after; [quiet | intros q0].
  apply proceeds_after; [quiet | intros _].
  apply proceeds_after; [quiet | intros _].
  apply proceeds_tested; [reflexivity | |].
  { intros o Ho env q t. rewrite bind_run, modify_run. rewrite Ho.
    rewrite bind_run, call_run_. rewrite bind_run, Log_run.
    eexists false, _. rewrite <- app_assoc. split; reflexivity. }
  intros o Ho. apply proceeds_after; [quiet | intros _]. rewrite Ho.
  apply proceeds_tested; [reflexivity | |].
  { intros f Hf env q t. rewrite bind_run, modify_run. rewrite Hf.
    rewrite bind_run, Log_run. eexists false, _. split; reflexivity. }
  intros f Hf. apply proceeds_after; [quiet | intros _]. rewrite Hf.
  apply proceeds_after; [quiet | intros _].
  apply proceeds_after; [apply setupFramebuffer_untested | intros _].
  apply proceeds_ret. reflexivity.
Qed.

Lemma for_targets_proceeds (body : nat → M bool) remaining : ∀ i,
  (∀ i, proceeds (λ continue : bool, continue) (body i)) →
  proceeds (λ i', bool_decide (i' = i + remaining)%nat) (for_targets remaining i body).
Proof.
  induction remaining as [| remaining IH]; intros i Hbody; simpl.
  - apply proceeds_ret. apply bool_decide_eq_true. lia.
  - apply (proceeds_bind (λ continue : bool, continue)); [apply Hbody | |].
    + intros continue ->.
      apply (proceeds_ext (λ i', bool_decide (i' = S i + remaining)%nat)); [| apply IH, Hbody].
      intros i'. apply bool_decide_ext. lia.
    + intros continue -> env q t. exists i. split; [reflexivity |].
      apply bool_decide_eq_false. lia.
Qed.

Lemma onCreate_block_proceeds useTexture :
  proceeds (λ r : bool * bool, r.1) (onCreate_block useTexture false).
Proof.
  unfold onCreate_block.
  apply proceeds_after; [quiet | intros _].
  apply proceeds_after; [quiet | intros _].
  apply proceeds_after; [quiet | intros q0].
  apply proceeds_tested; [reflexivity | |].
  { intros d Hd env q t. rewrite bind_run, modify_run. rewrite Hd.
    rewrite bind_run, Log_run. eexists (false, false), _. split; reflexivity. }
  intros d Hd. apply proceeds_after; [quiet | intros _]. rewrite Hd.
  apply proceeds_after; [quiet | intros q1]. cbv zeta.
  apply proceeds_after; [quiet | intros _].
  apply (proceeds_bind (λ i', bool_decide (i' = 0 + length (m_target q1))%nat)).
  - apply for_targets_proceeds. intros i. apply onCreate_target_proceeds.
  - intros i' Hi'. apply proceeds_ret. exact Hi'.
  - intros i' Hi' env q t. eexists. split; [reflexivity |]. exact Hi'.
Qed.

Lemma onCreate_creation_proceeds useTexture :
  proceeds (λ success : bool, success) (onCreate_creation useTexture).
Proof.
  unfold onCreate_creation.
  apply proceeds_tested; [reflexivity | |].
  { intros l Hl env q t. rewrite Hl, bind_run, Log_run. eexists false, _. split; reflexivity. }
  intros l Hl. rewrite Hl. unfold do_while.
  apply (proceeds_bind (λ r : bool * bool, r.1)); [apply onCreate_block_proceeds | |].
  - intros [success continue] Hs. simpl in *. subst success.
    unfold false_value. rewrite andb_false_r. apply proceeds_ret. reflexivity.
  - intros [success continue] Hs env q t. simpl in *. subst success.
    unfold false_value. rewrite andb_false_r. exists false. split; reflexivity.
Qed.

Lemma onCreate_objects_stops useTexture env q t :
  ∃ created q' work,
    onCreate_objects useTexture env q t = (Returned created, q', t ++ work ++ onCreate_defaults) ∧
    if created then refused_in env t work = false else stops_at env t work.
Proof.
  destruct (onCreate_creation_proceeds useTexture env q t) as (created & q' & work & E & H).
  exists created, q', work. split; [| exact H].
  unfold onCreate_objects. unfold onCreate_creation in E.
  rewrite bind_run, call_run in *. cbv beta match in *.
  rewrite bind_run. rewrite E.
  repeat (rewrite bind_run, call_run_). rewrite <- !app_assoc. reflexivity.
Qed.

Lemma onCreate_stops env q t :
  ∃ created q' work,
    onCreate env q t = (Returned created, q', t ++ work ++ onCreate_defaults) ∧
    if created then refused_in env t work = false else stops_at env t work.
Proof.
  assert (Hprefix : ∃ q1 r1, onCreate env q t =
            onCreate_objects (useTexture (settings env)) env q1 (t ++ r1) ∧
            count is_creation_call r1 = 0%nat).
  { unfold onCreate.
    assert (H : counts is_creation_call 0
                  (b ← Log_info;
                   when b
                     (call_ (glGetString GL_VERSION) ;; Log "GL Version : " ;;
                      call_ (glGetString GL_VENDOR) ;; Log "GL Vendor  : " ;;
                      call_ (glGetString GL_RENDERER) ;; Log "GL Renderer: ") ;;
                   s ← call (Window_getSamples false);
                   modify (set_m_samplesGL (result s)) ;;
                   info "GL Samples : " ;;
                   when b (call_ Window_getPixelFormat ;; Log "OpenGL pixel format = ") ;;
                   call_ (glGetIntegerv GL_MAX_TEXTURE_SIZE) ;;
                   info "OpenGL maximum texture size = ")) by quiet.
    destruct (H env q t) as ([] & q1 & r1 & E & C).
    exists q1, r1. split; [| exact C].
    revert E. M_unfold. intros E.
    destruct (log_info env); simpl in *; injection E as <- <-;
      rewrite <- ?app_assoc; reflexivity. }
  destruct Hprefix as (q1 & r1 & -> & C).
  destruct (onCreate_objects_stops (useTexture (settings env)) env q1 (t ++ r1))
    as (created & q' & work & -> & H).
  exists created, q', (r1 ++ work). rewrite <- !app_assoc. split; [reflexivity |].
  pose proof (refused_in_quiet env t r1 C) as Hq.
  destruct created.
  - rewrite refused_in_app, Hq, H. reflexivity.
  - apply stops_at_app; assumption.
Qed.

Lemma threadFunc_end_created fuel uninitialised env q t created q' rest :
  onCreate env q t = (Returned created, q', t ++ rest) →
  (created ← onCreate; threadFunc_end created fuel uninitialised) env q t =
    if created
    then threadFunc_end true fuel uninitialised env q' (t ++ rest)
    else (Returned (Some 0), q',
          t ++ rest ++ [Log_print "Failed when initialising OpenGL resources: exiting";
                        PostMessage (m_sourceWindow q') WM_QUIT 0 0; endthreadex 0]).
Proof.
  intros E. rewrite bind_run, E. destruct created; [reflexivity |].
  rewrite threadFunc_end_failed, <- app_assoc. reflexivity.
Qed.

Lemma creation_failure_inert_counterexample :
  ¬ creation_failure_inert_as_claimed failed_registration.
Proof.
  unfold creation_failure_inert_as_claimed. intros [H _].
  vm_compute in H. discriminate H.
Qed.

(** C5, amended.  The consumer-side objects are created by [onCreate] on
    the consumer thread.  [onCreate] tests the answer of seven calls:
    loading the extensions, opening the interop device, and for each slot
    the name of its image, the entry point for the share handle, the
    interop registration and the name of its framebuffer.  It answers
    [true] exactly when none of them is refused, and then the interop
    device is open and every slot of the pool has its image, its interop
    object and its framebuffer.  At the first of them that is refused it
    stops: it writes the error, sets the defaults of OpenGL and answers
    [false], so that a partial allocation is a failure.  No other answer
    counts: a lock that fails while the image is attached and a framebuffer
    that is not complete are logged only.  When [onCreate] has answered
    [false] the thread logs the failure, posts WM_QUIT to the host window
    and ends, without showing its window and without entering its message
    loop, so that it never runs a composite pass.  The thread has been
    started by [createResources]: when the render targets of Direct3D have
    been created, it comes to start the consumer thread (if none is
    running) and to mark the initialisation complete. *)
Theorem resource_creation_failure
    (env : Env) (q : Quadifier) (t : Trace)
    (context : Z) (fuel : nat) (uninitialised : MSG) :
  (∃ created q' work,
     onCreate env q t = (Returned created, q', t ++ work ++ onCreate_defaults) ∧
     (created = true →
        refused_in env t work = false ∧
        m_interopGLDX q' ≠ 0 ∧
        ∀ j, (j < length (m_target q))%nat →
             allocated (useTexture (settings env)) (target q' j)) ∧
     (created = false →
        ∃ before c,
          work = before ++ c :: error_calls c ∧
          refused_in env t before = false ∧
          is_creation_call c = true ∧
          result (respond env (t ++ before) c) = 0) ∧
     ((∀ t1 c, is_creation_call c = true → result (respond env t1 c) ≠ 0) → created = true) ∧
     (created ← onCreate; threadFunc_end created fuel uninitialised) env q t =
       if created
       then threadFunc_end true fuel uninitialised env q' (t ++ work ++ onCreate_defaults)
       else (Returned (Some 0), q',
             t ++ (work ++ onCreate_defaults) ++
               [Log_print "Failed when initialising OpenGL resources: exiting";
                PostMessage (m_sourceWindow q') WM_QUIT 0 0; endthreadex 0])) ∧
  (∃ t',
     threadFunc context fuel uninitialised env q t =
       (Returned (Some 0), q, t' ++ [endthreadex 0]) ∨
     threadFunc context fuel uninitialised env q t =
       (created ← onCreate; threadFunc_end created fuel uninitialised) env q t') ∧
  ((∀ t1 c, is_CreateRenderTarget c = true → result (respond env t1 c) = S_OK) →
   surface (target q 0) = 0 →
   ∃ q1 rest,
     createResources env q t = createResources_end env q1 (t ++ rest) ∧
     m_thread q1 = m_thread q) ∧
  (let r := createResources_end env q t in
   outcome r = Returned tt ∧
   m_initialised (state r) = true ∧
   (m_thread q = 0 → beginthreadex (1024 * 1024) ∈ trace r)).
Proof.
  split; [| split; [apply threadFunc_run | split]].
  - destruct (onCreate_stops env q t) as (created & q' & work & E & H).
    destruct (onCreate_run env q t) as (created' & q'' & rest & E' & Hall).
    assert (created' = created ∧ q'' = q') as [-> ->].
    { rewrite E in E'. injection E' as -> -> _. split; reflexivity. }
    exists created, q', work. split; [exact E |].
    assert (Hfalse : created = false →
              ∃ before c,
                work = before ++ c :: error_calls c ∧
                refused_in env t before = false ∧
                is_creation_call c = true ∧
                result (respond env (t ++ before) c) = 0).
    { intros ->. destruct H as (before & c & Hw & Hb & Hc).
      unfold refuses in Hc. apply andb_true_iff in Hc as [Hk Hr].
      exists before, c. repeat split; try assumption. apply Z.eqb_eq, Hr. }
    split; [| split; [exact Hfalse | split]].
    + intros ->. split; [exact H | apply Hall; reflexivity].
    + intros Hnever. destruct created; [reflexivity |].
      destruct (Hfalse eq_refl) as (before & c & _ & _ & Hk & Hr).
      destruct (Hnever _ _ Hk Hr).
    + apply threadFunc_end_created, E.
  - intros _ Hs.
    apply (createResources_reaches_end (m_thread q) env q t). split; [exact Hs | reflexivity].
  - rewrite createResources_end_run.
    destruct (m_thread q =? 0) eqn:Ht; simpl.
    + split; [reflexivity |]. split; [reflexivity |]. intros _.
      unfold trace. simpl. rewrite !elem_of_app, !elem_of_cons. auto.
    + split; [reflexivity |]. split; [reflexivity |]. intros H.
      rewrite H in Ht. discriminate Ht.
Qed.

Lemma scripted_creates fails script t c :
  fails c = false → is_creation_call c = true →
  result (respond (scripted fails script) t c) ≠ 0.
Proof.
  intros Hf Hc. unfold scripted, scripted_respond. simpl. rewrite Hf.
  destruct c; try discriminate Hc; simpl; lia.
Qed.

(** The registration of the interop objects fails: [onCreate] stops at the
    first registration, and the thread posts WM_QUIT and ends.  The locks
    and the status of the framebuffers fail: [onCreate] answers [true]. *)
Lemma resource_creation_failure_witness :
  (∃ q' work before c,
     onCreate (scripted fails_register []) (state first_frame) [] =
       (Returned false, q', [] ++ work ++ onCreate_defaults) ∧
     work = before ++ c :: error_calls c ∧
     is_creation_call c = true ∧
     result (respond (scripted fails_register []) ([] ++ before) c) = 0 ∧
     (created ← onCreate; threadFunc_end created 1 no_msg)
       (scripted fails_register []) (state first_frame) [] =
       (Returned (Some 0), q',
        [] ++ (work ++ onCreate_defaults) ++
          [Log_print "Failed when initialising OpenGL resources: exiting";
           PostMessage (m_sourceWindow q') WM_QUIT 0 0; endthreadex 0])) ∧
  trace (onCreate (scripted fails_register []) (state first_frame) []) =
    [Window_getSamples false; glGetIntegerv GL_MAX_TEXTURE_SIZE; glx_load;
     wglDXOpenDeviceNV 1; glGenRenderbuffers; wglDXSetResourceShareHandleNV_available;
     wglDXSetResourceShareHandleNV 0x2000 0;
     wglDXRegisterObjectNV 1 0x2000 1 GL_RENDERBUFFER WGL_ACCESS_READ_ONLY_NV;
     GetLastError; Log_print "error: wglDXRegisterObjectNV failed for render target: "] ++
    onCreate_defaults ∧
  outcome (onCreate (scripted fails_attach []) (state first_frame) []) = Returned true ∧
  ∃ q1 rest,
    createResources (scripted nothing_fails []) (Quadifier_new 1 2 false) [] =
      createResources_end (scripted nothing_fails []) q1 ([] ++ rest) ∧
    m_thread q1 = m_thread (Quadifier_new 1 2 false).
Proof.
  split; [| split; [reflexivity | split]].
  - destruct (proj1 (resource_creation_failure (scripted fails_register []) (state first_frame) []
                       1 1 no_msg))
      as (created & q' & work & E & _ & Hfalse & _ & Hthread).
    assert (Hc : created = false).
    { assert (H : outcome (onCreate (scripted fails_register []) (state first_frame) []) =
                  Returned false) by (vm_compute; reflexivity).
      rewrite E in H. injection H as ->. reflexivity. }
    subst created.
    destruct (Hfalse eq_refl) as (before & c & Hw & _ & Hk & Hr).
    exists q', work, before, c. repeat split; assumption.
  - destruct (proj1 (resource_creation_failure (scripted fails_attach []) (state first_frame) []
                       1 1 no_msg))
      as (created & q' & work & E & _ & _ & Hnever & _).
    rewrite E. unfold outcome. simpl. f_equal. apply Hnever.
    intros t1 c Hc. apply scripted_creates; [| exact Hc].
    destruct c; try discriminate Hc; reflexivity.
  - apply (proj1 (proj2 (proj2 (resource_creation_failure (scripted nothing_fails [])
                                  (Quadifier_new 1 2 false) [] 1 1 no_msg)))).
    + intros t1 c Hc. destruct c; try discriminate Hc. reflexivity.
    + reflexivity.
Defined.

(** * Further properties of the code *)

(** ** Invariants and calls of a computation *)

Section Emits.
Context (I : Quadifier → Prop) (p : Call → bool).

Lemma emits_ret {A : Type} n (a : A) : emits I p n (mret a).
Proof.
  intros env q t Hq. split; [exact Hq |].
  exists []. split; [symmetry; apply app_nil_r | apply Nat.le_0_l].
Qed.

Lemma emits_le {A : Type} n n' (m : M A) : (n ≤ n')%nat → emits I p n m → emits I p n' m.
Proof.
  intros Hn Hm env q t Hq. destruct (Hm env q t Hq) as (HI & rest & Ht & Hc).
  split; [exact HI |]. exists rest. split; [exact Ht | lia].
Qed.

Lemma emits_bind {A B : Type} n1 n2 (m : M A) (f : A → M B) :
  emits I p n1 m → (∀ a, emits I p n2 (f a)) → emits I p (n1 + n2) (m ≫= f).
Proof.
  intros Hm Hf env q t Hq. rewrite bind_run.
  destruct (Hm env q t Hq) as (HI & rest & Ht & Hc).
  destruct (m env q t) as [[[a | code] q1] t1]; unfold state, trace in *; simpl in *.
  - destruct (Hf a env q1 t1 HI) as (HI2 & rest2 & Ht2 & Hc2).
    split; [exact HI2 |]. exists (rest ++ rest2).
    unfold state, trace in *. rewrite Ht2, Ht, <- app_assoc, count_app.
    split; [reflexivity | lia].
  - split; [exact HI |]. exists rest. split; [exact Ht | lia].
Qed.

Lemma emits_bind0 {A B : Type} n (m : M A) (f : A → M B) :
  emits I p 0 m → (∀ a, emits I p n (f a)) → emits I p n (m ≫= f).
Proof. intros Hm Hf. apply (emits_bind 0 n); assumption. Qed.

(** What has been read from the object is known to have [I]. *)
Lemma emits_get_bind {B : Type} n (f : Quadifier → M B) :
  (∀ q0, I q0 → emits I p n (f q0)) → emits I p n (get ≫= f).
Proof. intros Hf env q t Hq. rewrite bind_run. apply (Hf q Hq env q t Hq). Qed.

Lemma emits_get n : emits I p n get.
Proof.
  intros env q t Hq. split; [exact Hq |].
  exists []. split; [symmetry; apply app_nil_r | apply Nat.le_0_l].
Qed.

Lemma emits_ask n : emits I p n ask.
Proof.
  intros env q t Hq. split; [exact Hq |].
  exists []. split; [symmetry; apply app_nil_r | apply Nat.le_0_l].
Qed.

Lemma emits_modify n f : (∀ q, I q → I (f q)) → emits I p n (modify f).
Proof.
  intros Hf env q t Hq. split; [apply Hf, Hq |].
  exists []. split; [symmetry; apply app_nil_r | apply Nat.le_0_l].
Qed.

Lemma emits_call n c : p c = false → emits I p n (call c).
Proof.
  intros Hc env q t Hq. split; [exact Hq |].
  exists [c]. split; [reflexivity |]. unfold count. simpl. rewrite Hc. apply Nat.le_0_l.
Qed.

Lemma emits_call_counted n c : emits I p (S n) (call c).
Proof.
  intros env q t Hq. split; [exact Hq |].
  exists [c]. split; [reflexivity |]. unfold count. simpl. destruct (p c); simpl; lia.
Qed.

Lemma emits_call_ n c : p c = false → emits I p n (call_ c).
Proof. intros Hc. apply emits_bind0; [apply emits_call, Hc | intros; apply emits_ret]. Qed.

Lemma emits_exit {A : Type} n code : p (exit_process code) = false → emits I p n (@exit A code).
Proof.
  intros Hc env q t Hq. split; [exact Hq |].
  exists [exit_process code]. split; [reflexivity |].
  unfold count. simpl. rewrite Hc. apply Nat.le_0_l.
Qed.

Lemma emits_when n b m : emits I p n m → emits I p n (when b m).
Proof. intros Hm. destruct b; [exact Hm | apply emits_ret]. Qed.

Lemma emits_setting {A : Type} n (f : Settings → A) : emits I p n (setting f).
Proof. apply emits_bind0; [apply emits_ask | intros; apply emits_ret]. Qed.

Lemma emits_Log_info n : emits I p n Log_info.
Proof. apply emits_bind0; [apply emits_ask | intros; apply emits_ret]. Qed.

Lemma emits_Log_verbose n : emits I p n Log_verbose.
Proof. apply emits_bind0; [apply emits_ask | intros; apply emits_ret]. Qed.

Lemma emits_Log n text : p (Log_print text) = false → emits I p n (Log text).
Proof. apply emits_call_. Qed.

Lemma emits_info n text : p (Log_print text) = false → emits I p n (info text).
Proof.
  intros Hc. apply emits_bind0; [apply emits_Log_info | intros; apply emits_when, emits_Log, Hc].
Qed.

Lemma emits_verbose n text : p (Log_print text) = false → emits I p n (verbose text).
Proof.
  intros Hc.
  apply emits_bind0; [apply emits_Log_verbose | intros; apply emits_when, emits_Log, Hc].
Qed.

Lemma emits_getTime n : p clock = false → emits I p n getTime.
Proof. intros Hc. apply emits_bind0; [apply emits_call, Hc | intros; apply emits_ret]. Qed.

(** The loops make what their bodies make. *)

Lemma emits_for_targets remaining i body :
  (∀ i, emits I p 0 (body i)) → emits I p 0 (for_targets remaining i body).
Proof.
  intros Hbody. revert i. induction remaining as [| remaining IH]; intros i; simpl.
  - apply emits_ret.
  - apply emits_bind0; [apply Hbody |].
    intros [|]; [apply IH | apply emits_ret].
Qed.

Lemma emits_for_targets_counted n remaining i body :
  (∀ i, emits I p n (body i)) → emits I p (remaining * n) (for_targets remaining i body).
Proof.
  intros Hbody. revert i. induction remaining as [| remaining IH]; intros i; simpl.
  - apply emits_ret.
  - apply emits_bind; [apply Hbody |].
    intros [|]; [apply IH | apply emits_ret].
Qed.

Lemma emits_do_while {S : Type} fuel (block : S → M (S * bool)) cond s :
  (∀ s, emits I p 0 (block s)) → emits I p 0 (do_while fuel block cond s).
Proof.
  intros Hblock. revert s. induction fuel as [| fuel IH]; intros s; simpl.
  - apply emits_ret.
  - apply emits_bind0; [apply Hblock |].
    intros r. destruct (r.2 && cond); [apply IH | apply emits_ret].
Qed.

Lemma emits_logRenderbufferParameters names :
  (∀ name, p (glGetRenderbufferParameteriv GL_RENDERBUFFER name) = false) →
  p (Log_print "renderBuffer.") = false →
  emits I p 0 (logRenderbufferParameters names).
Proof.
  intros Hq Hl. induction names as [| name names IH]; simpl.
  - apply emits_ret.
  - apply emits_bind0; [apply emits_call_, Hq | intros _].
    apply emits_bind0; [apply emits_Log, Hl | intros _; exact IH].
Qed.

Lemma emits_onPaint_eyes turns useTexture mustUseBlit :
  emits I p 0 (onPaint_eye useTexture mustUseBlit) →
  emits I p 0 (onPaint_eyes turns useTexture mustUseBlit).
Proof.
  intros Heye. induction turns as [| turns IH]; simpl.
  - apply emits_ret.
  - apply emits_bind0; [exact Heye | intros drawBuffer].
    destruct (negb (drawBuffer =? GL_BACK_LEFT)); [apply emits_ret | exact IH].
Qed.

Lemma emits_deliver sent :
  (∀ hWnd uMsg wParam lParam, emits I p 0 (WindowProc hWnd uMsg wParam lParam)) →
  emits I p 0 (deliver sent).
Proof.
  intros Hproc. induction sent as [| msg sent IH]; simpl.
  - apply emits_ret.
  - apply emits_bind0; [apply Hproc | intros _; exact IH].
Qed.

Lemma emits_messageLoop fuel current :
  p PeekMessage = false →
  (∀ msg, p (TranslateMessage msg) = false) →
  (∀ msg, p (DispatchMessage msg) = false) →
  (∀ hWnd uMsg wParam lParam, emits I p 0 (WindowProc hWnd uMsg wParam lParam)) →
  emits I p 0 (messageLoop fuel current).
Proof.
  intros Hpeek Htranslate Hdispatch Hproc. revert current.
  induction fuel as [| fuel IH]; intros current; simpl.
  - apply emits_ret.
  - apply emits_bind0; [apply emits_call, Hpeek | intros r].
    apply emits_bind0; [apply emits_deliver, Hproc | intros _].
    apply emits_bind0.
    + destruct (negb (result r =? 0)).
      * apply emits_bind0; [apply emits_call_, Htranslate | intros _].
        apply emits_bind0; [apply emits_call_, Hdispatch | intros _].
        apply emits_bind0; [| intros _; apply emits_ret].
        apply emits_when. apply emits_bind0; [apply Hproc | intros; apply emits_ret].
      * apply emits_bind0; [apply emits_ret | intros; apply emits_ret].
    + intros msg. destruct (negb (message msg =? WM_QUIT)); [apply IH | apply emits_ret].
Qed.
End Emits.

(** The methods, to be looked into by the tactic below. *)
Ltac open_method :=
  progress cbv beta delta
    [beginCapture endCapture onStereoSignal onPreSetViewportDX onPrePresentDX
     onPostPresentDX drawStereoIndicator buildQuadList lockTarget onPaint_eye
     onPaint_begin onPaint_statistics onPaint_end onPaint onDestroy onWM_PAINT
     WindowProc_over redraw onResize onIdle windowProc WindowProc WindowProcSource
     isPresentedRenderTarget startRenderThread createRenderTarget createResources
     onPreClearDX onCreateDX onPostClearDX attachTarget setupFramebuffer
     onCreate_target onCreate_block onCreate_objects onCreate threadFunc_end
     threadFunc].

(** One step through a computation.  [leaf] proves that a state change
    keeps the invariant, [known] uses what the invariant says of the object
    just read, [quiet_call] proves that a call is not of the kind counted. *)
Ltac emits_step leaf known quiet_call :=
  lazymatch goal with
  | |- emits _ _ _ (mbind _ get) =>
      apply emits_get_bind;
      let q0 := fresh "q" in let H := fresh "Hq" in
      intros q0 H; cbv beta zeta; known H
  | |- emits _ _ _ (mbind _ _) =>
      apply emits_bind0;
      [solve [repeat emits_step leaf known quiet_call] | intros ?; cbv beta zeta]
  | |- emits _ _ _ (mret _) => apply emits_ret
  | |- emits _ _ _ get => apply emits_get
  | |- emits _ _ _ ask => apply emits_ask
  | |- emits _ _ _ (call _) => apply emits_call; quiet_call
  | |- emits _ _ _ (call_ _) => apply emits_call_; quiet_call
  | |- emits _ _ _ (exit _) => apply emits_exit; quiet_call
  | |- emits _ _ _ (setting _) => apply emits_setting
  | |- emits _ _ _ Log_info => apply emits_Log_info
  | |- emits _ _ _ Log_verbose => apply emits_Log_verbose
  | |- emits _ _ _ (Log _) => apply emits_Log; quiet_call
  | |- emits _ _ _ (info _) => apply emits_info; quiet_call
  | |- emits _ _ _ (verbose _) => apply emits_verbose; quiet_call
  | |- emits _ _ _ getTime => apply emits_getTime; quiet_call
  | |- emits _ _ _ (when _ _) => unfold when
  | |- emits _ _ _ (modify _) => apply emits_modify; leaf
  | |- emits _ _ _ (for_targets _ _ _) => apply emits_for_targets; intros ?
  | |- emits _ _ _ (do_while _ _ _ _) => apply emits_do_while; intros ?
  | |- emits _ _ _ (logRenderbufferParameters _) =>
      apply emits_logRenderbufferParameters; [intros ?; quiet_call | quiet_call]
  | |- emits _ _ _ (onPaint_eyes _ _ _) => apply emits_onPaint_eyes
  | |- emits _ _ _ (messageLoop _ _) =>
      apply emits_messageLoop;
      [quiet_call | intros ?; quiet_call | intros ?; quiet_call | intros ? ? ? ?]
  | |- emits _ _ _ (if ?b then _ else _) => destruct b eqn:?; try discriminate; try congruence
  | |- emits _ _ _ (match ?x with _ => _ end) => destruct x eqn:?; try discriminate
  | |- emits _ _ _ _ => first [open_method | progress cbv zeta]
  end.

Ltac emits_all leaf known quiet_call := repeat emits_step leaf known quiet_call.

(** ** The members of the object and the thread that writes them *)

Lemma fmap_alter_same {B : Type} (proj : Target → B) (f : Target → Target)
    (i : nat) (pool : list Target) :
  (∀ x, proj (f x) = proj x) → proj <$> alter f i pool = proj <$> pool.
Proof.
  intros Hf. revert i. induction pool as [| x pool IH]; intros [| i]; simpl.
  - reflexivity.
  - reflexivity.
  - rewrite Hf. reflexivity.
  - f_equal. apply IH.
Qed.

Ltac same_side :=
  idtac;
  let q := fresh "q" in let H := fresh "H" in
  intros q H; rewrite <- H; clear H;
  unfold consumer_side, producer_side, fixed_side, update_target; simpl;
  rewrite ?fmap_alter_same
    by (intros ?; repeat match goal with |- context [if ?b then _ else _] => destruct b end;
        reflexivity);
  reflexivity.

Ltac no_known H := idtac.

(** A call that is not of the kind counted, by its constructor. *)
Ltac by_constructor :=
  idtac;
  repeat match goal with |- context [if ?b then _ else _] => destruct b end;
  reflexivity.

Lemma producer_keeps_consumer_side c op :
  on_producer_thread op = true →
  emits (λ q, consumer_side q = c) no_call 0 (perform op).
Proof.
  intros Hop. destruct op; try discriminate Hop; simpl;
    emits_all same_side no_known by_constructor.
Qed.

Lemma consumer_keeps_producer_side c op :
  on_producer_thread op = false →
  emits (λ q, producer_side q = c) no_call 0 (perform op).
Proof.
  intros Hop. destruct op; try discriminate Hop; simpl;
    emits_all same_side no_known by_constructor.
Qed.

Lemma every_operation_keeps_fixed_side c op :
  emits (λ q, fixed_side q = c) no_call 0 (perform op).
Proof. destruct op; simpl; emits_all same_side no_known by_constructor. Qed.

(** X1.  The thread of Direct3D writes no member that belongs to the
    thread of OpenGL: whatever an operation of the Direct3D thread does,
    and also when it ends the process, it leaves the read cursor, the
    statistics of the passes, the handles of OpenGL and the image, interop
    object and framebuffer of every slot as they were, and the members set
    by the constructor as well. *)
Theorem producer_thread_footprint (env : Env) (q : Quadifier) (t : Trace) (op : Operation) :
  on_producer_thread op = true →
  consumer_side (state (perform op env q t)) = consumer_side q ∧
  fixed_side (state (perform op env q t)) = fixed_side q.
Proof.
  intros Hop. split.
  - apply (producer_keeps_consumer_side (consumer_side q) op Hop env q t eq_refl).
  - apply (every_operation_keeps_fixed_side (fixed_side q) op env q t eq_refl).
Qed.

Lemma producer_thread_footprint_witness :
  on_producer_thread op_onPreClearDX = true ∧
  consumer_side (state (perform op_onPreClearDX (scripted nothing_fails []) (state first_frame) [])) =
  consumer_side (state first_frame).
Proof.
  split; [reflexivity |].
  exact (proj1 (producer_thread_footprint (scripted nothing_fails []) (state first_frame) []
                  op_onPreClearDX eq_refl)).
Defined.

(** X2.  The thread of OpenGL writes no member that belongs to the thread
    of Direct3D: whatever an operation of the OpenGL thread does, it leaves
    the draw cursor, the mode flag, the counter of Direct3D frames, the set
    of presented targets, what [createResources] has stored and the
    surface, share handle and label of every slot as they were, and the
    members set by the constructor as well.  With X1: only [m_width] and
    [m_height] are written on both threads. *)
Theorem consumer_thread_footprint (env : Env) (q : Quadifier) (t : Trace) (op : Operation) :
  on_producer_thread op = false →
  producer_side (state (perform op env q t)) = producer_side q ∧
  fixed_side (state (perform op env q t)) = fixed_side q.
Proof.
  intros Hop. split.
  - apply (consumer_keeps_producer_side (producer_side q) op Hop env q t eq_refl).
  - apply (every_operation_keeps_fixed_side (fixed_side q) op env q t eq_refl).
Qed.

Lemma consumer_thread_footprint_witness :
  on_producer_thread (op_threadFunc 1 2 no_msg) = false ∧
  producer_side
    (state (perform (op_threadFunc 1 2 no_msg)
              (scripted nothing_fails [WM_PAINT_message]) (state first_frame) [])) =
  producer_side (state first_frame).
Proof.
  split; [reflexivity |].
  exact (proj1 (consumer_thread_footprint (scripted nothing_fails [WM_PAINT_message])
                  (state first_frame) [] (op_threadFunc 1 2 no_msg) eq_refl)).
Defined.

(** ** The interface each thread calls *)

Ltac any_state := idtac; intros ? ?; exact Logic.I.

Lemma producer_calls_no_OpenGL op :
  on_producer_thread op = true → emits (λ _, True) is_OpenGL 0 (perform op).
Proof.
  intros Hop. destruct op; try discriminate Hop; simpl;
    emits_all any_state no_known by_constructor.
Qed.

Lemma consumer_calls_no_Direct3D op :
  on_producer_thread op = false → emits (λ _, True) is_Direct3D 0 (perform op).
Proof.
  intros Hop. destruct op; try discriminate Hop; simpl;
    emits_all any_state no_known by_constructor.
Qed.

(** X3.  Each thread keeps to its own interface.  An operation of the
    Direct3D thread calls no entry point of OpenGL or of the GL/DX interop,
    and an operation of the OpenGL thread calls no method of the Direct3D
    device, its surfaces or the Direct3D object, on any path and whatever
    the calls answer.  (The methods of the class GLWindow are not counted
    as entry points of OpenGL: [createResources] makes its temporary window
    on the Direct3D thread.) *)
Theorem threads_keep_to_their_interface (env : Env) (q : Quadifier) (t : Trace) (op : Operation) :
  ∃ rest,
    trace (perform op env q t) = t ++ rest ∧
    count (if on_producer_thread op then is_OpenGL else is_Direct3D) rest = 0%nat.
Proof.
  destruct (on_producer_thread op) eqn:Hop.
  - destruct (producer_calls_no_OpenGL op Hop env q t Logic.I) as (_ & rest & Ht & Hc).
    exists rest. split; [exact Ht | lia].
  - destruct (consumer_calls_no_Direct3D op Hop env q t Logic.I) as (_ & rest & Ht & Hc).
    exists rest. split; [exact Ht | lia].
Qed.

(** ** Sessions *)

Lemma emits_keeps {A : Type} I p n (m : M A) : emits I p n m → keeps I m.
Proof. intros Hm env q t Hq. apply (Hm env q t Hq). Qed.

(** What every operation keeps and never calls, a session keeps and never
    calls. *)
Lemma emits_run I p env ops :
  (∀ op, emits I p 0 (perform op)) →
  ∀ s, I (state s) → count p (trace s) = 0%nat →
       I (state (run env ops s)) ∧ count p (trace (run env ops s)) = 0%nat.
Proof.
  intros Hop. induction ops as [| op ops IH]; intros s Hs Hc.
  - split; assumption.
  - change (run env (op :: ops) s) with (run env ops (session_step env s op)).
    unfold session_step. destruct (outcome s).
    + destruct (Hop op env (state s) (trace s) Hs) as (HI & rest & Ht & Hr).
      apply IH; [exact HI |]. rewrite Ht, count_app. lia.
    + apply IH; assumption.
Qed.

(** ** The multisample level *)

Lemma request_in_range (temporary stereo : bool) (w h parent d : Z) :
  d = 0 ∨ 2 ≤ d ≤ 16 →
  asks_samples_out_of_range
    (Window_create temporary w h parent
       ((if stereo then [(WGL_STEREO_ARB, GL_TRUE)] else []) ++
        [(WGL_DEPTH_BITS_ARB, 0); (WGL_STENCIL_BITS_ARB, 0)] ++
        (if 0 <? d then [(WGL_SAMPLE_BUFFERS_ARB, GL_TRUE); (WGL_SAMPLES_ARB, d)] else []))) =
  false.
Proof.
  intros Hd. unfold asks_samples_out_of_range. apply negb_false_iff.
  rewrite !forallb_app.
  assert (Hlast :
    forallb (λ a : Z * Z, negb (a.1 =? WGL_SAMPLES_ARB) || ((2 <=? a.2) && (a.2 <=? 16)))
      (if 0 <? d then [(WGL_SAMPLE_BUFFERS_ARB, GL_TRUE); (WGL_SAMPLES_ARB, d)] else []) = true).
  { destruct (0 <? d) eqn:E; [| reflexivity]. apply Z.ltb_lt in E.
    destruct Hd as [-> | [H2 H16]]; [lia |].
    simpl. apply Z.leb_le in H2. apply Z.leb_le in H16. rewrite H2, H16. reflexivity. }
  rewrite Hlast. destruct stereo; reflexivity.
Qed.

Ltac samples_leaf :=
  idtac;
  let q := fresh "q" in let H := fresh "H" in
  intros q H;
  first
    [ exact H
    | unfold samples_in_range; simpl;
      match goal with
      | |- context [(?lo <=? ?a) && (?a <=? ?hi)] =>
          destruct (lo <=? a) eqn:Hlo; destruct (a <=? hi) eqn:Hhi; simpl;
          [ right; apply Z.leb_le in Hlo; apply Z.leb_le in Hhi;
            unfold D3DMULTISAMPLE_2_SAMPLES, D3DMULTISAMPLE_16_SAMPLES in *;
            unfold wrap32; rewrite Z.mod_small; lia
          | left; reflexivity | left; reflexivity | left; reflexivity ]
      end ].

Ltac samples_call :=
  idtac;
  first
    [ by_constructor
    | apply request_in_range;
      repeat match goal with |- context [if ?b then _ else _] => destruct b end;
      first [assumption | left; reflexivity] ].

Lemma samples_kept op : emits samples_in_range asks_samples_out_of_range 0 (perform op).
Proof. destruct op; simpl; emits_all samples_leaf no_known samples_call. Qed.

(** X4.  The multisample level the Direct3D thread hands over to the
    OpenGL thread is always none or one of 2 to 16 samples: in every
    session [m_samplesDX] is 0 or lies in 2..16, whatever multisample type
    the device reports and whatever number of samples the driver forces,
    and no window is ever asked for a number of samples outside 2..16. *)
Theorem samples_stay_in_range (env : Env) (device direct3D : Z) (ops : list Operation) :
  let s := session env device direct3D ops in
  samples_in_range (state s) ∧ count asks_samples_out_of_range (trace s) = 0%nat.
Proof.
  intros s. subst s. unfold session.
  apply emits_run.
  - apply samples_kept.
  - left. reflexivity.
  - reflexivity.
Qed.

(** ** The set of presented render targets *)

Lemma isPresentedRenderTarget_run env q t :
  isPresentedRenderTarget env q t =
    if m_device q =? 0 then (Returned false, q, t)
    else if result (current_target env t) =? S_OK then
      (Returned (bool_decide (pointer_hash (out (current_target env t)) ∈ m_presentedTargets q)),
       q, t ++ [GetRenderTarget 0] ++ described env t ++ [Release (out (current_target env t))])
    else
      (Returned (bool_decide (0 ∈ m_presentedTargets q)), q, t ++ [GetRenderTarget 0]).
Proof.
  unfold isPresentedRenderTarget, described, current_target.
  destruct (m_device q =? 0) eqn:Hd; M_unfold; rewrite Hd; [reflexivity |].
  destruct (result (respond env t (GetRenderTarget 0)) =? S_OK) eqn:Hg; [| reflexivity].
  destruct (log_verbose env); [| rewrite <- !app_assoc; reflexivity].
  destruct (result (respond env (t ++ [GetRenderTarget 0])
                      (GetDesc (out (respond env t (GetRenderTarget 0))))) =? S_OK);
    rewrite <- !app_assoc; reflexivity.
Qed.

Lemma count_described p env t :
  (∀ s, p (GetDesc s) = false) → (∀ text, p (Log_print text) = false) →
  count p (described env t) = 0%nat.
Proof.
  intros Hd Hl. unfold described, count.
  destruct (log_verbose env); [| reflexivity]. simpl. rewrite Hd.
  destruct (_ =? S_OK); simpl; rewrite ?Hl; reflexivity.
Qed.

(** X5.  [isPresentedRenderTarget] is a query.  It never changes the
    object.  Without a device it answers [false] and makes no call.  When
    the device hands out its render target, the answer is whether the hash
    of that pointer is in the set of presented targets, and the reference
    obtained is released, once; when the device hands out none, the hash
    stays 0, the answer is whether 0 is in the set, and nothing is
    released. *)
Theorem isPresentedRenderTarget_is_a_query (env : Env) (q : Quadifier) (t : Trace) :
  let r := isPresentedRenderTarget env q t in
  let target := current_target env t in
  state r = q ∧
  (m_device q = 0 → r = (Returned false, q, t)) ∧
  (m_device q ≠ 0 →
     ∃ rest,
       trace r = t ++ [GetRenderTarget 0] ++ rest ∧
       count is_SetRenderTarget rest = 0%nat ∧
       if result target =? S_OK
       then outcome r = Returned (bool_decide (pointer_hash (out target) ∈ m_presentedTargets q)) ∧
            last rest = Some (Release (out target)) ∧ count is_Release rest = 1%nat
       else outcome r = Returned (bool_decide (0 ∈ m_presentedTargets q)) ∧ rest = []).
Proof.
  intros r target. subst r target. rewrite isPresentedRenderTarget_run.
  split; [| split].
  - destruct (m_device q =? 0); [reflexivity |].
    destruct (result (current_target env t) =? S_OK); reflexivity.
  - intros Hd. rewrite Hd. reflexivity.
  - intros Hd. apply Z.eqb_neq in Hd. rewrite Hd.
    destruct (result (current_target env t) =? S_OK).
    + exists (described env t ++ [Release (out (current_target env t))]).
      split; [reflexivity |]. rewrite !count_app.
      rewrite !count_described by reflexivity.
      split; [reflexivity |]. split; [reflexivity |].
      split; [apply last_snoc | reflexivity].
    + exists []. repeat split.
Qed.

(** The hash of a presented render target stays in the set. *)
Ltac presented_leaf :=
  idtac;
  let q := fresh "q" in let H := fresh "H" in
  intros q H; first [exact H | simpl; apply elem_of_union_r, H].

Lemma presented_kept h op : emits (λ q, h ∈ m_presentedTargets q) no_call 0 (perform op).
Proof. destruct op; simpl; emits_all presented_leaf no_known by_constructor. Qed.

Lemma onPrePresentDX_presents env q t :
  result (presented_target env t) = S_OK →
  pointer_hash (out (presented_target env t)) ∈ m_presentedTargets (state (onPrePresentDX env q t)).
Proof.
  intros Hg. unfold presented_target in *.
  unfold onPrePresentDX.
  rewrite bind_run, verbose_run. rewrite bind_run, call_run. cbv beta match.
  fold (vlog env "onPrePresentDX"). rewrite Hg.
  set (g := respond env _ _).
  rewrite (bind_run (when true _)).
  unfold when at 1.
  rewrite bind_run, call_run_. rewrite bind_run, modify_run. rewrite verbose_run.
  cbv beta match.
  set (q1 := set_m_presentedTargets _ q).
  assert (Hq1 : pointer_hash (out g) ∈ m_presentedTargets q1).
  { unfold q1. simpl. apply elem_of_union_l, elem_of_singleton. reflexivity. }
  assert (Hk : emits (λ q, pointer_hash (out g) ∈ m_presentedTargets q) no_call 0
                 (q ← get;
                  endCapture (if m_stereoMode q then GL_BACK_RIGHT else GL_BACK) ;;
                  verbose "sending new frame notification" ;;
                  h ← call Window_getHWND;
                  call_ (SendNotifyMessage (result h) WM_USER_NEWFRAME 0 0))).
  { emits_all presented_leaf no_known by_constructor. }
  apply (Hk env q1 _ Hq1).
Qed.

(** X6.  A render target that has been presented is recognised ever
    after.  When [onPrePresentDX] has obtained the render target of the
    device, then after every sequence of operations that follows,
    [isPresentedRenderTarget] answers [true] whenever the device hands out
    a render target with the same hash: the set of presented targets only
    grows. *)
Theorem presented_target_is_recognised
    (env : Env) (q : Quadifier) (t : Trace) (ops : list Operation) (t' : Trace) :
  let presented := presented_target env t in
  let s := run env ops (onPrePresentDX env q t) in
  m_device q ≠ 0 →
  result presented = S_OK →
  result (current_target env t') = S_OK →
  pointer_hash (out (current_target env t')) = pointer_hash (out presented) →
  outcome (isPresentedRenderTarget env (state s) t') = Returned true.
Proof.
  intros presented s Hd Hg Hg' Hh. subst presented s.
  set (s1 := onPrePresentDX env q t).
  assert (Hin : pointer_hash (out (presented_target env t)) ∈ m_presentedTargets (state (run env ops s1))).
  { apply (keeps_run (λ q, pointer_hash (out (presented_target env t)) ∈ m_presentedTargets q)).
    - intros op. apply (emits_keeps _ no_call 0), presented_kept.
    - apply onPrePresentDX_presents, Hg. }
  assert (Hdev : m_device (state (run env ops s1)) = m_device q).
  { assert (H : fixed_side (state (run env ops s1)) = fixed_side q).
    { apply (keeps_run (λ q', fixed_side q' = fixed_side q)).
      - intros op. apply (emits_keeps _ no_call 0), every_operation_keeps_fixed_side.
      - apply (every_operation_keeps_fixed_side (fixed_side q) op_onPrePresentDX env q t eq_refl). }
    unfold fixed_side in H. congruence. }
  rewrite isPresentedRenderTarget_run, Hdev.
  apply Z.eqb_neq in Hd. rewrite Hd, Hg', Hh.
  unfold outcome. simpl. rewrite bool_decide_eq_true_2 by exact Hin. reflexivity.
Qed.

Lemma presented_target_is_recognised_witness :
  outcome
    (isPresentedRenderTarget (scripted nothing_fails [])
       (state (run (scripted nothing_fails []) [op_onPostPresentDX; op_onPreClearDX]
                 (onPrePresentDX (scripted nothing_fails []) (Quadifier_new 1 2 false) [])))
       [GetViewport]) = Returned true.
Proof.
  apply (presented_target_is_recognised (scripted nothing_fails []) (Quadifier_new 1 2 false) []
           [op_onPostPresentDX; op_onPreClearDX] [GetViewport]);
    [discriminate | reflexivity | reflexivity | reflexivity].
Defined.

(** ** The test of [onPreClearDX] *)

Lemma onPreClearDX_run env q t :
  let asked := isPresentedRenderTarget env q (t ++ vlog env "onPreClearDX") in
  onPreClearDX env q t =
    match outcome asked with
    | Returned true =>
        (when (negb (m_initialised q)) createResources ;; beginCapture) env q (trace asked)
    | _ => (Returned tt, q, trace asked)
    end.
Proof.
  intros asked. subst asked. unfold onPreClearDX.
  rewrite bind_run, verbose_run. fold (vlog env "onPreClearDX").
  rewrite bind_run. rewrite isPresentedRenderTarget_run.
  destruct (m_device q =? 0); [reflexivity |].
  destruct (result (current_target env (t ++ vlog env "onPreClearDX")) =? S_OK);
    unfold outcome, trace; simpl;
    destruct (bool_decide _); simpl; try reflexivity;
    rewrite bind_run, get_run; reflexivity.
Qed.

Lemma isPresentedRenderTarget_inquires env q t :
  ∃ rest,
    trace (isPresentedRenderTarget env q t) = t ++ rest ∧
    count (λ c, negb (is_inquiry c)) rest = 0%nat.
Proof.
  assert (H : emits (λ _, True) (λ c, negb (is_inquiry c)) 0 isPresentedRenderTarget).
  { emits_all any_state no_known by_constructor. }
  destruct (H env q t Logic.I) as (_ & rest & Ht & Hc).
  exists rest. split; [exact Ht | lia].
Qed.

(** X7.  A clear of a render target that has not been presented is left
    alone.  When [isPresentedRenderTarget] answers [false], and it does on
    every object whose set of presented targets is empty, [onPreClearDX]
    returns with the object as it was, having made no call but for the log
    and the inquiry about the render target: nothing is created and the
    render target of the device is not redirected. *)
Theorem clear_of_unpresented_target_is_left_alone (env : Env) (q : Quadifier) (t : Trace) :
  let asked := isPresentedRenderTarget env q (t ++ vlog env "onPreClearDX") in
  (m_presentedTargets q = ∅ → outcome asked = Returned false) ∧
  (outcome asked = Returned false →
     ∃ rest,
       onPreClearDX env q t = (Returned tt, q, t ++ rest) ∧
       count (λ c, negb (is_inquiry c)) rest = 0%nat).
Proof.
  intros asked. split.
  - intros Hempty. subst asked. rewrite isPresentedRenderTarget_run, Hempty.
    destruct (m_device q =? 0); [reflexivity |].
    destruct (result _ =? S_OK); unfold outcome; simpl;
      rewrite bool_decide_eq_false_2 by apply not_elem_of_empty; reflexivity.
  - intros Hasked. rewrite onPreClearDX_run. fold asked. rewrite Hasked.
    destruct (isPresentedRenderTarget_inquires env q (t ++ vlog env "onPreClearDX"))
      as (rest & Ht & Hc).
    fold asked in Ht. rewrite Ht.
    exists (vlog env "onPreClearDX" ++ rest). rewrite app_assoc.
    split; [reflexivity |]. rewrite count_app, Hc.
    unfold vlog, count. destruct (log_verbose env); reflexivity.
Qed.

Lemma clear_of_unpresented_target_is_left_alone_witness :
  m_presentedTargets (Quadifier_new 1 2 false) = ∅ ∧
  outcome (isPresentedRenderTarget (scripted nothing_fails []) (Quadifier_new 1 2 false)
             ([] ++ vlog (scripted nothing_fails []) "onPreClearDX")) = Returned false.
Proof.
  split; [reflexivity |].
  exact (proj1 (clear_of_unpresented_target_is_left_alone
                  (scripted nothing_fails []) (Quadifier_new 1 2 false) []) eq_refl).
Defined.

(** ** One-time creation of the resources, by the hooks *)

Lemma count_le p p' (t : Trace) :
  (∀ c, p c = true → p' c = true) → (count p t ≤ count p' t)%nat.
Proof.
  intros Hp. unfold count. induction t as [| c t IH]; simpl; [lia |].
  destruct (p c) eqn:E.
  - rewrite (Hp c E). simpl. lia.
  - destruct (p' c); simpl; lia.
Qed.

Lemma returns_createResources : returns createResources.
Proof.
  unfold returns, createResources. quiet;
    first [ apply returns_for_targets; intros; apply returns_createRenderTarget
          | apply returns_startRenderThread ].
Qed.

Ltac length_leaf :=
  idtac;
  let q := fresh "q" in let H := fresh "H" in
  intros q H; first [exact H | unfold update_target; simpl; rewrite length_alter; exact H].

Ltac known_length H := rewrite ?H.

Lemma createResources_render_targets :
  emits (λ q, length (m_target q) = poolSize) is_CreateRenderTarget poolSize createResources.
Proof.
  unfold createResources.
  emits_all length_leaf known_length by_constructor.
  apply (emits_bind _ _ poolSize 0); [| intros ?; emits_all length_leaf known_length by_constructor].
  apply (emits_for_targets_counted _ _ 1 poolSize). intros i.
  unfold createRenderTarget.
  emits_all length_leaf known_length by_constructor.
  apply (emits_bind _ _ 1 0); [apply emits_call_counted |].
  intros r. emits_all length_leaf known_length by_constructor.
Qed.

Lemma createResources_thread :
  emits (λ _, True) is_beginthreadex 1 createResources.
Proof.
  unfold createResources.
  emits_all any_state no_known by_constructor.
  apply (emits_bind _ _ 1 0); [| intros ?; emits_all any_state no_known by_constructor].
  unfold startRenderThread.
  emits_all any_state no_known by_constructor.
  apply (emits_bind _ _ 1 0); [apply emits_call_counted |].
  intros r. emits_all any_state no_known by_constructor.
Qed.

(** With a pool that exists already, [createResources] returns early. *)
Lemma createResources_early env q t :
  surface (target q 0) ≠ 0 →
  state (createResources env q t) = q ∧
  ∃ rest, trace (createResources env q t) = t ++ rest ∧ count is_creation rest = 0%nat.
Proof.
  intros Hs. apply Z.eqb_neq in Hs.
  assert (H : emits (λ q', q' = q) is_creation 0 createResources).
  { unfold createResources.
    emits_all ltac:(idtac; intros ? ?; assumption)
              ltac:(fun H => subst; rewrite ?Hs; simpl) by_constructor. }
  destruct (H env q t eq_refl) as (Hq & rest & Ht & Hc).
  split; [exact Hq |]. exists rest. split; [exact Ht | lia].
Qed.

Lemma createResources_creates env q t :
  length (m_target q) = poolSize →
  ∃ q' rest,
    createResources env q t = (Returned tt, q', t ++ rest) ∧
    (count is_CreateRenderTarget rest ≤ poolSize)%nat ∧
    (count is_beginthreadex rest ≤ 1)%nat ∧
    (m_initialised q' = true ∨ (q' = q ∧ count is_creation rest = 0%nat)).
Proof.
  intros Hlen.
  destruct (returns_createResources env q t) as ([] & q' & rest & E & _).
  exists q', rest. split; [exact E |].
  destruct (createResources_render_targets env q t Hlen) as (_ & r1 & Ht1 & Hc1).
  destruct (createResources_thread env q t Logic.I) as (_ & r2 & Ht2 & Hc2).
  rewrite E in Ht1, Ht2. unfold trace in Ht1, Ht2. simpl in Ht1, Ht2.
  apply app_inv_head in Ht1, Ht2. subst r1 r2.
  split; [exact Hc1 |]. split; [exact Hc2 |].
  destruct (decide (surface (target q 0) = 0)) as [Hs | Hs].
  - left.
    destruct (createResources_reaches_end (m_thread q) env q t (conj Hs eq_refl))
      as (q1 & r1 & E1 & _).
    rewrite E1, createResources_end_run in E.
    destruct (negb (m_thread q1 =? 0)); injection E as <- _; reflexivity.
  - right. destruct (createResources_early env q t Hs) as (Hq & r1 & Ht & Hc).
    rewrite E in Hq, Ht. unfold state, trace in Hq, Ht. simpl in Hq, Ht.
    apply app_inv_head in Ht. subst r1. split; assumption.
Qed.

Lemma beginCapture_creates_nothing env q t :
  state (beginCapture env q t) = q ∧
  ∃ rest, trace (beginCapture env q t) = t ++ rest ∧ count is_creation rest = 0%nat.
Proof.
  assert (H : emits (λ q', q' = q) is_creation 0 beginCapture).
  { emits_all ltac:(idtac; intros ? ?; assumption) no_known by_constructor. }
  destruct (H env q t eq_refl) as (Hq & rest & Ht & Hc).
  split; [exact Hq |]. exists rest. split; [exact Ht | lia].
Qed.

Lemma then_run {A : Type} (m : M unit) (k : M A) env q t q' t' :
  m env q t = (Returned tt, q', t') → (m ;; k) env q t = k env q' t'.
Proof. intros E. rewrite bind_run, E. reflexivity. Qed.

(** What one hook adds to the creation calls of a session. *)
Lemma hook_creates env q t op :
  is_hook op = true → length (m_target q) = poolSize →
  ∃ rest,
    trace (perform op env q t) = t ++ rest ∧
    (m_initialised q = true →
       count is_creation rest = 0%nat ∧ m_initialised (state (perform op env q t)) = true) ∧
    (m_initialised q = false →
       (count is_CreateRenderTarget rest ≤ poolSize)%nat ∧
       (count is_beginthreadex rest ≤ 1)%nat ∧
       (m_initialised (state (perform op env q t)) = false → count is_creation rest = 0%nat)).
Proof.
  intros Hop Hlen.
  assert (Hcr : ∀ rest, count is_creation rest = 0%nat →
            (count is_CreateRenderTarget rest ≤ poolSize)%nat ∧
            (count is_beginthreadex rest ≤ 1)%nat).
  { intros rest H0.
    pose proof (count_le is_CreateRenderTarget is_creation rest) as H1.
    pose proof (count_le is_beginthreadex is_creation rest) as H2.
    split; [rewrite H1 | rewrite H2]; try (rewrite H0; lia);
      intros []; simpl; congruence. }
  assert (Hother : op ≠ op_onPreClearDX →
            ∃ rest,
              trace (perform op env q t) = t ++ rest ∧
              (m_initialised q = true →
                 count is_creation rest = 0%nat ∧
                 m_initialised (state (perform op env q t)) = true) ∧
              (m_initialised q = false →
                 (count is_CreateRenderTarget rest ≤ poolSize)%nat ∧
                 (count is_beginthreadex rest ≤ 1)%nat ∧
                 (m_initialised (state (perform op env q t)) = false →
                  count is_creation rest = 0%nat))).
  { (* the other hooks create nothing and leave the flag *)
    intros Hne.
      assert (H : emits (λ q', m_initialised q' = m_initialised q) is_creation 0 (perform op)).
      { destruct op; try discriminate Hop; try congruence; simpl;
          emits_all ltac:(idtac; intros ? ?; assumption) no_known by_constructor. }
      destruct (H env q t eq_refl) as (Hq & rest & Ht & Hc).
      exists rest. split; [exact Ht |]. rewrite Hq.
      assert (H0 : count is_creation rest = 0%nat) by lia.
      split; [intros Hi; split; [exact H0 | exact Hi] |].
      intros _. destruct (Hcr _ H0). split; [assumption |]. split; [assumption |].
      intros _. exact H0. }
  destruct op; try discriminate Hop; try (apply Hother; discriminate).
  clear Hother.
  (* the clear, behind its test *)
  simpl. rewrite onPreClearDX_run.
  set (t1 := t ++ vlog env "onPreClearDX").
  destruct (isPresentedRenderTarget_inquires env q t1) as (r0 & Ht0 & Hc0).
  assert (H0 : count is_creation (vlog env "onPreClearDX" ++ r0) = 0%nat).
  { rewrite count_app.
    pose proof (count_le is_creation (λ c, negb (is_inquiry c)) r0) as Hle.
    assert (count is_creation (vlog env "onPreClearDX") = 0%nat) as ->
      by (unfold vlog, count; destruct (log_verbose env); reflexivity).
    rewrite Hc0 in Hle. simpl.
    assert (count is_creation r0 ≤ 0)%nat; [| lia].
    apply Hle. intros []; simpl; congruence. }
  rewrite Ht0.
  assert (Ht2 : t1 ++ r0 = t ++ (vlog env "onPreClearDX" ++ r0))
    by (unfold t1; rewrite <- app_assoc; reflexivity).
  set (t2 := t1 ++ r0) in *.
  assert (Hinert :
    ∃ rest,
      trace (Returned (), q, t2) = t ++ rest ∧
      (m_initialised q = true →
         count is_creation rest = 0%nat ∧ m_initialised (state (Returned (), q, t2)) = true) ∧
      (m_initialised q = false →
         (count is_CreateRenderTarget rest ≤ poolSize)%nat ∧
         (count is_beginthreadex rest ≤ 1)%nat ∧
         (m_initialised (state (Returned (), q, t2)) = false → count is_creation rest = 0%nat))).
  { exists (vlog env "onPreClearDX" ++ r0). split; [exact Ht2 |].
    split; [intros Hi; split; [exact H0 | exact Hi] |].
    intros _. destruct (Hcr _ H0). split; [assumption |]. split; [assumption |].
    intros _. exact H0. }
  destruct (outcome (isPresentedRenderTarget env q t1)) as [[|] | code];
    [| exact Hinert | exact Hinert].
  clear Hinert.
  (* presented *)
  destruct (m_initialised q) eqn:Hinit.
  - change (when (negb true) createResources) with (mret tt : M unit).
    rewrite (then_run (mret tt) beginCapture env q t2 q t2 eq_refl).
    destruct (beginCapture_creates_nothing env q t2) as (Hq & r1 & Ht1 & Hc1).
    exists ((vlog env "onPreClearDX" ++ r0) ++ r1). rewrite Ht1, Hq, Hinit, Ht2.
    split; [rewrite <- !app_assoc; reflexivity |].
    split; [| discriminate]. intros _. rewrite count_app. split; [lia | reflexivity].
  - change (when (negb false) createResources) with createResources.
    destruct (createResources_creates env q t2 Hlen) as (q' & r1 & E & Hc1 & Hc2 & Hinit').
    rewrite (then_run _ _ _ _ _ _ _ E).
    destruct (beginCapture_creates_nothing env q' (t2 ++ r1)) as (Hq & r2 & Ht3 & Hc3).
    exists (((vlog env "onPreClearDX" ++ r0) ++ r1) ++ r2). rewrite Ht3, Hq, Ht2.
    split; [rewrite <- !app_assoc; reflexivity |].
    split; [discriminate |]. intros _.
    assert (Hz : ∀ p, (∀ c, p c = true → is_creation c = true) →
                      count p (((vlog env "onPreClearDX" ++ r0) ++ r1) ++ r2) = count p r1).
    { intros p Hp. rewrite !count_app.
      pose proof (count_le p is_creation r2 Hp).
      pose proof (count_le p is_creation (vlog env "onPreClearDX" ++ r0) Hp).
      rewrite !count_app in *. lia. }
    rewrite (Hz is_CreateRenderTarget) by (intros []; simpl; congruence).
    rewrite (Hz is_beginthreadex) by (intros []; simpl; congruence).
    split; [exact Hc1 |]. split; [exact Hc2 |].
    intros Hfalse. destruct Hinit' as [Htrue | [_ Hzero]]; [congruence |].
    rewrite !count_app in *. lia.
Qed.

(** X8.  Through the hooks the resources are created once.  In a session
    of hook calls, whatever the calls answer, at most [poolSize] render
    targets are ever created and at most one thread is started, and none
    of either as long as the initialisation is not marked complete. *)
Theorem hooks_create_once (env : Env) (device direct3D : Z) (ops : list Operation) :
  forallb is_hook ops = true →
  let s := session env device direct3D ops in
  (count is_CreateRenderTarget (trace s) ≤ poolSize)%nat ∧
  (count is_beginthreadex (trace s) ≤ 1)%nat ∧
  (m_initialised (state s) = false → count is_creation (trace s) = 0%nat).
Proof.
  intros Hops s. subst s.
  assert (Hinv : ∀ ops s,
            forallb is_hook ops = true →
            length (m_target (state s)) = poolSize →
            (m_initialised (state s) = false → count is_creation (trace s) = 0%nat) →
            (count is_CreateRenderTarget (trace s) ≤ poolSize)%nat →
            (count is_beginthreadex (trace s) ≤ 1)%nat →
            let s' := run env ops s in
            (count is_CreateRenderTarget (trace s') ≤ poolSize)%nat ∧
            (count is_beginthreadex (trace s') ≤ 1)%nat ∧
            (m_initialised (state s') = false → count is_creation (trace s') = 0%nat)).
  { clear ops Hops. induction ops as [| op ops IH]; intros s Hops Hlen Hzero Hcr Hth.
    - simpl. split; [exact Hcr |]. split; [exact Hth | exact Hzero].
    - simpl in Hops. apply andb_true_iff in Hops as [Hop Hops].
      change (run env (op :: ops) s) with (run env ops (session_step env s op)).
      unfold session_step. destruct (outcome s); [| apply IH; assumption].
      destruct (hook_creates env (state s) (trace s) op Hop Hlen) as (rest & Ht & Htrue & Hfalse).
      assert (Hlen' : length (m_target (state (perform op env (state s) (trace s)))) = poolSize).
      { assert (Hk : emits (λ q, length (m_target q) = poolSize) no_call 0 (perform op)).
        { destruct op; simpl; emits_all length_leaf no_known by_constructor. }
        apply (Hk env (state s) (trace s) Hlen). }
      assert (Hsub : ∀ p, (∀ c, p c = true → is_creation c = true) →
                          count is_creation (trace s) = 0%nat → count p (trace s) = 0%nat).
      { intros p Hp H0. pose proof (count_le p is_creation (trace s) Hp). lia. }
      destruct (m_initialised (state s)) eqn:Hinit.
      + destruct (Htrue eq_refl) as [H0 Hinit'].
        assert (H1 : (count is_CreateRenderTarget rest ≤ count is_creation rest)%nat)
          by (apply count_le; intros []; simpl; congruence).
        assert (H2 : (count is_beginthreadex rest ≤ count is_creation rest)%nat)
          by (apply count_le; intros []; simpl; congruence).
        apply IH; try assumption; rewrite ?Ht, ?count_app.
        * rewrite Hinit'. discriminate.
        * lia.
        * lia.
      + destruct (Hfalse eq_refl) as (H1 & H2 & H0).
        specialize (Hzero eq_refl).
        assert (H3 : count is_CreateRenderTarget (trace s) = 0%nat)
          by (apply Hsub; [intros []; simpl; congruence | exact Hzero]).
        assert (H4 : count is_beginthreadex (trace s) = 0%nat)
          by (apply Hsub; [intros []; simpl; congruence | exact Hzero]).
        apply IH; try assumption; rewrite ?Ht, ?count_app.
        * intros Hi. rewrite (H0 Hi). lia.
        * lia.
        * lia. }
  unfold session. apply Hinv.
  - exact Hops.
  - reflexivity.
  - reflexivity.
  - unfold count. simpl. lia.
  - unfold count. simpl. lia.
Qed.

Lemma hooks_create_once_witness :
  (count is_CreateRenderTarget
     (trace (session (scripted nothing_fails []) 1 2
               [op_onPrePresentDX; op_onPreClearDX; op_onPostPresentDX;
                op_onPrePresentDX; op_onPreClearDX])) ≤ poolSize)%nat.
Proof.
  exact (proj1 (hooks_create_once (scripted nothing_fails []) 1 2
                  [op_onPrePresentDX; op_onPreClearDX; op_onPostPresentDX;
                   op_onPrePresentDX; op_onPreClearDX] eq_refl)).
Defined.

(** ** How the process can be ended *)

Section EndsOnly.
Context (E : Env → Trace → Z → Prop).

Lemma ends_ret {A : Type} (a : A) : ends_only E (mret a).
Proof. intros env q t code H. discriminate H. Qed.

Lemma ends_bind {A B : Type} (m : M A) (f : A → M B) :
  ends_only E m → (∀ a, ends_only E (f a)) → ends_only E (m ≫= f).
Proof.
  intros Hm Hf env q t code. rewrite bind_run.
  specialize (Hm env q t).
  destruct (m env q t) as [[[a | code'] q1] t1].
  - apply Hf.
  - intros H. injection H as ->. apply (Hm code eq_refl).
Qed.

Lemma ends_get : ends_only E get.
Proof. intros env q t code H. discriminate H. Qed.

Lemma ends_ask : ends_only E ask.
Proof. intros env q t code H. discriminate H. Qed.

Lemma ends_modify f : ends_only E (modify f).
Proof. intros env q t code H. discriminate H. Qed.

Lemma ends_call c : ends_only E (call c).
Proof. intros env q t code H. discriminate H. Qed.

Lemma ends_call_ c : ends_only E (call_ c).
Proof. intros env q t code H. discriminate H. Qed.

Lemma ends_when b m : ends_only E m → ends_only E (when b m).
Proof. intros Hm. destruct b; [exact Hm | apply ends_ret]. Qed.

Lemma ends_setting {A : Type} (f : Settings → A) : ends_only E (setting f).
Proof. intros env q t code H. discriminate H. Qed.

Lemma ends_Log_info : ends_only E Log_info.
Proof. intros env q t code H. discriminate H. Qed.

Lemma ends_Log_verbose : ends_only E Log_verbose.
Proof. intros env q t code H. discriminate H. Qed.

Lemma ends_Log text : ends_only E (Log text).
Proof. apply ends_call_. Qed.

Lemma ends_info text : ends_only E (info text).
Proof. apply ends_bind; [apply ends_Log_info | intros; apply ends_when, ends_Log]. Qed.

Lemma ends_verbose text : ends_only E (verbose text).
Proof. apply ends_bind; [apply ends_Log_verbose | intros; apply ends_when, ends_Log]. Qed.

Lemma ends_getTime : ends_only E getTime.
Proof. apply ends_bind; [apply ends_call | intros; apply ends_ret]. Qed.

Lemma ends_for_targets remaining i body :
  (∀ i, ends_only E (body i)) → ends_only E (for_targets remaining i body).
Proof.
  intros Hbody. revert i. induction remaining as [| remaining IH]; intros i; simpl.
  - apply ends_ret.
  - apply ends_bind; [apply Hbody |].
    intros [|]; [apply IH | apply ends_ret].
Qed.

Lemma ends_do_while {S : Type} fuel (block : S → M (S * bool)) cond s :
  (∀ s, ends_only E (block s)) → ends_only E (do_while fuel block cond s).
Proof.
  intros Hblock. revert s. induction fuel as [| fuel IH]; intros s; simpl.
  - apply ends_ret.
  - apply ends_bind; [apply Hblock |].
    intros r. destruct (r.2 && cond); [apply IH | apply ends_ret].
Qed.

Lemma ends_logRenderbufferParameters names : ends_only E (logRenderbufferParameters names).
Proof.
  induction names as [| name names IH]; simpl.
  - apply ends_ret.
  - apply ends_bind; [apply ends_call_ | intros _].
    apply ends_bind; [apply ends_Log | intros _; exact IH].
Qed.

Lemma ends_onPaint_eyes turns useTexture mustUseBlit :
  ends_only E (onPaint_eye useTexture mustUseBlit) →
  ends_only E (onPaint_eyes turns useTexture mustUseBlit).
Proof.
  intros Heye. induction turns as [| turns IH]; simpl.
  - apply ends_ret.
  - apply ends_bind; [exact Heye | intros drawBuffer].
    destruct (negb (drawBuffer =? GL_BACK_LEFT)); [apply ends_ret | exact IH].
Qed.

Lemma ends_deliver sent :
  (∀ hWnd uMsg wParam lParam, ends_only E (WindowProc hWnd uMsg wParam lParam)) →
  ends_only E (deliver sent).
Proof.
  intros Hproc. induction sent as [| msg sent IH]; simpl.
  - apply ends_ret.
  - apply ends_bind; [apply Hproc | intros _; exact IH].
Qed.

Lemma ends_messageLoop fuel current :
  (∀ hWnd uMsg wParam lParam, ends_only E (WindowProc hWnd uMsg wParam lParam)) →
  ends_only E (messageLoop fuel current).
Proof.
  intros Hproc. revert current.
  induction fuel as [| fuel IH]; intros current; simpl.
  - apply ends_ret.
  - apply ends_bind; [apply ends_call | intros r].
    apply ends_bind; [apply ends_deliver, Hproc | intros _].
    apply ends_bind.
    + destruct (negb (result r =? 0)).
      * apply ends_bind; [apply ends_call_ | intros _].
        apply ends_bind; [apply ends_call_ | intros _].
        apply ends_bind; [| intros _; apply ends_ret].
        apply ends_when. apply ends_bind; [apply Hproc | intros; apply ends_ret].
      * apply ends_bind; [apply ends_ret | intros; apply ends_ret].
    + intros msg. destruct (negb (message msg =? WM_QUIT)); [apply IH | apply ends_ret].
Qed.
End EndsOnly.

(** One step through a computation; [capture] is what is known of
    [beginCapture], the only method that calls [exit]. *)
Ltac ends_step capture :=
  lazymatch goal with
  | |- ends_only _ beginCapture => capture
  | |- ends_only _ (mbind _ _) => apply ends_bind; [| intros ?; cbv beta zeta]
  | |- ends_only _ (mret _) => apply ends_ret
  | |- ends_only _ get => apply ends_get
  | |- ends_only _ ask => apply ends_ask
  | |- ends_only _ (call _) => apply ends_call
  | |- ends_only _ (call_ _) => apply ends_call_
  | |- ends_only _ (setting _) => apply ends_setting
  | |- ends_only _ Log_info => apply ends_Log_info
  | |- ends_only _ Log_verbose => apply ends_Log_verbose
  | |- ends_only _ (Log _) => apply ends_Log
  | |- ends_only _ (info _) => apply ends_info
  | |- ends_only _ (verbose _) => apply ends_verbose
  | |- ends_only _ getTime => apply ends_getTime
  | |- ends_only _ (when _ _) => apply ends_when
  | |- ends_only _ (modify _) => apply ends_modify
  | |- ends_only _ (for_targets _ _ _) => apply ends_for_targets; intros ?
  | |- ends_only _ (do_while _ _ _ _) => apply ends_do_while; intros ?
  | |- ends_only _ (logRenderbufferParameters _) => apply ends_logRenderbufferParameters
  | |- ends_only _ (onPaint_eyes _ _ _) => apply ends_onPaint_eyes
  | |- ends_only _ (messageLoop _ _) => apply ends_messageLoop; intros ? ? ? ?
  | |- ends_only _ (if ?b then _ else _) => destruct b eqn:?; try discriminate
  | |- ends_only _ (match ?x with _ => _ end) => destruct x eqn:?; try discriminate
  | |- ends_only _ _ =>
      progress cbv beta delta
        [endCapture onStereoSignal onPreSetViewportDX onPrePresentDX
         onPostPresentDX drawStereoIndicator buildQuadList lockTarget onPaint_eye
         onPaint_begin onPaint_statistics onPaint_end onPaint onDestroy onWM_PAINT
         WindowProc_over redraw onResize onIdle windowProc WindowProc WindowProcSource
         isPresentedRenderTarget startRenderThread createRenderTarget createResources
         onPreClearDX onCreateDX onPostClearDX attachTarget setupFramebuffer
         onCreate_target onCreate_block onCreate_objects onCreate threadFunc_end
         threadFunc]
  end.

Ltac ends_all capture := repeat ends_step capture.

Lemma beginCapture_ends : ends_only failed_redirection beginCapture.
Proof.
  intros env q t code. rewrite beginCapture_run.
  destruct (result (redirected env q t) =? D3D_OK) eqn:Hr; [discriminate |].
  intros H. injection H as <-. split; [reflexivity |].
  exists (t ++ vlog env "beginCapture" ++ [GetViewport] ++ vlog env "SetRenderTarget("),
         (surface (target q (m_drawBuffer q))).
  split.
  - unfold trace, redirection. simpl. rewrite <- !app_assoc. reflexivity.
  - apply Z.eqb_neq. exact Hr.
Qed.

Lemma ends_never_is_total {A : Type} (m : M A) env q t :
  ends_only never m → ∃ a, outcome (m env q t) = Returned a.
Proof.
  intros Hm. specialize (Hm env q t).
  destruct (outcome (m env q t)) as [a | code]; [exists a; reflexivity |].
  destruct (Hm code eq_refl).
Qed.

Lemma without_beginCapture_never_ends op :
  runs_beginCapture op = false → ends_only never (perform op).
Proof.
  intros Hop. destruct op; try discriminate Hop; simpl; try solve [ends_all fail].
  (* a viewport that is not the sentinel *)
  destruct pViewport as [v |]; simpl in Hop; unfold onPreSetViewportDX;
    [fold (is_sentinel v); rewrite Hop; unfold when |]; ends_all fail.
Qed.

Lemma with_beginCapture_ends_by_it op : ends_only failed_redirection (perform op).
Proof. destruct op; simpl; ends_all ltac:(apply beginCapture_ends). Qed.

(** X9.  Only a refused redirection ends the process.  An operation ends
    the process on no path but the one of [beginCapture] on which the device
    refuses the new render target: then the code is 1 and the last calls
    are the refused [SetRenderTarget], the line of the log and [exit].  So
    no operation of the OpenGL thread ends the process; and those of them
    that have no loop, all but [threadFunc], return whatever the calls
    answer. *)
Theorem only_a_refused_redirection_ends_the_process
    (env : Env) (q : Quadifier) (t : Trace) (op : Operation) :
  let r := perform op env q t in
  (∀ code, outcome r = Exited code →
           runs_beginCapture op = true ∧ failed_redirection env (trace r) code) ∧
  (on_producer_thread op = false → ∀ code, outcome r ≠ Exited code) ∧
  (on_producer_thread op = false → is_threadFunc op = false → outcome r = Returned tt).
Proof.
  intros r. subst r. split; [| split].
  - intros code Hcode. split.
    + destruct (runs_beginCapture op) eqn:Hop; [reflexivity |].
      destruct (without_beginCapture_never_ends op Hop env q t code Hcode).
    + apply (with_beginCapture_ends_by_it op env q t code Hcode).
  - intros Hop code Hcode.
    assert (Hno : runs_beginCapture op = false) by (destruct op; try discriminate Hop; reflexivity).
    destruct (without_beginCapture_never_ends op Hno env q t code Hcode).
  - intros Hop _.
    assert (Hno : runs_beginCapture op = false) by (destruct op; try discriminate Hop; reflexivity).
    destruct (ends_never_is_total (perform op) env q t (without_beginCapture_never_ends op Hno))
      as ([] & H).
    exact H.
Qed.

(** ** The window procedure *)

(** A computation that returns and makes no call of the kind [p]. *)
Lemma quiet_of {A : Type} p (m : M A) :
  emits (λ _, True) p 0 m → ends_only never m → counts p 0 m.
Proof.
  intros Hm He env q t.
  destruct (Hm env q t Logic.I) as (_ & rest & Ht & Hc).
  specialize (He env q t).
  destruct (m env q t) as [[[a | code] q'] t'].
  - exists a, q', rest. unfold trace in Ht. simpl in Ht. subst t'.
    split; [reflexivity | lia].
  - destruct (He code eq_refl).
Qed.

Lemma outcome_then_ret {A B : Type} (m : M A) (b : B) env q t :
  ends_only never m → outcome ((m ;; mret b) env q t) = Returned b.
Proof.
  intros Hm. rewrite bind_run. specialize (Hm env q t).
  destruct (m env q t) as [[[a | code] q'] t']; [reflexivity |].
  destruct (Hm code eq_refl).
Qed.

Lemma forwarded_not_handled uMsg : forwarded uMsg = true → handled_here uMsg = false.
Proof.
  unfold forwarded. intros H. apply bool_decide_eq_true in H.
  repeat (apply elem_of_cons in H as [-> | H]; [reflexivity |]).
  apply elem_of_nil in H. destruct H.
Qed.

Lemma windowProc_forwards hWnd uMsg wParam lParam env q t :
  forwarded uMsg = true →
  windowProc hWnd uMsg wParam lParam env q t =
    (Returned 0, q, t ++ [PostMessage (m_sourceWindow q) uMsg wParam lParam]).
Proof.
  intros Hf. pose proof (forwarded_not_handled uMsg Hf) as Hh.
  unfold handled_here in Hh. apply orb_false_iff in Hh as [Hh H4].
  apply orb_false_iff in Hh as [Hh H3]. apply orb_false_iff in Hh as [H1 H2].
  unfold windowProc. rewrite H1, H2, H3, H4, Hf. reflexivity.
Qed.

Lemma windowProc_defaults hWnd uMsg wParam lParam env q t :
  handled_here uMsg = false → forwarded uMsg = false →
  windowProc hWnd uMsg wParam lParam env q t =
    (Returned (result (respond env t (DefWindowProc hWnd uMsg wParam lParam))), q,
     t ++ [DefWindowProc hWnd uMsg wParam lParam]).
Proof.
  intros Hh Hf.
  unfold handled_here in Hh. apply orb_false_iff in Hh as [Hh H4].
  apply orb_false_iff in Hh as [Hh H3]. apply orb_false_iff in Hh as [H1 H2].
  unfold windowProc. rewrite H1, H2, H3, H4, Hf. reflexivity.
Qed.

Lemma handlers_never_end :
  ends_only never onDestroy ∧ ends_only never redraw ∧
  (∀ hWnd, ends_only never (onWM_PAINT hWnd)) ∧
  (∀ type w h, ends_only never (onResize type w h)).
Proof. split; [| split; [| split]]; intros; ends_all fail. Qed.

Lemma handlers_post_nothing :
  emits (λ _, True) is_PostMessage 0 onDestroy ∧
  emits (λ _, True) is_PostMessage 0 redraw ∧
  (∀ hWnd, emits (λ _, True) is_PostMessage 0 (onWM_PAINT hWnd)) ∧
  (∀ type w h, emits (λ _, True) is_PostMessage 0 (onResize type w h)).
Proof.
  split; [| split; [| split]]; intros; emits_all any_state no_known by_constructor.
Qed.



(** ** The size of the window *)

Lemma LOWORD_mod l : LOWORD l = l mod 65536.
Proof. unfold LOWORD. change 0xFFFF with (Z.ones 16). rewrite Z.land_ones by lia. reflexivity. Qed.

Lemma HIWORD_mod l : HIWORD l = (l / 65536) mod 65536.
Proof.
  unfold HIWORD. change 0xFFFF with (Z.ones 16). rewrite Z.land_ones by lia.
  rewrite Z.shiftr_div_pow2 by lia. reflexivity.
Qed.

Lemma words_of_lParam l : wrap32 l = LOWORD l + 65536 * HIWORD l.
Proof.
  rewrite LOWORD_mod, HIWORD_mod. unfold wrap32.
  change (2 ^ 32) with (65536 * 65536).
  rewrite Z.rem_mul_r by lia. reflexivity.
Qed.

Lemma redraw_keeps_size w h :
  emits (λ q, m_width q = w ∧ m_height q = h) no_call 0 redraw.
Proof. emits_all ltac:(idtac; intros ? ?; assumption) no_known by_constructor. Qed.

(** X11.  WM_SIZE hands the size of the client area over to the pass.
    Whatever the repaint that follows does, after the message [m_width] and
    [m_height] are the low and the high word of [lParam]: both lie in
    0..65535, together they are the low 32 bits of [lParam], and the
    viewport of OpenGL has been set to them first. *)
Theorem WM_SIZE_sets_the_size
    (env : Env) (q : Quadifier) (t : Trace) (hWnd wParam lParam : Z) :
  let r := windowProc hWnd WM_SIZE wParam lParam env q t in
  let w := m_width (state r) in
  let h := m_height (state r) in
  w = LOWORD lParam ∧ h = HIWORD lParam ∧
  0 ≤ w < 65536 ∧ 0 ≤ h < 65536 ∧
  wrap32 lParam = w + 65536 * h ∧
  ∃ rest, trace r = t ++ [GL "glViewport" [0; 0; w; h]] ++ rest.
Proof.
  intros r w h.
  assert (Hr : r = (onResize (wrap32 wParam) (LOWORD lParam) (HIWORD lParam) ;; mret 0) env q t)
    by reflexivity.
  assert (Hstate : w = LOWORD lParam ∧ h = HIWORD lParam ∧
                   ∃ rest, trace r = t ++ [GL "glViewport" [0; 0; LOWORD lParam; HIWORD lParam]] ++ rest).
  { subst w h. rewrite Hr. clear Hr r.
    set (q1 := set_m_height (HIWORD lParam) (set_m_width (LOWORD lParam) q)).
    set (t1 := t ++ [GL "glViewport" [0; 0; LOWORD lParam; HIWORD lParam]]).
    assert (E : onResize (wrap32 wParam) (LOWORD lParam) (HIWORD lParam) env q t =
                redraw env q1 t1).
    { unfold onResize. rewrite bind_run, call_run_. rewrite bind_run, modify_run.
      rewrite bind_run, modify_run. reflexivity. }
    rewrite bind_run, E.
    destruct (redraw_keeps_size (LOWORD lParam) (HIWORD lParam) env q1 t1 (conj eq_refl eq_refl))
      as ((Hw & Hh) & rest & Ht & _).
    destruct (redraw env q1 t1) as [[[[] | code] q2] t2];
      unfold state, trace in *; simpl in *;
      (split; [exact Hw |]; split; [exact Hh |]; exists rest;
       rewrite Ht; unfold t1; rewrite <- app_assoc; reflexivity). }
  destruct Hstate as (Hw & Hh & rest & Ht).
  split; [exact Hw |]. split; [exact Hh |].
  rewrite Hw, Hh. rewrite LOWORD_mod, HIWORD_mod.
  split; [apply Z.mod_pos_bound; lia |]. split; [apply Z.mod_pos_bound; lia |].
  split; [rewrite <- LOWORD_mod, <- HIWORD_mod; apply words_of_lParam |].
  exists rest. rewrite <- LOWORD_mod, <- HIWORD_mod. exact Ht.
Qed.

(** ** The thread of OpenGL *)

Lemma count_loop_call t :
  count is_loop_call t = 0%nat →
  count is_endthreadex t = 0%nat ∧ count is_PeekMessage t = 0%nat.
Proof.
  intros H.
  pose proof (count_le is_endthreadex is_loop_call t) as H1.
  pose proof (count_le is_PeekMessage is_loop_call t) as H2.
  split; [assert (count is_endthreadex t ≤ count is_loop_call t)%nat; [apply H1 | lia]
         | assert (count is_PeekMessage t ≤ count is_loop_call t)%nat; [apply H2 | lia]];
    intros c Hc; unfold is_loop_call; rewrite Hc; auto using orb_true_r.
Qed.

Lemma finishes_bind {A : Type} fuel (m : M A) (f : A → M (option Z)) :
  counts is_loop_call 0 m → (∀ a, finishes fuel (f a)) → finishes fuel (m ≫= f).
Proof.
  intros Hm Hf env q t. rewrite bind_run.
  destruct (Hm env q t) as (a & q1 & r1 & -> & H1).
  destruct (Hf a env q1 (t ++ r1)) as (res & q2 & r2 & -> & H2).
  exists res, q2, (r1 ++ r2). rewrite app_assoc. split; [reflexivity |].
  apply count_loop_call in H1 as [He Hp].
  destruct res as [code |]; simpl in *.
  - destruct H2 as (Hcode & before & -> & Hb). split; [exact Hcode |].
    exists (r1 ++ before). rewrite app_assoc. split; [reflexivity |].
    rewrite count_app. lia.
  - destruct H2 as [H2 H3]. rewrite !count_app. lia.
Qed.

Lemma finishes_end fuel : finishes fuel (call_ (endthreadex 0) ;; mret (Some 0)).
Proof.
  intros env q t. exists (Some 0), q, [endthreadex 0]. split; [reflexivity |].
  split; [reflexivity |]. exists []. split; reflexivity.
Qed.

Lemma WindowProc_is_no_loop_call hWnd uMsg wParam lParam :
  counts is_loop_call 0 (WindowProc hWnd uMsg wParam lParam).
Proof.
  apply quiet_of.
  - emits_all any_state no_known by_constructor.
  - ends_all fail.
Qed.

Lemma deliver_is_no_loop_call sent : counts is_loop_call 0 (deliver sent).
Proof.
  induction sent as [| msg sent IH]; simpl.
  - apply counts_ret.
  - apply counts_bind0; [apply WindowProc_is_no_loop_call | intros _; exact IH].
Qed.

(** What a turn of the loop does with the answer [p] of [PeekMessage]. *)
Lemma turn_is_no_loop_call (p : Resp) current :
  counts is_loop_call 0
    (deliver (out_sent p) ;;
     if negb (result p =? 0)
     then call_ (TranslateMessage (out_msg p)) ;;
          call_ (DispatchMessage (out_msg p)) ;;
          when (negb (hwnd (out_msg p) =? 0))
            (WindowProc (hwnd (out_msg p)) (message (out_msg p))
               (wParam (out_msg p)) (lParam (out_msg p)) ;; mret tt) ;;
          mret (out_msg p)
     else onIdle ;; mret current).
Proof.
  apply counts_bind0; [apply deliver_is_no_loop_call | intros _].
  destruct (negb (result p =? 0)).
  - apply counts_bind0; [apply counts_call_ | intros _].
    apply counts_bind0; [apply counts_call_ | intros _].
    apply counts_bind0; [| intros _; apply counts_ret].
    apply counts_when.
    apply counts_bind0; [apply WindowProc_is_no_loop_call | intros; apply counts_ret].
  - apply counts_bind0; [apply counts_ret | intros; apply counts_ret].
Qed.

(** The loop polls once in each turn, and ends no thread. *)
Lemma messageLoop_polls fuel : ∀ current env q t,
  ∃ left_loop q' rest,
    messageLoop fuel current env q t = (Returned left_loop, q', t ++ rest) ∧
    count is_endthreadex rest = 0%nat ∧
    (count is_PeekMessage rest ≤ fuel)%nat ∧
    (left_loop = false → count is_PeekMessage rest = fuel).
Proof.
  induction fuel as [| fuel IH]; intros current env q t.
  - exists false, q, []. rewrite app_nil_r. repeat split; reflexivity.
  - simpl. rewrite bind_run, call_run. cbv beta match.
    set (p := respond env t PeekMessage).
    pose proof (turn_is_no_loop_call p current env q (t ++ [PeekMessage]))
      as (msg & q1 & r1 & E & Hr1).
    rewrite bind_run in E. rewrite bind_run.
    destruct (deliver (out_sent p) env q (t ++ [PeekMessage])) as [[[[] | code] q0] t0];
      [| discriminate E].
    rewrite bind_run, E. cbv beta match.
    apply count_loop_call in Hr1 as [He Hp].
    destruct (negb (message msg =? WM_QUIT)).
    + destruct (IH msg env q1 ((t ++ [PeekMessage]) ++ r1))
        as (left_loop & q2 & r2 & -> & He2 & Hle & Hp2).
      exists left_loop, q2, (([PeekMessage] ++ r1) ++ r2).
      rewrite !app_assoc. split; [reflexivity |].
      rewrite !count_app.
      change (count is_endthreadex [PeekMessage]) with 0%nat.
      change (count is_PeekMessage [PeekMessage]) with 1%nat.
      split; [lia |]. split; [lia |]. intros Hl. specialize (Hp2 Hl). lia.
    + exists true, q1, ([PeekMessage] ++ r1). rewrite !app_assoc.
      split; [reflexivity |]. rewrite !count_app.
      change (count is_endthreadex [PeekMessage]) with 0%nat.
      change (count is_PeekMessage [PeekMessage]) with 1%nat.
      split; [lia |]. split; [lia |]. discriminate.
Qed.

Lemma threadFunc_end_finishes created fuel uninitialised :
  finishes fuel (threadFunc_end created fuel uninitialised).
Proof.
  intros env q t. destruct created.
  - unfold threadFunc_end.
    rewrite bind_run. rewrite (bind_run (call_ _)), call_run_.
    rewrite bind_run.
    destruct (messageLoop_polls fuel uninitialised env q (t ++ [Window_show SW_SHOWNA]))
      as (left_loop & q1 & r1 & -> & He & Hle & Hp).
    destruct left_loop.
    + rewrite bind_run. unfold when. rewrite info_run. cbv beta match.
      rewrite ret_run. cbv beta match. rewrite bind_run, call_run_.
      exists (Some 0), q1, ((([Window_show SW_SHOWNA] ++ r1) ++ ilog env "WM_QUIT") ++ [endthreadex 0]).
      rewrite !app_assoc. split; [reflexivity |]. split; [reflexivity |].
      exists (([Window_show SW_SHOWNA] ++ r1) ++ ilog env "WM_QUIT").
      split; [reflexivity |]. rewrite !count_app, He.
      unfold ilog, count. destruct (log_info env); reflexivity.
    + rewrite bind_run. unfold when. rewrite ret_run. cbv beta match.
      rewrite ret_run. cbv beta match.
      exists None, q1, ([Window_show SW_SHOWNA] ++ r1).
      rewrite !app_assoc. split; [reflexivity |].
      unfold thread_result. rewrite !count_app.
      change (count is_endthreadex [Window_show SW_SHOWNA]) with 0%nat.
      change (count is_PeekMessage [Window_show SW_SHOWNA]) with 0%nat.
      split; [lia |]. rewrite (Hp eq_refl). lia.
  - rewrite threadFunc_end_failed.
    exists (Some 0), q,
      [Log_print "Failed when initialising OpenGL resources: exiting";
       PostMessage (m_sourceWindow q) WM_QUIT 0 0; endthreadex 0].
    split; [reflexivity |]. split; [reflexivity |].
    exists [Log_print "Failed when initialising OpenGL resources: exiting";
            PostMessage (m_sourceWindow q) WM_QUIT 0 0].
    split; reflexivity.
Qed.

Ltac no_loop_call :=
  idtac;
  apply quiet_of; [emits_all any_state no_known by_constructor | ends_all fail].

(** X12.  [threadFunc] ends its thread itself, once, and as the last
    thing it does.  On every path on which it is through (no object, no
    window, the creation of the resources failed, or WM_QUIT was taken from
    the queue) it returns 0 after a run whose last call, and only call of
    the kind, is [_endthreadex(0)].  Otherwise it is still in its message
    loop: it has ended no thread and has polled the queue once in every
    turn. *)
Theorem threadFunc_ends_its_thread
    (env : Env) (q : Quadifier) (t : Trace) (context : Z) (fuel : nat) (uninitialised : MSG) :
  ∃ res q' rest,
    threadFunc context fuel uninitialised env q t = (Returned res, q', t ++ rest) ∧
    thread_result fuel res rest.
Proof.
  revert env q t. change (finishes fuel (threadFunc context fuel uninitialised)).
  unfold threadFunc.
  repeat first
    [ apply finishes_end
    | apply threadFunc_end_finishes
    | apply finishes_bind; [no_loop_call | intros ?; cbv beta zeta]
    | match goal with |- finishes _ (if ?b then _ else _) => destruct b end ].
Qed.

(** ** The message loop with nothing to do *)

(** X13.  With nothing to do the message loop is a busy poll.  As long as
    [PeekMessage] delivers no message that was sent to the window (no
    new-frame notification of the Direct3D thread among others) and takes
    none from the queue, a turn makes one call, [PeekMessage], and leaves
    the object as it is; the test at the end of the turn reads the MSG
    although [PeekMessage] has stored nothing in it.  So the loop is not
    left when the MSG it was started with does not hold WM_QUIT, and it is
    left after its first turn when that MSG happens to hold it. *)
Theorem idle_loop_only_polls
    (env : Env) (q : Quadifier) (t : Trace) (fuel : nat) (uninitialised : MSG) :
  nothing_to_do env →
  messageLoop fuel uninitialised env q t =
    if message uninitialised =? WM_QUIT
    then match fuel with
         | O => (Returned false, q, t)
         | S _ => (Returned true, q, t ++ [PeekMessage])
         end
    else (Returned false, q, t ++ replicate fuel PeekMessage).
Proof.
  intros Hempty. revert t. induction fuel as [| fuel IH]; intros t.
  - simpl. rewrite app_nil_r. destruct (message uninitialised =? WM_QUIT); reflexivity.
  - simpl. rewrite bind_run, call_run. cbv beta match.
    destruct (Hempty t) as [-> ->].
    change (deliver []) with (mret tt : M unit).
    rewrite bind_run, ret_run. cbv beta match.
    change (negb (0 =? 0)) with false. cbv iota.
    rewrite bind_run. unfold onIdle. rewrite bind_run, !ret_run. cbv beta match.
    destruct (message uninitialised =? WM_QUIT) eqn:Hquit; cbv beta iota delta [negb].
    + reflexivity.
    + rewrite IH, <- app_assoc. reflexivity.
Qed.

Lemma idle_loop_only_polls_witness :
  nothing_to_do (scripted nothing_fails []) ∧
  messageLoop 3 no_msg (scripted nothing_fails []) (state first_frame) [] =
    (Returned false, state first_frame, [PeekMessage; PeekMessage; PeekMessage]).
Proof.
  assert (H : nothing_to_do (scripted nothing_fails [])) by (intros t; split; reflexivity).
  split; [exact H |].
  exact (idle_loop_only_polls (scripted nothing_fails []) (state first_frame) [] 3 no_msg H).
Defined.

(** ** The display list of the textured quad *)

Lemma onDestroy_run env q t :
  ∃ log,
    onDestroy env q t = (Returned tt, set_m_quadListGL 0 q, t ++ freed q ++ log) ∧
    count (λ c, negb (is_Log_print c)) log = 0%nat.
Proof.
  unfold onDestroy, freed.
  rewrite bind_run, get_run. cbv beta match. rewrite bind_run.
  set (q1 := set_m_quadListGL 0 q).
  set (t1 := t ++ (if m_quadListGL q =? 0 then [] else [GL "glDeleteLists" [m_quadListGL q; 1]])).
  assert (E : when (negb (m_quadListGL q =? 0))
                (call_ (GL "glDeleteLists" [m_quadListGL q; 1]) ;; modify (set_m_quadListGL 0))
                env q t = (Returned tt, q1, t1)).
  { unfold q1, t1. destruct (m_quadListGL q =? 0) eqn:H0; simpl.
    - apply Z.eqb_eq in H0. pose proof (quadList_same q) as Hs. rewrite H0 in Hs.
      rewrite Hs, app_nil_r. reflexivity.
    - reflexivity. }
  rewrite E. cbv beta match.
  assert (Hlog : counts (λ c, negb (is_Log_print c)) 0
            (i ← Log_info;
             when i
               (Log "onDestroy" ;; Log "DX presented targets = " ;; Log "GL frames = " ;;
                Log "DX frames = " ;;
                q ← get;
                when (0 <? m_framesGL q) (Log "DX/GL metric = ") ;;
                when (double_ltb double_hundredth
                        (double_sub (m_lastFrameTimeGL q) (m_firstFrameTimeGL q)))
                  (Log "Frame rate = ")))).
  { apply quiet_of.
    - emits_all any_state no_known by_constructor.
    - ends_all fail. }
  assert (Hk : emits (λ q', q' = q1) no_call 0
            (i ← Log_info;
             when i
               (Log "onDestroy" ;; Log "DX presented targets = " ;; Log "GL frames = " ;;
                Log "DX frames = " ;;
                q ← get;
                when (0 <? m_framesGL q) (Log "DX/GL metric = ") ;;
                when (double_ltb double_hundredth
                        (double_sub (m_lastFrameTimeGL q) (m_firstFrameTimeGL q)))
                  (Log "Frame rate = ")))).
  { emits_all ltac:(idtac; intros ? ?; assumption) no_known by_constructor. }
  destruct (Hlog env q1 t1) as ([] & q2 & log & E2 & Hc).
  destruct (Hk env q1 t1 eq_refl) as (Hq & _).
  rewrite E2 in Hq |- *. unfold state in Hq. simpl in Hq. subst q2.
  exists log. unfold t1. rewrite <- app_assoc. split; [reflexivity | exact Hc].
Qed.

(** The literal [0.01] is the double nearest to one hundredth, and ten
    ticks of the clock, from 0.06 s to 0.07 s, are more than it: the
    difference of the two doubles is above the literal, and [onDestroy]
    logs the frame rate. *)
Lemma double_hundredth_nearest :
  double_div (double_of_Z 1) (double_of_Z 100) = double_hundredth.
Proof. vm_compute. reflexivity. Qed.

Lemma onDestroy_logs_the_frame_rate :
  let time ticks := double_div (double_of_Z ticks) (double_of_Z CLOCKS_PER_SEC) in
  let q := set_m_lastFrameTimeGL (time 70)
             (set_m_firstFrameTimeGL (time 60) (Quadifier_new 1 2 false)) in
  double_ltb double_hundredth (double_sub (m_lastFrameTimeGL q) (m_firstFrameTimeGL q)) = true ∧
  last (trace (onDestroy (informing (scripted nothing_fails [])) q [])) =
    Some (Log_print "Frame rate = ").
Proof. vm_compute. split; reflexivity. Qed.

(** X14.  [onDestroy] frees the display list, and frees it once.  It
    deletes the list when there is one, sets [m_quadListGL] to 0 and
    changes nothing else of the object; the rest of what it does is written
    to the log.  Run again, it deletes nothing: of two runs in a row only
    the first can call [glDeleteLists]. *)
Theorem onDestroy_frees_the_list_once (env : Env) (q : Quadifier) (t : Trace) :
  let first := onDestroy env q t in
  let second := onDestroy env (state first) (trace first) in
  (∃ log, first = (Returned tt, set_m_quadListGL 0 q, t ++ freed q ++ log) ∧
          count (λ c, negb (is_Log_print c)) log = 0%nat) ∧
  (∃ log, second = (Returned tt, set_m_quadListGL 0 q, trace first ++ log) ∧
          count (λ c, negb (is_Log_print c)) log = 0%nat).
Proof.
  intros first second. subst first second.
  destruct (onDestroy_run env q t) as (log & E & Hc).
  split; [exists log; split; assumption |].
  rewrite E. unfold state, trace. simpl.
  destruct (onDestroy_run env (set_m_quadListGL 0 q) (t ++ freed q ++ log))
    as (log2 & E2 & Hc2).
  exists log2. rewrite E2. split; [reflexivity | exact Hc2].
Qed.

Ltac list_leaf :=
  idtac;
  let q := fresh "q" in let H := fresh "H" in intros q H; exact H.

Lemma pass_with_list_builds_none l :
  l ≠ 0 → emits (λ q, m_quadListGL q = l) builds_list 0 onPaint.
Proof.
  intros Hl. apply Z.eqb_neq in Hl.
  emits_all list_leaf ltac:(fun H => rewrite ?H, ?Hl) by_constructor.
Qed.

Ltac list_call :=
  idtac;
  first
    [ by_constructor
    | simpl;
      match goal with
      | H : negb (?x =? 0) = true |- (?x =? 0) = false => apply negb_true_iff, H
      end ].

Lemma pass_calls_a_list : emits (λ _, True) calls_no_list 0 onPaint.
Proof. emits_all any_state no_known list_call. Qed.

(** X15.  A pass builds the display list of the textured quad only when
    there is none, and never calls a list that is none.  Started with a
    display list, a pass makes no call that generates or compiles a list
    and leaves [m_quadListGL] as it is; and whatever [glGenLists] answers,
    no pass calls [glCallList] with 0. *)
Theorem pass_builds_the_list_once (env : Env) (q : Quadifier) (t : Trace) :
  let r := onPaint env q t in
  ∃ rest,
    trace r = t ++ rest ∧
    count calls_no_list rest = 0%nat ∧
    (m_quadListGL q ≠ 0 →
       count builds_list rest = 0%nat ∧ m_quadListGL (state r) = m_quadListGL q).
Proof.
  intros r. subst r.
  destruct (pass_calls_a_list env q t Logic.I) as (_ & rest & Ht & Hc).
  exists rest. split; [exact Ht |]. split; [lia |].
  intros Hl.
  destruct (pass_with_list_builds_none (m_quadListGL q) Hl env q t eq_refl)
    as (Hq & rest' & Ht' & Hc').
  rewrite Ht in Ht'. apply app_inv_head in Ht'. subst rest'.
  split; [lia | exact Hq].
Qed.

(** ** The performance statistics *)

Lemma signal_sets_the_mode op env q t :
  signals_stereo op = true → m_stereoMode (state (perform op env q t)) = true.
Proof.
  intros Hop.
  assert (Hsignal : ∀ env q t, m_stereoMode (state (onStereoSignal env q t)) = true).
  { intros env' q' t'. rewrite onStereoSignal_run.
    assert (Hk : emits (λ q, m_stereoMode q = true) no_call 0
                   (endCapture GL_BACK_LEFT ;; beginCapture)).
    { emits_all ltac:(idtac; intros ? ?; assumption) no_known by_constructor. }
    apply (Hk env' (set_m_stereoMode true q') (t' ++ signal_log env' q') eq_refl). }
  destruct op; try discriminate Hop; simpl.
  - destruct pViewport as [v |]; [| discriminate Hop]. simpl in Hop.
    rewrite state_then_ret, onPreSetViewportDX_run, Hop.
    rewrite state_then_then_ret, <- onStereoSignal_run. apply Hsignal.
  - apply Hsignal.
Qed.

Ltac mono_leaf :=
  idtac;
  let q := fresh "q" in let H := fresh "H" in intros q H; exact H.

Lemma mono_keeps_statistics c op :
  signals_stereo op = false →
  emits (λ q, m_stereoMode q = false ∧ statistics q = c) is_clock 0 (perform op).
Proof.
  intros Hop. destruct op; simpl in Hop; try discriminate Hop; simpl;
    try (destruct pViewport as [v |]; [unfold is_sentinel in Hop |]);
    emits_all mono_leaf ltac:(fun H => rewrite ?(proj1 H)) by_constructor.
Qed.

(** X16.  No statistics are collected in mono mode.  An operation after
    which the mode flag is mono has read no clock and has left the two
    frame counters and the two time stamps as they were: the counters
    count and the clock is read in stereo mode only. *)
Theorem mono_collects_no_statistics (env : Env) (q : Quadifier) (t : Trace) (op : Operation) :
  let r := perform op env q t in
  m_stereoMode (state r) = false →
  statistics (state r) = statistics q ∧
  ∃ rest, trace r = t ++ rest ∧ count is_clock rest = 0%nat.
Proof.
  intros r Hmono. subst r.
  assert (Hq : m_stereoMode q = false).
  { destruct (m_stereoMode q) eqn:Hs; [| reflexivity].
    rewrite (stereo_kept op env q t Hs) in Hmono. discriminate Hmono. }
  assert (Hop : signals_stereo op = false).
  { destruct (signals_stereo op) eqn:Hop; [| reflexivity].
    rewrite (signal_sets_the_mode op env q t Hop) in Hmono. discriminate Hmono. }
  destruct (mono_keeps_statistics (statistics q) op Hop env q t (conj Hq eq_refl))
    as ((_ & Hstat) & rest & Ht & Hc).
  split; [exact Hstat |]. exists rest. split; [exact Ht | lia].
Qed.

Lemma mono_collects_no_statistics_witness :
  m_stereoMode (state (perform op_onPaint (scripted nothing_fails []) (state first_frame) [])) =
    false ∧
  statistics (state (perform op_onPaint (scripted nothing_fails []) (state first_frame) [])) =
    statistics (state first_frame).
Proof.
  assert (H : m_stereoMode
                (state (perform op_onPaint (scripted nothing_fails []) (state first_frame) [])) =
              false) by (vm_compute; reflexivity).
  split; [exact H |].
  exact (proj1 (mono_collects_no_statistics (scripted nothing_fails []) (state first_frame) []
                  op_onPaint H)).
Defined.

(** ** The frame counters in stereo mode *)

Lemma wrap32_add x y : wrap32 (wrap32 x + y) = wrap32 (x + y).
Proof. unfold wrap32. rewrite Z.add_mod_idemp_l by lia. reflexivity. Qed.

Lemma wrap32_in_range x : in_range32 (wrap32 x).
Proof. unfold in_range32, wrap32. apply Z.mod_pos_bound. lia. Qed.

Lemma wrap32_small x : in_range32 x → wrap32 x = x.
Proof. unfold in_range32, wrap32. intros H. apply Z.mod_small, H. Qed.

Section Tallies.
Context (I : Quadifier → Prop) (p : Call → bool) (f : Quadifier → Z).
Hypothesis I_range : ∀ q, I q → in_range32 (f q).

(** A computation that makes no call of the kind and leaves the counter
    alone. *)
Lemma tallies_quiet {A : Type} (m : M A) :
  (∀ c, emits (λ q, I q ∧ f q = c) p 0 m) → tallies I p f m.
Proof using I_range.
  intros Hm env q t Hq.
  destruct (Hm (f q) env q t (conj Hq eq_refl)) as ((HI & Hf) & rest & Ht & Hc).
  split; [exact HI |]. exists rest. split; [exact Ht |].
  replace (count p rest) with 0%nat by lia.
  rewrite Z.add_0_r, Hf. symmetry. apply wrap32_small, I_range, Hq.
Qed.

Lemma tallies_bind {A B : Type} (m : M A) (k : A → M B) :
  tallies I p f m → (∀ a, tallies I p f (k a)) → tallies I p f (m ≫= k).
Proof.
  intros Hm Hk env q t Hq. rewrite bind_run.
  destruct (Hm env q t Hq) as (HI & rest & Ht & Hc).
  destruct (m env q t) as [[[a | code] q1] t1]; unfold state, trace in *; simpl in *.
  - subst t1. destruct (Hk a env q1 (t ++ rest) HI) as (HI2 & rest2 & Ht2 & Hc2).
    split; [exact HI2 |]. exists (rest ++ rest2).
    unfold state, trace in *. rewrite Ht2, <- app_assoc, count_app.
    split; [reflexivity |].
    rewrite Hc2, Hc, wrap32_add. f_equal. lia.
  - split; [exact HI |]. exists rest. split; [exact Ht | exact Hc].
Qed.

Lemma tallies_get_bind {B : Type} (k : Quadifier → M B) :
  (∀ q0, I q0 → tallies I p f (k q0)) → tallies I p f (get ≫= k).
Proof. intros Hk env q t Hq. rewrite bind_run. apply (Hk q Hq env q t Hq). Qed.

Lemma tallies_deliver sent :
  (∀ hWnd uMsg wParam lParam, tallies I p f (WindowProc hWnd uMsg wParam lParam)) →
  tallies I p f (deliver sent).
Proof using I_range.
  intros Hproc. induction sent as [| msg sent IH]; simpl.
  - apply tallies_quiet. intros c. apply emits_ret.
  - apply tallies_bind; [apply Hproc | intros _; exact IH].
Qed.

Lemma tallies_messageLoop fuel current :
  p PeekMessage = false →
  (∀ msg, p (TranslateMessage msg) = false) →
  (∀ msg, p (DispatchMessage msg) = false) →
  (∀ hWnd uMsg wParam lParam, tallies I p f (WindowProc hWnd uMsg wParam lParam)) →
  tallies I p f (messageLoop fuel current).
Proof using I_range.
  intros Hpeek Htranslate Hdispatch Hproc. revert current.
  induction fuel as [| fuel IH]; intros current; simpl.
  - apply tallies_quiet. intros c. apply emits_ret.
  - apply tallies_bind; [apply tallies_quiet; intros c; apply emits_call, Hpeek | intros r].
    apply tallies_bind; [apply tallies_deliver, Hproc | intros _].
    apply tallies_bind.
    + destruct (negb (result r =? 0)).
      * apply tallies_bind;
          [apply tallies_quiet; intros c; apply emits_call_, Htranslate | intros _].
        apply tallies_bind;
          [apply tallies_quiet; intros c; apply emits_call_, Hdispatch | intros _].
        apply tallies_bind; [| intros _; apply tallies_quiet; intros c; apply emits_ret].
        destruct (negb (hwnd (out_msg r) =? 0)); simpl.
        -- apply tallies_bind;
             [apply Hproc | intros; apply tallies_quiet; intros c; apply emits_ret].
        -- apply tallies_quiet. intros c. apply emits_ret.
      * apply tallies_quiet. intros c.
        apply emits_bind0; [apply emits_ret | intros; apply emits_ret].
    + intros msg. destruct (negb (message msg =? WM_QUIT));
        [apply IH | apply tallies_quiet; intros c; apply emits_ret].
Qed.
End Tallies.

(** The unit of a pass that is counted: the signal that the frame is done
    is followed by the statistics, which count it in stereo mode. *)
Lemma frame_done_tallies :
  tallies stereo_counting is_frame_done m_framesGL (call_ FrameDone_signal ;; onPaint_statistics).
Proof.
  intros env q t (Hs & Hr).
  assert (E : ∃ q', state ((call_ FrameDone_signal ;; onPaint_statistics) env q t) =
                      set_m_framesGL (wrap32 (m_framesGL q + 1)) q' ∧
                    m_stereoMode q' = true ∧
                    ∃ r, trace ((call_ FrameDone_signal ;; onPaint_statistics) env q t) =
                         t ++ [FrameDone_signal] ++ vlog env "GLSWAP" ++ [r] ∧
                         is_frame_done r = false).
  { rewrite bind_run, call_run_. cbv beta iota. unfold onPaint_statistics.
    rewrite bind_run, verbose_run. cbv beta iota.
    rewrite bind_run, get_run. cbv beta iota. rewrite Hs. unfold when.
    rewrite bind_run.
    destruct (m_framesGL q =? 0); unfold getTime;
      repeat first [ rewrite bind_run | rewrite call_run | rewrite ret_run
                   | rewrite modify_run | progress cbv beta iota ];
      unfold state, trace; simpl; rewrite <- !app_assoc;
      eexists; (split; [reflexivity |]); (split; [exact Hs |]);
      exists clock; split; reflexivity. }
  destruct E as (q' & -> & Hs' & r & -> & Hr').
  split.
  - split; [exact Hs' | apply wrap32_in_range].
  - eexists. split; [reflexivity |].
    rewrite !count_app. unfold vlog.
    destruct (log_verbose env); unfold count; simpl; rewrite Hr'; reflexivity.
Qed.

Ltac counting_leaf :=
  idtac;
  let q := fresh "q" in let H := fresh "H" in
  intros q H;
  first [ exact H
        | destruct H as [[? ?] ?]; split; [split; [reflexivity | assumption] | assumption] ].

Lemma stereo_counting_range q : stereo_counting q → in_range32 (m_framesGL q).
Proof. intros H. exact (proj2 H). Qed.

Ltac counted_quiet :=
  solve [apply tallies_quiet;
         [exact stereo_counting_range
         | intros ?; emits_all counting_leaf no_known by_constructor]].

Lemma onPaint_end_tallies : tallies stereo_counting is_frame_done m_framesGL onPaint_end.
Proof.
  unfold onPaint_end.
  apply tallies_bind; [counted_quiet | intros _].
  apply tallies_bind; [counted_quiet | intros indicator].
  apply tallies_bind; [counted_quiet | intros _].
  apply tallies_bind; [counted_quiet | intros _].
  apply frame_done_tallies.
Qed.

(** The methods but the end of the pass, which is counted as a whole. *)
Ltac open_method_to_end :=
  progress cbv beta delta
    [onPaint onWM_PAINT WindowProc_over redraw onResize windowProc WindowProc
     threadFunc_end threadFunc].

Ltac tallies_step :=
  lazymatch goal with
  | |- tallies _ _ _ onPaint_end => apply onPaint_end_tallies
  | |- tallies _ _ _ (mbind _ _) =>
      apply tallies_bind; [solve [repeat tallies_step] | intros ?; cbv beta zeta]
  | |- tallies _ _ _ (messageLoop _ _) =>
      apply tallies_messageLoop;
      [exact stereo_counting_range | reflexivity | intros ?; reflexivity
      | intros ?; reflexivity | intros ? ? ? ?]
  | |- tallies _ _ _ (when _ _) => unfold when
  | |- tallies _ _ _ (if ?b then _ else _) => destruct b eqn:?
  | |- tallies _ _ _ _ => first [counted_quiet | open_method_to_end]
  end.

(** Every operation counts its passes. *)
Lemma perform_tallies op : tallies stereo_counting is_frame_done m_framesGL (perform op).
Proof.
  destruct op; simpl; repeat tallies_step.
Qed.

(** What presenting a frame leaves: the object after [endCapture], run on
    an object that differs from the first in the set of the presented
    targets at most. *)
Lemma onPrePresentDX_state env q t :
  ∃ presented t1,
    state (onPrePresentDX env q t) =
    state (endCapture (if m_stereoMode q then GL_BACK_RIGHT else GL_BACK) env
             (set_m_presentedTargets presented q) t1).
Proof.
  unfold onPrePresentDX.
  rewrite bind_run, verbose_run. rewrite bind_run, call_run. cbv beta match.
  set (r := respond env _ _). rewrite bind_run.
  assert (Hwhen : ∃ presented t1,
            when (result r =? S_OK)
              (call_ (Release (out r)) ;;
               modify (λ q, set_m_presentedTargets
                              ({[pointer_hash (out r)]} ∪ m_presentedTargets q) q) ;;
               verbose "Presenting Render Target: ")
              env q ((t ++ vlog env "onPrePresentDX") ++ [GetRenderTarget 0]) =
            (Returned tt, set_m_presentedTargets presented q, t1)).
  { destruct (result r =? S_OK); simpl.
    - rewrite bind_run, call_run_. rewrite bind_run, modify_run. rewrite verbose_run.
      eexists _, _. reflexivity.
    - exists (m_presentedTargets q). eexists. destruct q; reflexivity. }
  destruct Hwhen as (presented & t1 & ->).
  exists presented, t1.
  rewrite bind_run, get_run. cbv beta match.
  change (m_stereoMode (set_m_presentedTargets presented q)) with (m_stereoMode q).
  rewrite bind_run. rewrite endCapture_run. cbv beta match.
  rewrite bind_run, verbose_run. rewrite bind_run, call_run. rewrite call_run_.
  reflexivity.
Qed.

Lemma onStereoSignal_captures env q t :
  m_framesDX (state (onStereoSignal env q t)) = wrap32 (m_framesDX q + 1).
Proof.
  rewrite onStereoSignal_run, bind_run, endCapture_run. cbv beta match.
  rewrite beginCapture_run. destruct (_ =? D3D_OK); reflexivity.
Qed.

(** An operation that does not run [endCapture] leaves the counter of the
    Direct3D thread alone. *)
Lemma uncounted_keeps_framesDX c op :
  captures op = 0 → emits (λ q, m_framesDX q = c) no_call 0 (perform op).
Proof.
  intros Hop.
  destruct (on_producer_thread op) eqn:Hthread.
  - destruct op; try discriminate Hop; try discriminate Hthread; simpl;
      try (destruct pViewport as [v |]; simpl in Hop;
           [destruct (is_sentinel v) eqn:Hv; [discriminate Hop | unfold is_sentinel in Hv] |]);
      emits_all mono_leaf no_known by_constructor.
  - intros env q t Hq.
    destruct (consumer_keeps_producer_side (producer_side q) op Hthread env q t eq_refl)
      as (Hside & rest & Ht & Hc).
    split; [| exists rest; split; [exact Ht | exact Hc]].
    unfold producer_side in Hside. injection Hside as _ _ Hd. congruence.
Qed.

(** Every operation counts its captures in stereo mode. *)
Lemma perform_captures op env q t :
  m_stereoMode q = true → in_range32 (m_framesDX q) →
  m_framesDX (state (perform op env q t)) = wrap32 (m_framesDX q + captures op).
Proof.
  intros Hs Hr.
  assert (Hnone : captures op = 0 →
                  m_framesDX (state (perform op env q t)) = wrap32 (m_framesDX q + captures op)).
  { intros Hop. rewrite Hop, Z.add_0_r, (wrap32_small _ Hr).
    apply (uncounted_keeps_framesDX (m_framesDX q) op Hop env q t eq_refl). }
  destruct op; try (apply Hnone; reflexivity).
  - (* the present hook *)
    simpl. destruct (onPrePresentDX_state env q t) as (presented & t1 & ->).
    rewrite endCapture_run. simpl. rewrite Hs. reflexivity.
  - (* the viewport hook *)
    destruct pViewport as [v |]; [| apply Hnone; reflexivity].
    destruct (is_sentinel v) eqn:Hv; [| apply Hnone; simpl; rewrite Hv; reflexivity].
    unfold captures. rewrite Hv.
    change (perform (op_onPreSetViewportDX (Some v)))
      with (onPreSetViewportDX (Some v) ;; mret tt).
    rewrite state_then_ret, onPreSetViewportDX_run, Hv.
    rewrite state_then_then_ret, <- onStereoSignal_run. apply onStereoSignal_captures.
  - (* endCapture *)
    simpl. rewrite endCapture_run. simpl. rewrite Hs. reflexivity.
  - (* the stereo signal *)
    apply onStereoSignal_captures.
Qed.

(** X17.  The frame counters in stereo mode.  In a session that starts in
    stereo mode and is not ended, the counter of the Direct3D thread has
    grown, modulo 2^32, by the number of captures ended - one for each
    present and one for each stereo signal, so two for a stereo frame - and
    the counter of the OpenGL thread by the number of the frame-done
    signals, one for each composite pass, whichever operation has run the
    pass. *)
Theorem stereo_statistics (env : Env) (ops : list Operation) (q : Quadifier) (t : Trace) :
  m_stereoMode q = true → in_range32 (m_framesDX q) → in_range32 (m_framesGL q) →
  outcome (run env ops (Returned tt, q, t)) = Returned tt →
  m_framesDX (state (run env ops (Returned tt, q, t))) = wrap32 (m_framesDX q + captures_of ops) ∧
  ∃ rest, trace (run env ops (Returned tt, q, t)) = t ++ rest ∧
          m_framesGL (state (run env ops (Returned tt, q, t))) =
            wrap32 (m_framesGL q + Z.of_nat (count is_frame_done rest)).
Proof.
  revert q t. induction ops as [| op ops IH]; intros q t Hs HrD HrG Hout.
  - simpl. split; [rewrite Z.add_0_r; symmetry; apply wrap32_small, HrD |].
    exists []. split; [symmetry; apply app_nil_r |].
    change (Z.of_nat (count is_frame_done [])) with 0.
    rewrite Z.add_0_r. symmetry. apply wrap32_small, HrG.
  - change (run env (op :: ops) (Returned tt, q, t))
      with (run env ops (perform op env q t)) in *.
    pose proof (perform_captures op env q t Hs HrD) as HD.
    destruct (perform_tallies op env q t (conj Hs HrG)) as ((Hs1 & HrG1) & rest & Ht & HG).
    destruct (perform op env q t) as [[[[] | code] q1] t1] eqn:E.
    2: { rewrite (run_exited env ops (Exited code, q1, t1) code eq_refl) in Hout.
         discriminate Hout. }
    unfold state, trace in HD, Hs1, HrG1, Ht, HG. simpl in HD, Hs1, HrG1, Ht, HG.
    assert (HrD1 : in_range32 (m_framesDX q1)) by (rewrite HD; apply wrap32_in_range).
    destruct (IH q1 t1 Hs1 HrD1 HrG1 Hout) as (HD' & rest' & Ht' & HG').
    split.
    + rewrite HD', HD, wrap32_add. simpl. f_equal. lia.
    + exists (rest ++ rest'). split; [rewrite Ht', Ht, app_assoc; reflexivity |].
      rewrite HG', HG, wrap32_add, count_app. f_equal. lia.
Qed.

Lemma stereo_statistics_witness :
  m_framesDX (state (run (scripted nothing_fails []) (stereo_pair (sentinel 0 0 0))
                       (Returned tt, state stereo_started, []))) =
  wrap32 (m_framesDX (state stereo_started) + 2).
Proof.
  assert (Hs : m_stereoMode (state stereo_started) = true) by (vm_compute; reflexivity).
  assert (HD : in_range32 (m_framesDX (state stereo_started)))
    by (vm_compute; split; [discriminate | reflexivity]).
  assert (HG : in_range32 (m_framesGL (state stereo_started)))
    by (vm_compute; split; [discriminate | reflexivity]).
  assert (Hout : outcome (run (scripted nothing_fails []) (stereo_pair (sentinel 0 0 0))
                            (Returned tt, state stereo_started, [])) = Returned tt)
    by (vm_compute; reflexivity).
  exact (proj1 (stereo_statistics (scripted nothing_fails []) (stereo_pair (sentinel 0 0 0))
                  (state stereo_started) [] Hs HD HG Hout)).
Defined.

(** ** The pace of captures and passes *)

Lemma same_view_refl q : same_view q q.
Proof. repeat split. Qed.

Lemma same_view_trans q1 q2 q3 : same_view q1 q2 → same_view q2 q3 → same_view q1 q3.
Proof.
  intros (H1 & H2 & H3 & H4 & H5) (K1 & K2 & K3 & K4 & K5).
  repeat split; congruence.
Qed.

Lemma wf_view q q' : same_view q q' → wf q → wf q'.
Proof.
  intros (_ & Hd & Hr & Hl & _) (Hlen & Hdraw & Hread).
  unfold wf. rewrite Hd, Hr, Hl. repeat split; assumption.
Qed.

Lemma selected_quiet t : count selects_none t = 0%nat → GL_NONE ∉ selected t.
Proof.
  unfold count, selected. induction t as [| c t IH]; simpl; [intros _; apply not_elem_of_nil |].
  destruct c; simpl; try exact IH.
  destruct (mode =? GL_NONE) eqn:E; simpl; [discriminate |].
  intros H. apply not_elem_of_cons. split; [| apply IH, H].
  apply Z.eqb_neq in E. congruence.
Qed.

Lemma count_pass_call t :
  (count is_pass_call t ≤ 0)%nat → passes t = 0%nat ∧ GL_NONE ∉ selected t.
Proof.
  intros H. assert (H0 : count is_pass_call t = 0%nat) by lia.
  apply (count_orb_0 is_signal selects_none) in H0 as [Hs Hd].
  split; [exact Hs | apply selected_quiet, Hd].
Qed.

(** A computation that runs no pass: it makes no call of a pass and leaves
    the view as it is. *)
Lemma paces_quiet {A : Type} (m : M A) :
  (∀ q0, emits (same_view q0) is_pass_call 0 m) → paces m.
Proof.
  intros Hm env q t Hwf.
  destruct (Hm q env q t (same_view_refl q)) as (Hv & rest & Ht & Hc).
  apply count_pass_call in Hc as [Hs Hd].
  split; [apply (wf_view q), Hwf; exact Hv |].
  exists rest. split; [exact Ht |]. split.
  - intros _. split; [exact Hv | exact Hd].
  - intros H1. rewrite Hs in H1. discriminate H1.
Qed.

Lemma paces_bind {A B : Type} (m : M A) (k : A → M B) :
  paces m → (∀ a, paces (k a)) → paces (m ≫= k).
Proof.
  intros Hm Hk env q t Hwf. rewrite bind_run.
  destruct (Hm env q t Hwf) as (Hwf1 & rest & Ht & H0 & H1).
  destruct (m env q t) as [[[a | code] q1] t1]; unfold state, trace in *; simpl in *.
  - subst t1. destruct (Hk a env q1 (t ++ rest) Hwf1) as (Hwf2 & rest2 & Ht2 & K0 & K1).
    split; [exact Hwf2 |]. exists (rest ++ rest2).
    unfold state, trace in *. rewrite Ht2, <- app_assoc.
    split; [reflexivity |].
    unfold passes in *. rewrite count_app, selected_app. split.
    + intros Hc.
      destruct H0 as [Hv Hs]; [lia |]. destruct K0 as [Hv2 Hs2]; [lia |].
      split; [apply (same_view_trans _ q1); assumption |].
      apply not_elem_of_app. split; assumption.
    + intros Hc Hph.
      destruct (count is_signal rest) as [| [| n]] eqn:Hn; [| | lia].
      * destruct H0 as [Hv Hs]; [reflexivity |].
        destruct K1 as [Hi Hnone]; [lia | apply (in_phase_view FrameCaptured q), Hph; exact Hv |].
        split; [exact Hi |]. apply not_elem_of_app. split; assumption.
      * destruct H1 as [Hi Hnone]; [reflexivity | exact Hph |].
        destruct K0 as [Hv2 Hs2]; [lia |].
        split; [apply (in_phase_view Idle q1), Hi; exact Hv2 |].
        apply not_elem_of_app. split; assumption.
  - split; [exact Hwf1 |]. exists rest. split; [exact Ht |]. split; assumption.
Qed.

Lemma paces_ret {A : Type} (a : A) : paces (mret a).
Proof. apply paces_quiet. intros q0. apply emits_ret. Qed.

Lemma paces_deliver sent :
  (∀ hWnd uMsg wParam lParam, paces (WindowProc hWnd uMsg wParam lParam)) →
  paces (deliver sent).
Proof.
  intros Hproc. induction sent as [| msg sent IH]; simpl.
  - apply paces_ret.
  - apply paces_bind; [apply Hproc | intros _; exact IH].
Qed.

Lemma paces_messageLoop fuel current :
  (∀ hWnd uMsg wParam lParam, paces (WindowProc hWnd uMsg wParam lParam)) →
  paces (messageLoop fuel current).
Proof.
  intros Hproc. revert current.
  induction fuel as [| fuel IH]; intros current; simpl.
  - apply paces_ret.
  - apply paces_bind;
      [apply paces_quiet; intros q0; apply emits_call; reflexivity | intros r].
    apply paces_bind; [apply paces_deliver, Hproc | intros _].
    apply paces_bind.
    + destruct (negb (result r =? 0)).
      * apply paces_bind;
          [apply paces_quiet; intros q0; apply emits_call_; reflexivity | intros _].
        apply paces_bind;
          [apply paces_quiet; intros q0; apply emits_call_; reflexivity | intros _].
        apply paces_bind; [| intros _; apply paces_ret].
        destruct (negb (hwnd (out_msg r) =? 0)); simpl.
        -- apply paces_bind; [apply Hproc | intros; apply paces_ret].
        -- apply paces_ret.
      * apply paces_bind; [apply paces_ret | intros; apply paces_ret].
    + intros msg. destruct (negb (message msg =? WM_QUIT)); [apply IH | apply paces_ret].
Qed.

(** A state change that the view does not notice. *)
Ltac view_leaf :=
  idtac;
  let q := fresh "q" in let H := fresh "H" in
  intros q H; refine (same_view_trans _ _ _ H _); same_view_tac.

Lemma onPaint_end_unselecting q0 : emits (same_view q0) selects_none 0 onPaint_end.
Proof. emits_all view_leaf no_known by_constructor. Qed.

(** The unit of the pace: a pass. *)
Lemma onPaint_paces : paces onPaint.
Proof.
  intros env q t Hwf. rewrite onPaint_run.
  set (useTexture := useTexture (settings env)).
  set (mustUseBlit := negb (matchOriginalMSAA (settings env))).
  set (t0 := t ++ onPaint_begin_calls env).
  rewrite (bind_run (onPaint_eyes 2 useTexture mustUseBlit)).
  destruct (onPaint_eyes_run useTexture mustUseBlit env q t0 Hwf)
    as (q1 & loop & E & Hsel & _ & Hread & (quadList & Hq1) & Hwf1).
  destruct (onPaint_eyes_quiet 2 useTexture mustUseBlit env q t0)
    as ([] & q1' & loop' & E' & Hquiet).
  assert (loop' = loop) as ->.
  { rewrite E in E'. injection E' as _ Ht. apply app_inv_head in Ht. congruence. }
  rewrite E. cbv beta match.
  destruct (onPaint_end_run env q1 (t0 ++ loop)) as (q2 & before & after & E2 & Cb & Ca).
  destruct (onPaint_end_unselecting q1 env q1 (t0 ++ loop) (same_view_refl q1))
    as (Hv & rest & Ht & Hc).
  rewrite E2 in *. unfold state, trace in *. simpl in *.
  apply app_inv_head in Ht. subst rest.
  split; [apply (wf_view q1), Hwf1; exact Hv |].
  exists (onPaint_begin_calls env ++ loop ++ before ++
          [Window_swapBuffers; FrameDone_signal] ++ after).
  split; [unfold t0; rewrite <- !app_assoc; reflexivity |].
  assert (Hpasses : passes (onPaint_begin_calls env ++ loop ++ before ++
                            [Window_swapBuffers; FrameDone_signal] ++ after) = 1%nat).
  { unfold passes. rewrite !count_app.
    pose proof (count_begin env) as Cbegin.
    apply (count_orb_0 is_handshake is_composite) in Cbegin as [Cbegin _].
    apply (count_orb_0 is_present is_signal) in Cbegin as [_ Cbegin].
    apply (count_orb_0 is_present is_signal) in Hquiet as [_ Hquiet].
    apply (count_orb_0 is_handshake is_composite) in Cb as [Cb _].
    apply (count_orb_0 is_present is_signal) in Cb as [_ Cb].
    apply (count_orb_0 is_handshake is_composite) in Ca as [Ca _].
    apply (count_orb_0 is_present is_signal) in Ca as [_ Ca].
    rewrite Cbegin, Hquiet, Cb, Ca. reflexivity. }
  split; [rewrite Hpasses; discriminate |].
  intros _ [Hiter Hnone].
  destruct Hv as (_ & Hd & Hr & _).
  split.
  - assert (Hd1 : m_drawBuffer q1 = m_drawBuffer q) by (rewrite Hq1; reflexivity).
    unfold in_phase. rewrite Hr, Hd, Hread, Hd1. exact Hiter.
  - rewrite selected_app, selected_begin, app_nil_l, selected_app, Hsel.
    apply not_elem_of_app. split; [exact Hnone |].
    apply selected_quiet, Nat.le_0_r. exact Hc.
Qed.

Ltac paced_quiet :=
  solve [apply paces_quiet; intros ?; emits_all view_leaf no_known by_constructor].

(** The methods that may run a pass, down to the pass. *)
Ltac open_method_to_pass :=
  progress cbv beta delta
    [onWM_PAINT WindowProc_over redraw onResize windowProc WindowProc
     threadFunc_end threadFunc].

Ltac paces_step :=
  lazymatch goal with
  | |- paces onPaint => apply onPaint_paces
  | |- paces (mbind _ _) =>
      apply paces_bind; [solve [repeat paces_step] | intros ?; cbv beta zeta]
  | |- paces (messageLoop _ _) => apply paces_messageLoop; intros ? ? ? ?
  | |- paces (when _ _) => unfold when
  | |- paces (if ?b then _ else _) => destruct b eqn:?
  | |- paces _ => first [paced_quiet | open_method_to_pass]
  end.

(** Every operation of the thread of OpenGL keeps the pace. *)
Lemma perform_paces op : on_producer_thread op = false → paces (perform op).
Proof.
  intros Hop. destruct op; try discriminate Hop; simpl; repeat paces_step.
Qed.

(** An operation that runs no pass selects no draw buffer labelled none. *)
Lemma unselecting op :
  runs_onPaint op = false → emits (λ _, True) selects_none 0 (perform op).
Proof.
  intros Hop. destruct op; try discriminate Hop; simpl;
    emits_all any_state no_known by_constructor.
Qed.

(** One operation that runs no pass, in a session in step. *)
Lemma phase_step env q t ph op n ph' :
  wf q → in_phase ph q → runs_onPaint op = false → phase_after ph op n = Some ph' →
  in_phase ph' (state (perform op env q t)).
Proof.
  intros Hwf Hph Hruns Hafter.
  unfold phase_after in Hafter. rewrite Hruns in Hafter.
  assert (Hneutral : advances_draw op = false →
                     in_phase ph (state (perform op env q t))).
  { intros Hd. apply (keeps_neutral (in_phase ph) op (in_phase_view ph) Hd Hruns), Hph. }
  pose proof Hwf as (Hlen & Hdraw & Hread).
  destruct op; try discriminate Hruns; simpl in Hafter.
  all: try (destruct ph; simpl in Hafter; try discriminate Hafter;
            injection Hafter as <-; apply Hneutral; reflexivity).
  - (* onPrePresentDX *)
    destruct (onPrePresentDX_captured env q t Hwf) as (q' & rest & E & Hc & Hs).
    simpl. rewrite E. unfold state. simpl.
    pose proof (captured_label _ q q' Hwf Hc) as Hl.
    destruct Hc as (Ht & Hd & Hr).
    assert (Hother : ∀ i, i ≠ m_drawBuffer q → label_at q' i = label_at q i).
    { intros i Hi. apply (captured_other (if m_stereoMode q then GL_BACK_RIGHT else GL_BACK));
        [split; [exact Ht | split; assumption] | exact Hi]. }
    destruct ph; simpl in Hafter; try discriminate Hafter; injection Hafter as <-.
    + (* a frame of its own *)
      simpl in Hph. unfold in_phase, pass_slots. rewrite Hr, Hph, Hl, Hd.
      destruct (m_stereoMode q); simpl; (split; [reflexivity |]);
        rewrite Hl; intros Hin; apply list_elem_of_singleton in Hin; discriminate Hin.
    + (* the right eye of a pair *)
      destruct Hph as (Hdr & Hleft & Hmode).
      pose proof (next_ne _ Hread) as Hne. pose proof (next_next _ Hread) as Hnn.
      unfold in_phase, pass_slots. rewrite Hr, Hd.
      rewrite (Hother (m_readBuffer q)) by (rewrite Hdr; auto).
      rewrite Hleft. simpl. rewrite Hdr. split; [reflexivity |].
      rewrite (Hother (m_readBuffer q)) by (rewrite Hdr; auto).
      rewrite Hleft. rewrite <- Hdr, Hl, Hmode.
      intros Hin. apply elem_of_cons in Hin as [Hin | Hin]; [discriminate Hin |].
      apply list_elem_of_singleton in Hin. discriminate Hin.
  - (* onPreSetViewportDX *)
    destruct pViewport as [v |]; [destruct (is_sentinel v) eqn:Hv |].
    + destruct ph; simpl in Hafter; rewrite ?Hv in Hafter; try discriminate Hafter.
      injection Hafter as <-.
      change (in_phase LeftCaptured
                (state ((onPreSetViewportDX (Some v) ;; mret tt) env q t))).
      rewrite state_then_ret.
      destruct (onPreSetViewportDX_captured v env q t Hwf Hv) as (Hc & Hs).
      pose proof (captured_label _ _ _ Hwf Hc) as Hl.
      destruct Hc as (_ & Hd & Hr).
      simpl in Hph. unfold in_phase. rewrite Hr, Hd, Hph, Hl. repeat split. exact Hs.
    + assert (ph' = ph) as ->.
      { destruct ph; simpl in Hafter; rewrite ?Hv in Hafter; congruence. }
      apply Hneutral. exact Hv.
    + assert (ph' = ph) as ->.
      { destruct ph; simpl in Hafter; congruence. }
      apply Hneutral. reflexivity.
Qed.

Lemma step_in_phase_session env ops : ∀ sp,
  (fold_left (step_in_phase env) ops sp).1 = run env ops sp.1.
Proof.
  induction ops as [| op ops IH]; intros sp; [reflexivity |].
  simpl. rewrite IH. reflexivity.
Qed.

Lemma in_step_last env device direct3D ops op :
  in_step env device direct3D (ops ++ [op]) =
  in_step env device direct3D ops ≫= λ ph,
    phase_after ph op
      (passes (drop (length (trace (session env device direct3D ops)))
                 (trace (session env device direct3D (ops ++ [op]))))).
Proof.
  unfold in_step. rewrite fold_left_app. simpl.
  rewrite session_last. unfold session.
  rewrite (step_in_phase_session env ops (construct device direct3D env, Some Idle)).
  reflexivity.
Qed.

(** One operation of a session in step, with the calls it adds. *)
Lemma in_step_step env q t ph op ph' :
  wf q → in_phase ph q →
  let r := perform op env q t in
  phase_after ph op (passes (drop (length t) (trace r))) = Some ph' →
  in_phase ph' (state r) ∧ GL_NONE ∉ selected (drop (length t) (trace r)).
Proof.
  intros Hwf Hph r Hafter. subst r.
  destruct (runs_onPaint op) eqn:Hruns.
  - assert (Hthread : on_producer_thread op = false)
      by (destruct op; try discriminate Hruns; reflexivity).
    destruct (perform_paces op Hthread env q t Hwf) as (_ & rest & Ht & H0 & H1).
    rewrite Ht, drop_app_length in *.
    unfold phase_after in Hafter. rewrite Hruns in Hafter.
    destruct (passes rest) as [| [| n]] eqn:Hn.
    + injection Hafter as <-. destruct H0 as [Hv Hs]; [reflexivity |].
      split; [apply (in_phase_view ph q), Hph; exact Hv | exact Hs].
    + destruct ph; try discriminate Hafter. injection Hafter as <-.
      apply H1; [reflexivity | exact Hph].
    + destruct ph; discriminate Hafter.
  - split; [apply (phase_step env q t ph op _ ph' Hwf Hph Hruns Hafter) |].
    destruct (unselecting op Hruns env q t Logic.I) as (_ & rest & Ht & Hc).
    rewrite Ht, drop_app_length. apply selected_quiet. lia.
Qed.

(** The session is in the phase of its schedule and has selected no slot
    labelled none, as long as the process has not been ended. *)
Lemma in_step_phase env device direct3D ops ph :
  in_step env device direct3D ops = Some ph →
  outcome (session env device direct3D ops) = Returned tt →
  in_phase ph (state (session env device direct3D ops)) ∧
  GL_NONE ∉ selected (trace (session env device direct3D ops)).
Proof.
  revert ph. induction ops as [| op ops IH] using rev_ind; intros ph Hstep Hout.
  - injection Hstep as <-. split; [reflexivity |].
    apply not_elem_of_nil.
  - rewrite in_step_last in Hstep.
    destruct (in_step env device direct3D ops) as [ph0 |]; [| discriminate Hstep].
    simpl in Hstep.
    rewrite session_last in *. unfold session_step in *.
    pose proof (session_wf env device direct3D ops) as Hwf.
    destruct (outcome (session env device direct3D ops)) as [[] | code] eqn:Hs.
    + destruct (IH ph0 eq_refl eq_refl) as [Hph0 Hnone].
      destruct (in_step_step env _ (trace (session env device direct3D ops)) ph0 op ph
                  Hwf Hph0 Hstep) as [Hph Hnew].
      split; [exact Hph |].
      rewrite <- (take_drop (length (trace (session env device direct3D ops)))
                    (trace (perform op env _ _))).
      rewrite selected_app. apply not_elem_of_app. split; [| exact Hnew].
      destruct (every_operation_keeps_fixed_side
                  (fixed_side (state (session env device direct3D ops))) op env
                  (state (session env device direct3D ops))
                  (trace (session env device direct3D ops)) eq_refl) as (_ & rest & Ht & _).
      rewrite Ht, take_app_length. exact Hnone.
    + rewrite Hs in Hout. discriminate Hout.
Qed.


(** A stereo frame in step, on an environment where nothing fails: the
    pass selects the left eye and then the right one. *)
Lemma stereo_frame_in_step :
  let s := session (scripted nothing_fails []) 1 2 stereo_frame in
  in_step (scripted nothing_fails []) 1 2 stereo_frame = Some Idle ∧
  outcome s = Returned tt ∧
  selected (trace s) = [GL_BACK_LEFT; GL_BACK_RIGHT].
Proof. vm_compute. repeat split. Qed.


(** ** The OpenGL state across a pass *)

Section Lifts.
Context (up down : Call → bool).

Lemma walk_app t t' d :
  walk up down (t ++ t') d =
  match walk up down t d with
  | Some d' => walk up down t' d'
  | None => None
  end.
Proof.
  revert d. induction t as [| c t IH]; intros d; simpl; [reflexivity |].
  destruct (up c); [apply IH |].
  destruct (down c); [| apply IH].
  destruct d; [reflexivity | apply IH].
Qed.

Lemma walk_quiet t d : count (λ c, up c || down c) t = 0%nat → walk up down t d = Some d.
Proof.
  unfold count. induction t as [| c t IH]; simpl; [reflexivity |].
  destruct (up c); simpl; [discriminate |].
  destruct (down c); simpl; [discriminate | exact IH].
Qed.

Lemma lifts_bind {A B : Type} a b c (m : M A) (k : A → M B) :
  lifts up down a b m → (∀ x, lifts up down b c (k x)) → lifts up down a c (m ≫= k).
Proof.
  intros Hm Hk env q t. rewrite bind_run.
  destruct (Hm env q t) as (x & q1 & r1 & -> & H1).
  destruct (Hk x env q1 (t ++ r1)) as (y & q2 & r2 & -> & H2).
  exists y, q2, (r1 ++ r2). rewrite app_assoc, walk_app, H1.
  split; [reflexivity | exact H2].
Qed.

Lemma lifts_quiet {A : Type} a (m : M A) :
  counts (λ c, up c || down c) 0 m → lifts up down a a m.
Proof.
  intros Hm env q t. destruct (Hm env q t) as (x & q1 & rest & -> & Hc).
  exists x, q1, rest. split; [reflexivity | apply walk_quiet, Hc].
Qed.

Lemma lifts_up a c : up c = true → lifts up down a (S a) (call_ c).
Proof.
  intros Hc env q t. exists tt, q, [c]. split; [reflexivity |].
  simpl. rewrite Hc. reflexivity.
Qed.

Lemma lifts_down a c : up c = false → down c = true → lifts up down (S a) a (call_ c).
Proof.
  intros Hu Hc env q t. exists tt, q, [c]. split; [reflexivity |].
  simpl. rewrite Hu, Hc. reflexivity.
Qed.

Lemma lifts_onPaint_eyes a turns useTexture mustUseBlit :
  lifts up down a a (onPaint_eye useTexture mustUseBlit) →
  lifts up down a a (onPaint_eyes turns useTexture mustUseBlit).
Proof.
  intros Heye. induction turns as [| turns IH]; simpl.
  - apply lifts_quiet, counts_ret.
  - eapply lifts_bind; [exact Heye | intros drawBuffer].
    destruct (negb (drawBuffer =? GL_BACK_LEFT)); [apply lifts_quiet, counts_ret | exact IH].
Qed.
End Lifts.

(** The methods of a pass. *)
Ltac open_pass :=
  progress cbv beta delta
    [drawStereoIndicator buildQuadList lockTarget onPaint_eye onPaint_begin
     onPaint_statistics onPaint_end onPaint].

Ltac lifts_step :=
  lazymatch goal with
  | |- lifts _ _ _ _ (mbind _ _) =>
      first [ solve [apply lifts_quiet; repeat first [quiet_step | open_pass | progress cbv zeta]]
            | eapply lifts_bind; [solve [repeat lifts_step] | intros ?; cbv beta zeta] ]
  | |- lifts _ _ _ _ (onPaint_eyes _ _ _) => apply lifts_onPaint_eyes
  | |- lifts _ _ _ _ (call_ _) =>
      first [ apply lifts_up; reflexivity
            | apply lifts_down; reflexivity
            | apply lifts_quiet; apply counts_call_ ]
  | |- lifts _ _ _ _ (when _ _) => unfold when
  | |- lifts _ _ _ _ (if ?b then _ else _) => destruct b
  | |- lifts _ _ _ _ _ =>
      first [ solve [apply lifts_quiet; repeat first [quiet_step | open_pass | progress cbv zeta]]
            | open_pass | progress cbv zeta ]
  end.

Lemma onPaint_lifts opening closing :
  (opening, closing) ∈ brackets → lifts (is_GL opening) (is_GL closing) 0%nat 0%nat onPaint.
Proof.
  unfold brackets. intros H.
  repeat (apply elem_of_cons in H as [H | H]; [injection H as -> -> |]);
    [| | | | apply elem_of_nil in H; destruct H];
    repeat lifts_step.
Qed.

(** X18.  A pass leaves the stacks of OpenGL as it found them.  [onPaint]
    always returns, and for each of the four brackets of OpenGL that the
    code uses - glPushAttrib/glPopAttrib, glPushMatrix/glPopMatrix,
    glNewList/glEndList, glBegin/glEnd - the calls of the pass are well
    nested: none closes what the pass has not opened and none is left
    open, with or without the stereo indicator, the display list and the
    lock of the slot. *)
Theorem pass_restores_the_stacks (env : Env) (q : Quadifier) (t : Trace) :
  ∃ q' rest,
    onPaint env q t = (Returned tt, q', t ++ rest) ∧
    ∀ opening closing,
      (opening, closing) ∈ brackets → nested (is_GL opening) (is_GL closing) rest.
Proof.
  destruct (onPaint_lifts "glBegin" "glEnd") with (env := env) (q := q) (t := t)
    as ([] & q' & rest & E & _).
  { unfold brackets. rewrite !elem_of_cons. auto. }
  exists q', rest. split; [exact E |].
  intros opening closing Hb.
  destruct (onPaint_lifts opening closing Hb env q t) as ([] & q'' & rest' & E' & Hw).
  rewrite E in E'. injection E' as _ Hrest. apply app_inv_head in Hrest.
  subst rest'. exact Hw.
Qed.

(** ** The render targets of the pool *)

Section Leads.
Context {A X : Type} (p : Call → bool) (K : X → M A).

Lemma leads_here (P : Quadifier → Prop) x : leads p P (K x) K.
Proof. intros env q t _. exists x, q, []. rewrite app_nil_r. split; reflexivity. Qed.

Lemma leads_bind {B : Type} (P : Quadifier → Prop) (m : M B) (f : B → M A) :
  counts p 0 m → keeps P m → (∀ a, leads p P (f a) K) → leads p P (m ≫= f) K.
Proof.
  intros Hm Hk Hf env q t H. rewrite bind_run.
  destruct (Hm env q t) as (a & q1 & r1 & E & C1).
  specialize (Hk env q t H). rewrite E in *. cbv beta match.
  destruct (Hf a env q1 (t ++ r1) Hk) as (x & q2 & r2 & E2 & C2).
  exists x, q2, (r1 ++ r2). rewrite app_assoc, count_app, C1, C2. split; [exact E2 | reflexivity].
Qed.

Lemma leads_pre (P P' : Quadifier → Prop) (m : M A) :
  (∀ q, P q → P' q) → leads p P' m K → leads p P m K.
Proof. intros HP Hm env q t H. apply Hm, HP, H. Qed.

Lemma leads_get_else (P : Quadifier → Prop) (test : Quadifier → bool) (m : M A)
    (f : Quadifier → M A) :
  (∀ q, P q → test q = false) → (∀ q, leads p P (f q) K) →
  leads p P (q ← get; if test q then m else f q) K.
Proof.
  intros Htest Hf env q t H. rewrite bind_run, get_run. cbv beta match.
  rewrite (Htest q H). apply Hf, H.
Qed.
End Leads.

Lemma keeps_anything {A : Type} (m : M A) : keeps (λ _, True) m.
Proof. intros env q t _. exact Logic.I. Qed.

Lemma count_none p (t : Trace) c : count p t = 0%nat → c ∈ t → p c = false.
Proof.
  unfold count. induction t as [| c' t IH]; simpl; intros Hc Hin.
  - apply elem_of_nil in Hin. destruct Hin.
  - destruct (p c') eqn:E; [discriminate Hc |].
    apply elem_of_cons in Hin as [-> | Hin]; [exact E | apply IH; assumption].
Qed.

(** With no pool yet, [createResources] comes to create the render
    targets, without having asked for one before. *)
Lemma createResources_leads :
  leads is_CreateRenderTarget (λ q, surface (target q 0) = 0) createResources
    (λ x : Z * Z, createTargets x.1 x.2).
Proof.
  unfold createResources.
  do 4 (apply leads_bind; [quiet | keeps_all thread_leaf | intros ?]).
  cbv zeta.
  apply leads_get_else.
  { intros q Hs. rewrite Hs. reflexivity. }
  intros q0. apply (leads_pre _ _ _ (λ _, True)); [intros; exact Logic.I |].
  apply leads_bind; [quiet | apply keeps_anything | intros params].
  apply leads_bind; [quiet | apply keeps_anything | intros _].
  apply leads_bind; [quiet | apply keeps_anything | intros mode].
  apply leads_bind; [quiet | apply keeps_anything | intros format].
  apply leads_bind; [quiet | apply keeps_anything | intros rt].
  apply leads_bind; [quiet | apply keeps_anything | intros descType].
  apply leads_bind; [quiet | apply keeps_anything | intros _].
  apply leads_bind; [quiet | apply keeps_anything | intros _].
  apply leads_bind; [quiet | apply keeps_anything | intros multisampleType].
  apply (leads_here is_CreateRenderTarget (λ x : Z * Z, createTargets x.1 x.2) (λ _, True)
           (format, multisampleType)).
Qed.

Ltac size_leaf :=
  idtac;
  let q := fresh "q" in let H := fresh "H" in
  intros q H; exact H.

Ltac this_target :=
  idtac;
  first [ by_constructor
        | simpl; rewrite ?Z.eqb_refl; reflexivity ].

(** The render targets are asked for at the size the object holds, and
    what is stored for the OpenGL window stays. *)
Lemma createTargets_alike format multisampleType env q t :
  let stored := if (D3DMULTISAMPLE_2_SAMPLES <=? multisampleType) &&
                   (multisampleType <=? D3DMULTISAMPLE_16_SAMPLES)
                then wrap32 multisampleType else 0 in
  let r := createTargets format multisampleType env q t in
  (m_width (state r) = m_width q ∧ m_height (state r) = m_height q ∧
   m_samplesDX (state r) = stored) ∧
  ∃ rest, trace r = t ++ rest ∧
          count (other_target (m_width q) (m_height q) format multisampleType) rest = 0%nat.
Proof.
  intros stored r. subst r.
  unfold createTargets. fold stored. rewrite bind_run, modify_run. cbv beta iota.
  lazymatch goal with
  | |- context [state (?m env (set_m_samplesDX stored q) t)] =>
      assert (H : emits (λ q', m_width q' = m_width q ∧ m_height q' = m_height q ∧
                               m_samplesDX q' = stored)
                    (other_target (m_width q) (m_height q) format multisampleType) 0 m)
  end.
  { unfold createRenderTarget.
    emits_all size_leaf ltac:(fun H => rewrite ?(proj1 H), ?(proj1 (proj2 H))) this_target. }
  destruct (H env (set_m_samplesDX stored q) t (conj eq_refl (conj eq_refl eq_refl)))
    as (HI & rest & Ht & Hc).
  split; [exact HI |]. exists rest. split; [exact Ht | lia].
Qed.

(** X19.  The render targets of the pool are created alike, and as the
    OpenGL window is told.  Every render target that [createResources] asks
    the device for has the size that [m_width] and [m_height] hold when it
    returns, one format and one multisample type, quality 0 and is not
    lockable; and [m_samplesDX], from which the thread of OpenGL takes the
    number of samples of its window, is that multisample type when it is
    one of 2 to 16 samples, and 0 when it is not. *)
Theorem render_targets_are_created_alike (env : Env) (q : Quadifier) (t : Trace) :
  let r := createResources env q t in
  ∃ format multisampleType rest,
    trace r = t ++ rest ∧
    (∀ c, c ∈ rest → is_CreateRenderTarget c = true →
          c = CreateRenderTarget (m_width (state r)) (m_height (state r))
                format multisampleType 0 0) ∧
    (surface (target q 0) = 0 →
       m_samplesDX (state r) =
         if (2 <=? multisampleType) && (multisampleType <=? 16) then multisampleType else 0).
Proof.
  intros r. subst r.
  destruct (decide (surface (target q 0) = 0)) as [Hs | Hs].
  - destruct (createResources_leads env q t Hs) as ([format ms] & q1 & r1 & E & C1).
    simpl in E.
    destruct (createTargets_alike format ms env q1 (t ++ r1))
      as ((Hw & Hh & Hsamples) & r2 & Ht & C2).
    rewrite <- E in Hw, Hh, Hsamples, Ht.
    exists format, ms, (r1 ++ r2). split; [rewrite Ht, app_assoc; reflexivity |]. split.
    + intros c Hin Hc. apply elem_of_app in Hin as [Hin | Hin].
      * rewrite (count_none _ _ _ C1 Hin) in Hc. discriminate Hc.
      * pose proof (count_none _ _ _ C2 Hin) as Hother.
        destruct c; try discriminate Hc. simpl in Hother.
        apply negb_false_iff in Hother.
        repeat (apply andb_true_iff in Hother as [Hother ?]).
        repeat match goal with H : (_ =? _) = true |- _ => apply Z.eqb_eq in H; subst end.
        rewrite Hw, Hh. reflexivity.
    + intros _. rewrite Hsamples.
      change D3DMULTISAMPLE_2_SAMPLES with 2. change D3DMULTISAMPLE_16_SAMPLES with 16.
      destruct ((2 <=? ms) && (ms <=? 16)) eqn:Hrange; [| reflexivity].
      apply andb_true_iff in Hrange as [H2 H16].
      apply Z.leb_le in H2, H16. unfold wrap32. apply Z.mod_small. lia.
  - destruct (createResources_early env q t Hs) as (Hq & rest & Ht & Hc).
    exists 0, 0, rest. split; [exact Ht |]. split.
    + intros c Hin Hcreate.
      assert (Hnone : is_creation c = false) by (apply (count_none _ _ _ Hc Hin)).
      destruct c; try discriminate Hcreate. discriminate Hnone.
    + intros H. destruct (Hs H).
Qed.

(** ** What a pass writes *)

Lemma pass_writes_refl q : pass_writes q q.
Proof.
  exists (m_readBuffer q), (m_quadListGL q), (m_framesGL q), (m_firstFrameTimeGL q),
    (m_lastFrameTimeGL q).
  destruct q; reflexivity.
Qed.

Lemma pass_writes_more q q' readBuffer quadList frames first last :
  pass_writes q q' →
  pass_writes q
    (set_m_readBuffer readBuffer
       (set_m_quadListGL quadList
          (set_m_framesGL frames
             (set_m_firstFrameTimeGL first (set_m_lastFrameTimeGL last q'))))).
Proof.
  intros (r & l & f & t1 & t2 & ->).
  exists readBuffer, quadList, frames, first, last. destruct q; reflexivity.
Qed.

Lemma pass_writes_readBuffer q q' v : pass_writes q q' → pass_writes q (set_m_readBuffer v q').
Proof.
  intros H.
  pose proof (pass_writes_more q q' v (m_quadListGL q') (m_framesGL q') (m_firstFrameTimeGL q')
                (m_lastFrameTimeGL q') H) as H'.
  destruct q'; exact H'.
Qed.

Lemma pass_writes_quadListGL q q' v : pass_writes q q' → pass_writes q (set_m_quadListGL v q').
Proof.
  intros H.
  pose proof (pass_writes_more q q' (m_readBuffer q') v (m_framesGL q') (m_firstFrameTimeGL q')
                (m_lastFrameTimeGL q') H) as H'.
  destruct q'; exact H'.
Qed.

Lemma pass_writes_framesGL q q' v : pass_writes q q' → pass_writes q (set_m_framesGL v q').
Proof.
  intros H.
  pose proof (pass_writes_more q q' (m_readBuffer q') (m_quadListGL q') v (m_firstFrameTimeGL q')
                (m_lastFrameTimeGL q') H) as H'.
  destruct q'; exact H'.
Qed.

Lemma pass_writes_firstFrameTimeGL q q' v :
  pass_writes q q' → pass_writes q (set_m_firstFrameTimeGL v q').
Proof.
  intros H.
  pose proof (pass_writes_more q q' (m_readBuffer q') (m_quadListGL q') (m_framesGL q') v
                (m_lastFrameTimeGL q') H) as H'.
  destruct q'; exact H'.
Qed.

Lemma pass_writes_lastFrameTimeGL q q' v :
  pass_writes q q' → pass_writes q (set_m_lastFrameTimeGL v q').
Proof.
  intros H.
  pose proof (pass_writes_more q q' (m_readBuffer q') (m_quadListGL q') (m_framesGL q')
                (m_firstFrameTimeGL q') v H) as H'.
  destruct q'; exact H'.
Qed.

Ltac pass_leaf :=
  idtac;
  let q' := fresh "q" in let H := fresh "H" in
  intros q' H;
  first [ apply pass_writes_readBuffer | apply pass_writes_quadListGL
        | apply pass_writes_framesGL | apply pass_writes_firstFrameTimeGL
        | apply pass_writes_lastFrameTimeGL ];
  exact H.

Lemma onPaint_writes q : emits (pass_writes q) no_call 0 onPaint.
Proof. emits_all pass_leaf no_known by_constructor. Qed.

(** X20.  A pass reads the pool and never writes it.  Whatever the calls
    answer, [onPaint] changes nothing of the object but the read cursor,
    the display list of the quad and the statistics of the passes: the
    slots with their images, interop objects, framebuffers and labels, the
    size, the interop device and everything of the Direct3D thread are as
    they were. *)
Theorem pass_never_writes_the_pool (env : Env) (q : Quadifier) (t : Trace) :
  pass_writes q (state (onPaint env q t)) ∧
  m_target (state (onPaint env q t)) = m_target q ∧
  m_width (state (onPaint env q t)) = m_width q ∧
  m_height (state (onPaint env q t)) = m_height q ∧
  m_interopGLDX (state (onPaint env q t)) = m_interopGLDX q.
Proof.
  destruct (onPaint_writes q env q t (pass_writes_refl q)) as (Hw & _).
  split; [exact Hw |].
  destruct Hw as (readBuffer & quadList & frames & first & last & ->).
  destruct q. repeat split.
Qed.
